(* ===== verification/_CoqProject ===== *)
-Q . S2P
Prelude.v
GoStr.v
GoTime.v
Json.v
Types.v
Etcd.v
Worlds.v
Storage.v
StorageProofs.v
Watch.v
Worker.v
WorkerProofs.v
Cluster.v
ClusterProofs.v
ClusterSafety.v
ClusterLiveness.v
ClusterComplete.v
StorageWitness.v
Rebooter.v
RebooterFiling.v
RebooterSafety.v
RebooterPass.v
RebooterActs.v
RebooterGroups.v
RebooterWitness.v
Updater.v
UpdaterProofs.v
StateSetter.v
StateSetterProofs.v
StateSetterRun.v
GoNet.v
Host.v
Progs.v
Operator.v
OperatorTrace.v
OperatorProofs.v
OperatorCluster.v
OperatorContents.v
OperatorFiles.v
OperatorWitness.v
BootIP.v
BootIPProofs.v
BootIPRun.v
BootIPNetlink.v
Menu.v
MenuSpec.v
MenuConf.v
MenuProofs.v
MenuRefs.v
MenuNodes.v
MenuWitness.v
GoURL.v
Ext.v
Trace.v
Upload.v
TraceLoops.v
UploadProofs.v
CKEUpload.v
CKEProofs.v
Vault.v
Setup.v
SetupProofs.v
SetupWitness.v
NecoCmd.v
NecoInit.v
Leader.v
NecoPower.v
NecoReboot.v
NecoShutdown.v
Installer.v
Generator.v
Mains.v
NecoTrace.v
ShutdownProofs.v
RebootProofs.v
ConfigProofs.v
NecoWitness.v
InstallerProofs.v
GeneratorProofs.v
MainsProofs.v
