(* ===== verification/Prelude.v ===== *)
(** * Verification of Neco, the continuous-delivery system of boot servers

    ** The program

    Neco keeps a data center's boot servers and its machines up to date.  Its
    programs meet in one etcd store:

    - neco-updater ([updater/]), one leader at a time, looks for releases on GitHub,
      takes snapshots of the store and writes the update request [status/current];
    - neco-worker ([worker/]) runs on every boot server, waits for a request, reports
      its step under [status/bootservers/<lrn>], watches the reports of all boot
      servers and runs each step of an update behind a barrier;
    - neco-rebooter ([pkg/neco-rebooter/]) feeds the nodes of the reboot list, group
      by group, into the reboot queue of CKE, the Kubernetes engine;
    - sabakan-state-setter ([pkg/sabakan-state-setter/]) judges the machines by serf,
      Alertmanager and their metrics and sets their state in sabakan;
    - boot-ip-setter ([pkg/boot-ip-setter/]) gives each boot server the DHCP server
      address that falls to it among the members of etcd;
    - the storage layer ([storage/]) is how all of them read and write etcd;
    - the uploaders ([progs/sabakan/], [progs/cke/]) put the contents of a release into
      sabakan and CKE; [setup/] sets up the first boot servers and joins new ones;
    - the neco command ([pkg/neco/cmd/]) is what operators type: settings, credentials,
      power, TPM devices, reboots, the shutdown of a node that hangs;
    - the installer ([installer/setup/]) sets up the operating system of a boot server;
    - the release tools ([generator/], [pkg/generate-artifacts/], [pkg/generate-sabakan-machines/],
      [pkg/download-neco-deb/] and the like) make the list of artifacts and the input of sabakan;
    - [menu/] plans the virtual data center in which all this is tested.

    ** The files

    Foundations.
    - [Prelude] (this file): errors as values, outcomes (value, error, panic, still
      running), the effect monad [M W] over a world [W] in which effects done before a
      failure stay done, inversion tactics, the hint database [neco], list lemmas.
    - [GoStr], [GoTime], [Json]: what the sources use of Go's strconv, strings, time
      and encoding/json, with round trips; integers keep their 64 bits where they
      are computed with ([wrap64]), strings are bytes.
    - [Types]: [update.go], [types.go], [neco-rebooter.go], [sleep.go]: requests,
      statuses, reboot list entries and their JSON.
    - [Etcd]: an etcd history is a log of commits; the class [Etcd] has the calls of
      the client, [EtcdLaws] says what they guarantee: every call happens at some point
      of a log that other clients extend before, between and after, may fail, and a
      watch delivers events in any batches.  [Sim] is a concrete etcd for examples.
    - [Worlds]: components with fields of their own run in [W * S]; the weakest
      precondition [wp] whose invariant holds wherever the code stops; traced worlds
      [Traced E W], which record the effects of a run in order; the clock and the cron
      library, as classes.
    - [GoNet]: Go's net.IP, net.IPNet, ParseIP and ParseCIDR with their texts, and
      netutil's [IPAdd] as a class with laws, of which [V4] has an instance.

    Storage ([storage/]).
    - [Storage]: one definition per operation of the storage package.  Loops that retry
      take fuel; running out of it is the outcome [Running], never a result.
    - [Watch]: [StatusWatcher] and [WorkerWatcher]; handling does not depend on how
      events are batched.
    - [StorageProofs]: leadership is checked in the transaction that writes; a snapshot
      is one state of the store; statuses are cleared only of a stopped request; reboot
      list indices are fresh, updates resurrect nothing, the list is read in order;
      written requests and statuses are read back; what deleting a boot server removes.

    Workers ([worker/worker.go], [barrier.go], [strategy.go]).
    - [Worker]: the state machine of one boot server; the work of a step is behind the
      class [Operator].  [WorkerProofs]: barriers, the abort rule, when an update starts.
    - [Cluster]: any number of workers on one etcd, with another client; a turn of a
      worker handles the next event of its watch, and its writes may fail or be lost.
      [ClusterProofs] shows that the handler of a status refines the abstract reaction
      [reacts].  [ClusterSafety]: a step starts only when all boot servers have reported
      it, steps run in order and once, a failed step stops the cluster.
      [ClusterLiveness], [ClusterComplete]: without failures somebody can always move,
      there are finitely many turns, nobody aborts, and the update ends as complete.

    Updater ([updater/]).
    - [Updater]: [NextAction], the leader's loop, waiting for workers, the release
      checker and the campaign; version comparison, GitHub and the notifier are
      classes.  [UpdaterProofs]: what may be decided when, that each write rests on a
      consistent snapshot and the leadership, that waiting ends exactly when the
      decision changes, and that recorded releases only move forward.

    neco-rebooter ([pkg/neco-rebooter/]).
    - [Rebooter]: a pass [runOnce]; its pointers into the two lists it read are
      positions, so that what is written through them is seen by what follows.
    - [RebooterFiling]: the record of a pass, and where [collectEntries] files each entry, by the clock readings on record.
      [RebooterSafety], [RebooterPass]: each write of a pass is justified by what was
      read and written before it, also in a pass that fails half-way.  [RebooterActs]:
      what a successful pass has done.  [RebooterGroups]: every group once in the
      order, and no ready group starves.

    sabakan-state-setter ([pkg/sabakan-state-setter/]).
    - [StateSetter]: the health check, alerts, retirement, the shutdown job and the
      pass [runOnce] with its registry of machines in their grace period.
    - [StateSetterProofs]: the judgement of a machine in both directions, the severest
      alert wins, accepted configurations.  [StateSetterRun]: which state changes a pass
      may make, the grace period over any history of passes, the shutdown job.

    The steps of an update ([worker/operator.go] and the files beside it).
    - [Host]: files, commands, systemd, docker, packages, the identity and addresses of
      a boot server.  [Progs]: the configuration files and units of the installed
      programs ([progs/]), with their templates.  [Operator]: all 18 steps.
    - [OperatorTrace]: the record of a step, and [emits], a logic for what code may
      record.  [OperatorProofs], [OperatorCluster]: which units a step starts and stops;
      composed with the cluster of workers, vault and CKE are started only after they
      were stopped everywhere.  [OperatorContents]: contents that one worker uploads for
      all are uploaded once per version, and a recorded failure fails the others.
      [OperatorFiles]: files are replaced exactly when they differ, services restarted
      exactly when something changed, etcd members of the request never removed.

    boot-ip-setter ([pkg/boot-ip-setter/]).
    - [BootIP]: selection of the address, rounds, exit, metrics, the interface over
      netlink.  [BootIPProofs]: the binary search is the position among the members, and
      boot servers get distinct addresses.  [BootIPRun]: rounds against the contract of
      the interface ([NetifLaws]).  [BootIPNetlink]: the implementation keeps it.

    menu ([menu/]).
    - [Menu]: documents, validation, the network, [NewCluster]; ToRs are shared through
      a store.  [MenuSpec]: the specification for placemat.  [MenuConf]: the arguments of
      the configuration templates.
    - [MenuProofs]: closed forms of the loops.  [MenuRefs]: the specification is
      returned and refers only to declared networks.  [MenuNodes]: the values
      of all addresses, which are distinct, and agree with what neco computes.

    Uploaders ([progs/sabakan/upload.go], [image.go], [progs/cke/]) and clients ([ext/]).
    - [GoURL]: url.Parse, time.ParseDuration and Duration.String.  [Ext]: which HTTP
      client is used, the notifications to Slack, and sabakan's client library, a class.
    - [Trace], [TraceLoops]: [twp], the logic of what a run has recorded when it ends in
      whatever way; [guarded B G]: each effect in [B] comes after a record with [G].
    - [Upload], [CKEUpload]: the uploaders of both programs, the template of CKE with its
      weights, user-defined resources.  [UploadProofs]: ignitions come last, retries are
      bounded.  [CKEProofs]: the weights do not depend on the order of Go's maps.

    Set-up ([setup/], [vault.go], [etcd.go], [progs/vault/], [progs/etcd/user.go]).
    - [Vault], [Setup]: certificates, the temporary and the real Vault, the two barriers,
      publication, joining.  [SetupProofs]: nothing is restarted or published before all
      boot servers have reported, and what happens when one is overtaken.

    Leadership ([Run] of neco-rebooter and sabakan-state-setter) and the installer.
    - [Leader]: the goroutines of both controllers, their session, election and leader
      key as a step relation; passes begin after the election is won, and the leadership
      of sabakan-state-setter outlasts them.  The leader's name and the metrics.
    - [Installer]: the whole program.  [InstallerProofs]: its addresses are those of the
      plan of [Menu], and the identity it writes is what [Host] reads.

    The neco command ([pkg/neco/cmd/]).
    - [NecoCmd]: settings, credentials, status, init, join, keys, unsealing.  [NecoInit]:
      init-data, setup, setup-hw, session logs.  [NecoPower]: power, TPM, BMC repair.
      [NecoReboot]: reboot-check, reboot-and-wait, rebooter, apply-firmware, isoreboot.
      [NecoShutdown]: non-graceful shutdown, its clean-up, and the race of its goroutines.
    - [NecoTrace]: the record of a command.  [ShutdownProofs]: the order of power-off,
      fences and taints.  [RebootProofs]: which machines are touched, and that a reboot
      was seen.  [ConfigProofs]: the switches of [config set] and [config get] are one
      table, and what is set is shown.

    The release tools ([generator/], [artifacts.go], [pkg/generate-artifacts/],
    [pkg/generate-sabakan-machines/]).
    - [Generator]: the latest image of each repository, the latest packages and operating
      system, the Go source that is written, the list of this release, and the table of
      machines from CSV to JSON.  [GeneratorProofs]: the versions written are the greatest
      of the eligible ones; the JSON that is written, indented, is read back as the machines.

    The programs ([main] of the daemons and small commands, and their constructors).
    - [Mains]: what each program sets up, the functions that it gives to the well framework
      or to errgroup (classes, which say nothing on how these run), and its exit status:
      neco-worker composes [NewOperator], the steps of [Operator] and [Worker.Run].  Below the
      components: the GraphQL client of sabakan-state-setter, the files of [menu/], the buffer
      of its documents, [hardware.go], [ignition-template/].  [MainsProofs]: machines are those
      of sabakan's answer, documents are read whole up to 16 MiB, resolv.conf is replaced as a
      whole, and no worker starts without a proxy setting.

    The [...Witness] files, and the modules [Witness] at the end of others, apply the
    theorems to concrete worlds.

    ** Bounds

    Fuel bounds only loops that wait for the outside world (retries of optimistic
    transactions, watches, the main loops).  Theorems about such loops either hold for
    every outcome, whatever the fuel, or speak of the loop body; termination of the
    workers' turns is a theorem ([worker_turns_terminate]).  The rounds of
    [read_doc_loop] are those of the source: the buffer doubles from 1 KiB to 16 MiB.

    ** Not modelled

    The command tree of cobra with its flags and help texts, test doubles, and the
    registration of Prometheus metrics; HTTP, the decoding of YAML and the execution of
    text templates are I/O or libraries, so that they are classes; handlers of signals,
    logging and messages on the standard error are
    left out everywhere.  Metrics of machines are fetched,
    images pulled and uploaded, fences created and commands run on machines one after
    the other instead of in goroutines; where the goroutines share a variable, that race
    is a model of its own ([fence_step]). *)
From stdpp Require Export base tactics option list gmap strings sorting.
From Stdlib Require Export ZArith Lia.
From Stdlib Require Strings.Ascii.
Export Stdlib.Strings.Ascii (ascii(..)).
Export (notations) Stdlib.Strings.Ascii.

(** ** Errors and outcomes

    Go's sentinel errors are compared by identity ([err == storage.ErrNotFound]),
    so each is a constructor, and [os.IsNotExist] recognises [ErrNotExist]; every other
    error value is only ever tested against [nil] and turned into text, so it is
    represented by its text.  [ErrWrap] is an error wrapped with [%w] where the code
    looks for what is inside. *)
Inductive error :=
  | ErrNotFound
  | ErrNotStopped
  | ErrNoLeader
  | ErrTimedOut
  | ErrNoReleases
  | ErrDeadlineExceeded
  | ErrCanceled
  | ErrNotExist (msg : string)
  | ErrNum (fn num : string) (range : bool)
  | ErrWrap (msg : string) (err : error)
  | ErrMsg (msg : string).

#[export] Instance error_eq_dec : EqDecision error.
Proof. solve_decision. Defined.

(** The text of an error, Go's [err.Error()].  The operand of a number-syntax
    error is quoted without escapes; nothing in the development inspects it. *)
Definition dquote : string := String (Ascii.ascii_of_nat 34) EmptyString.

Fixpoint error_text (e : error) : string :=
  match e with
  | ErrNotFound => "not found"
  | ErrNotStopped => "not stopped"
  | ErrNoLeader => "lost leadership"
  | ErrTimedOut => "timed out"
  | ErrNoReleases => "no neco packages are released"
  | ErrDeadlineExceeded => "context deadline exceeded"
  | ErrCanceled => "context canceled"
  | ErrNotExist msg => msg
  | ErrNum fn num range =>
      "strconv." +:+ fn +:+ ": parsing " +:+ dquote +:+ num +:+ dquote +:+
      (if range then ": value out of range" else ": invalid syntax")
  | ErrWrap msg err => msg +:+ ": " +:+ error_text err
  | ErrMsg msg => msg
  end.

(** What running a Go function can come to: a value, an error value, a run-time
    panic, or still running when the fuel (or the input) of the model ends. *)
Inductive outcome (A : Type) :=
  | Ok (a : A)
  | Err (e : error)
  | Panic (why : string)
  | Running.
Arguments Ok {A} a.
Arguments Err {A} e.
Arguments Panic {A} why.
Arguments Running {A}.

#[export] Instance outcome_eq_dec {A} `{EqDecision A} : EqDecision (outcome A).
Proof. solve_decision. Defined.

(** Pure fallible code: an outcome without state. *)
#[export] Instance outcome_ret : MRet outcome := λ A, Ok.
#[export] Instance outcome_bind : MBind outcome := λ A B f o,
  match o with
  | Ok a => f a
  | Err e => Err e
  | Panic why => Panic why
  | Running => Running
  end.

(** A value or an error: neither a panic nor still running. *)
Definition plain {A} (o : outcome A) : Prop :=
  match o with Ok _ | Err _ => True | Panic _ | Running => False end.

Lemma plain_bind {A B} (o : outcome A) (f : A → outcome B) :
  plain o → (∀ a, plain (f a)) → plain (o ≫= f).
Proof. destruct o; simpl; eauto. Qed.

(** ** The effect monad

    A computation over a world [W].  Effects already done stay done when a later
    call fails, as in Go. *)
Definition M (W A : Type) : Type := W → W * outcome A.

#[export] Instance M_ret W : MRet (M W) := λ A a w, (w, Ok a).
#[export] Instance M_bind W : MBind (M W) := λ A B f m w,
  match m w with
  | (w', Ok a) => f a w'
  | (w', Err e) => (w', Err e)
  | (w', Panic why) => (w', Panic why)
  | (w', Running) => (w', Running)
  end.

Definition fail {W A} (e : error) : M W A := λ w, (w, Err e).
Definition panic {W A} (why : string) : M W A := λ w, (w, Panic why).
Definition blocked {W A} : M W A := λ w, (w, Running).
Definition lift {W A} (o : outcome A) : M W A := λ w, (w, o).

(** [x, err := m]: the error becomes a value the caller inspects. *)
Definition attempt {W A} (m : M W A) : M W (error + A) := λ w,
  match m w with
  | (w', Ok a) => (w', Ok (inr a))
  | (w', Err e) => (w', Ok (inl e))
  | (w', Panic why) => (w', Panic why)
  | (w', Running) => (w', Running)
  end.

(** A call whose error is logged and otherwise ignored. *)
Definition ignore_error {W A} (m : M W A) : M W unit :=
  _ ← attempt m; mret ().

(** [for _, x := range l { m(x) }], leaving at the first error. *)
Fixpoint for_each {W A} (l : list A) (m : A → M W unit) : M W unit :=
  match l with
  | [] => mret ()
  | x :: l => _ ← m x; for_each l m
  end.

(** ** Proof automation *)

Create HintDb neco.

(** Unfold the monad's plumbing and reduce. *)
Ltac munfold :=
  unfold mbind, mret, M_bind, M_ret, outcome_bind, outcome_ret, fail, lift, panic,
    blocked, attempt, ignore_error in *; simpl in *.

(** Case analysis on the scrutinee of the next [match] or [if], keeping the
    equation. *)
Ltac case_step :=
  match goal with
  | H : context [match ?x with _ => _ end] |- _ =>
      lazymatch x with
      | context [match _ with _ => _ end] => fail
      | _ => let E := fresh "E" in destruct x eqn:E
      end
  | |- context [match ?x with _ => _ end] =>
      lazymatch x with
      | context [match _ with _ => _ end] => fail
      | _ => let E := fresh "E" in destruct x eqn:E
      end
  end.

Ltac case_all := repeat (case_step; simplify_eq/=; try done).

(** Facts about [M] used everywhere. *)
Lemma bind_ok {W A B} (m : M W A) (f : A → M W B) w w' b :
  mbind f m w = (w', Ok b) ↔ ∃ w1 a, m w = (w1, Ok a) ∧ f a w1 = (w', Ok b).
Proof.
  munfold. destruct (m w) as [w1 [a|e|y|]]; split; try naive_solver.
Qed.

Lemma bind_err {W A B} (m : M W A) (f : A → M W B) w w' e :
  mbind f m w = (w', Err e) ↔
  m w = (w', Err e) ∨ ∃ w1 a, m w = (w1, Ok a) ∧ f a w1 = (w', Err e).
Proof.
  munfold. destruct (m w) as [w1 [a|e1|y|]]; split; naive_solver.
Qed.

Lemma attempt_ok {W A} (m : M W A) w w' r :
  attempt m w = (w', Ok r) ↔
  match r with inl e => m w = (w', Err e) | inr a => m w = (w', Ok a) end.
Proof.
  munfold. destruct (m w) as [w1 [a|e1|y|]], r; split; naive_solver.
Qed.

Lemma lift_ok {W A} (o : outcome A) (w w' : W) a : lift o w = (w', Ok a) ↔ w' = w ∧ o = Ok a.
Proof. unfold lift. naive_solver. Qed.
Lemma lift_err {W A} (o : outcome A) (w w' : W) e : lift o w = (w', Err e) ↔ w' = w ∧ o = Err e.
Proof. unfold lift. naive_solver. Qed.
Lemma mret_inv {W A} (a : A) (w w' : W) r : (mret a : M W A) w = (w', r) ↔ w' = w ∧ r = Ok a.
Proof. unfold mret, M_ret. naive_solver. Qed.
Lemma fail_inv {W A} e (w w' : W) (r : outcome A) : fail e w = (w', r) ↔ w' = w ∧ r = Err e.
Proof. unfold fail. naive_solver. Qed.
Lemma bind_pure_ok {A B} (o : outcome A) (f : A → outcome B) b :
  mbind f o = Ok b ↔ ∃ a, o = Ok a ∧ f a = Ok b.
Proof. unfold mbind, outcome_bind. destruct o; naive_solver. Qed.

Lemma bind_pure_eq {A B} (o : outcome A) (f : A → outcome B) a : o = Ok a → o ≫= f = f a.
Proof. by intros ->. Qed.
Lemma bind_eq {W A B} (m : M W A) (f : A → M W B) w w' a :
  m w = (w', Ok a) → (m ≫= f) w = f a w'.
Proof. unfold mbind, M_bind. by intros ->. Qed.

(** Invert equations about successful monadic runs, naming nothing. *)
Ltac minv1 :=
  match goal with
  | H : mbind _ _ _ = (_, Ok _) |- _ => apply bind_ok in H as (? & ? & ? & H)
  | H : mbind _ _ = Ok _ |- _ => apply bind_pure_ok in H as (? & ? & H)
  | H : lift _ _ = (_, Ok _) |- _ => apply lift_ok in H as [? H]
  | H : lift _ _ = (_, Err _) |- _ => apply lift_err in H as [? H]
  | H : mret _ _ = (_, _) |- _ => apply mret_inv in H as [? H]
  | H : fail _ _ = (_, _) |- _ => apply fail_inv in H as [? H]
  | H : attempt _ _ = (_, Ok _) |- _ => apply attempt_ok in H
  | H : Ok _ = Ok _ |- _ => injection H as H
  | H : Err _ = Ok _ |- _ => discriminate H
  | H : Ok _ = Err _ |- _ => discriminate H
  | H : panic _ _ = (_, Ok _) |- _ => discriminate H
  | H : blocked _ = (_, Ok _) |- _ => discriminate H
  | H : panic _ _ = (_, Err _) |- _ => discriminate H
  | H : blocked _ = (_, Err _) |- _ => discriminate H
  end.
Ltac minv := repeat minv1; subst.

(** ** Lists *)
Lemma filter_all_false {A} (P : A → Prop) `{∀ x, Decision (P x)} (l : list A) :
  (∀ x, x ∈ l → ¬ P x) → filter P l = [].
Proof.
  induction l as [|x l IH]; intros HP; [done|]. rewrite filter_cons, decide_False by set_solver.
  apply IH. set_solver.
Qed.

Lemma filter_ext_elem {A} (P Q : A → Prop) `{∀ x, Decision (P x), ∀ x, Decision (Q x)} (l : list A) :
  (∀ x, x ∈ l → P x ↔ Q x) → filter P l = filter Q l.
Proof.
  induction l as [|x l IH]; intros HPQ; [done|]. rewrite !filter_cons.
  rewrite IH by set_solver. destruct (HPQ x); [set_solver|]. repeat case_decide; naive_solver.
Qed.

Lemma Forall_sub {A} (P : A → Prop) (l k : list A) : l `sublist_of` k → Forall P k → Forall P l.
Proof. rewrite !Forall_forall. eauto using elem_of_sublist. Qed.
