(* ===== verification/GoStr.v ===== *)
(** * Go's [strconv], [strings], [fmt] and [path] as the sources use them

    Decimal conversion ([Itoa]/[Atoi]/[FormatInt]/[ParseInt]) with its 64-bit
    range check, the fixed-width hexadecimal verb [%016x], prefix tests, slicing
    past a prefix, splitting, trimming and [path.Base]; and the facts the other
    files use: round trips, injectivity, and the agreement of the lexicographic
    order on fixed-width hexadecimal with the order on the numbers. *)
From stdpp Require Import pretty.
From S2P Require Import Prelude.

Local Open Scope string_scope.

(** ** Integers at their width *)
Definition int64_min : Z := - 2 ^ 63.
Definition int64_max : Z := 2 ^ 63 - 1.
Definition in_int64 (z : Z) : Prop := (int64_min ≤ z ≤ int64_max)%Z.

#[export] Instance in_int64_dec z : Decision (in_int64 z).
Proof. unfold in_int64. apply _. Defined.

(** Two's-complement wrap-around of Go's [int] and [int64] arithmetic. *)
Definition wrap64 (z : Z) : Z := ((z + 2 ^ 63) `mod` 2 ^ 64 - 2 ^ 63)%Z.

Lemma wrap64_id z : in_int64 z → wrap64 z = z.
Proof. unfold in_int64, wrap64, int64_min, int64_max. intros. rewrite Z.mod_small; lia. Qed.

Lemma wrap64_range z : in_int64 (wrap64 z).
Proof.
  unfold in_int64, wrap64, int64_min, int64_max.
  pose proof (Z.mod_pos_bound (z + 2 ^ 63) (2 ^ 64)). lia.
Qed.

(** ** Decimal *)
Definition Itoa (z : Z) : string := pretty z.
Definition FormatInt (z : Z) : string := pretty z.

Fixpoint parse_digits (s : string) (acc : N) : option N :=
  match s with
  | EmptyString => Some acc
  | String c s =>
      match Ascii.is_nat c with
      | Some d => parse_digits s (acc * 10 + N.of_nat d)
      | None => None
      end
  end.

Definition parse_magnitude (s : string) : option N :=
  match s with EmptyString => None | _ => parse_digits s 0 end.

(** The sign of a decimal literal and the digits that follow it. *)
Definition split_sign (s : string) : bool * string :=
  match s with
  | String "-"%char t => (true, t)
  | String "+"%char t => (false, t)
  | _ => (false, s)
  end.

Definition parse_int64 (fn s : string) : outcome Z :=
  let '(neg, t) := split_sign s in
  match parse_magnitude t with
  | None => Err (ErrNum fn s false)
  | Some n =>
      let z := if neg then (- Z.of_N n)%Z else Z.of_N n in
      if decide (in_int64 z) then Ok z else Err (ErrNum fn s true)
  end.

Definition Atoi (s : string) : outcome Z := parse_int64 "Atoi" s.
Definition ParseInt (s : string) : outcome Z := parse_int64 "ParseInt" s.

Lemma is_nat_pretty_char (x : N) :
  (x < 10)%N → Ascii.is_nat (pretty_N_char x) = Some (N.to_nat x).
Proof.
  intros Hx. assert (x ∈ [0;1;2;3;4;5;6;7;8;9]%N) as Hin.
  { rewrite !elem_of_cons. lia. }
  repeat (apply elem_of_cons in Hin as [->|Hin]; [done|]). by apply not_elem_of_nil in Hin.
Qed.

Lemma parse_digits_pretty_go x s :
  parse_digits (pretty_N_go x s) 0 = parse_digits s x.
Proof.
  revert s. induction (N.lt_wf_0 x) as [x _ IH]; intros s.
  destruct (decide (x = 0)%N) as [->|Hx]; [by rewrite pretty_N_go_0|].
  rewrite pretty_N_go_step by lia. rewrite IH by (apply N.div_lt; lia).
  simpl. rewrite is_nat_pretty_char by (apply N.mod_lt; lia).
  f_equal. rewrite N2Nat.id. rewrite N.mul_comm. symmetry. apply N.div_mod. lia.
Qed.

Lemma pretty_N_go_head x s :
  (0 < x)%N → ∃ c t, pretty_N_go x s = String c t ∧ Ascii.is_nat c ≠ None.
Proof.
  revert s. induction (N.lt_wf_0 x) as [x _ IH]; intros s Hx.
  rewrite pretty_N_go_step by lia.
  destruct (decide (x / 10 = 0)%N) as [E|E].
  - rewrite E, pretty_N_go_0. eexists _, _. split; [done|].
    by rewrite is_nat_pretty_char by (apply N.mod_lt; lia).
  - apply IH; [apply N.div_lt; lia|]. by apply N.neq_0_lt_0.
Qed.

Lemma pretty_N_head (x : N) :
  ∃ c t, pretty x = String c t ∧ Ascii.is_nat c ≠ None.
Proof.
  unfold pretty, pretty_N. case_decide.
  - by eexists _, _.
  - apply pretty_N_go_head. lia.
Qed.

Lemma parse_magnitude_pretty (x : N) : parse_magnitude (pretty x) = Some x.
Proof.
  destruct (pretty_N_head x) as (c & t & E & _). unfold parse_magnitude. rewrite E.
  rewrite <-E. unfold pretty, pretty_N. case_decide as Hx; [by subst|].
  by rewrite parse_digits_pretty_go.
Qed.

Lemma split_sign_digit c t :
  Ascii.is_nat c ≠ None → split_sign (String c t) = (false, String c t).
Proof. intros H. destruct c as [[] [] [] [] [] [] [] []]; try done; by contradict H. Qed.

Lemma parse_int64_pretty fn z : in_int64 z → parse_int64 fn (pretty z) = Ok z.
Proof.
  intros Hz. unfold parse_int64. destruct z as [|p|p].
  - by vm_compute.
  - change (pretty (Z.pos p)) with (pretty (N.pos p)).
    destruct (pretty_N_head (N.pos p)) as (c & t & E & Hc).
    rewrite E, split_sign_digit by done. rewrite <-E, parse_magnitude_pretty. by case_decide.
  - change (split_sign (pretty (Z.neg p))) with (true, pretty (N.pos p)). cbv iota beta.
    rewrite parse_magnitude_pretty. by case_decide.
Qed.

Lemma Atoi_Itoa z : in_int64 z → Atoi (Itoa z) = Ok z.
Proof. apply parse_int64_pretty. Qed.

Lemma ParseInt_FormatInt z : in_int64 z → ParseInt (FormatInt z) = Ok z.
Proof. apply parse_int64_pretty. Qed.

Lemma parse_int64_range fn s z : parse_int64 fn s = Ok z → in_int64 z.
Proof. unfold parse_int64. destruct (split_sign s). case_match; [|done]. case_decide; naive_solver. Qed.

#[export] Instance Itoa_inj : Inj (=) (=) Itoa.
Proof. apply pretty_Z_inj. Qed.

#[export] Hint Resolve Atoi_Itoa ParseInt_FormatInt wrap64_id : neco.

(** ** Prefixes and slices *)
Lemma string_app_cons c s t : String c s +:+ t = String c (s +:+ t).
Proof. done. Qed.
Lemma string_app_nil_l t : "" +:+ t = t.
Proof. done. Qed.
Lemma string_app_nil_r t : t +:+ "" = t.
Proof. induction t; [done|]. by rewrite string_app_cons, IHt. Qed.
Lemma string_app_assoc (a b c : string) : (a +:+ b) +:+ c = a +:+ (b +:+ c).
Proof. induction a; [done|]. by rewrite !string_app_cons, IHa. Qed.
Lemma string_app_length (a b : string) :
  String.length (a +:+ b) = (String.length a + String.length b)%nat.
Proof. induction a; [done|]. rewrite string_app_cons. simpl. congruence. Qed.

Create Rewrite HintDb str.
#[export] Hint Rewrite string_app_cons string_app_nil_l string_app_nil_r string_app_assoc
  string_app_length : str.

Definition HasPrefix (s p : string) : bool := String.prefix p s.

Lemma HasPrefix_spec s p : HasPrefix s p = true ↔ ∃ t, s = p +:+ t.
Proof.
  unfold HasPrefix. revert s. induction p as [|c p IH]; intros s.
  - destruct s; simpl; split; eauto.
  - destruct s as [|c' s]; simpl; [split; [done|by intros [??]]|].
    destruct (Ascii.ascii_dec c c') as [->|Hne].
    + rewrite IH. setoid_rewrite string_app_cons. naive_solver.
    + setoid_rewrite string_app_cons. naive_solver.
Qed.

Lemma HasPrefix_app p t : HasPrefix (p +:+ t) p = true.
Proof. apply HasPrefix_spec. eauto. Qed.

(** [s[n:]]; out of range is a panic, here [None]. *)
Fixpoint slice_from (n : nat) (s : string) : option string :=
  match n, s with
  | O, _ => Some s
  | S n, String _ s => slice_from n s
  | S _, EmptyString => None
  end.

Lemma slice_from_app p t : slice_from (String.length p) (p +:+ t) = Some t.
Proof. by induction p. Qed.

(** ** Fixed-width hexadecimal, [%016x] *)
Definition hex_digit (d : Z) : Ascii.ascii :=
  Ascii.ascii_of_N (Z.to_N (if (d <? 10)%Z then d + 48 else d + 87)).

Fixpoint hex_fixed (width : nat) (z : Z) (acc : string) : string :=
  match width with
  | O => acc
  | S width => hex_fixed width (z `div` 16) (String (hex_digit (z `mod` 16)) acc)
  end.

(** [fmt.Sprintf("%016x", z)] of an [int64]: a negative value prints its sign and
    pads the magnitude to 15 digits. *)
Definition hex016 (z : Z) : string :=
  if (z <? 0)%Z then
    (if (- z <? 16 ^ 15)%Z then "-" +:+ hex_fixed 15 (- z) "" else "-" +:+ hex_fixed 16 (- z) "")
  else hex_fixed 16 z "".

Lemma string_compare_cons c d s t :
  String.compare (String c s) (String d t) =
  match Ascii.compare c d with Eq => String.compare s t | r => r end.
Proof. done. Qed.

Lemma string_compare_app p s t : String.compare (p +:+ s) (p +:+ t) = String.compare s t.
Proof.
  induction p as [|c p IH]; [done|]. rewrite !string_app_cons, string_compare_cons.
  unfold Ascii.compare. by rewrite N.compare_refl.
Qed.

Lemma string_le_compare s t : String.le s t ↔ String.compare s t ≠ Gt.
Proof.
  unfold String.le, String.leb. destruct (String.compare s t); simpl; naive_solver.
Qed.

Lemma string_le_app p s t : String.le (p +:+ s) (p +:+ t) ↔ String.le s t.
Proof. by rewrite !string_le_compare, string_compare_app. Qed.

Lemma hex_digit_compare a b :
  (0 ≤ a < 16)%Z → (0 ≤ b < 16)%Z →
  Ascii.compare (hex_digit a) (hex_digit b) = Z.compare a b.
Proof.
  intros Ha Hb.
  assert (∀ x, (0 ≤ x < 16)%Z → x ∈ [0;1;2;3;4;5;6;7;8;9;10;11;12;13;14;15]%Z) as Hin
    by (intros x Hx; rewrite !elem_of_cons; lia).
  apply Hin in Ha. apply Hin in Hb. clear Hin.
  assert (Forall (λ x, Forall (λ y, Ascii.compare (hex_digit x) (hex_digit y) = Z.compare x y)
    [0;1;2;3;4;5;6;7;8;9;10;11;12;13;14;15]%Z) [0;1;2;3;4;5;6;7;8;9;10;11;12;13;14;15]%Z) as HF.
  { repeat (constructor; [repeat (constructor; [done|]); constructor|]). constructor. }
  rewrite Forall_forall in HF. specialize (HF a Ha). rewrite Forall_forall in HF. by apply HF.
Qed.

Lemma compare_div_mod_16 a b :
  Z.compare a b =
  match Z.compare (a `div` 16) (b `div` 16) with
  | Eq => Z.compare (a `mod` 16) (b `mod` 16)
  | r => r
  end.
Proof.
  pose proof (Z.div_mod a 16). pose proof (Z.div_mod b 16).
  pose proof (Z.mod_pos_bound a 16). pose proof (Z.mod_pos_bound b 16).
  destruct (Z.compare_spec (a `div` 16) (b `div` 16)); [|apply Z.compare_lt_iff; lia|apply Z.compare_gt_iff; lia].
  destruct (Z.compare_spec (a `mod` 16) (b `mod` 16));
    [apply Z.compare_eq_iff|apply Z.compare_lt_iff|apply Z.compare_gt_iff]; lia.
Qed.

Lemma hex_fixed_compare n a b s t :
  (0 ≤ a < 16 ^ Z.of_nat n)%Z → (0 ≤ b < 16 ^ Z.of_nat n)%Z →
  String.compare (hex_fixed n a s) (hex_fixed n b t) =
  match Z.compare a b with Eq => String.compare s t | r => r end.
Proof.
  revert a b s t. induction n as [|n IH]; intros a b s t Ha Hb.
  { simpl in *. by replace a with 0%Z by lia; replace b with 0%Z by lia. }
  rewrite Nat2Z.inj_succ, Z.pow_succ_r in Ha, Hb by lia. simpl.
  rewrite IH by (split; [apply Z.div_pos|apply Z.div_lt_upper_bound]; lia). rewrite (compare_div_mod_16 a b).
  destruct (Z.compare (a `div` 16) (b `div` 16)); [|done..].
  rewrite string_compare_cons, hex_digit_compare by (apply Z.mod_pos_bound; lia). done.
Qed.

Lemma hex016_compare a b :
  (0 ≤ a ≤ int64_max)%Z → (0 ≤ b ≤ int64_max)%Z →
  String.compare (hex016 a) (hex016 b) = Z.compare a b.
Proof.
  unfold int64_max, hex016. intros Ha Hb.
  destruct (Z.ltb_spec a 0); [lia|]. destruct (Z.ltb_spec b 0); [lia|].
  rewrite hex_fixed_compare by (change (16 ^ Z.of_nat 16)%Z with (2 ^ 64)%Z; lia).
  by destruct (Z.compare a b).
Qed.

(** ** Splitting, trimming, base names *)
Fixpoint Split (sep : ascii) (s : string) : list string :=
  match s with
  | EmptyString => [""]
  | String c s =>
      match Split sep s with
      | [] => []
      | part :: parts =>
          if decide (c = sep) then "" :: part :: parts else String c part :: parts
      end
  end.

(** [strings.SplitN(s, sep, 2)] as the text before and after the first separator. *)
Fixpoint SplitN2 (sep : ascii) (s : string) : string * option string :=
  match s with
  | EmptyString => ("", None)
  | String c s =>
      if decide (c = sep) then ("", Some s)
      else let '(before, after) := SplitN2 sep s in (String c before, after)
  end.

Definition is_space (c : ascii) : bool :=
  bool_decide (Ascii.N_of_ascii c ∈ [9; 10; 11; 12; 13; 32]%N).

Fixpoint TrimLeft (s : string) : string :=
  match s with
  | String c t => if is_space c then TrimLeft t else s
  | EmptyString => ""
  end.

(** [strings.TrimSpace] on ASCII text. *)
Definition TrimSpace (s : string) : string :=
  String.rev (TrimLeft (String.rev (TrimLeft s))).

(** [path.Base]. *)
Fixpoint TrimLeftSlash (s : string) : string :=
  match s with
  | String "/"%char t => TrimLeftSlash t
  | _ => s
  end.
Definition Base (s : string) : string :=
  match s with
  | EmptyString => "."
  | _ =>
      match String.rev (fst (SplitN2 "/"%char (TrimLeftSlash (String.rev s)))) with
      | EmptyString => "/"
      | b => b
      end
  end.

Lemma Split_nonempty sep s : Split sep s ≠ [].
Proof. induction s as [|c s IH]; simpl; [done|]. case_match; [done|]. by case_decide. Qed.

Lemma Split_app sep s t :
  (∀ c, c ∈ String.list_ascii_of_string s → c ≠ sep) →
  Split sep (s +:+ String sep t) = s :: Split sep t.
Proof.
  induction s as [|c s IH]; intros Hs.
  - rewrite string_app_nil_l. simpl. pose proof (Split_nonempty sep t).
    destruct (Split sep t); [done|]. by rewrite decide_True.
  - rewrite string_app_cons. simpl. rewrite IH by set_solver.
    rewrite decide_False by set_solver. done.
Qed.

Example Base_slashes : map Base ["a/b/c"; "a/b/"; "/"; ""; "ghcr.io/cybozu/etcd"]
  = ["c"; "b"; "/"; "."; "etcd"].
Proof. reflexivity. Qed.
Example Split_ex : Split ":" "ghcr.io/cybozu/etcd:3.3.9-4" = ["ghcr.io/cybozu/etcd"; "3.3.9-4"].
Proof. reflexivity. Qed.
Example hex_ex : hex016 255 = "00000000000000ff" ∧ hex016 (-1) = "-000000000000001".
Proof. split; reflexivity. Qed.

(** ** One more digit *)
Lemma pretty_N_go_acc x s : pretty_N_go x s = pretty_N_go x "" +:+ s.
Proof.
  revert s. induction (N.lt_wf_0 x) as [x _ IH]; intros s.
  destruct (decide (x = 0)%N) as [->|Hx]; [by rewrite !pretty_N_go_0|].
  rewrite (pretty_N_go_step x s), (pretty_N_go_step x "") by lia.
  assert (x / 10 < x)%N as Hlt by (apply N.div_lt; lia).
  rewrite (IH _ Hlt (String _ s)), (IH _ Hlt (String _ "")). by rewrite string_app_assoc.
Qed.

Lemma Itoa_digit n d :
  (1 ≤ n)%Z → (0 ≤ d ≤ 9)%Z → ∃ c, Itoa (10 * n + d) = Itoa n +:+ String c "".
Proof.
  intros Hn Hd. destruct n as [|p|p]; try lia.
  destruct (10 * Z.pos p + d)%Z as [|q|q] eqn:E; try lia.
  unfold Itoa, pretty, pretty_Z, pretty_positive, pretty, pretty_N. rewrite !decide_False by done.
  rewrite pretty_N_go_step by lia.
  replace (N.pos q / 10)%N with (N.pos p); [rewrite pretty_N_go_acc; eauto|].
  apply (N.div_unique _ _ _ (Z.to_N d)); lia.
Qed.
