(* ===== verification/GoTime.v ===== *)
(** * Go's [time] package as the sources use it

    Instants are nanoseconds since the Unix epoch (UTC), durations are [int64]
    nanoseconds.  The calendar is the proleptic Gregorian one of [time.Date].
    Modelled: [Add], [Sub] (which saturates), [Before], [After], the RFC 3339
    text form that [encoding/json] reads and writes for a [time.Time], and
    [time.Parse] with the layout of neco release tags. *)
From S2P Require Import Prelude GoStr.

Local Open Scope string_scope.
Local Open Scope Z_scope.

Definition Time := Z.
Definition Duration := Z.

Definition Nanosecond : Duration := 1.
Definition Second : Duration := 1000000000.
Definition Minute : Duration := 60 * Second.
Definition Hour : Duration := 60 * Minute.

Definition Add (t : Time) (d : Duration) : Time := t + d.
Definition Sub (t u : Time) : Duration := Z.max int64_min (Z.min int64_max (t - u)).
Definition Before (t u : Time) : bool := t <? u.
Definition After (t u : Time) : bool := u <? t.

(** ** The calendar *)
Definition is_leap (y : Z) : bool :=
  ((y `mod` 4 =? 0) && negb (y `mod` 100 =? 0)) || (y `mod` 400 =? 0).

Definition daysIn (m y : Z) : Z :=
  if m =? 2 then (if is_leap y then 29 else 28)
  else if (m =? 4) || (m =? 6) || (m =? 9) || (m =? 11) then 30 else 31.

(** Days since 1970-01-01 of a civil date, counting years from March. *)
Definition days_of_civil (y m d : Z) : Z :=
  let y' := if m <=? 2 then y - 1 else y in
  let era := y' `div` 400 in
  let yoe := y' `mod` 400 in
  let mp := if m <=? 2 then m + 9 else m - 3 in
  let doy := (153 * mp + 2) `div` 5 + d - 1 in
  let doe := yoe * 365 + yoe `div` 4 - yoe `div` 100 + doy in
  era * 146097 + doe - 719468.

(** The civil date of the [doy]-th day (from March 1st) of year [yoe] of an era of
    400 years. *)
Definition civil_of_doy (era yoe doy : Z) : Z * Z * Z :=
  let mp := (5 * doy + 2) `div` 153 in
  let d := doy - (153 * mp + 2) `div` 5 + 1 in
  let m := if mp <? 10 then mp + 3 else mp - 9 in
  let y := era * 400 + yoe in
  ((if m <=? 2 then y + 1 else y), m, d).

Definition year_of_era (doe : Z) : Z :=
  (doe - doe `div` 1460 + doe `div` 36524 - doe `div` 146096) `div` 365.

Definition civil_of_days (n : Z) : Z * Z * Z :=
  let z := n + 719468 in
  let doe := z `mod` 146097 in
  let yoe := year_of_era doe in
  civil_of_doy (z `div` 146097) yoe (doe - (365 * yoe + yoe `div` 4 - yoe `div` 100)).

(** ** Text *)
Definition digit_char (d : Z) : ascii := Ascii.ascii_of_N (Z.to_N (d + 48)).
Definition char_digit (c : ascii) : option Z := Z.of_nat <$> Ascii.is_nat c.

(** [n] decimal digits of [z], zero padded. *)
Fixpoint dec_fixed (n : nat) (z : Z) (acc : string) : string :=
  match n with
  | O => acc
  | S n => dec_fixed n (z `div` 10) (String (digit_char (z `mod` 10)) acc)
  end.

(** Exactly [n] digits off the front. *)
Fixpoint take_digits (n : nat) (s : string) (acc : Z) : option (Z * string) :=
  match n with
  | O => Some (acc, s)
  | S n =>
      match s with
      | String c s =>
          match char_digit c with
          | Some d => take_digits n s (acc * 10 + d)
          | None => None
          end
      | EmptyString => None
      end
  end.

Definition take_char (c : ascii) (s : string) : option string :=
  match s with
  | String c' s => if decide (c = c') then Some s else None
  | EmptyString => None
  end.

(** The digits of a fraction [ns / 10^n], trailing zeros dropped. *)
Fixpoint frac_digits (n : nat) (ns : Z) (acc : string) : string :=
  match n with
  | O => acc
  | S n =>
      if ns =? 0 then acc
      else String (digit_char (ns `div` 10 ^ Z.of_nat n))
             (frac_digits n (ns `mod` 10 ^ Z.of_nat n) acc)
  end.

(** Digits of a fraction; those past the [n]-th are read and ignored. *)
Fixpoint take_frac (n : nat) (s : string) (acc : Z) : Z * string :=
  match s with
  | String c s' =>
      match char_digit c with
      | Some d =>
          match n with
          | O => take_frac O s' acc
          | S n => take_frac n s' (acc + d * 10 ^ Z.of_nat n)
          end
      | None => (acc, s)
      end
  | EmptyString => (acc, s)
  end.

Definition fraction_text (ns : Z) : string :=
  if ns =? 0 then "Z" else String "." (frac_digits 9 ns "Z").

Definition rfc3339_text (y m d sod ns : Z) : string :=
  dec_fixed 4 y (String "-" (dec_fixed 2 m (String "-" (dec_fixed 2 d (String "T"
    (dec_fixed 2 (sod `div` 3600) (String ":" (dec_fixed 2 ((sod `div` 60) `mod` 60)
    (String ":" (dec_fixed 2 (sod `mod` 60)
    (fraction_text ns))))))))))).

(** [Time.MarshalJSON]'s text, without the quotes: [RFC3339Nano] in UTC.  A year
    outside 0..9999 is an error. *)
Definition format_rfc3339 (t : Time) : outcome string :=
  let secs := t `div` Second in
  let '(y, m, d) := civil_of_days (secs `div` 86400) in
  if (y <? 0) || (9999 <? y) then
    Err (ErrMsg "Time.MarshalJSON: year outside of range [0,9999]")
  else Ok (rfc3339_text y m d (secs `mod` 86400) (t `mod` Second)).

(** An optional fraction of a second: a point and at least one digit. *)
Definition take_fraction (s : string) : option (Z * string) :=
  match take_char "." s with
  | Some (String c t) =>
      match char_digit c with Some _ => Some (take_frac 9 (String c t) 0) | None => None end
  | Some EmptyString => None
  | None => Some (0, s)
  end.

(** The zone designator: [Z] or a numeric offset, in seconds east of UTC. *)
Definition take_zone (s : string) : option Z :=
  match s with
  | String "Z"%char EmptyString => Some 0
  | String c s =>
      sign ← (if decide (c = "+"%char) then Some 1
              else if decide (c = "-"%char) then Some (-1) else None);
      '(hh, s) ← take_digits 2 s 0; s ← take_char ":" s; '(mm, s) ← take_digits 2 s 0;
      if (hh <=? 23) && (mm <=? 59) && bool_decide (s = "") then
        Some (sign * (hh * 3600 + mm * 60)) else None
  | EmptyString => None
  end.

Definition parse_rfc3339 (s : string) : option Time :=
  '(y, s) ← take_digits 4 s 0; s ← take_char "-" s;
  '(m, s) ← take_digits 2 s 0; s ← take_char "-" s;
  '(d, s) ← take_digits 2 s 0; s ← take_char "T" s;
  '(hh, s) ← take_digits 2 s 0; s ← take_char ":" s;
  '(mm, s) ← take_digits 2 s 0; s ← take_char ":" s;
  '(ss, s) ← take_digits 2 s 0;
  '(ns, s) ← take_fraction s;
  zone ← take_zone s;
  if (1 <=? m) && (m <=? 12) && (1 <=? d) && (d <=? daysIn m y)
     && (hh <=? 23) && (mm <=? 59) && (ss <=? 59) then
    Some ((days_of_civil y m d * 86400 + hh * 3600 + mm * 60 + ss - zone) * Second + ns)
  else None.

(** [time.Parse("2006.01.02", s)]: midnight UTC of the date. *)
Definition parse_release_date (s : string) : option Time :=
  '(y, s) ← take_digits 4 s 0; s ← take_char "." s;
  '(m, s) ← take_digits 2 s 0; s ← take_char "." s;
  '(d, s) ← take_digits 2 s 0;
  if (1 <=? m) && (m <=? 12) && (1 <=? d) && (d <=? daysIn m y) && bool_decide (s = "") then
    Some (days_of_civil y m d * 86400 * Second)
  else None.

Example date_ex1 : civil_of_days (days_of_civil 2021 4 19) = (2021, 4, 19)
  ∧ civil_of_days (-1) = (1969, 12, 31) ∧ days_of_civil 1 1 1 * 86400 = -62135596800.
Proof. done. Qed.
Example date_ex2 : format_rfc3339 (days_of_civil 2000 2 29 * 86400 * Second + 3661 * Second + 1200)
  = Ok "2000-02-29T01:01:01.0000012Z".
Proof. reflexivity. Qed.
Example date_ex3 : parse_rfc3339 "2000-02-29T10:01:01.0000012+09:00"
  = Some (days_of_civil 2000 2 29 * 86400 * Second + 3661 * Second + 1200).
Proof. reflexivity. Qed.

(** ** The calendar is consistent *)
Ltac divlia := Z.div_mod_to_equations; lia.

Section calendar.
Variable doe : Z.
Hypothesis Hdoe : 0 ≤ doe < 146097.
Let yoe := year_of_era doe.
Let doy := doe - (365 * yoe + yoe `div` 4 - yoe `div` 100).

Lemma yoe_bounds : 0 ≤ yoe < 400.
Proof. subst yoe. unfold year_of_era. divlia. Qed.
Lemma doy_bounds : 0 ≤ doy ≤ 365.
Proof. subst doy yoe. unfold year_of_era. split; divlia. Qed.
Lemma doy_leap : doy = 365 →
  (yoe + 1) `mod` 4 = 0 ∧ ((yoe + 1) `mod` 100 ≠ 0 ∨ yoe = 399).
Proof. subst doy yoe. unfold year_of_era. intros H. split; divlia. Qed.
End calendar.

Lemma is_leap_march era yoe :
  (yoe + 1) `mod` 4 = 0 ∧ ((yoe + 1) `mod` 100 ≠ 0 ∨ yoe = 399) →
  is_leap (era * 400 + yoe + 1) = true.
Proof.
  intros [H4 H100]. unfold is_leap.
  assert (∀ k, k ≠ 0 → 400 `mod` k = 0 →
    (era * 400 + yoe + 1) `mod` k = (yoe + 1) `mod` k) as Hk.
  { intros k Hk0 Hk. rewrite (Z.div_mod 400 k), Hk by done.
    replace (era * (k * (400 `div` k) + 0) + yoe + 1)
      with (yoe + 1 + era * (400 `div` k) * k) by lia. by apply Z.mod_add. }
  rewrite !Hk by done. rewrite H4. destruct H100 as [H100| ->].
  - by rewrite (proj2 (Z.eqb_neq _ _) H100).
  - done.
Qed.

(** Month index [mp] (from March) and day of month stay in range. *)
Lemma month_bounds doy :
  0 ≤ doy ≤ 365 →
  let mp := (5 * doy + 2) `div` 153 in
  0 ≤ mp ≤ 11 ∧ 1 ≤ doy - (153 * mp + 2) `div` 5 + 1.
Proof. intros H. cbv zeta. split; divlia. Qed.

Lemma day_of_month_bound doy mp :
  0 ≤ doy ≤ 365 → mp = (5 * doy + 2) `div` 153 → mp ≠ 11 →
  doy - (153 * mp + 2) `div` 5 + 1 ≤
  (if (mp =? 1) || (mp =? 3) || (mp =? 6) || (mp =? 8) then 30 else 31).
Proof.
  intros H Hmp Hne. assert (0 ≤ mp ≤ 10) as Hr by divlia.
  assert (mp ∈ [0;1;2;3;4;5;6;7;8;9;10]) as Hin by (rewrite !elem_of_cons; lia).
  repeat (apply elem_of_cons in Hin as [E|Hin];
    [rewrite E in *; simpl; clear Hne Hr; divlia|]).
  by apply not_elem_of_nil in Hin.
Qed.

Lemma civil_of_doy_valid era yoe doy y m d :
  0 ≤ doy ≤ 365 →
  (doy = 365 → (yoe + 1) `mod` 4 = 0 ∧ ((yoe + 1) `mod` 100 ≠ 0 ∨ yoe = 399)) →
  civil_of_doy era yoe doy = (y, m, d) → 1 ≤ m ≤ 12 ∧ 1 ≤ d ≤ daysIn m y.
Proof.
  intros Hdoy Hleap. unfold civil_of_doy. destruct (month_bounds doy Hdoy) as [Hmp Hd].
  pose proof (day_of_month_bound doy _ Hdoy eq_refl) as Hb. cbv zeta in *.
  remember ((5 * doy + 2) `div` 153) as mp eqn:Emp. intros [= <- <- <-].
  split; [destruct (Z.ltb_spec mp 10); lia|]. split; [exact Hd|].
  destruct (decide (mp = 11)) as [->|Hne].
  - change (if 11 <? 10 then 11 + 3 else 11 - 9) with 2. unfold daysIn. simpl.
    destruct (decide (doy = 365)) as [E|E].
    + rewrite (is_leap_march era yoe) by auto. divlia.
    + transitivity 28; [divlia|]. destruct (is_leap _); lia.
  - specialize (Hb Hne). clear Hleap Hdoy Emp.
    assert (mp ∈ [0;1;2;3;4;5;6;7;8;9;10]) as Hin by (rewrite !elem_of_cons; lia).
    repeat (apply elem_of_cons in Hin as [E|Hin]; [by rewrite E in *|]).
    by apply not_elem_of_nil in Hin.
Qed.

Lemma civil_of_days_valid n y m d :
  civil_of_days n = (y, m, d) → 1 ≤ m ≤ 12 ∧ 1 ≤ d ≤ daysIn m y.
Proof.
  assert (0 ≤ (n + 719468) `mod` 146097 < 146097) as Hdoe by (apply Z.mod_pos_bound; lia).
  apply civil_of_doy_valid; [by apply doy_bounds|by apply doy_leap].
Qed.

Lemma days_of_civil_of_doy era yoe doy y m d :
  0 ≤ yoe < 400 → 0 ≤ doy ≤ 365 → civil_of_doy era yoe doy = (y, m, d) →
  days_of_civil y m d = era * 146097 + (yoe * 365 + yoe `div` 4 - yoe `div` 100 + doy) - 719468.
Proof.
  intros Hyoe Hdoy. unfold civil_of_doy, days_of_civil.
  destruct (month_bounds doy Hdoy) as [Hmp _]. cbv zeta in *.
  remember ((5 * doy + 2) `div` 153) as mp eqn:Emp. clear Emp. intros [= <- <- <-].
  assert (∀ k, k = era * 400 + yoe → k `div` 400 = era ∧ k `mod` 400 = yoe) as Hera.
  { intros k ->. split; divlia. }
  destruct (Z.ltb_spec mp 10) as [Hlt|Hge].
  - destruct (Z.leb_spec (mp + 3) 2); [lia|].
    destruct (Hera (era * 400 + yoe) eq_refl) as [-> ->].
    replace (mp + 3 - 3) with mp by lia. lia.
  - destruct (Z.leb_spec (mp - 9) 2); [|lia].
    destruct (Hera (era * 400 + yoe + 1 - 1) ltac:(lia)) as [-> ->].
    replace (mp - 9 + 9) with mp by lia. lia.
Qed.

Lemma days_of_civil_of_days n y m d :
  civil_of_days n = (y, m, d) → days_of_civil y m d = n.
Proof.
  intros H. assert (0 ≤ (n + 719468) `mod` 146097 < 146097) as Hdoe
    by (apply Z.mod_pos_bound; lia).
  rewrite (days_of_civil_of_doy _ _ _ _ _ _ (yoe_bounds _ Hdoe) (doy_bounds _ Hdoe) H).
  pose proof (Z.div_mod (n + 719468) 146097). lia.
Qed.

(** ** Text round trips *)
Lemma char_digit_char d : 0 ≤ d < 10 → char_digit (digit_char d) = Some d.
Proof.
  intros H. assert (d ∈ [0;1;2;3;4;5;6;7;8;9]) as Hin by (rewrite !elem_of_cons; lia).
  repeat (apply elem_of_cons in Hin as [->|Hin]; [done|]). by apply not_elem_of_nil in Hin.
Qed.

Lemma take_digits_add n k s a :
  take_digits (n + k) s a =
  match take_digits n s a with
  | Some (a', s') => take_digits k s' a'
  | None => None
  end.
Proof.
  revert s a. induction n as [|n IH]; intros s a; [done|]. simpl.
  destruct s; [done|]. by destruct (char_digit a0).
Qed.

Lemma take_digits_dec_fixed_acc n z s a :
  0 ≤ z < 10 ^ Z.of_nat n →
  take_digits n (dec_fixed n z s) a = Some (a * 10 ^ Z.of_nat n + z, s).
Proof.
  revert z s a. induction n as [|n IH]; intros z s a Hz.
  { simpl in *. f_equal. f_equal. lia. }
  rewrite Nat2Z.inj_succ, Z.pow_succ_r in * by lia. simpl dec_fixed.
  replace (S n) with (n + 1)%nat by lia. rewrite take_digits_add.
  rewrite IH by (split; [apply Z.div_pos|apply Z.div_lt_upper_bound]; lia). simpl.
  rewrite char_digit_char by (apply Z.mod_pos_bound; lia).
  f_equal. f_equal. pose proof (Z.div_mod z 10). lia.
Qed.

Lemma take_digits_dec_fixed n z s :
  0 ≤ z < 10 ^ Z.of_nat n → take_digits n (dec_fixed n z s) 0 = Some (z, s).
Proof. intros. by rewrite take_digits_dec_fixed_acc. Qed.

Lemma take_char_cons c s : take_char c (String c s) = Some s.
Proof. simpl. by rewrite decide_True. Qed.

Lemma take_frac_digits n ns s a :
  0 ≤ ns < 10 ^ Z.of_nat n →
  match s with String c _ => char_digit c = None | EmptyString => True end →
  take_frac n (frac_digits n ns s) a = (a + ns, s).
Proof.
  revert ns a. induction n as [|n IH]; intros ns a Hns Hs.
  { simpl in *. destruct s; simpl; [|rewrite Hs]; f_equal; lia. }
  rewrite Nat2Z.inj_succ, Z.pow_succ_r in Hns by lia. simpl.
  assert (0 < 10 ^ Z.of_nat n) by (apply Z.pow_pos_nonneg; lia).
  destruct (Z.eqb_spec ns 0) as [->|Hne].
  { destruct s; simpl; [|rewrite Hs]; f_equal; lia. }
  simpl. rewrite char_digit_char.
  2: { split; [apply Z.div_pos; lia|apply Z.div_lt_upper_bound; lia]. }
  rewrite IH by (auto; apply Z.mod_pos_bound; lia).
  f_equal. pose proof (Z.div_mod ns (10 ^ Z.of_nat n)). lia.
Qed.

Lemma frac_digits_head n ns s :
  0 < ns < 10 ^ Z.of_nat n → ∃ c t, frac_digits n ns s = String c t ∧ char_digit c ≠ None.
Proof.
  destruct n as [|n]; intros Hns; [simpl in Hns; lia|]. simpl.
  destruct (Z.eqb_spec ns 0); [lia|]. eexists _, _. split; [done|].
  rewrite Nat2Z.inj_succ, Z.pow_succ_r in Hns by lia.
  assert (0 < 10 ^ Z.of_nat n) by (apply Z.pow_pos_nonneg; lia).
  rewrite char_digit_char; [done|].
  split; [apply Z.div_pos; lia|apply Z.div_lt_upper_bound; lia].
Qed.

(** The fraction and zone that [format_rfc3339] writes are read back. *)
Lemma frac_zone_round_trip ns :
  0 ≤ ns < Second →
  take_fraction (fraction_text ns) = Some (ns, "Z").
Proof.
  intros Hns. unfold fraction_text. destruct (Z.eqb_spec ns 0) as [->|Hne]; [done|].
  destruct (frac_digits_head 9 ns "Z") as (c & t & E & Hc).
  { change (10 ^ Z.of_nat 9) with Second. lia. }
  unfold take_fraction. rewrite take_char_cons, E. destruct (char_digit c) eqn:Ec; [|done].
  rewrite <-E. rewrite take_frac_digits; [done|exact Hns|done].
Qed.

(** Reading back the text written for an instant gives the instant. *)
Lemma parse_format_rfc3339 t s :
  format_rfc3339 t = Ok s → parse_rfc3339 s = Some t.
Proof.
  unfold format_rfc3339. destruct (civil_of_days _) as [[y m] d] eqn:Eciv.
  destruct (civil_of_days_valid _ _ _ _ Eciv) as [Hm Hd].
  apply days_of_civil_of_days in Eciv.
  assert (daysIn m y ≤ 31) as Hd31 by (unfold daysIn; repeat case_match; lia).
  destruct (Z.ltb_spec y 0) as [|Hy0]; [done|]. destruct (Z.ltb_spec 9999 y) as [|Hy1]; [done|].
  assert (0 ≤ t `mod` Second < Second) as Hns by (apply Z.mod_pos_bound; done).
  set (sod := (t `div` Second) `mod` 86400).
  assert (0 ≤ sod < 86400) as Hsod by (apply Z.mod_pos_bound; lia).
  assert (0 ≤ sod `div` 3600 < 24) as Hhh by divlia.
  assert (0 ≤ (sod `div` 60) `mod` 60 < 60) as Hmm by divlia.
  assert (0 ≤ sod `mod` 60 < 60) as Hss by divlia.
  assert (sod = sod `div` 3600 * 3600 + (sod `div` 60) `mod` 60 * 60 + sod `mod` 60) as Hs3 by divlia.
  intros [= <-]. unfold parse_rfc3339, rfc3339_text. fold sod.
  change (10 ^ Z.of_nat 4) with 10000 in *.
  assert (∀ z u, 0 ≤ z < 100 → take_digits 2 (dec_fixed 2 z u) 0 = Some (z, u)) as T2
    by (intros; by apply take_digits_dec_fixed).
  rewrite take_digits_dec_fixed by (change (10 ^ Z.of_nat 4) with 10000; lia). cbn [mbind option_bind].
  rewrite !take_char_cons. cbn [mbind option_bind]. rewrite T2 by lia. cbn [mbind option_bind].
  rewrite !take_char_cons. cbn [mbind option_bind]. rewrite T2 by lia. cbn [mbind option_bind].
  rewrite !take_char_cons. cbn [mbind option_bind]. rewrite T2 by lia. cbn [mbind option_bind].
  rewrite !take_char_cons. cbn [mbind option_bind]. rewrite T2 by lia. cbn [mbind option_bind].
  rewrite !take_char_cons. cbn [mbind option_bind]. rewrite T2 by lia. cbn [mbind option_bind].
  rewrite (frac_zone_round_trip _ Hns). cbn [mbind option_bind take_zone].
  repeat (rewrite (proj2 (Z.leb_le _ _)); [cbn [andb]|lia]).
  rewrite Eciv. f_equal. rewrite Z.sub_0_r.
  replace ((t `div` Second) `div` 86400 * 86400 + sod `div` 3600 * 3600
    + (sod `div` 60) `mod` 60 * 60 + sod `mod` 60) with (t `div` Second).
  - pose proof (Z.div_mod t Second). unfold Second in *. lia.
  - pose proof (Z.div_mod (t `div` Second) 86400). fold sod in H. lia.
Qed.
