(* ===== verification/Json.v ===== *)
(** * Go's [encoding/json] as the sources use it

    [json.Marshal] and [json.Unmarshal] on the flat structs that neco keeps in
    etcd: compact printing with Go's HTML-safe string escaping and its treatment
    of invalid UTF-8, a parser for the whole JSON grammar, and decoding into
    struct fields (names match up to ASCII case, [null] leaves a field alone,
    unknown fields are skipped, a value of the wrong type is an error).  The main
    result is [Unmarshal_Marshal]: what is marshalled is read back. *)
From S2P Require Import Prelude GoStr GoTime.

Local Open Scope string_scope.

Inductive json :=
  | JNull
  | JBool (b : bool)
  | JNum (lit : string)
  | JStr (s : string)
  | JArr (l : list json)
  | JObj (l : list (string * json)).

(** ** Bytes and runes *)
Definition byte_of (c : ascii) : N := Ascii.N_of_ascii c.
Definition chr (n : N) : ascii := Ascii.ascii_of_N n.
Definition between (lo hi : N) (c : ascii) : bool := ((lo <=? byte_of c) && (byte_of c <=? hi))%N.
Definition cont (c : ascii) : bool := between 128 191 c.

Definition valid2 (a b : ascii) : bool := between 194 223 a && cont b.
Definition valid3 (a b c : ascii) : bool :=
  ((between 224 224 a && between 160 191 b)
   || (between 225 236 a && cont b)
   || (between 237 237 a && between 128 159 b)
   || (between 238 239 a && cont b)) && cont c.
Definition valid4 (a b c d : ascii) : bool :=
  ((between 240 240 a && between 144 191 b)
   || (between 241 243 a && cont b)
   || (between 244 244 a && between 128 143 b)) && cont c && cont d.

(** The first rune of a string: an ASCII byte, the bytes of a well-formed
    multi-byte rune, or one byte that starts no well-formed rune. *)
Inductive rune :=
  | RuneEnd
  | RuneAscii (c : ascii) (rest : string)
  | RuneMulti (bytes : list ascii) (rest : string)
  | RuneBad (rest : string).

Definition decode_rune (s : string) : rune :=
  match s with
  | EmptyString => RuneEnd
  | String a s1 =>
      if (byte_of a <? 128)%N then RuneAscii a s1
      else
        match s1 with
        | String b s2 =>
            if valid2 a b then RuneMulti [a; b] s2
            else
              match s2 with
              | String c s3 =>
                  if valid3 a b c then RuneMulti [a; b; c] s3
                  else
                    match s3 with
                    | String d s4 =>
                        if valid4 a b c d then RuneMulti [a; b; c; d] s4 else RuneBad s1
                    | EmptyString => RuneBad s1
                    end
              | EmptyString => RuneBad s1
              end
        | EmptyString => RuneBad s1
        end
  end.

Definition prepend (l : list ascii) (k : string) : string := foldr String k l.

(** [utf8.ValidString]. *)
Fixpoint valid_utf8_go (n : nat) (s : string) : bool :=
  match n with
  | O => match s with EmptyString => true | _ => false end
  | S n =>
      match decode_rune s with
      | RuneEnd => true
      | RuneAscii _ t | RuneMulti _ t => valid_utf8_go n t
      | RuneBad _ => false
      end
  end.
Definition valid_utf8 (s : string) : bool := valid_utf8_go (String.length s) s.

Fixpoint ascii_only (s : string) : Prop :=
  match s with
  | EmptyString => True
  | String c t => (byte_of c < 128)%N ∧ ascii_only t
  end.

Lemma ascii_only_valid s : ascii_only s → valid_utf8 s = true.
Proof.
  unfold valid_utf8. induction s as [|c s IH]; [done|]. intros [Hc Hs].
  cbn [String.length valid_utf8_go decode_rune]. rewrite (proj2 (N.ltb_lt _ _) Hc). auto.
Qed.

(** ** String literals *)
Definition dq : ascii := chr 34.
Definition bslash : ascii := chr 92.

Definition hex_of (n : N) : ascii := hex_digit (Z.of_N n).

(** [\u00XX] for an ASCII byte. *)
Definition escape_u00 (c : ascii) (k : string) : string :=
  prepend [bslash; "u"%char; "0"%char; "0"%char; hex_of (byte_of c / 16); hex_of (byte_of c mod 16)] k.

Definition escape_ascii (c : ascii) (k : string) : string :=
  if decide (c = dq) then String bslash (String dq k)
  else if decide (c = bslash) then String bslash (String bslash k)
  else if decide (byte_of c = 8%N) then String bslash (String "b" k)
  else if decide (byte_of c = 12%N) then String bslash (String "f" k)
  else if decide (byte_of c = 10%N) then String bslash (String "n" k)
  else if decide (byte_of c = 13%N) then String bslash (String "r" k)
  else if decide (byte_of c = 9%N) then String bslash (String "t" k)
  else if (byte_of c <? 32)%N || bool_decide (c ∈ ["<"; ">"; "&"]%char) then escape_u00 c k
  else String c k.

(** U+2028 and U+2029 are escaped, every other well-formed rune is copied. *)
Definition escape_multi (bytes : list ascii) (k : string) : string :=
  if decide (bytes = [chr 226; chr 128; chr 168]) then
    prepend [bslash; "u"; "2"; "0"; "2"; "8"]%char k
  else if decide (bytes = [chr 226; chr 128; chr 169]) then
    prepend [bslash; "u"; "2"; "0"; "2"; "9"]%char k
  else prepend bytes k.

Definition escape_bad (k : string) : string := prepend [bslash; "u"; "f"; "f"; "f"; "d"]%char k.

Fixpoint escape (n : nat) (s : string) (k : string) : string :=
  match n with
  | O => k
  | S n =>
      match decode_rune s with
      | RuneEnd => k
      | RuneAscii c t => escape_ascii c (escape n t k)
      | RuneMulti bytes t => escape_multi bytes (escape n t k)
      | RuneBad t => escape_bad (escape n t k)
      end
  end.

(** A JSON string literal followed by [k]. *)
Definition print_string (s : string) (k : string) : string :=
  String dq (escape (String.length s) s (String dq k)).

(** ** Printing *)
Fixpoint print (j : json) (k : string) : string :=
  match j with
  | JNull => "null" +:+ k
  | JBool true => "true" +:+ k
  | JBool false => "false" +:+ k
  | JNum lit => lit +:+ k
  | JStr s => print_string s k
  | JArr [] => String "[" (String "]" k)
  | JArr (x :: l) =>
      String "[" (print x ((fix go l := match l with
                                        | [] => String "]" k
                                        | x :: l => String "," (print x (go l))
                                        end) l))
  | JObj [] => String "{" (String "}" k)
  | JObj ((f, x) :: l) =>
      String "{" (print_string f (String ":" (print x ((fix go l := match l with
        | [] => String "}" k
        | (f, x) :: l => String "," (print_string f (String ":" (print x (go l))))
        end) l))))
  end.

(** ** Parsing *)
Definition is_json_space (c : ascii) : bool := bool_decide (byte_of c ∈ [32; 9; 10; 13]%N).

Fixpoint skip_ws (s : string) : string :=
  match s with
  | String c t => if is_json_space c then skip_ws t else s
  | EmptyString => ""
  end.

Definition hex_value (c : ascii) : option N :=
  let b := byte_of c in
  if between 48 57 c then Some (b - 48)%N
  else if between 97 102 c then Some (b - 87)%N
  else if between 65 70 c then Some (b - 55)%N
  else None.

(** The four hexadecimal digits of a [\u] escape. *)
Definition read_u4 (s : string) : option (N * string) :=
  match s with
  | String a (String b (String c (String d t))) =>
      a ← hex_value a; b ← hex_value b; c ← hex_value c; d ← hex_value d;
      Some (((a * 16 + b) * 16 + c) * 16 + d, t)%N
  | _ => None
  end.

Definition utf8_encode (r : N) : list ascii :=
  if (r <? 128)%N then [chr r]
  else if (r <? 2048)%N then [chr (192 + r / 64); chr (128 + r mod 64)]
  else if (r <? 65536)%N then
    [chr (224 + r / 4096); chr (128 + (r / 64) mod 64); chr (128 + r mod 64)]
  else [chr (240 + r / 262144); chr (128 + (r / 4096) mod 64);
        chr (128 + (r / 64) mod 64); chr (128 + r mod 64)].

Definition replacement : list ascii := [chr 239; chr 191; chr 189].

Definition is_surrogate (r : N) : bool := ((55296 <=? r) && (r <? 57344))%N.

(** A rune written as [\uXXXX], or as a surrogate pair of two of them; a lone
    surrogate reads as U+FFFD. *)
Definition read_rune_escape (s : string) : option (list ascii * string) :=
  '(r, t) ← read_u4 s;
  if is_surrogate r then
    match t with
    | String e (String u t') =>
        if decide (e = bslash ∧ u = "u"%char) then
          match read_u4 t' with
          | Some (r2, t'') =>
              if ((r <? 56320) && (56320 <=? r2) && (r2 <? 57344))%N then
                Some (utf8_encode (65536 + (r - 55296) * 1024 + (r2 - 56320))%N, t'')
              else Some (replacement, t)
          | None => Some (replacement, t)
          end
        else Some (replacement, t)
    | _ => Some (replacement, t)
    end
  else Some (utf8_encode r, t).

Definition simple_escape (e : ascii) : option ascii :=
  if decide (e = dq ∨ e = bslash ∨ e = "/"%char) then Some e
  else if decide (e = "b"%char) then Some (chr 8)
  else if decide (e = "f"%char) then Some (chr 12)
  else if decide (e = "n"%char) then Some (chr 10)
  else if decide (e = "r"%char) then Some (chr 13)
  else if decide (e = "t"%char) then Some (chr 9)
  else None.

(** The contents of a string literal after its opening quote, and what follows
    the closing one. *)
Fixpoint unescape (n : nat) (s : string) : option (string * string) :=
  match n with
  | O => None
  | S n =>
      match decode_rune s with
      | RuneEnd => None
      | RuneMulti bytes t => '(r, k) ← unescape n t; Some (prepend bytes r, k)
      | RuneBad t => '(r, k) ← unescape n t; Some (prepend replacement r, k)
      | RuneAscii c t =>
          if decide (c = dq) then Some ("", t)
          else if decide (c = bslash) then
            match t with
            | String e t' =>
                if decide (e = "u"%char) then
                  '(bytes, t) ← read_rune_escape t'; '(r, k) ← unescape n t;
                  Some (prepend bytes r, k)
                else
                  match simple_escape e with
                  | Some c' => '(r, k) ← unescape n t'; Some (String c' r, k)
                  | None => None
                  end
            | EmptyString => None
            end
          else if (byte_of c <? 32)%N then None
          else '(r, k) ← unescape n t; Some (String c r, k)
      end
  end.

Definition parse_string (s : string) : option (string * string) :=
  match s with
  | String c t => if decide (c = dq) then unescape (S (String.length t)) t else None
  | EmptyString => None
  end.

Fixpoint span_digits (s : string) : string * string :=
  match s with
  | String c t =>
      match char_digit c with
      | Some _ => let '(ds, k) := span_digits t in (String c ds, k)
      | None => ("", s)
      end
  | EmptyString => ("", "")
  end.

(** One or more digits. *)
Definition digits1 (s : string) : option (string * string) :=
  match span_digits s with
  | (EmptyString, _) => None
  | r => Some r
  end.

Definition opt_sign (s : string) : string * string :=
  match s with
  | String c t => if decide (c = "-"%char ∨ c = "+"%char) then (String c "", t) else ("", s)
  | EmptyString => ("", "")
  end.

Definition int_part (s : string) : option (string * string) :=
  match take_char "0" s with Some t => Some ("0", t) | None => digits1 s end.

Definition frac_part (s : string) : option (string * string) :=
  match take_char "." s with
  | Some t => '(ds, k) ← digits1 t; Some ("." +:+ ds, k)
  | None => Some ("", s)
  end.

Definition exp_part (s : string) : option (string * string) :=
  match s with
  | String e t =>
      if decide (e = "e"%char ∨ e = "E"%char) then
        let '(sg, t) := opt_sign t in
        '(ds, k) ← digits1 t; Some (String e (sg +:+ ds), k)
      else Some ("", s)
  | EmptyString => Some ("", s)
  end.

Definition number_magnitude (s : string) : option (string * string) :=
  '(int, s) ← int_part s; '(frac, s) ← frac_part s; '(exp, s) ← exp_part s;
  Some (int +:+ frac +:+ exp, s).

(** A number literal of the JSON grammar, kept as text. *)
Definition parse_number (s : string) : option (string * string) :=
  match take_char "-" s with
  | Some t => '(m, k) ← number_magnitude t; Some ("-" +:+ m, k)
  | None => number_magnitude s
  end.

Fixpoint take_literal (p s : string) : option string :=
  match p, s with
  | EmptyString, _ => Some s
  | String c p, String d s => if decide (c = d) then take_literal p s else None
  | String _ _, EmptyString => None
  end.

Section parse_loops.
Variable pv : string → option (json * string).

Fixpoint parse_elems (m : nat) (s : string) : option (list json * string) :=
  match m with
  | O => None
  | S m =>
      '(v, s) ← pv s;
      match skip_ws s with
      | String c t =>
          if decide (c = ","%char) then '(vs, k) ← parse_elems m t; Some (v :: vs, k)
          else if decide (c = "]"%char) then Some ([v], t) else None
      | EmptyString => None
      end
  end.

Fixpoint parse_members (m : nat) (s : string) : option (list (string * json) * string) :=
  match m with
  | O => None
  | S m =>
      '(f, s) ← parse_string (skip_ws s); s ← take_char ":" (skip_ws s); '(v, s) ← pv s;
      match skip_ws s with
      | String c t =>
          if decide (c = ","%char) then '(vs, k) ← parse_members m t; Some ((f, v) :: vs, k)
          else if decide (c = "}"%char) then Some ([(f, v)], t) else None
      | EmptyString => None
      end
  end.
End parse_loops.

Fixpoint parse_value (n : nat) (s : string) : option (json * string) :=
  match n with
  | O => None
  | S n =>
      let s := skip_ws s in
      match s with
      | EmptyString => None
      | String c t =>
          if decide (c = dq) then '(r, k) ← parse_string s; Some (JStr r, k)
          else if decide (c = "["%char) then
            match take_char "]" (skip_ws t) with
            | Some k => Some (JArr [], k)
            | None => '(l, k) ← parse_elems (parse_value n) n t; Some (JArr l, k)
            end
          else if decide (c = "{"%char) then
            match take_char "}" (skip_ws t) with
            | Some k => Some (JObj [], k)
            | None => '(l, k) ← parse_members (parse_value n) n t; Some (JObj l, k)
            end
          else if decide (c = "n"%char) then k ← take_literal "null" s; Some (JNull, k)
          else if decide (c = "t"%char) then k ← take_literal "true" s; Some (JBool true, k)
          else if decide (c = "f"%char) then k ← take_literal "false" s; Some (JBool false, k)
          else '(lit, k) ← parse_number s; Some (JNum lit, k)
      end
  end.

(** A complete document: one value and nothing but white space after it. *)
Definition parse (s : string) : option json :=
  '(j, k) ← parse_value (S (String.length s)) s;
  match skip_ws k with EmptyString => Some j | _ => None end.

Example parse_ex :
  parse (String "{" (print_string "a<b" (String ":" "[1, -2.5e+3 ,null] } ")))
  = Some (JObj [("a<b", JArr [JNum "1"; JNum "-2.5e+3"; JNull])]).
Proof. vm_compute. reflexivity. Qed.

(** ** String literals round trip *)
Lemma prepend_app l k : prepend l k = String.string_of_list_ascii l +:+ k.
Proof. induction l as [|c l IH]; [done|]. simpl. by rewrite IH. Qed.

Lemma decode_rune_ascii s c t :
  decode_rune s = RuneAscii c t → s = String c t ∧ (byte_of c < 128)%N.
Proof.
  destruct s as [|a s]; simpl; [done|]. destruct (N.ltb_spec (byte_of a) 128); [naive_solver|].
  repeat case_match; naive_solver.
Qed.

Lemma decode_rune_multi s bytes t :
  decode_rune s = RuneMulti bytes t →
  s = prepend bytes t ∧ ∀ k, decode_rune (prepend bytes k) = RuneMulti bytes k.
Proof.
  destruct s as [|a s]; simpl; [done|]. destruct (byte_of a <? 128)%N eqn:Ea; [done|].
  destruct s as [|b s]; [done|]. destruct (valid2 a b) eqn:E2.
  { intros [= <- <-]. split; [done|]. intros k. simpl. by rewrite Ea, E2. }
  destruct s as [|c s]; [done|]. destruct (valid3 a b c) eqn:E3.
  { intros [= <- <-]. split; [done|]. intros k. simpl. by rewrite Ea, E2, E3. }
  destruct s as [|d s]; [done|]. destruct (valid4 a b c d) eqn:E4; [|done].
  intros [= <- <-]. split; [done|]. intros k. simpl. by rewrite Ea, E2, E3, E4.
Qed.

Lemma unescape_escape_ascii m c X :
  (byte_of c < 128)%N →
  unescape (S m) (escape_ascii c X) = '(r, k) ← unescape m X; Some (String c r, k).
Proof.
  destruct c as [[] [] [] [] [] [] [] []]; intros H; first [by vm_compute in H|clear H];
    first [reflexivity|by vm_compute].
Qed.

Lemma unescape_escape_multi m bytes t X :
  decode_rune (prepend bytes t) = RuneMulti bytes t →
  unescape (S m) (escape_multi bytes X) = '(r, k) ← unescape m X; Some (prepend bytes r, k).
Proof.
  intros H. destruct (decode_rune_multi _ _ _ H) as [_ Hdec]. unfold escape_multi.
  case_decide as E1; [subst; reflexivity|]. case_decide as E2; [subst; reflexivity|].
  simpl unescape. by rewrite Hdec.
Qed.

Lemma unescape_escape n s m k :
  valid_utf8_go n s = true → (n < m)%nat →
  unescape m (escape n s (String dq k)) = Some (s, k).
Proof.
  revert s m. induction n as [|n IH]; intros s m Hv Hm; destruct m as [|m]; try lia.
  { simpl in Hv. destruct s; [|done]. reflexivity. }
  simpl in Hv. simpl escape. destruct (decode_rune s) as [|c t|bytes t|t] eqn:E; [| | |done].
  - assert (s = "") as -> by (destruct s; [done|]; simpl in E; repeat case_match; done).
    reflexivity.
  - apply decode_rune_ascii in E as [-> Hc]. rewrite unescape_escape_ascii by done.
    rewrite IH by (done || lia). reflexivity.
  - destruct (decode_rune_multi _ _ _ E) as [-> Hdec].
    rewrite (unescape_escape_multi _ _ t) by done. rewrite IH by (done || lia). reflexivity.
Qed.

Lemma prepend_length l k : String.length (prepend l k) = (length l + String.length k)%nat.
Proof. induction l; simpl; congruence. Qed.

Lemma escape_ascii_length c X : (String.length X < String.length (escape_ascii c X))%nat.
Proof.
  unfold escape_ascii, escape_u00. repeat (case_decide; [simpl; lia|]).
  case_match; [rewrite prepend_length; simpl; lia|simpl; lia].
Qed.

Lemma escape_length n s k :
  valid_utf8_go n s = true →
  (String.length s + String.length k ≤ String.length (escape n s k))%nat.
Proof.
  revert s. induction n as [|n IH]; intros s Hv; simpl in *; [by destruct s|].
  destruct (decode_rune s) as [|c t|bytes t|t] eqn:E; [| | |done].
  - destruct s; simpl in *; [lia|]. repeat case_match; done.
  - apply decode_rune_ascii in E as [-> _].
    pose proof (escape_ascii_length c (escape n t k)). specialize (IH t Hv). simpl. lia.
  - apply decode_rune_multi in E as [-> _]. specialize (IH t Hv). rewrite prepend_length.
    unfold escape_multi. repeat case_decide; subst; rewrite prepend_length; simpl; lia.
Qed.

Lemma parse_print_string s k :
  valid_utf8 s = true → parse_string (print_string s k) = Some (s, k).
Proof.
  intros Hv. unfold print_string, parse_string. rewrite decide_True by done.
  apply unescape_escape; [done|].
  pose proof (escape_length _ s (String dq k) Hv). simpl in *. lia.
Qed.

Lemma print_string_length s k :
  valid_utf8 s = true → (2 + String.length k ≤ String.length (print_string s k))%nat.
Proof.
  intros Hv. unfold print_string. pose proof (escape_length _ s (String dq k) Hv). simpl in *. lia.
Qed.

(** ** Numbers round trip *)

(** What may follow a number without extending it. *)
Definition ends_number (k : string) : Prop :=
  match k with
  | EmptyString => True
  | String c _ => char_digit c = None ∧ c ≠ "."%char ∧ c ≠ "e"%char ∧ c ≠ "E"%char
  end.

Fixpoint all_digits (s : string) : Prop :=
  match s with
  | EmptyString => True
  | String c t => char_digit c ≠ None ∧ all_digits t
  end.

Lemma span_digits_app s k : all_digits s → ends_number k → span_digits (s +:+ k) = (s, k).
Proof.
  induction s as [|c s IH]; intros Hs Hk.
  - rewrite string_app_nil_l. destruct k as [|c k]; [done|]. simpl. by destruct Hk as [-> _].
  - rewrite string_app_cons. destruct Hs as [Hc Hs]. simpl. rewrite IH by done.
    by destruct (char_digit c).
Qed.

Lemma all_digits_pretty_go x s : all_digits s → all_digits (pretty.pretty_N_go x s).
Proof.
  revert s. induction (N.lt_wf_0 x) as [x _ IH]; intros s Hs.
  destruct (decide (x = 0)%N) as [->|Hx]; [by rewrite pretty.pretty_N_go_0|].
  rewrite pretty.pretty_N_go_step by lia. apply IH; [apply N.div_lt; lia|].
  simpl. split; [|done]. unfold char_digit.
  by rewrite is_nat_pretty_char by (apply N.mod_lt; lia).
Qed.

Lemma pretty_go_nonzero x s :
  (0 < x)%N → ∃ c t, pretty.pretty_N_go x s = String c t ∧ c ≠ "0"%char.
Proof.
  revert s. induction (N.lt_wf_0 x) as [x _ IH]; intros s Hx.
  rewrite pretty.pretty_N_go_step by lia.
  destruct (decide (x / 10 = 0)%N) as [E|E].
  - rewrite E, pretty.pretty_N_go_0. eexists _, _. split; [done|].
    assert (x < 10)%N as Hx10 by (apply N.div_small_iff in E; lia).
    rewrite N.mod_small by done. intros H%(f_equal Ascii.is_nat).
    rewrite is_nat_pretty_char in H by done. injection H as H. lia.
  - apply IH; [apply N.div_lt; lia|by apply N.neq_0_lt_0].
Qed.

Lemma frac_exp_part_end k :
  ends_number k → frac_part k = Some ("", k) ∧ exp_part k = Some ("", k).
Proof.
  destruct k as [|c k]; [done|]. intros (_ & H1 & H2 & H3). unfold frac_part, exp_part. simpl.
  rewrite (decide_False (P := "."%char = c)) by done.
  by rewrite decide_False by naive_solver.
Qed.

Lemma int_part_pretty (x : N) k :
  ends_number k → int_part (pretty.pretty x +:+ k) = Some (pretty.pretty x, k).
Proof.
  intros Hk. unfold pretty.pretty, pretty.pretty_N, int_part. case_decide as Hx; [done|].
  destruct (pretty_go_nonzero x "") as (c & t & E & Hc); [lia|].
  pose proof (all_digits_pretty_go x "" I) as Hd. rewrite E in *.
  rewrite string_app_cons. simpl take_char.
  rewrite (decide_False (P := "0"%char = c)) by done.
  rewrite <-string_app_cons. unfold digits1. by rewrite span_digits_app.
Qed.

Lemma number_magnitude_pretty (x : N) k :
  ends_number k → number_magnitude (pretty.pretty x +:+ k) = Some (pretty.pretty x, k).
Proof.
  intros Hk. unfold number_magnitude. rewrite int_part_pretty by done. cbn [mbind option_bind].
  destruct (frac_exp_part_end k Hk) as [-> He]. cbn [mbind option_bind]. rewrite He.
  cbn [mbind option_bind]. by rewrite !string_app_nil_r.
Qed.

Lemma parse_number_FormatInt z k :
  ends_number k → parse_number (FormatInt z +:+ k) = Some (FormatInt z, k).
Proof.
  intros Hk. unfold parse_number, FormatInt.
  assert (Hpos : ∀ x : N, take_char "-" (pretty.pretty x +:+ k) = None).
  { intros x. destruct (pretty_N_head x) as (c & t & -> & Hc). rewrite string_app_cons. simpl.
    rewrite decide_False; [done|]. intros <-. done. }
  destruct z as [|p|p].
  - exact (number_magnitude_pretty 0 k Hk).
  - change (pretty.pretty (Z.pos p)) with (pretty.pretty (N.pos p)).
    rewrite Hpos. by apply number_magnitude_pretty.
  - change (pretty.pretty (Z.neg p)) with ("-" +:+ pretty.pretty (N.pos p)).
    rewrite string_app_assoc. change ("-" +:+ (pretty.pretty (N.pos p) +:+ k))
      with (String "-" (pretty.pretty (N.pos p) +:+ k)).
    rewrite take_char_cons, number_magnitude_pretty by done. done.
Qed.

(** ** Values round trip *)

(** Values that [json.Marshal] produces faithfully: integer literals and valid
    UTF-8 text. *)
Fixpoint wf_json (j : json) : Prop :=
  match j with
  | JNull | JBool _ => True
  | JNum lit => ∃ z, lit = FormatInt z
  | JStr s => valid_utf8 s = true
  | JArr l => (fix go l := match l with [] => True | x :: l => wf_json x ∧ go l end) l
  | JObj l => (fix go l := match l with
                           | [] => True
                           | (f, x) :: l => valid_utf8 f = true ∧ wf_json x ∧ go l
                           end) l
  end.

Fixpoint jsize (j : json) : nat :=
  match j with
  | JNull | JBool _ | JNum _ | JStr _ => 1
  | JArr l => S ((fix go l := match l with [] => O | x :: l => jsize x + go l end) l)
  | JObj l => S ((fix go l := match l with [] => O | (_, x) :: l => jsize x + go l end) l)
  end.

Lemma jsize_pos j : (1 ≤ jsize j)%nat.
Proof. destruct j; simpl; lia. Qed.

Section json_induction.
Variable P : json → Prop.
Hypothesis Hnull : P JNull.
Hypothesis Hbool : ∀ b, P (JBool b).
Hypothesis Hnum : ∀ lit, P (JNum lit).
Hypothesis Hstr : ∀ s, P (JStr s).
Hypothesis Harr : ∀ l, Forall P l → P (JArr l).
Hypothesis Hobj : ∀ l, Forall (λ fx, P fx.2) l → P (JObj l).

Fixpoint json_nested_ind (j : json) : P j :=
  match j with
  | JNull => Hnull
  | JBool b => Hbool b
  | JNum lit => Hnum lit
  | JStr s => Hstr s
  | JArr l => Harr l ((fix go l : Forall P l := match l with
      | [] => Forall_nil_2 P
      | x :: l => Forall_cons_2 P x l (json_nested_ind x) (go l)
      end) l)
  | JObj l => Hobj l ((fix go l : Forall (λ fx, P fx.2) l := match l with
      | [] => Forall_nil_2 _
      | fx :: l => Forall_cons_2 _ fx l (json_nested_ind fx.2) (go l)
      end) l)
  end.
End json_induction.

Definition parses (j : json) : Prop :=
  wf_json j → ∀ n k, (jsize j ≤ n)%nat → ends_number k →
  parse_value n (print j k) = Some (j, k).

Lemma ends_number_sep c k : c ∈ [","; "]"; "}"]%char → ends_number (String c k).
Proof. rewrite !elem_of_cons, elem_of_nil. intros [->|[->|[->|[]]]]; done. Qed.

(** The text after the first element of a non-empty array, and of an object. *)
Definition print_tail (l : list json) (k : string) : string :=
  (fix go l := match l with
               | [] => String "]" k
               | x :: l => String "," (print x (go l))
               end) l.
Definition print_members (l : list (string * json)) (k : string) : string :=
  (fix go l := match l with
               | [] => String "}" k
               | (f, x) :: l => String "," (print_string f (String ":" (print x (go l))))
               end) l.

Lemma print_tail_ends l k : ends_number (print_tail l k).
Proof. destruct l; apply ends_number_sep; set_solver. Qed.
Lemma print_members_ends l k : ends_number (print_members l k).
Proof. destruct l as [|[]]; apply ends_number_sep; set_solver. Qed.

Lemma parse_elems_print n x l m k :
  Forall parses (x :: l) → wf_json (JArr (x :: l)) → (jsize (JArr (x :: l)) ≤ S n)%nat →
  (length (x :: l) ≤ m)%nat →
  parse_elems (parse_value n) m (print x (print_tail l k)) = Some (x :: l, k).
Proof.
  revert x m. induction l as [|y l IH]; intros x m HP Hwf Hn Hm;
    (destruct m as [|m]; [simpl in Hm; lia|]); apply Forall_cons in HP as [Hx HP];
    destruct Hwf as [Hwx Hwl]; simpl in Hn; cbn [parse_elems].
  - rewrite (Hx Hwx) by (lia || apply print_tail_ends). reflexivity.
  - rewrite (Hx Hwx) by (lia || apply print_tail_ends). cbn [mbind option_bind].
    cbn [print_tail skip_ws]. change (is_json_space ",") with false. cbv iota.
    rewrite decide_True by done. fold (print_tail l k).
    rewrite IH; [done|done|done| |simpl in *; lia]. simpl. pose proof (jsize_pos x). lia.
Qed.

Lemma parse_members_print n f x l m k :
  Forall (λ fx, parses fx.2) ((f, x) :: l) → wf_json (JObj ((f, x) :: l)) →
  (jsize (JObj ((f, x) :: l)) ≤ S n)%nat → (length ((f, x) :: l) ≤ m)%nat →
  parse_members (parse_value n) m (print_string f (String ":" (print x (print_members l k))))
  = Some ((f, x) :: l, k).
Proof.
  assert (Hskip : ∀ f t, skip_ws (print_string f t) = print_string f t) by done.
  assert (Hcolon : ∀ t, skip_ws (String ":" t) = String ":" t) by done.
  revert f x m. induction l as [|[g y] l IH]; intros f x m HP Hwf Hn Hm;
    (destruct m as [|m]; [simpl in Hm; lia|]); apply Forall_cons in HP as [Hx HP];
    destruct Hwf as (Hf & Hwx & Hwl); simpl in Hn, Hx; cbn [parse_members];
    rewrite Hskip, (parse_print_string _ _ Hf); cbn [mbind option_bind];
    rewrite Hcolon, take_char_cons; cbn [mbind option_bind];
    rewrite (Hx Hwx) by (lia || apply print_members_ends); cbn [mbind option_bind].
  - reflexivity.
  - cbn [print_members skip_ws]. change (is_json_space ",") with false. cbv iota.
    rewrite decide_True by done. fold (print_members l k).
    rewrite IH; [done|done|done| |simpl in *; lia]. simpl. pose proof (jsize_pos x). lia.
Qed.

Lemma FormatInt_head z :
  ∃ c t, FormatInt z = String c t ∧ (char_digit c ≠ None ∨ c = "-"%char).
Proof.
  assert (∀ x : N, ∃ c t, pretty.pretty x = String c t ∧ (char_digit c ≠ None ∨ c = "-"%char)) as H.
  { intros x. destruct (pretty_N_head x) as (c & t & E & Hc). exists c, t. split; [done|].
    left. unfold char_digit. by destruct (Ascii.is_nat c). }
  destruct z as [|p|p]; [exact (H 0%N)|exact (H (N.pos p))|].
  eexists _, _. split; [reflexivity|by right].
Qed.

(** A number's first character starts no other kind of value. *)
Lemma number_head_distinct c :
  char_digit c ≠ None ∨ c = "-"%char →
  is_json_space c = false ∧ c ∉ [dq; "["; "{"; "n"; "t"; "f"; "]"; "}"]%char.
Proof.
  intros H. assert (Ascii.is_nat c ≠ None ∨ c = "-"%char) as H'.
  { destruct H as [H|]; [left|by right]. unfold char_digit in H. by destruct (Ascii.is_nat c). }
  clear H. destruct H' as [H| ->].
  - destruct c as [[] [] [] [] [] [] [] []]; try done; split; try reflexivity; set_solver.
  - split; [reflexivity|set_solver].
Qed.

Lemma print_head j k :
  wf_json j →
  ∃ c t, print j k = String c t ∧ is_json_space c = false ∧ c ≠ "]"%char ∧ c ≠ "}"%char.
Proof.
  destruct j as [|[]|lit|s|[]|[|[]]]; intros Hwf;
    try by (eexists _, _; split; [reflexivity|]; split_and!; [reflexivity|done|done]).
  destruct Hwf as [z ->]. destruct (FormatInt_head z) as (c & t & E & Hc).
  destruct (number_head_distinct c Hc) as [Hsp Hne].
  exists c, (t +:+ k). simpl print. rewrite E, string_app_cons. split; [done|]. set_solver.
Qed.

Lemma skip_ws_print j k : wf_json j → skip_ws (print j k) = print j k.
Proof. intros H. destruct (print_head j k H) as (c & t & -> & Hsp & _). simpl. by rewrite Hsp. Qed.

Lemma take_char_print d j k :
  wf_json j → d = "]"%char ∨ d = "}"%char → take_char d (print j k) = None.
Proof.
  intros H Hd. destruct (print_head j k H) as (c & t & -> & _ & ? & ?). simpl.
  rewrite decide_False; [done|]. naive_solver.
Qed.

Lemma parses_number z : parses (JNum (FormatInt z)).
Proof.
  intros _ n k Hn Hk. destruct n as [|n]; [simpl in Hn; lia|].
  destruct (FormatInt_head z) as (c & t & E & Hc).
  destruct (number_head_distinct c Hc) as [Hsp Hne].
  pose proof (parse_number_FormatInt z k Hk) as Hp.
  simpl print. cbn [parse_value]. rewrite E in *. rewrite string_app_cons in *.
  cbn [skip_ws]. rewrite Hsp. repeat (rewrite decide_False by set_solver). by rewrite Hp.
Qed.

Lemma sum_jsize_length (l : list json) :
  (length l ≤ (fix go l := match l with [] => O | x :: l => jsize x + go l end) l)%nat.
Proof. induction l as [|x l IH]; simpl; [lia|]. pose proof (jsize_pos x). lia. Qed.
Lemma sum_jsize_length_obj (l : list (string * json)) :
  (length l ≤ (fix go l := match l with [] => O | (_, x) :: l => jsize x + go l end) l)%nat.
Proof. induction l as [|[f x] l IH]; simpl; [lia|]. pose proof (jsize_pos x). lia. Qed.

Lemma parses_all j : parses j.
Proof.
  induction j as [|b|lit|s|l Hl|l Hl] using json_nested_ind.
  - intros _ [|n] k Hn Hk; [simpl in Hn; lia|done].
  - intros _ [|n] k Hn Hk; [simpl in Hn; lia|]. by destruct b.
  - intros [z ->]. apply parses_number. by exists z.
  - intros Hwf [|n] k Hn Hk; [simpl in Hn; lia|]. simpl print. cbn [parse_value].
    change (skip_ws (print_string s k)) with (print_string s k).
    unfold print_string at 1. cbv iota beta. rewrite decide_True by done.
    by rewrite (parse_print_string s k Hwf).
  - intros Hwf [|n] k Hn Hk; [simpl in Hn; lia|]. destruct l as [|x l]; [done|].
    change (print (JArr (x :: l)) k) with (String "[" (print x (print_tail l k))).
    cbn [parse_value skip_ws]. change (is_json_space "[") with false. cbv iota beta zeta.
    rewrite decide_False by done. rewrite decide_True by done.
    assert (wf_json x) as Hx by apply Hwf. rewrite skip_ws_print, take_char_print by auto.
    rewrite parse_elems_print; [done|done|done|done|].
    pose proof (sum_jsize_length (x :: l)). simpl in *. lia.
  - intros Hwf [|n] k Hn Hk; [simpl in Hn; lia|]. destruct l as [|[f x] l]; [done|].
    change (print (JObj ((f, x) :: l)) k)
      with (String "{" (print_string f (String ":" (print x (print_members l k))))).
    cbn [parse_value skip_ws]. change (is_json_space "{") with false. cbv iota beta zeta.
    rewrite decide_False by done. rewrite decide_False by done. rewrite decide_True by done.
    change (take_char "}" (skip_ws (print_string f ?t))) with (@None string).
    rewrite parse_members_print; [done|done|done|done|].
    pose proof (sum_jsize_length_obj ((f, x) :: l)). simpl in *. lia.
Qed.

Lemma FormatInt_length z : (1 ≤ String.length (FormatInt z))%nat.
Proof. destruct (FormatInt_head z) as (c & t & -> & _). simpl. lia. Qed.

Lemma print_length j k : wf_json j → (jsize j + String.length k ≤ String.length (print j k))%nat.
Proof.
  revert k. induction j as [|b|lit|s|l Hl|l Hl] using json_nested_ind; intros k Hwf.
  - simpl. autorewrite with str. simpl. lia.
  - destruct b; simpl; autorewrite with str; simpl; lia.
  - destruct Hwf as [z ->]. simpl. rewrite string_app_length. pose proof (FormatInt_length z). lia.
  - pose proof (print_string_length s k Hwf). cbn [jsize print]. lia.
  - assert (Htail : ∀ l, Forall (λ j, ∀ k, wf_json j → (jsize j + String.length k ≤ String.length (print j k))%nat) l →
      wf_json (JArr l) → (jsize (JArr l) + String.length k ≤ String.length (print_tail l k))%nat).
    { clear. intros l Hl. induction Hl as [|x l Hx Hl IH]; intros Hwf; simpl; [lia|].
      destruct Hwf as [Hwx Hwl]. specialize (IH Hwl). specialize (Hx (print_tail l k) Hwx).
      fold (print_tail l k). simpl in IH. lia. }
    destruct l as [|x l]; [simpl; lia|]. exact (Htail (x :: l) Hl Hwf).
  - assert (Htail : ∀ l, Forall (λ fj, ∀ k, wf_json fj.2 → (jsize fj.2 + String.length k ≤ String.length (print fj.2 k))%nat) l →
      wf_json (JObj l) → (jsize (JObj l) + String.length k ≤ String.length (print_members l k))%nat).
    { clear. intros l Hl. induction Hl as [|[f x] l Hx Hl IH]; intros Hwf; simpl; [lia|].
      destruct Hwf as (Hf & Hwx & Hwl). specialize (IH Hwl). specialize (Hx (print_members l k) Hwx).
      pose proof (print_string_length f (String ":" (print x (print_members l k))) Hf).
      fold (print_members l k). simpl in *. lia. }
    destruct l as [|[f x] l]; [simpl; lia|]. exact (Htail ((f, x) :: l) Hl Hwf).
Qed.

(** Parsing what was printed gives the value back. *)
Lemma parse_print j : wf_json j → parse (print j "") = Some j.
Proof.
  intros Hwf. unfold parse. pose proof (print_length j "" Hwf).
  rewrite parses_all; [done|done|simpl in *; lia|done].
Qed.

(** ** Encoding and decoding of Go values *)

(** A slice: [None] is Go's nil slice, which prints as [null]. *)
Definition slice (A : Type) := option (list A).
Definition elems {A} (s : slice A) : list A := default [] s.

Definition type_error {A} : outcome A := Err (ErrMsg "json: cannot unmarshal").

Definition decode_string (old : string) (j : json) : outcome string :=
  match j with JStr s => Ok s | JNull => Ok old | _ => type_error end.
Definition decode_bool (old : bool) (j : json) : outcome bool :=
  match j with JBool b => Ok b | JNull => Ok old | _ => type_error end.
Definition decode_int (old : Z) (j : json) : outcome Z :=
  match j with
  | JNum lit => match ParseInt lit with Ok z => Ok z | _ => type_error end
  | JNull => Ok old
  | _ => type_error
  end.
Fixpoint decode_ints (l : list json) : outcome (list Z) :=
  match l with
  | [] => Ok []
  | j :: l => z ← decode_int 0 j; zs ← decode_ints l; Ok (z :: zs)
  end.
Definition decode_int_slice (j : json) : outcome (slice Z) :=
  match j with
  | JArr l => zs ← decode_ints l; Ok (Some zs)
  | JNull => Ok None
  | _ => type_error
  end.
Definition decode_time (old : Time) (j : json) : outcome Time :=
  match j with
  | JStr s => match parse_rfc3339 s with
              | Some t => Ok t
              | None => Err (ErrMsg "parsing time: cannot parse")
              end
  | JNull => Ok old
  | _ => Err (ErrMsg "Time.UnmarshalJSON: input is not a JSON string")
  end.

Definition encode_int (z : Z) : json := JNum (FormatInt z).
Definition encode_int_slice (s : slice Z) : json :=
  match s with Some l => JArr (map encode_int l) | None => JNull end.

Definition fold_case (s : string) : list N :=
  map (λ c, let b := byte_of c in if between 65 90 c then (b + 32)%N else b)
    (String.list_ascii_of_string s).
Definition field_named (name f : string) : bool := bool_decide (fold_case name = fold_case f).

(** Decode an object into a struct: each member in turn updates the field it
    names, members that name no field are skipped. *)
Definition decode_struct {A} (set_field : string → json → A → outcome A) (zero : A) (j : json)
    : outcome A :=
  match j with
  | JObj l => foldl (λ acc fx, a ← acc; set_field fx.1 fx.2 a) (Ok zero) l
  | JNull => Ok zero
  | _ => type_error
  end.

(** A Go type with its JSON encoding and decoding, and the values for which
    decoding inverts encoding. *)
Class JsonCodec (A : Type) := {
  json_encode : A → outcome json;
  json_decode : json → outcome A;
  json_ok : A → Prop;
  json_encode_wf a j : json_ok a → json_encode a = Ok j → wf_json j;
  json_decode_encode a j : json_ok a → json_encode a = Ok j → json_decode j = Ok a;
  json_encode_plain a : plain (json_encode a);
  json_decode_plain j : plain (json_decode j);
}.

Definition Marshal {A} `{JsonCodec A} (a : A) : outcome string :=
  j ← json_encode a; Ok (print j "").

Definition Unmarshal {A} `{JsonCodec A} (s : string) : outcome A :=
  match parse s with
  | Some j => json_decode j
  | None => Err (ErrMsg "invalid JSON")
  end.

Lemma Unmarshal_Marshal {A} `{JsonCodec A} (a : A) s :
  json_ok a → Marshal a = Ok s → Unmarshal s = Ok a.
Proof.
  unfold Marshal, Unmarshal. intros Ha. destruct (json_encode a) as [j| | |] eqn:E; [|done..].
  simpl. intros [= <-]. rewrite parse_print by eauto using json_encode_wf.
  eauto using json_decode_encode.
Qed.

Lemma Unmarshal_plain {A} `{JsonCodec A} s : plain (Unmarshal (A := A) s).
Proof. unfold Unmarshal. destruct (parse s); [apply json_decode_plain|done]. Qed.

Lemma Marshal_plain {A} `{JsonCodec A} (a : A) : plain (Marshal a).
Proof. apply plain_bind; [apply json_encode_plain|done]. Qed.

Lemma decode_struct_plain {A} (set_field : string → json → A → outcome A) zero j :
  (∀ f x a, plain (set_field f x a)) → plain (decode_struct set_field zero j).
Proof.
  intros Hs. destruct j as [| | | | |l]; try done. simpl.
  assert (∀ o, plain o → plain (foldl (λ acc fx, a ← acc; set_field fx.1 fx.2 a) o l)) as Hf.
  { induction l as [|x l IH]; intros o Ho; [done|]. simpl. apply IH. by apply plain_bind. }
  by apply Hf.
Qed.

Lemma decode_string_plain old j : plain (decode_string old j).
Proof. by destruct j. Qed.
Lemma decode_bool_plain old j : plain (decode_bool old j).
Proof. by destruct j. Qed.
Lemma decode_int_plain old j : plain (decode_int old j).
Proof. destruct j; simpl; try done. by case_match. Qed.
Lemma decode_ints_plain l : plain (decode_ints l).
Proof.
  induction l as [|j l IH]; [done|]. cbn [decode_ints]. apply plain_bind; [apply decode_int_plain|].
  intros z. by apply plain_bind.
Qed.
Lemma decode_int_slice_plain j : plain (decode_int_slice j).
Proof. destruct j; try done. apply plain_bind; [apply decode_ints_plain|done]. Qed.
Lemma decode_time_plain old j : plain (decode_time old j).
Proof. destruct j; simpl; try done. by case_match. Qed.

#[export] Hint Resolve decode_string_plain decode_bool_plain decode_int_plain
  decode_int_slice_plain decode_time_plain : neco.

(** A field setter made of the decoders above is plain. *)
Ltac solve_plain :=
  repeat match goal with
  | |- plain (if ?b then _ else _) => destruct b
  | |- plain (_ ≫= _) => apply plain_bind; [auto with neco|intros ?; exact I]
  end; try exact I.

Lemma decode_encode_int old z : in_int64 z → decode_int old (encode_int z) = Ok z.
Proof. intros Hz. simpl. by rewrite ParseInt_FormatInt. Qed.

Lemma decode_encode_ints l :
  Forall in_int64 l → decode_ints (map encode_int l) = Ok l.
Proof. induction 1; [done|]. cbn [decode_ints map]. rewrite decode_encode_int by done. by rewrite IHForall. Qed.

Lemma decode_encode_int_slice s :
  Forall in_int64 (elems s) → decode_int_slice (encode_int_slice s) = Ok s.
Proof. destruct s as [l|]; simpl; [|done]. intros. by rewrite decode_encode_ints. Qed.

Lemma wf_encode_int_slice s : wf_json (encode_int_slice s).
Proof. destruct s as [l|]; simpl; [|done]. induction l; simpl; eauto. Qed.

#[export] Hint Resolve decode_encode_int decode_encode_int_slice wf_encode_int_slice : neco.

(** ** Valid UTF-8 is closed under concatenation *)

Lemma valid_utf8_go_app n m s t :
  valid_utf8_go n s = true → valid_utf8_go m t = true → valid_utf8_go (n + m) (s +:+ t) = true.
Proof.
  revert s. induction n as [|n IH]; intros s Hs Ht; cbn [valid_utf8_go] in Hs.
  { destruct s; [|done]. by rewrite string_app_nil_l. }
  destruct (decode_rune s) as [|c u|bytes u|u] eqn:E; [| | |done].
  - assert (s = "") as -> by (destruct s; [done|]; simpl in E; repeat case_match; done).
    rewrite string_app_nil_l. clear IH. revert t Ht. generalize (S n) as k.
    intros k. revert m. assert (∀ m t, valid_utf8_go m t = true → valid_utf8_go (S m) t = true) as Hs1.
    { induction m as [|m IH]; intros t Ht; [by destruct t|].
      cbn [valid_utf8_go] in *. destruct (decode_rune t); try done; by apply IH. }
    induction k as [|k IH]; intros m t Ht; [done|]. cbn [Nat.add]. by apply Hs1, IH.
  - apply decode_rune_ascii in E as [-> Hc]. rewrite string_app_cons.
    cbn [Nat.add valid_utf8_go decode_rune]. rewrite (proj2 (N.ltb_lt _ _) Hc). by apply IH.
  - destruct (decode_rune_multi _ _ _ E) as [-> Hdec]. rewrite prepend_app, string_app_assoc.
    rewrite <-prepend_app. cbn [Nat.add valid_utf8_go]. rewrite Hdec. by apply IH.
Qed.

Lemma valid_utf8_app s t : valid_utf8 s = true → valid_utf8 t = true → valid_utf8 (s +:+ t) = true.
Proof. unfold valid_utf8. rewrite string_app_length. apply valid_utf8_go_app. Qed.

Lemma ascii_pretty_N_go x s : ascii_only s → ascii_only (pretty.pretty_N_go x s).
Proof.
  revert s. induction (N.lt_wf_0 x) as [x _ IH]; intros s Hs.
  destruct (decide (x = 0)%N) as [->|Hx]; [by rewrite pretty.pretty_N_go_0|].
  rewrite pretty.pretty_N_go_step by lia. apply IH; [apply N.div_lt; lia|]. split; [|done].
  assert (x `mod` 10 < 10)%N by (apply N.mod_lt; lia).
  destruct (x `mod` 10)%N as [|[[[|[]|]|[[]|[]|]|]|[[[]|[]|]|[[]|[]|]|]|]]; done || lia.
Qed.

Lemma valid_utf8_Itoa z : valid_utf8 (Itoa z) = true.
Proof.
  apply ascii_only_valid. unfold Itoa, pretty.pretty, pretty.pretty_Z, pretty.pretty_positive,
    pretty.pretty, pretty.pretty_N.
  destruct z as [|p|p]; [done|..].
  - case_decide; [done|]. by apply ascii_pretty_N_go.
  - split; [done|]. case_decide; [done|]. by apply ascii_pretty_N_go.
Qed.
