(* ===== verification/Types.v ===== *)
(** * The data shared by the neco programs

    [update.go], [types.go], [neco-rebooter.go] and [sleep.go] of the root package:
    the update request and status that travel through etcd, with their JSON
    codecs, artifact sets and container image names, reboot-list entries, and the
    bounded retry helper. *)
From S2P Require Import Prelude GoStr GoTime Json.

Local Open Scope Z_scope.

(** ** [update.go] *)
Definition NoneEnv := "none".
Definition TestEnv := "test".
Definition DevEnv := "dev".
Definition StagingEnv := "staging".
Definition ProdEnv := "prod".

Record UpdateRequest := {
  req_Version : string;
  req_Servers : slice Z;
  req_Stop : bool;
  req_StartedAt : Time;
}.

(** [UpdateRequest.IsMember]. *)
Definition IsMember (r : UpdateRequest) (lrn : Z) : bool :=
  existsb (λ n, n =? lrn) (elems (req_Servers r)).

(** [UpdateCondition] is an [int]; these are its named values. *)
Definition UpdateCondition := Z.
Definition CondNotRunning : UpdateCondition := 0.
Definition CondRunning : UpdateCondition := 1.
Definition CondAbort : UpdateCondition := 2.
Definition CondComplete : UpdateCondition := 3.

Definition UpdateCondition_String (c : UpdateCondition) : string :=
  if c =? CondNotRunning then "not running"
  else if c =? CondRunning then "running"
  else if c =? CondAbort then "aborted"
  else if c =? CondComplete then "completed"
  else "unknown".

Record UpdateStatus := {
  st_Version : string;
  st_Step : Z;
  st_Cond : UpdateCondition;
  st_Message : string;
}.

#[export] Instance UpdateRequest_eq_dec : EqDecision UpdateRequest.
Proof. unfold EqDecision, slice, Time. solve_decision. Defined.
#[export] Instance UpdateStatus_eq_dec : EqDecision UpdateStatus.
Proof. unfold UpdateCondition. solve_decision. Defined.

(** [UpdateCompleted]: every listed boot server reports completion of [version]. *)
Fixpoint UpdateCompleted (version : string) (lrns : list Z) (statuses : gmap Z UpdateStatus)
    : bool :=
  match lrns with
  | [] => true
  | lrn :: lrns =>
      match statuses !! lrn with
      | None => false
      | Some st =>
          if negb (bool_decide (st_Version st = version)) then false
          else if negb (st_Cond st =? CondComplete) then false
          else UpdateCompleted version lrns statuses
      end
  end.

Record ContentsUpdateStatus := { cu_Version : string; cu_Success : bool }.

(** ** [neco-rebooter.go] *)
Record RebootListEntry := {
  rl_Index : Z;
  rl_Node : string;
  rl_Group : string;
  rl_RebootTime : string;
  rl_Status : string;
}.
Definition RebootListEntryStatusPending := "Pending".
Definition RebootListEntryStatusQueued := "Queued".
Definition RebootListEntryStatusCancelled := "Cancelled".

#[export] Instance RebootListEntry_eq_dec : EqDecision RebootListEntry.
Proof. solve_decision. Defined.

(** ** JSON codecs of the stored structs (field names from the struct tags) *)
Definition set_request (f : string) (j : json) (r : UpdateRequest) : outcome UpdateRequest :=
  let '(Build_UpdateRequest v sv sp sa) := r in
  if field_named "version" f then x ← decode_string v j; Ok (Build_UpdateRequest x sv sp sa)
  else if field_named "servers" f then x ← decode_int_slice j; Ok (Build_UpdateRequest v x sp sa)
  else if field_named "stop" f then x ← decode_bool sp j; Ok (Build_UpdateRequest v sv x sa)
  else if field_named "started_at" f then x ← decode_time sa j; Ok (Build_UpdateRequest v sv sp x)
  else Ok r.

(** Go's zero [time.Time], January 1st of year 1. *)
Definition zero_time : Time := -62135596800 * Second.

Definition encode_request (r : UpdateRequest) : outcome json :=
  t ← format_rfc3339 (req_StartedAt r);
  Ok (JObj [("version", JStr (req_Version r)); ("servers", encode_int_slice (req_Servers r));
            ("stop", JBool (req_Stop r)); ("started_at", JStr t)]).

Definition request_ok (r : UpdateRequest) : Prop :=
  valid_utf8 (req_Version r) = true ∧ Forall in_int64 (elems (req_Servers r)).

(** The text of an instant is ASCII. *)
Lemma digit_char_ascii d : 0 ≤ d < 10 → (byte_of (digit_char d) < 128)%N.
Proof.
  intros Hd. assert (d ∈ [0;1;2;3;4;5;6;7;8;9]) as Hin by (rewrite !elem_of_cons; lia).
  repeat (apply elem_of_cons in Hin as [->|Hin]; [done|]). by apply not_elem_of_nil in Hin.
Qed.

Lemma ascii_dec_fixed n z acc : ascii_only acc → ascii_only (dec_fixed n z acc).
Proof.
  revert z acc. induction n as [|n IH]; intros z acc Hacc; [done|]. simpl.
  apply IH. split; [|done]. apply digit_char_ascii, Z.mod_pos_bound. lia.
Qed.

Lemma ascii_frac_digits n ns acc :
  0 ≤ ns < 10 ^ Z.of_nat n → ascii_only acc → ascii_only (frac_digits n ns acc).
Proof.
  revert ns. induction n as [|n IH]; intros ns Hns Hacc; [done|]. simpl.
  rewrite Nat2Z.inj_succ, Z.pow_succ_r in Hns by lia.
  assert (0 < 10 ^ Z.of_nat n) by (apply Z.pow_pos_nonneg; lia).
  case_match; [done|]. split.
  - apply digit_char_ascii. split; [apply Z.div_pos; lia|apply Z.div_lt_upper_bound; lia].
  - apply IH; [apply Z.mod_pos_bound; lia|done].
Qed.

Lemma ascii_format_rfc3339 t s : format_rfc3339 t = Ok s → valid_utf8 s = true.
Proof.
  unfold format_rfc3339. destruct (civil_of_days _) as [[y m] d]. case_match; [done|].
  intros [= <-]. apply ascii_only_valid. unfold rfc3339_text.
  repeat (apply ascii_dec_fixed; split; [done|]). apply ascii_dec_fixed.
  unfold fraction_text. case_match; [done|]. split; [done|].
  apply ascii_frac_digits; [|done]. change (10 ^ Z.of_nat 9) with Second.
  by apply Z.mod_pos_bound.
Qed.

(** Well-formedness of an encoded struct, field by field. *)
Ltac solve_wf :=
  simpl in *; split_and!;
  lazymatch goal with
  | |- ∃ _, _ = FormatInt _ => by eexists
  | |- _ => first [assumption|reflexivity|exact I]
  end.

#[export] Program Instance UpdateRequest_codec : JsonCodec UpdateRequest := {|
  json_encode := encode_request;
  json_decode := decode_struct set_request (Build_UpdateRequest "" None false zero_time);
  json_ok := request_ok;
|}.
Next Obligation.
  intros [v sv sp sa] j [Hv Hs]. unfold encode_request. simpl in *.
  destruct (format_rfc3339 sa) eqn:E; [|done..]. intros [= <-]. simpl.
  split_and!; auto with neco. eauto using ascii_format_rfc3339.
Qed.
Next Obligation.
  intros [v sv sp sa] j [Hv Hs]. unfold encode_request. simpl in *.
  destruct (format_rfc3339 sa) as [t| | |] eqn:E; [|done..]. intros [= <-]. simpl.
  rewrite decode_encode_int_slice by done. simpl. by rewrite (parse_format_rfc3339 _ _ E).
Qed.
Next Obligation. intros r. apply plain_bind; [|done]. unfold format_rfc3339. destruct (civil_of_days _) as [[]]. by case_match. Qed.
Next Obligation. intros j. apply decode_struct_plain. intros f x []. unfold set_request. solve_plain. Qed.

Definition set_status (f : string) (j : json) (st : UpdateStatus) : outcome UpdateStatus :=
  let '(Build_UpdateStatus v s c m) := st in
  if field_named "version" f then x ← decode_string v j; Ok (Build_UpdateStatus x s c m)
  else if field_named "step" f then x ← decode_int s j; Ok (Build_UpdateStatus v x c m)
  else if field_named "cond" f then x ← decode_int c j; Ok (Build_UpdateStatus v s x m)
  else if field_named "message" f then x ← decode_string m j; Ok (Build_UpdateStatus v s c x)
  else Ok st.

Definition encode_status (st : UpdateStatus) : outcome json :=
  Ok (JObj [("version", JStr (st_Version st)); ("step", encode_int (st_Step st));
            ("cond", encode_int (st_Cond st)); ("message", JStr (st_Message st))]).

Definition status_ok (st : UpdateStatus) : Prop :=
  valid_utf8 (st_Version st) = true ∧ in_int64 (st_Step st) ∧ in_int64 (st_Cond st)
  ∧ valid_utf8 (st_Message st) = true.

#[export] Program Instance UpdateStatus_codec : JsonCodec UpdateStatus := {|
  json_encode := encode_status;
  json_decode := decode_struct set_status (Build_UpdateStatus "" 0 0 "");
  json_ok := status_ok;
|}.
Next Obligation.
  intros [v s c m] j (Hv & Hs & Hc & Hm) [= <-]. solve_wf.
Qed.
Next Obligation.
  intros [v s c m] j (Hv & Hs & Hc & Hm) [= <-]. simpl in *.
  repeat (rewrite ParseInt_FormatInt by done; simpl). done.
Qed.
Next Obligation. done. Qed.
Next Obligation. intros j. apply decode_struct_plain. intros f x []. unfold set_status. solve_plain. Qed.

Definition set_contents (f : string) (j : json) (st : ContentsUpdateStatus)
    : outcome ContentsUpdateStatus :=
  let '(Build_ContentsUpdateStatus v b) := st in
  if field_named "version" f then x ← decode_string v j; Ok (Build_ContentsUpdateStatus x b)
  else if field_named "success" f then x ← decode_bool b j; Ok (Build_ContentsUpdateStatus v x)
  else Ok st.

#[export] Program Instance ContentsUpdateStatus_codec : JsonCodec ContentsUpdateStatus := {|
  json_encode st := Ok (JObj [("version", JStr (cu_Version st)); ("success", JBool (cu_Success st))]);
  json_decode := decode_struct set_contents (Build_ContentsUpdateStatus "" false);
  json_ok st := valid_utf8 (cu_Version st) = true;
|}.
Next Obligation. intros [v b] j Hv [= <-]. solve_wf. Qed.
Next Obligation. intros [v b] j Hv [= <-]. done. Qed.
Next Obligation. done. Qed.
Next Obligation. intros j. apply decode_struct_plain. intros f x []. unfold set_contents. solve_plain. Qed.

Definition set_entry (f : string) (j : json) (e : RebootListEntry) : outcome RebootListEntry :=
  let '(Build_RebootListEntry i n g t s) := e in
  if field_named "index" f then x ← decode_int i j; Ok (Build_RebootListEntry x n g t s)
  else if field_named "node" f then x ← decode_string n j; Ok (Build_RebootListEntry i x g t s)
  else if field_named "group" f then x ← decode_string g j; Ok (Build_RebootListEntry i n x t s)
  else if field_named "reboot_time" f then x ← decode_string t j; Ok (Build_RebootListEntry i n g x s)
  else if field_named "status" f then x ← decode_string s j; Ok (Build_RebootListEntry i n g t x)
  else Ok e.

Definition encode_entry (e : RebootListEntry) : outcome json :=
  Ok (JObj [("index", encode_int (rl_Index e)); ("node", JStr (rl_Node e));
            ("group", JStr (rl_Group e)); ("reboot_time", JStr (rl_RebootTime e));
            ("status", JStr (rl_Status e))]).

Definition entry_ok (e : RebootListEntry) : Prop :=
  in_int64 (rl_Index e) ∧ valid_utf8 (rl_Node e) = true ∧ valid_utf8 (rl_Group e) = true
  ∧ valid_utf8 (rl_RebootTime e) = true ∧ valid_utf8 (rl_Status e) = true.

#[export] Program Instance RebootListEntry_codec : JsonCodec RebootListEntry := {|
  json_encode := encode_entry;
  json_decode := decode_struct set_entry (Build_RebootListEntry 0 "" "" "" "");
  json_ok := entry_ok;
|}.
Next Obligation.
  intros [i n g t s] j (Hi & Hn & Hg & Ht & Hs) [= <-]. solve_wf.
Qed.
Next Obligation.
  intros [i n g t s] j (Hi & Hn & Hg & Ht & Hs) [= <-]. simpl in *.
  repeat (rewrite ParseInt_FormatInt by done; simpl). done.
Qed.
Next Obligation. done. Qed.
Next Obligation. intros j. apply decode_struct_plain. intros f x []. unfold set_entry. solve_plain. Qed.

(** ** Facts about requests and statuses *)
Lemma IsMember_spec r lrn : IsMember r lrn = true ↔ lrn ∈ elems (req_Servers r).
Proof.
  unfold IsMember. rewrite existsb_exists. setoid_rewrite Z.eqb_eq.
  setoid_rewrite <-list_elem_of_In. naive_solver.
Qed.

Definition completed_status (version : string) (st : UpdateStatus) : Prop :=
  st_Version st = version ∧ st_Cond st = CondComplete.

(** The updater's completion test holds exactly when every boot server of
    the request has a status that reports completion of the requested version. *)
Lemma UpdateCompleted_spec version lrns statuses :
  UpdateCompleted version lrns statuses = true ↔
  ∀ lrn, lrn ∈ lrns → ∃ st, statuses !! lrn = Some st ∧ completed_status version st.
Proof.
  unfold completed_status. induction lrns as [|lrn lrns IH]; simpl; [set_solver|].
  setoid_rewrite elem_of_cons. destruct (statuses !! lrn) as [st|] eqn:E.
  - case_bool_decide as Hv; simpl; [|naive_solver].
    destruct (Z.eqb_spec (st_Cond st) CondComplete); simpl; [|naive_solver].
    rewrite IH. naive_solver.
  - naive_solver.
Qed.

(** ** [types.go] *)
Record ContainerImage := {
  img_Name : string;
  img_Repository : string;
  img_Tag : string;
  img_Private : bool;
}.
Record DebianPackage := {
  deb_Name : string;
  deb_Owner : string;
  deb_Repository : string;
  deb_Release : string;
}.
Record OSImage := { os_Channel : string; os_Version : string }.
Record ArtifactSet := {
  as_Images : list ContainerImage;
  as_Debs : list DebianPackage;
  as_OSImage : OSImage;
}.

Fixpoint find_image (images : list ContainerImage) (name : string) : outcome ContainerImage :=
  match images with
  | [] => Err (ErrMsg "no such container")
  | img :: images => if decide (img_Name img = name) then Ok img else find_image images name
  end.
Definition FindContainerImage (a : ArtifactSet) (name : string) : outcome ContainerImage :=
  find_image (as_Images a) name.

Fixpoint find_deb (debs : list DebianPackage) (name : string) : outcome DebianPackage :=
  match debs with
  | [] => Err (ErrMsg "no such package")
  | deb :: debs => if decide (deb_Name deb = name) then Ok deb else find_deb debs name
  end.
Definition FindDebianPackage (a : ArtifactSet) (name : string) : outcome DebianPackage :=
  find_deb (as_Debs a) name.

Definition ParseContainerImageName (name : string) : outcome ContainerImage :=
  match Split ":" name with
  | [repo; tag] =>
      Ok {| img_Name := Base repo; img_Repository := repo; img_Tag := tag; img_Private := false |}
  | _ => Err (ErrMsg ("invalid image name: " +:+ name))
  end.

Definition FullName (c : ContainerImage) (hasSecret : bool) : string :=
  if hasSecret && img_Private c then img_Repository c +:+ "-secret:" +:+ img_Tag c
  else img_Repository c +:+ ":" +:+ img_Tag c.

Definition NeedAuth (c : ContainerImage) : bool :=
  if img_Private c then true else HasPrefix (img_Repository c) "quay.io/".

Definition URLs (c : OSImage) : string * string :=
  let base := "https://" +:+ os_Channel c +:+ ".release.flatcar-linux.net/amd64-usr/" +:+
              os_Version c in
  (base +:+ "/flatcar_production_pxe.vmlinuz", base +:+ "/flatcar_production_pxe_image.cpio.gz").

Definition no_colon (s : string) : Prop :=
  ∀ c, c ∈ String.list_ascii_of_string s → c ≠ ":"%char.

Lemma Split_none sep s :
  (∀ c, c ∈ String.list_ascii_of_string s → c ≠ sep) → Split sep s = [s].
Proof.
  induction s as [|c s IH]; intros Hs; [done|]. simpl. rewrite IH by set_solver.
  by rewrite decide_False by set_solver.
Qed.

(** The full name printed for an image parses back to the image's
    repository and tag. *)
Lemma ParseContainerImageName_FullName c :
  no_colon (img_Repository c) → no_colon (img_Tag c) →
  ParseContainerImageName (FullName c false) =
  Ok {| img_Name := Base (img_Repository c); img_Repository := img_Repository c;
        img_Tag := img_Tag c; img_Private := false |}.
Proof.
  intros Hr Ht. unfold ParseContainerImageName, FullName. simpl.
  change (":" +:+ img_Tag c) with (String ":" (img_Tag c)).
  by rewrite Split_app, Split_none by done.
Qed.

Lemma find_image_spec images name img :
  find_image images name = Ok img → img ∈ images ∧ img_Name img = name.
Proof.
  induction images as [|i images IH]; simpl; [done|]. case_decide; [|naive_solver set_solver].
  intros [= <-]. set_solver.
Qed.

(** ** [sleep.go] *)
Section retry.
Context {W : Type}.
(** [SleepContext(ctx, d)]: elapses, or fails with the context's error. *)
Variable SleepContext : M W unit.
Variable f : M W unit.
Variable logger : error → M W unit.

Fixpoint retry_loop (max : nat) (last : outcome unit) : M W unit :=
  match max with
  | O => lift last
  | S max =>
      r ← attempt f;
      match r with
      | inr _ => mret ()
      | inl err => _ ← logger err; _ ← SleepContext; retry_loop max (Err err)
      end
  end.

(** [RetryWithSleep]: [max] attempts, each failure logged and followed by a sleep. *)
Definition RetryWithSleep (max : nat) : M W unit := retry_loop max (Ok ()).
End retry.
