(* ===== verification/Etcd.v ===== *)
(** * etcd as neco uses it

    etcd is not part of the sources, so it is a parameter: the class [Etcd] lists
    the client calls that [storage/] makes, over an arbitrary world [W], and the
    class [EtcdLaws] states what the code relies on of them.  The laws are
    etcd's documented multi-version model: the store is the result of a log of
    committed transactions, each commit that changes something takes the next
    revision, reads see the log at some point no earlier than the call, a
    transaction's comparisons and operations act at one point of the log, a watch
    delivers the events of the log from a revision on, in order.  Other clients
    may commit anything before each call takes effect, and any call may fail
    (in which case it may or may not have taken effect).

    [Sim] is a concrete etcd with a scripted environment (commits of other clients
    and injected failures); [sim_laws] shows that the laws can hold. *)
From S2P Require Import Prelude GoStr.

Local Open Scope Z_scope.

(** ** The log and the store it determines *)
Inductive Event :=
  | EvPut (key value : string)
  | EvDelete (key : string).

#[export] Instance Event_eq_dec : EqDecision Event.
Proof. solve_decision. Defined.

Abbreviation Commit := (list Event).
Abbreviation Log := (list Commit).

Record Version := { ver_value : string; ver_mod : Z }.
Abbreviation Store := (gmap string Version).

(** A fresh etcd is at revision 1; every commit adds one. *)
Definition revision (l : Log) : Z := 1 + Z.of_nat (length l).

Definition apply_event (rev : Z) (m : Store) (ev : Event) : Store :=
  match ev with
  | EvPut k v => <[k := {| ver_value := v; ver_mod := rev |}]> m
  | EvDelete k => delete k m
  end.

Definition apply_commit (rev : Z) (m : Store) (c : Commit) : Store :=
  foldl (apply_event rev) m c.

Fixpoint replay (rev : Z) (m : Store) (l : Log) : Store :=
  match l with
  | [] => m
  | c :: l => replay (rev + 1) (apply_commit (rev + 1) m c) l
  end.

Definition store (l : Log) : Store := replay 1 ∅ l.

(** ** Requests and responses *)
Record KeyValue := { kv_key : string; kv_value : string; kv_mod : Z }.

(** [WithPrefix], [WithRev] (0 is the latest revision). *)
Record GetOpts := { get_prefix : bool; get_rev : Z }.
Definition opt_key : GetOpts := {| get_prefix := false; get_rev := 0 |}.
Definition opt_prefix : GetOpts := {| get_prefix := true; get_rev := 0 |}.
Definition opt_rev (rev : Z) : GetOpts := {| get_prefix := false; get_rev := rev |}.
Definition opt_prefix_rev (rev : Z) : GetOpts := {| get_prefix := true; get_rev := rev |}.

Record GetResponse := { resp_revision : Z; resp_kvs : list KeyValue }.

Inductive Cmp :=
  | ModRevisionEq (key : string) (rev : Z)
  | KeyExists (key : string).

Inductive Op :=
  | OpPut (key value : string)
  | OpDelete (key : string)
  | OpDeletePrefix (prefix : string).

(** [Succeeded], and the number of keys each operation of the taken branch deleted. *)
Record TxnResponse := { txn_succeeded : bool; txn_deleted : list Z }.

(** ** Reading *)
Definition matches (k : string) (pfx : bool) (key : string) : bool :=
  if pfx then HasPrefix key k else bool_decide (key = k).

(** The entries of a store under a key or prefix, in key order. *)
Definition range (k : string) (pfx : bool) (m : Store) : list KeyValue :=
  let l := filter (λ kv, matches k pfx (kv_key kv) = true)
             (map (λ '(key, v), {| kv_key := key; kv_value := ver_value v; kv_mod := ver_mod v |})
                (map_to_list m)) in
  merge_sort (λ a b, String.le (kv_key a) (kv_key b)) l.

(** The log as of a revision. *)
Definition log_at (rev : Z) (l : Log) : Log :=
  if rev =? 0 then l else take (Z.to_nat (rev - 1)) l.

Definition read (k : string) (o : GetOpts) (l : Log) : GetResponse :=
  {| resp_revision := revision l;
     resp_kvs := range k (get_prefix o) (store (log_at (get_rev o) l)) |}.

(** ** Transactions *)
Definition mod_revision (m : Store) (k : string) : Z :=
  match m !! k with Some v => ver_mod v | None => 0 end.

Definition eval_cmp (m : Store) (c : Cmp) : bool :=
  match c with
  | ModRevisionEq k rev => mod_revision m k =? rev
  | KeyExists k => bool_decide (is_Some (m !! k))
  end.

(** The events of one operation on a store. *)
Definition op_events (m : Store) (o : Op) : Commit :=
  match o with
  | OpPut k v => [EvPut k v]
  | OpDelete k => map (λ kv, EvDelete (kv_key kv)) (range k false m)
  | OpDeletePrefix p => map (λ kv, EvDelete (kv_key kv)) (range p true m)
  end.

Fixpoint ops_events (rev : Z) (m : Store) (ops : list Op) : Commit :=
  match ops with
  | [] => []
  | o :: ops => let c := op_events m o in c ++ ops_events rev (apply_commit rev m c) ops
  end.

Fixpoint ops_deleted (rev : Z) (m : Store) (ops : list Op) : list Z :=
  match ops with
  | [] => []
  | o :: ops =>
      let c := op_events m o in
      (match o with OpPut _ _ => 0 | _ => Z.of_nat (length c) end)
        :: ops_deleted rev (apply_commit rev m c) ops
  end.

(** Commit a list of operations; one that changes nothing takes no revision. *)
Definition commit (l : Log) (ops : list Op) : Log :=
  match ops_events (revision l + 1) (store l) ops with
  | [] => l
  | c => l ++ [c]
  end.

(** ** Watching *)
Record WatchEvent := { we_event : Event; we_rev : Z }.
Definition we_key (e : WatchEvent) : string :=
  match we_event e with EvPut k _ => k | EvDelete k => k end.

(** Key or prefix, and whether deletions or puts are filtered out. *)
Record WatchOpts := {
  wo_key : string;
  wo_prefix : bool;
  wo_filter_delete : bool;
  wo_filter_put : bool;
}.

Definition watched (o : WatchOpts) (ev : Event) : bool :=
  match ev with
  | EvPut k _ => matches (wo_key o) (wo_prefix o) k && negb (wo_filter_put o)
  | EvDelete k => matches (wo_key o) (wo_prefix o) k && negb (wo_filter_delete o)
  end.

(** The events of a log with the revision of their commits, from revision [rev]. *)
Fixpoint events_from (rev : Z) (l : Log) : list WatchEvent :=
  match l with
  | [] => []
  | c :: l => map (λ ev, {| we_event := ev; we_rev := rev |}) c ++ events_from (rev + 1) l
  end.

(** The watched events of the commits with revisions in [[lo, hi)]. *)
Definition watch_slice (o : WatchOpts) (lo hi : Z) (l : Log) : list WatchEvent :=
  filter (λ e, watched o (we_event e) = true ∧ lo ≤ we_rev e < hi) (events_from 2 l).

(** One receive from a watch channel: events and the next revision to deliver, a
    response that carries an error, or a closed channel with [ctx.Err()]. *)
Inductive Recv :=
  | RecvEvents (events : list WatchEvent) (next : Z)
  | RecvErr (e : error)
  | RecvClosed (ctx_err : option error).

(** ** The interface *)
Class Etcd (W : Type) := {
  etcd_get : string → GetOpts → M W GetResponse;
  etcd_put : string → string → M W unit;
  etcd_delete : string → M W unit;
  etcd_txn : list Cmp → list Op → M W TxnResponse;
  etcd_recv : WatchOpts → Z → M W Recv;
}.

#[export] Hint Mode Etcd ! : typeclass_instances.

(** Errors of the etcd client are none of neco's sentinel errors. *)
Definition client_error (e : error) : Prop :=
  match e with
  | ErrDeadlineExceeded | ErrCanceled | ErrMsg _ => True
  | _ => False
  end.

(** How a call ends when it does not succeed: with a client error. *)
Definition fails_ok {A} (o : outcome A) : Prop :=
  match o with Err e => client_error e | _ => False end.

Class EtcdLaws (W : Type) `{Etcd W} := {
  view : W → Log;
  get_law w k o w' r :
    etcd_get k o w = (w', r) → view w `prefix_of` view w' ∧
    match r with Ok resp => resp = read k o (view w') | _ => fails_ok r end;
  put_law w k v w' r :
    etcd_put k v w = (w', r) → view w `prefix_of` view w' ∧
    match r with
    | Ok _ => ∃ l, view w `prefix_of` l ∧ view w' = commit l [OpPut k v]
    | _ => fails_ok r
    end;
  delete_law w k w' r :
    etcd_delete k w = (w', r) → view w `prefix_of` view w' ∧
    match r with
    | Ok _ => ∃ l, view w `prefix_of` l ∧ view w' = commit l [OpDelete k]
    | _ => fails_ok r
    end;
  txn_law w cs ops w' r :
    etcd_txn cs ops w = (w', r) → view w `prefix_of` view w' ∧
    match r with
    | Ok resp => ∃ l, view w `prefix_of` l ∧
        if forallb (eval_cmp (store l)) cs then
          view w' = commit l ops ∧
          resp = {| txn_succeeded := true;
                    txn_deleted := ops_deleted (revision l + 1) (store l) ops |}
        else view w' = l ∧ resp = {| txn_succeeded := false; txn_deleted := [] |}
    | _ => fails_ok r
    end;
  recv_law w o rev w' r :
    etcd_recv o rev w = (w', r) → view w `prefix_of` view w' ∧
    match r with
    | Ok (RecvEvents evs next) =>
        rev ≤ next ≤ revision (view w') + 1 ∧ evs = watch_slice o rev next (view w')
    | Ok (RecvErr e) => client_error e
    | Ok (RecvClosed oe) => match oe with Some e => client_error e | None => True end
    | Running => True
    | _ => False
    end;
}.

#[export] Hint Mode EtcdLaws ! - : typeclass_instances.

(** ** Facts about logs and stores *)
Lemma replay_app rev m l1 l2 :
  replay rev m (l1 ++ l2) = replay (rev + Z.of_nat (length l1)) (replay rev m l1) l2.
Proof.
  revert rev m. induction l1 as [|c l1 IH]; intros rev m; cbn [replay app length].
  - by rewrite Z.add_0_r.
  - rewrite IH. f_equal. lia.
Qed.

Lemma store_snoc l c : store (l ++ [c]) = apply_commit (revision l + 1) (store l) c.
Proof. unfold store. by rewrite replay_app. Qed.

Lemma revision_app l l' : revision (l ++ l') = revision l + Z.of_nat (length l').
Proof. unfold revision. rewrite length_app. lia. Qed.

Lemma prefix_revision l l' : l `prefix_of` l' → revision l ≤ revision l'.
Proof. intros [k ->]. rewrite revision_app. lia. Qed.

Lemma apply_commit_lookup rev m c k v :
  apply_commit rev m c !! k = Some v → m !! k = Some v ∨ ver_mod v = rev.
Proof.
  unfold apply_commit. revert m. induction c as [|ev c IH]; intros m; simpl; [by left|].
  intros [H|H]%IH; [|by right]. destruct ev as [k' v'|k']; simpl in H.
  - apply lookup_insert_Some in H as [[-> <-]|[_ H]]; auto.
  - apply lookup_delete_Some in H as [_ H]. auto.
Qed.

Lemma store_mod_bounds l k v : store l !! k = Some v → 2 ≤ ver_mod v ≤ revision l.
Proof.
  revert k v. induction l as [|c l IH] using rev_ind; intros k v.
  { unfold store. simpl. by rewrite lookup_empty. }
  rewrite store_snoc, revision_app. intros [H|H]%apply_commit_lookup.
  - apply IH in H. simpl. lia.
  - unfold revision in *. simpl. lia.
Qed.

Lemma store_old_version l l' k v :
  l `prefix_of` l' → store l' !! k = Some v → ver_mod v ≤ revision l → store l !! k = Some v.
Proof.
  intros [ext ->]. revert v. induction ext as [|c ext IH] using rev_ind; intros v.
  { by rewrite app_nil_r. }
  rewrite app_assoc, store_snoc. intros [H|H]%apply_commit_lookup Hle; [by apply IH|].
  rewrite revision_app in H. lia.
Qed.

(** A key whose modification revision is unchanged has not been touched: this is
    what the compare-and-swap loops of [storage/] rely on. *)
Lemma mod_revision_stable l l' k :
  l `prefix_of` l' → mod_revision (store l') k = mod_revision (store l) k →
  store l' !! k = store l !! k.
Proof.
  intros Hp. unfold mod_revision.
  destruct (store l' !! k) as [v'|] eqn:E', (store l !! k) as [v|] eqn:E; intros Hm; try done.
  - rewrite <-E. symmetry. eapply store_old_version; [done|done|].
    apply store_mod_bounds in E. lia.
  - apply store_mod_bounds in E'. lia.
  - apply store_mod_bounds in E. lia.
Qed.

(** What an operation does to a store. *)
Definition exec_op (rev : Z) (m : Store) (o : Op) : Store :=
  match o with
  | OpPut k v => <[k := {| ver_value := v; ver_mod := rev |}]> m
  | OpDelete k => delete k m
  | OpDeletePrefix p => filter (λ kv, HasPrefix kv.1 p = false) m
  end.

Lemma lookup_filter_prefix p (m : Store) k :
  filter (λ kv, HasPrefix kv.1 p = false) m !! k = if HasPrefix k p then None else m !! k.
Proof.
  rewrite map_lookup_filter. destruct (m !! k) as [v|]; simpl.
  - destruct (HasPrefix k p) eqn:E.
    + by rewrite option_guard_False.
    + by rewrite option_guard_True.
  - by destruct (HasPrefix k p).
Qed.

Lemma elem_of_range k pfx m kv :
  kv ∈ range k pfx m ↔
  matches k pfx (kv_key kv) = true ∧
  m !! kv_key kv = Some {| ver_value := kv_value kv; ver_mod := kv_mod kv |}.
Proof.
  unfold range. rewrite merge_sort_Permutation, list_elem_of_filter, list_elem_of_In, in_map_iff.
  setoid_rewrite <-list_elem_of_In. split.
  - intros (Hm & [key v] & <- & Hin). apply elem_of_map_to_list in Hin. simpl in *. by destruct v.
  - intros [Hm Hl]. split; [done|]. exists (kv_key kv, Build_Version (kv_value kv) (kv_mod kv)).
    split; [by destruct kv|]. by apply elem_of_map_to_list.
Qed.

Lemma apply_deletes rev m ks :
  apply_commit rev m (map EvDelete ks) = foldr delete m ks.
Proof.
  unfold apply_commit. revert m. induction ks as [|k ks IH]; intros m; simpl; [done|].
  rewrite IH. clear IH. induction ks as [|k' ks IH]; simpl; [done|].
  rewrite IH. apply delete_delete.
Qed.

Lemma lookup_foldr_delete (m : Store) ks k :
  foldr delete m ks !! k = if decide (k ∈ ks) then None else m !! k.
Proof.
  induction ks as [|k' ks IH]; cbn [foldr]; [by rewrite decide_False by set_solver|].
  destruct (decide (k = k')) as [->|Hne].
  - rewrite lookup_delete_eq. by rewrite decide_True by set_solver.
  - rewrite lookup_delete_ne by done. rewrite IH. repeat case_decide; set_solver.
Qed.

Lemma map_delete_keys (l : list KeyValue) :
  map (λ kv, EvDelete (kv_key kv)) l = map EvDelete (map kv_key l).
Proof. by rewrite map_map. Qed.

Lemma elem_of_range_keys k pfx m key :
  key ∈ map kv_key (range k pfx m) ↔ matches k pfx key = true ∧ is_Some (m !! key).
Proof.
  rewrite list_elem_of_In, in_map_iff. setoid_rewrite <-list_elem_of_In.
  setoid_rewrite elem_of_range. split.
  - intros (kv & <- & Hm & Hl). eauto.
  - intros [Hm [v Hv]]. exists (Build_KeyValue key (ver_value v) (ver_mod v)). simpl.
    by destruct v.
Qed.

Lemma apply_commit_op rev m o : apply_commit rev m (op_events m o) = exec_op rev m o.
Proof.
  destruct o as [k v|k|p]; simpl; [done|..];
    rewrite map_delete_keys, apply_deletes; apply map_eq; intros key;
    rewrite lookup_foldr_delete.
  - rewrite lookup_delete. destruct (decide (k = key)) as [->|Hne].
    + case_decide as Hin; [done|]. rewrite elem_of_range_keys in Hin.
      destruct (m !! key) eqn:E; [|done]. contradict Hin. simpl. rewrite bool_decide_eq_true. eauto.
    + rewrite decide_False; [done|]. rewrite elem_of_range_keys. simpl.
      rewrite bool_decide_eq_true. naive_solver.
  - rewrite lookup_filter_prefix. case_decide as Hin; rewrite elem_of_range_keys in Hin; simpl in Hin.
    + by destruct Hin as [-> _].
    + destruct (HasPrefix key p); [|done]. destruct (m !! key) eqn:E; [|done]. naive_solver.
Qed.

Lemma apply_commit_app rev m c1 c2 :
  apply_commit rev m (c1 ++ c2) = apply_commit rev (apply_commit rev m c1) c2.
Proof. unfold apply_commit. by rewrite foldl_app. Qed.

Lemma apply_commit_ops rev m ops :
  apply_commit rev m (ops_events rev m ops) = foldl (exec_op rev) m ops.
Proof.
  revert m. induction ops as [|o ops IH]; intros m; simpl; [done|].
  by rewrite apply_commit_app, IH, apply_commit_op.
Qed.

(** Committing operations changes the store the way the operations say. *)
Lemma store_commit l ops :
  store (commit l ops) = foldl (exec_op (revision l + 1)) (store l) ops.
Proof.
  rewrite <-apply_commit_ops. unfold commit.
  destruct (ops_events _ _ _); [done|]. by rewrite store_snoc.
Qed.

Lemma commit_prefix l ops : l `prefix_of` commit l ops.
Proof. unfold commit. destruct (ops_events _ _ _); [done|]. by eexists. Qed.

Lemma commit_put l k v : commit l [OpPut k v] = l ++ [[EvPut k v]].
Proof. done. Qed.

Lemma range_keys_NoDup k pfx m : NoDup (map kv_key (range k pfx m)).
Proof.
  unfold range. rewrite merge_sort_Permutation.
  pose proof (NoDup_fst_map_to_list m) as Hfst. revert Hfst. generalize (map_to_list m).
  induction l as [|[key v] l IH]; intros Hnd; [constructor|].
  apply NoDup_cons in Hnd as [Hn Hnd]. cbn [map filter list_filter].
  case_decide; [|by apply IH]. cbn [map kv_key]. constructor; [|by apply IH].
  intros Hin. apply Hn. rewrite list_elem_of_In, in_map_iff in Hin.
  destruct Hin as (kv & Hk & Hf). apply list_elem_of_In, list_elem_of_filter in Hf as [_ Hf].
  rewrite list_elem_of_In, in_map_iff in Hf. destruct Hf as ([k' v'] & <- & Hf). simpl in Hk.
  subst k'. apply list_elem_of_fmap. exists (key, v'). split; [done|]. by apply list_elem_of_In.
Qed.

Lemma range_key k m :
  range k false m =
  match m !! k with
  | Some v => [{| kv_key := k; kv_value := ver_value v; kv_mod := ver_mod v |}]
  | None => []
  end.
Proof.
  assert (∀ kv, kv ∈ range k false m ↔
    kv_key kv = k ∧ m !! k = Some (Build_Version (kv_value kv) (kv_mod kv))) as Hin.
  { intros kv. rewrite elem_of_range. simpl. rewrite bool_decide_eq_true. naive_solver. }
  pose proof (range_keys_NoDup k false m) as Hnd.
  destruct (m !! k) as [v|] eqn:E.
  - destruct (range k false m) as [|a [|b l]] eqn:Er.
    + assert (Build_KeyValue k (ver_value v) (ver_mod v) ∈ @nil KeyValue) as H.
      { apply Hin. simpl. by destruct v. }
      by apply not_elem_of_nil in H.
    + destruct (proj1 (Hin a)) as [<- Ha]; [set_solver|]. injection Ha as ->. by destruct a.
    + destruct (proj1 (Hin a)) as [Ha _]; [set_solver|].
      destruct (proj1 (Hin b)) as [Hb _]; [set_solver|].
      simpl in Hnd. apply NoDup_cons in Hnd as [Hnd _]. contradict Hnd. rewrite Ha, Hb. set_solver.
  - destruct (range k false m) as [|a l]; [done|].
    destruct (proj1 (Hin a)) as [_ Ha]; [set_solver|done].
Qed.

Lemma range_sorted k pfx m :
  StronglySorted (λ a b, String.le (kv_key a) (kv_key b)) (range k pfx m).
Proof.
  unfold range. apply StronglySorted_merge_sort.
  - intros a b c. apply (PreOrder_Transitive (R := String.le)).
  - intros a b. apply String.le_total.
Qed.

Lemma log_at_0 l : log_at 0 l = l.
Proof. done. Qed.

(** Reading at the revision of a point of the log gives that point. *)
Lemma log_at_prefix l l' : l `prefix_of` l' → log_at (revision l) l' = l.
Proof.
  intros [k ->]. unfold log_at, revision. rewrite (proj2 (Z.eqb_neq _ _)) by lia.
  replace (Z.to_nat (1 + Z.of_nat (length l) - 1)) with (length l) by lia.
  apply take_app_length.
Qed.

Lemma resp_kvs_key k l :
  resp_kvs (read k opt_key l) =
  match store l !! k with
  | Some v => [{| kv_key := k; kv_value := ver_value v; kv_mod := ver_mod v |}]
  | None => []
  end.
Proof. apply range_key. Qed.

(** ** A concrete etcd *)
Record Sim := {
  sim_log : Log;
  sim_env : list Log;      (* commits of other clients before each call *)
  sim_fail : list bool;    (* which calls fail *)
}.

Definition sim_call {A} (f : Log → Log * outcome A) : M Sim A := λ w,
  let l := sim_log w ++ hd [] (sim_env w) in
  if hd false (sim_fail w) then
    ({| sim_log := l; sim_env := tl (sim_env w); sim_fail := tl (sim_fail w) |},
     Err (ErrMsg "etcdserver: request timed out"))
  else
    let '(l', r) := f l in
    ({| sim_log := l'; sim_env := tl (sim_env w); sim_fail := tl (sim_fail w) |}, r).

Definition sim_txn (cs : list Cmp) (ops : list Op) (l : Log) : Log * outcome TxnResponse :=
  if forallb (eval_cmp (store l)) cs then
    (commit l ops, Ok {| txn_succeeded := true;
                         txn_deleted := ops_deleted (revision l + 1) (store l) ops |})
  else (l, Ok {| txn_succeeded := false; txn_deleted := [] |}).

Definition sim_recv (o : WatchOpts) (rev : Z) (l : Log) : Log * outcome Recv :=
  match watch_slice o rev (revision l + 1) l with
  | [] => (l, Running)
  | evs => if rev <=? revision l + 1 then (l, Ok (RecvEvents evs (revision l + 1))) else (l, Running)
  end.

(** A receive blocks rather than fails. *)
Definition sim_receive (o : WatchOpts) (rev : Z) : M Sim Recv := λ w,
  let l := sim_log w ++ hd [] (sim_env w) in
  let '(l', r) := sim_recv o rev l in
  ({| sim_log := l'; sim_env := tl (sim_env w); sim_fail := sim_fail w |}, r).

#[export] Instance Sim_etcd : Etcd Sim := {
  etcd_get k o := sim_call (λ l, (l, Ok (read k o l)));
  etcd_put k v := sim_call (λ l, (commit l [OpPut k v], Ok ()));
  etcd_delete k := sim_call (λ l, (commit l [OpDelete k], Ok ()));
  etcd_txn cs ops := sim_call (sim_txn cs ops);
  etcd_recv := sim_receive;
}.

#[export] Program Instance Sim_laws : EtcdLaws Sim := { view := sim_log }.
Next Obligation.
  intros [l env fl] k o w' r. simpl. unfold sim_call. simpl.
  destruct (hd false fl); intros [= <- <-]; simpl; (split; [by eexists|done]).
Qed.
Next Obligation.
  intros [l env fl] k v w' r. simpl. unfold sim_call. simpl.
  destruct (hd false fl); intros [= <- <-]; simpl.
  - split; [by eexists|done].
  - split; [etrans; [by eexists|apply commit_prefix]|]. exists (l ++ hd [] env).
    split; [by eexists|done].
Qed.
Next Obligation.
  intros [l env fl] k w' r. simpl. unfold sim_call. simpl.
  destruct (hd false fl); intros [= <- <-]; simpl.
  - split; [by eexists|done].
  - split; [etrans; [by eexists|apply commit_prefix]|]. exists (l ++ hd [] env).
    split; [by eexists|done].
Qed.
Next Obligation.
  intros [l env fl] cs ops w' r. simpl. unfold sim_call, sim_txn. simpl.
  destruct (hd false fl); [intros [= <- <-]; simpl; split; [by eexists|done]|].
  destruct (forallb _ cs) eqn:E; intros [= <- <-]; simpl.
  - split; [etrans; [by eexists|apply commit_prefix]|]. exists (l ++ hd [] env).
    split; [by eexists|]. by rewrite E.
  - split; [by eexists|]. exists (l ++ hd [] env). split; [by eexists|]. by rewrite E.
Qed.
Next Obligation.
  intros [l env fl] o rev w' r. simpl. unfold sim_receive, sim_recv. simpl.
  destruct (watch_slice o rev _ _) eqn:E; [intros [= <- <-]; simpl; split; [by eexists|done]|].
  destruct (Z.leb_spec rev (revision (l ++ hd [] env) + 1)); intros [= <- <-]; simpl;
    (split; [by eexists|]); [|done]. split; [lia|done].
Qed.

(** The laws as used in proofs: each call extends the view, and a successful one
    acts at a point of the log. *)
Section law_lemmas.
Context {W : Type} `{EtcdLaws W}.
Implicit Types (w : W).

Lemma get_ok w k o w' resp :
  etcd_get k o w = (w', Ok resp) → view w `prefix_of` view w' ∧ resp = read k o (view w').
Proof. intros E. exact (get_law _ _ _ _ _ E). Qed.

Lemma get_err w k o w' e :
  etcd_get k o w = (w', Err e) → view w `prefix_of` view w' ∧ client_error e.
Proof. intros E. exact (get_law _ _ _ _ _ E). Qed.

Lemma put_ok w k v w' :
  etcd_put k v w = (w', Ok tt) →
  ∃ l, view w `prefix_of` l ∧ view w' = l ++ [[EvPut k v]].
Proof. intros E%put_law. destruct E as (_ & l & ? & ->). eauto. Qed.

Lemma delete_ok w k w' :
  etcd_delete k w = (w', Ok tt) →
  ∃ l, view w `prefix_of` l ∧ view w' = commit l [OpDelete k].
Proof. intros E%delete_law. destruct E as (_ & l & ? & ->). eauto. Qed.

Lemma txn_ok w cs ops w' resp :
  etcd_txn cs ops w = (w', Ok resp) →
  ∃ l, view w `prefix_of` l ∧ txn_succeeded resp = forallb (eval_cmp (store l)) cs ∧
    (if txn_succeeded resp then
       view w' = commit l ops ∧
       txn_deleted resp = ops_deleted (revision l + 1) (store l) ops
     else view w' = l).
Proof.
  intros E%txn_law. destruct E as (_ & l & Hp & E). exists l. split; [done|].
  destruct (forallb _ cs); destruct E as [? ->]; simpl; auto.
Qed.

Lemma etcd_extends :
  (∀ k o w (w' : W) r, etcd_get k o w = (w', r) → view w `prefix_of` view w') ∧
  (∀ k v w (w' : W) r, etcd_put k v w = (w', r) → view w `prefix_of` view w') ∧
  (∀ k w (w' : W) r, etcd_delete k w = (w', r) → view w `prefix_of` view w') ∧
  (∀ cs ops w (w' : W) r, etcd_txn cs ops w = (w', r) → view w `prefix_of` view w') ∧
  (∀ o rev w (w' : W) r, etcd_recv o rev w = (w', r) → view w `prefix_of` view w').
Proof.
  split_and!; intros *; [intros []%get_law|intros []%put_law|intros []%delete_law
    |intros []%txn_law|intros []%recv_law]; done.
Qed.
End law_lemmas.
