(* ===== verification/Worlds.v ===== *)
(** * Worlds with local state, and reasoning about runs

    A component with fields of its own runs in [W * S]: the outside world and the
    fields, which keep what was assigned to them when a later call fails.  [wp] is a
    weakest precondition over runs whose invariant holds wherever the code stops.  The
    clock and the cron library, which several programs share, are classes here; what a
    theorem needs of them is a hypothesis of that theorem. *)
From S2P Require Import Prelude GoStr GoTime Etcd.

(** ** A world with local state *)
Definition on_world {W S A} (m : M W A) : M (W * S) A := λ ws,
  let '(w', r) := m ws.1 in ((w', ws.2), r).
Definition get_local {W S} : M (W * S) S := λ ws, (ws, Ok ws.2).
Definition put_local {W S} (s : S) : M (W * S) unit := λ ws, ((ws.1, s), Ok ()).

(** Run a computation with its local state starting at [s]. *)
Definition with_local {W S A} (s : S) (m : M (W * S) A) : M W A := λ w,
  let '((w', _), r) := m (w, s) in (w', r).

#[export] Instance local_etcd {W S} `{Etcd W} : Etcd (W * S) := {
  etcd_get k o := on_world (etcd_get k o);
  etcd_put k v := on_world (etcd_put k v);
  etcd_delete k := on_world (etcd_delete k);
  etcd_txn cs ops := on_world (etcd_txn cs ops);
  etcd_recv o rev := on_world (etcd_recv o rev);
}.

Lemma on_world_inv {W S A} (m : M W A) (v v' : W * S) r :
  on_world m v = (v', r) ↔ m v.1 = (v'.1, r) ∧ v'.2 = v.2.
Proof.
  unfold on_world. destruct (m v.1) as [w' r'], v' as [w'' s'']. simpl. naive_solver.
Qed.

#[export] Program Instance local_laws {W S} `{EtcdLaws W} : EtcdLaws (W * S) := {
  view v := view v.1
}.
Next Obligation. intros ????????? [E _]%on_world_inv. by apply get_law in E. Qed.
Next Obligation. intros ????????? [E _]%on_world_inv. by apply put_law in E. Qed.
Next Obligation. intros ???????? [E _]%on_world_inv. by apply delete_law in E. Qed.
Next Obligation. intros ????????? [E _]%on_world_inv. by apply txn_law in E. Qed.
Next Obligation. intros ????????? [E _]%on_world_inv. by apply recv_law in E. Qed.

(** ** Weakest preconditions *)
Section wp.
Context {V : Type} (I : V → Prop).

(** A run from [v] ends with [Q], or stops early where [I] holds. *)
Definition wp {A} (m : M V A) (v : V) (Q : A → V → Prop) : Prop :=
  match m v with (v', Ok a) => Q a v' | (v', _) => I v' end.

Lemma wp_ret {A} (a : A) v (Q : A → V → Prop) : Q a v → wp (mret a) v Q.
Proof. done. Qed.
Lemma wp_bind {A B} (m : M V A) (f : A → M V B) v Q :
  wp m v (λ a v', wp (f a) v' Q) → wp (m ≫= f) v Q.
Proof. unfold wp, mbind, M_bind. by destruct (m v) as [v' [a|e|y|]]. Qed.
Lemma wp_mono {A} (m : M V A) v (Q Q' : A → V → Prop) :
  wp m v Q → (∀ a v', Q a v' → Q' a v') → wp m v Q'.
Proof. unfold wp. destruct (m v) as [v' [a|e|y|]]; eauto. Qed.
Lemma wp_lift {A} (o : outcome A) v (Q : A → V → Prop) :
  I v → (∀ a, o = Ok a → Q a v) → wp (lift o) v Q.
Proof. unfold wp, lift. destruct o; eauto. Qed.
Lemma wp_for_each {A} (R : V → Prop) (l : list A) (m : A → M V unit) v :
  R v → (∀ x v, x ∈ l → R v → wp (m x) v (λ _, R)) → wp (for_each l m) v (λ _, R).
Proof.
  revert v. induction l as [|x l IH]; intros v HR Hm; [done|]. simpl. apply wp_bind.
  eapply wp_mono; [apply Hm; [apply list_elem_of_here|done]|]. intros [] v' HR'. apply IH; [done|].
  intros y v1 Hy. apply Hm. by apply list_elem_of_further.
Qed.
End wp.

(** ** Traced worlds

    [Traced E W] is a world [W] with a record of what was done to it, in the order it
    was done.  Code that runs at any world runs the same at [Traced E W], so what is
    proved of its record there, for every [W], is proved of the code. *)
Record Traced (E W : Type) := { tr_world : W; tr_log : list E }.
Arguments tr_world {E W} t.
Arguments tr_log {E W} t.

(** Run [m] and record [eff] of the outcome. *)
Definition traced {E W A} (eff : outcome A → list E) (m : M W A) : M (Traced E W) A := λ t,
  let '(w', r) := m (tr_world t) in
  ({| tr_world := w'; tr_log := tr_log t ++ eff r |}, r).

Definition log_of {E W S} (v : Traced E W * S) : list E := tr_log v.1.
Definition logged {E W S} (v : Traced E W * S) (es : list E) (v' : Traced E W * S) : Prop :=
  log_of v' = log_of v ++ es ∧ v'.2 = v.2.

(** A recorded call: the record grows by what the call did, and the local state stays. *)
Lemma wp_traced {E W S A} (I : Traced E W * S → Prop) eff (m : M W A) v (Q : A → Traced E W * S → Prop) :
  (∀ v' r, logged v (eff r) v' → match r with Ok a => Q a v' | _ => I v' end) →
  wp I (on_world (traced eff m)) v Q.
Proof.
  intros HQ. unfold wp, on_world, traced. destruct (m (tr_world v.1)) as [w' r].
  specialize (HQ ({| tr_world := w'; tr_log := tr_log v.1 ++ eff r |}, v.2) r).
  destruct r; apply HQ; done.
Qed.

Lemma wp_try {E W S A} (I : Traced E W * S → Prop) eff (m : M W A) v (Q : error + A → Traced E W * S → Prop) :
  (∀ v' r, logged v (eff r) v' →
     match r with Ok a => Q (inr a) v' | Err e => Q (inl e) v' | _ => I v' end) →
  wp I (attempt (on_world (traced eff m))) v Q.
Proof.
  intros HQ. unfold wp, attempt, on_world, traced. destruct (m (tr_world v.1)) as [w' r].
  specialize (HQ ({| tr_world := w'; tr_log := tr_log v.1 ++ eff r |}, v.2) r).
  destruct r; apply HQ; done.
Qed.

(** Records in which each entry is permitted by the entries before it. *)
Section justified.
Context {E : Type} (permits : list E → E → Prop).
Inductive justified : list E → Prop :=
  | justified_nil : justified []
  | justified_snoc t x : justified t → permits t x → justified (t ++ [x]).

Lemma justified_lookup t x : justified t → x ∈ t → ∃ t1 t2, t = t1 ++ x :: t2 ∧ permits t1 x.
Proof.
  induction 1 as [|t y Ht IH Hy]; [by intros ?%not_elem_of_nil|].
  intros [Hx|Hx%list_elem_of_singleton]%elem_of_app; [|subst; eauto].
  destruct (IH Hx) as (t1 & t2 & -> & Hp). exists t1, (t2 ++ [y]). by rewrite <-app_assoc.
Qed.
Lemma justified_app t es :
  justified t → (∀ x t', x ∈ es → t ⊆ t' → permits t' x) → justified (t ++ es).
Proof.
  revert t. induction es as [|x es IH]; intros t Ht Hes; [by rewrite app_nil_r|].
  rewrite cons_middle, app_assoc. apply IH.
  - apply justified_snoc; [done|]. apply Hes; [apply list_elem_of_here|done].
  - intros y t' Hy Hsub. apply Hes; [by apply list_elem_of_further|]. set_solver.
Qed.
End justified.

(** ** Reads

    Code that runs on a traced world as it does on the plain one and records nothing. *)
Section quiet.
Context {E W S : Type}.
Definition quiet {A} (m : M (Traced E W * S) A) (m' : M W A) : Prop := ∀ v v' r,
  m v = (v', r) → m' (tr_world v.1) = (tr_world v'.1, r) ∧ logged v [] v'.

Lemma quiet_traced {A} (m : M W A) : quiet (on_world (traced (λ _, []) m)) m.
Proof.
  intros v v' r. unfold on_world, traced. destruct (m (tr_world v.1)) as [w' r'].
  intros [= <- <-]. done.
Qed.
Lemma quiet_const {A} (o : outcome A) : quiet (λ v, (v, o)) (λ w, (w, o)).
Proof. intros v v' r [= <- <-]. split; [done|]. unfold logged. by rewrite app_nil_r. Qed.
Lemma quiet_bind {A B} (m : M (Traced E W * S) A) m' (f : A → M (Traced E W * S) B) f' :
  quiet m m' → (∀ a, quiet (f a) (f' a)) → quiet (m ≫= f) (m' ≫= f').
Proof.
  intros Hm Hf v v' r. unfold mbind, M_bind. destruct (m v) as [v1 r1] eqn:E1.
  apply Hm in E1 as [E1 [Hl Hs]]. rewrite E1.
  destruct r1; [intros [E2 [Hl' Hs']]%Hf|intros [= <- <-]..]; [|done..].
  split; [done|]. unfold logged. by rewrite Hl', Hl, app_nil_r, Hs', Hs.
Qed.
(** On the world's side of the pair. *)
Lemma quiet_world_bind {A B} (m : M (Traced E W) A) m' (f : A → M (Traced E W) B) f' :
  quiet (on_world m) m' → (∀ a, quiet (on_world (f a)) (f' a)) → quiet (on_world (m ≫= f)) (m' ≫= f').
Proof.
  intros Hm Hf v v' r HE. apply (quiet_bind (on_world m) m' (λ a, on_world (f a)) f' Hm Hf). rewrite <-HE.
  unfold mbind, M_bind, on_world. by destruct (m v.1) as [t [a|e|y|]].
Qed.
Lemma quiet_world_const {A} (o : outcome A) : quiet (on_world (λ t, (t, o))) (λ w, (w, o)).
Proof. intros v v' r [= <- <-]. split; [done|]. unfold logged. by rewrite app_nil_r. Qed.
Lemma quiet_attempt {A} (m : M (Traced E W * S) A) m' : quiet m m' → quiet (attempt m) (attempt m').
Proof.
  intros Hm v v' r. unfold attempt. destruct (m v) as [v1 r1] eqn:E1.
  apply Hm in E1 as [E1 Hl]. rewrite E1. destruct r1; by intros [= <- <-].
Qed.
(** A quiet call that starts with an empty record. *)
Lemma quiet_bind_inv {A B} (m : M (Traced E W * S) A) m' (f : A → M (Traced E W * S) B) v v' r :
  quiet m m' → (m ≫= f) v = (v', r) → log_of v = [] →
  log_of v' = [] ∨ ∃ a v1, m' (tr_world v.1) = (tr_world v1.1, Ok a) ∧ log_of v1 = [] ∧
    v1.2 = v.2 ∧ f a v1 = (v', r).
Proof.
  intros Hm HE Hv. revert HE. unfold mbind, M_bind. destruct (m v) as [v1 r1] eqn:E1.
  apply Hm in E1 as [E1 [Hl Hs]]. rewrite Hv in Hl. destruct r1; [eauto 10|intros [= <- <-]; auto..].
Qed.
Lemma wp_quiet {A} (I : Traced E W * S → Prop) (m : M (Traced E W * S) A) m' v Q :
  quiet m m' →
  (∀ v' r, logged v [] v' → match r with Ok a => Q a v' | _ => I v' end) → wp I m v Q.
Proof.
  intros Hm HQ. unfold wp. destruct (m v) as [v' r] eqn:E1. apply Hm in E1 as [_ Hl].
  specialize (HQ v' r Hl). by destruct r.
Qed.
End quiet.

(** ** The clock and the cron library *)

(** robfig/cron: [Next] gives the next activation after an instant in a zone. *)
Class Cron := {
  Schedule : Type;
  Location : Type;
  ParseStandard : string → outcome Schedule;
  LoadLocation : string → outcome Location;
  Next : Schedule → Location → Time → Time;
}.

Class Clock (W : Type) := {
  clock_now : M W Time;
  (* [select] on the context and a timer: whether the timer fired *)
  clock_after : Duration → M W bool;
}.
