(* ===== verification/Storage.v ===== *)
(** * neco's storage layer ([storage/])

    Keys, typed reads and writes, leader-guarded transactions, compare-and-swap
    loops, snapshots and waits, each translated from the function of the same name
    over the etcd interface.  A [goto RETRY] loop takes the number of iterations it
    may run as fuel. *)
From S2P Require Import Prelude GoStr GoTime Json Types Etcd.

Local Open Scope Z_scope.

(** ** [keys.go] *)
Definition KeySabakanStateSetterLeader := "leader/sabakan-state-setter/".
Definition KeyUpdaterLeader := "leader/updater/".
Definition KeyWorkerLeader := "leader/worker/".
Definition KeyNecoRebooterLeader := "leader/neco-rebooter/".
Definition KeyInfoPrefix := "info/".
Definition KeyBootserversPrefix := "info/bootservers/".
Definition KeyNecoRelease := "info/neco-release".
Definition KeySSHPubkey := "info/ssh-pubkey".
Definition KeyStatusPrefix := "status/".
Definition KeyCurrent := "status/current".
Definition KeyWorkerStatusPrefix := "status/bootservers/".
Definition KeyContentsPrefix := "contents/".
Definition KeySabakanContents := "contents/sabakan".
Definition KeyCKEContents := "contents/cke".
Definition KeyDHCPJSONContents := "contents/dhcp.json".
Definition KeyCKETemplateContents := "contents/cke-template".
Definition KeyUserResourcesContents := "contents/user-resources".
Definition KeyConfigPrefix := "config/".
Definition KeyNotificationSlack := "config/notification/slack".
Definition KeyProxy := "config/proxy".
Definition KeyEnv := "config/env".
Definition KeyCheckUpdateInterval := "config/check-update-interval".
Definition KeyWorkerTimeout := "config/worker-timeout".
Definition KeyGitHubToken := "config/github-token".
Definition KeyNodeProxy := "config/node-proxy".
Definition KeyExternalIPAddressBlock := "config/external-ip-address-block".
Definition KeyLBAddressBlockDefault := "config/lb-address-block-default".
Definition KeyLBAddressBlockBastion := "config/lb-address-block-bastion".
Definition KeyLBAddressBlockInternet := "config/lb-address-block-internet".
Definition KeyLBAddressBlockInternetCN := "config/lb-address-block-internet-cn".
Definition KeyReleaseTime := "config/release-time".
Definition KeyReleaseTimeZone := "config/release-timezone".
Definition KeyVaultUnsealKey := "vault-unseal-key".
Definition KeyVaultRootToken := "vault-root-token".
Definition KeyFinishPrefix := "finish/".
Definition KeyInstallPrefix := "install/".
Definition KeyBMCBMCUser := "bmc/bmc-user".
Definition KeyBMCIPMIUser := "bmc/ipmi-user".
Definition KeyBMCIPMIPassword := "bmc/ipmi-password".
Definition KeyBMCRepairUser := "bmc/repair-user".
Definition KeyBMCRepairPassword := "bmc/repair-password".
Definition KeyTeleportAuthToken := "teleport/auth-token".
Definition KeyCKEWeight := "cke/weight".
Definition KeyNecoRebooterRebootList := "neco-rebooter/reboot-list/".
Definition KeyNecoRebooterWriteIndex := "neco-rebooter/write-index".
Definition KeyNecoRebooterProcessingGroup := "neco-rebooter/processing-group".
Definition KeyNecoRebooterIsEnabled := "neco-rebooter/is-enabled".

Definition keyBootServer (lrn : Z) : string := KeyBootserversPrefix +:+ Itoa lrn.
Definition keyInstall (lrn : Z) : string := KeyInstallPrefix +:+ Itoa lrn.
Definition keyStatus (lrn : Z) : string := KeyWorkerStatusPrefix +:+ Itoa lrn.
Definition keyFinish (lrn : Z) : string := KeyFinishPrefix +:+ Itoa lrn.
(** The formats are [install/%d/containers/%s] and [install/%d/debs/%s]. *)
Definition keyContainer (lrn : Z) (name : string) : string :=
  "install/" +:+ Itoa lrn +:+ "/containers/" +:+ name.
Definition keyDeb (lrn : Z) (name : string) : string :=
  "install/" +:+ Itoa lrn +:+ "/debs/" +:+ name.

(** [key[len(prefix):]] of a key found under the prefix; too short a key panics. *)
Definition key_suffix (prefix key : string) : outcome string :=
  match slice_from (String.length prefix) key with
  | Some s => Ok s
  | None => Panic "slice bounds out of range"
  end.

Section storage.
Context {W : Type} `{Etcd W}.

(** ** [crud.go] *)
Definition get (key : string) : M W string :=
  resp ← etcd_get key opt_key;
  match resp_kvs resp with
  | [] => fail ErrNotFound
  | kv :: _ => mret (kv_value kv)
  end.
Definition put (key value : string) : M W unit := etcd_put key value.
Definition del (key : string) : M W unit := etcd_delete key.

(** A read of one key whose value is a JSON document. *)
Definition get_json {A} `{JsonCodec A} (key : string) : M W A :=
  resp ← etcd_get key opt_key;
  match resp_kvs resp with
  | [] => fail ErrNotFound
  | kv :: _ => lift (Unmarshal (kv_value kv))
  end.

(** A transaction that requires the caller to hold the leader key. *)
Definition leader_txn (leaderKey : string) (ops : list Op) : M W unit :=
  resp ← etcd_txn [KeyExists leaderKey] ops;
  if txn_succeeded resp then mret () else fail ErrNoLeader.

(** ** [bmc.go] *)
Definition PutBMCBMCUser (value : string) : M W unit := put KeyBMCBMCUser value.
Definition GetBMCBMCUser : M W string := get KeyBMCBMCUser.
Definition PutBMCIPMIUser (value : string) : M W unit := put KeyBMCIPMIUser value.
Definition GetBMCIPMIUser : M W string := get KeyBMCIPMIUser.
Definition PutBMCIPMIPassword (value : string) : M W unit := put KeyBMCIPMIPassword value.
Definition GetBMCIPMIPassword : M W string := get KeyBMCIPMIPassword.
Definition PutBMCRepairUser (value : string) : M W unit := put KeyBMCRepairUser value.
Definition GetBMCRepairUser : M W string := get KeyBMCRepairUser.
Definition PutBMCRepairPassword (value : string) : M W unit := put KeyBMCRepairPassword value.
Definition GetBMCRepairPassword : M W string := get KeyBMCRepairPassword.

(** ** [ssh.go] *)
Definition PutSSHPubkey (value : string) : M W unit := put KeySSHPubkey value.
Definition GetSSHPubkey : M W string := get KeySSHPubkey.

(** ** [teleport.go] *)
Definition GetTeleportAuthToken : M W string := get KeyTeleportAuthToken.
Definition PutTeleportAuthToken (value : string) : M W unit := put KeyTeleportAuthToken value.

(** ** [vault.go] *)
Definition GetVaultUnsealKey : M W string := get KeyVaultUnsealKey.
Definition PutVaultUnsealKey (value : string) : M W unit := put KeyVaultUnsealKey value.
Definition DeleteVaultUnsealKey : M W unit := del KeyVaultUnsealKey.
Definition GetVaultRootToken : M W string := get KeyVaultRootToken.
Definition PutVaultRootToken (value : string) : M W unit := put KeyVaultRootToken value.
Definition DeleteVaultRootToken : M W unit := del KeyVaultRootToken.

(** ** [config.go] *)
Definition PutEnvConfig (value : string) : M W unit := put KeyEnv value.
Definition PutSlackNotification (value : string) : M W unit := put KeyNotificationSlack value.
Definition GetSlackNotification : M W string := get KeyNotificationSlack.
Definition PutProxyConfig (value : string) : M W unit := put KeyProxy value.
Definition GetProxyConfig : M W string := get KeyProxy.
Definition PutGitHubToken (value : string) : M W unit := put KeyGitHubToken value.
Definition GetGitHubToken : M W string := get KeyGitHubToken.
Definition PutNodeProxy (value : string) : M W unit := put KeyNodeProxy value.
Definition GetNodeProxy : M W string := get KeyNodeProxy.
Definition PutExternalIPAddressBlock (value : string) : M W unit := put KeyExternalIPAddressBlock value.
Definition GetExternalIPAddressBlock : M W string := get KeyExternalIPAddressBlock.
Definition PutLBAddressBlockDefault (value : string) : M W unit := put KeyLBAddressBlockDefault value.
Definition GetLBAddressBlockDefault : M W string := get KeyLBAddressBlockDefault.
Definition PutLBAddressBlockBastion (value : string) : M W unit := put KeyLBAddressBlockBastion value.
Definition GetLBAddressBlockBastion : M W string := get KeyLBAddressBlockBastion.
Definition PutLBAddressBlockInternet (value : string) : M W unit := put KeyLBAddressBlockInternet value.
Definition GetLBAddressBlockInternet : M W string := get KeyLBAddressBlockInternet.
Definition PutLBAddressBlockInternetCN (value : string) : M W unit := put KeyLBAddressBlockInternetCN value.
Definition GetLBAddressBlockInternetCN : M W string := get KeyLBAddressBlockInternetCN.
Definition PutReleaseTime (value : string) : M W unit := put KeyReleaseTime value.
Definition GetReleaseTime : M W string := get KeyReleaseTime.
Definition PutReleaseTimeZone (value : string) : M W unit := put KeyReleaseTimeZone value.
Definition GetReleaseTimeZone : M W string := get KeyReleaseTimeZone.

Definition DefaultCheckUpdateInterval : Duration := 1 * Minute.
Definition DefaultWorkerTimeout : Duration := 60 * Minute.

Definition GetEnvConfig : M W string :=
  r ← attempt (get KeyEnv);
  match r with
  | inl ErrNotFound => mret NoneEnv
  | inl e => fail e
  | inr env => mret env
  end.

Definition get_duration (key : string) (def : Duration) : M W Duration :=
  r ← attempt (get key);
  match r with
  | inl ErrNotFound => mret def
  | inl e => fail e
  | inr data => lift (ParseInt data)
  end.

Definition PutCheckUpdateInterval (d : Duration) : M W unit :=
  put KeyCheckUpdateInterval (FormatInt d).
Definition GetCheckUpdateInterval : M W Duration :=
  get_duration KeyCheckUpdateInterval DefaultCheckUpdateInterval.
Definition PutWorkerTimeout (d : Duration) : M W unit := put KeyWorkerTimeout (FormatInt d).
Definition GetWorkerTimeout : M W Duration := get_duration KeyWorkerTimeout DefaultWorkerTimeout.

(** ** [contents.go] *)
Definition getContentsUpdateStatus (key : string) : M W ContentsUpdateStatus := get_json key.
Definition putContentsUpdateStatus (key : string) (st : ContentsUpdateStatus)
    (leaderKey : string) : M W unit :=
  data ← lift (Marshal st); leader_txn leaderKey [OpPut key data].

Definition GetSabakanContentsStatus : M W ContentsUpdateStatus :=
  getContentsUpdateStatus KeySabakanContents.
Definition PutSabakanContentsStatus (st : ContentsUpdateStatus) (leaderKey : string) : M W unit :=
  putContentsUpdateStatus KeySabakanContents st leaderKey.
Definition GetCKEContentsStatus : M W ContentsUpdateStatus :=
  getContentsUpdateStatus KeyCKEContents.
Definition PutCKEContentsStatus (st : ContentsUpdateStatus) (leaderKey : string) : M W unit :=
  putContentsUpdateStatus KeyCKEContents st leaderKey.
Definition GetDHCPJSONContentsStatus : M W ContentsUpdateStatus :=
  getContentsUpdateStatus KeyDHCPJSONContents.
Definition PutDHCPJSONContentsStatus (st : ContentsUpdateStatus) (leaderKey : string) : M W unit :=
  putContentsUpdateStatus KeyDHCPJSONContents st leaderKey.
Definition GetCKETemplateContentsStatus : M W ContentsUpdateStatus :=
  getContentsUpdateStatus KeyCKETemplateContents.
Definition PutCKETemplateContentsStatus (st : ContentsUpdateStatus) (leaderKey : string) : M W unit :=
  putContentsUpdateStatus KeyCKETemplateContents st leaderKey.
Definition GetUserResourcesContentsStatus : M W ContentsUpdateStatus :=
  getContentsUpdateStatus KeyUserResourcesContents.
Definition PutUserResourcesContentsStatus (st : ContentsUpdateStatus) (leaderKey : string) : M W unit :=
  putContentsUpdateStatus KeyUserResourcesContents st leaderKey.

(** ** [info.go] *)
Definition RegisterBootserver (lrn : Z) : M W unit := etcd_put (keyBootServer lrn) "".

Definition DeleteBootServer (lrn : Z) : M W unit :=
  resp ← etcd_txn [] [OpDelete (keyBootServer lrn); OpDeletePrefix (keyInstall lrn)];
  match txn_deleted resp with
  | deleted :: _ => if deleted =? 0 then fail ErrNotFound else mret ()
  | [] => panic "index out of range"
  end.

Definition UpdateNecoRelease (version leaderKey : string) : M W unit :=
  leader_txn leaderKey [OpPut KeyNecoRelease version].

Definition GetNecoRelease : M W string :=
  resp ← etcd_get KeyNecoRelease opt_key;
  match resp_kvs resp with
  | [] => mret ""
  | kv :: _ => mret (kv_value kv)
  end.

(** [resp := <-ch; return resp.Err()]: a closed channel yields a zero response,
    which carries no error. *)
Definition receive_err (o : WatchOpts) (rev : Z) : M W unit :=
  r ← etcd_recv o rev;
  match r with
  | RecvErr e => fail e
  | RecvEvents _ _ | RecvClosed _ => mret ()
  end.

Definition WaitInfo (rev : Z) : M W unit :=
  receive_err {| wo_key := KeyInfoPrefix; wo_prefix := true;
                 wo_filter_delete := false; wo_filter_put := false |} (rev + 1).

(** ** [setup.go] *)
Definition Finish (lrn stage : Z) : M W unit := etcd_put (keyFinish lrn) (Itoa stage).

Fixpoint finished_lrns (stage : Z) (kvs : list KeyValue) : outcome (list Z) :=
  match kvs with
  | [] => Ok []
  | kv :: kvs =>
      current ← Atoi (kv_value kv);
      if negb (current =? stage) then finished_lrns stage kvs
      else
        suffix ← key_suffix KeyFinishPrefix (kv_key kv);
        lrn ← Atoi suffix; lrns ← finished_lrns stage kvs; Ok (lrn :: lrns)
  end.

Definition GetFinished (stage : Z) : M W (list Z) :=
  resp ← etcd_get KeyFinishPrefix opt_prefix;
  lift (finished_lrns stage (resp_kvs resp)).

(** ** [storage.go] *)
Section artifacts.
(** [neco.CurrentArtifacts], the generated table of [artifacts.go]. *)
Variable CurrentArtifacts : ArtifactSet.

Definition RecordContainerTag (lrn : Z) (name : string) : M W unit :=
  img ← lift (FindContainerImage CurrentArtifacts name);
  etcd_put (keyContainer lrn name) (img_Tag img).
Definition RecordDebVersion (lrn : Z) (name : string) : M W unit :=
  deb ← lift (FindDebianPackage CurrentArtifacts name);
  etcd_put (keyDeb lrn name) (deb_Release deb).
End artifacts.

Definition GetContainerTag (lrn : Z) (name : string) : M W string := get (keyContainer lrn name).
Definition GetDebVersion (lrn : Z) (name : string) : M W string := get (keyDeb lrn name).

Definition PutRequest (req : UpdateRequest) (leaderKey : string) : M W unit :=
  data ← lift (Marshal req); leader_txn leaderKey [OpPut KeyCurrent data].

Definition PutReconfigureRequest (req : UpdateRequest) (leaderKey : string) : M W unit :=
  data ← lift (Marshal req);
  leader_txn leaderKey [OpPut KeyCurrent data; OpDeletePrefix KeyWorkerStatusPrefix].

(** The four results of [GetRequestWithRev]. *)
Record RequestWithRev := {
  rr_req : option UpdateRequest;
  rr_modRev : Z;
  rr_rev : Z;
  rr_err : option error;
}.

Definition GetRequestWithRev : M W RequestWithRev :=
  r ← attempt (etcd_get KeyCurrent opt_key);
  match r with
  | inl e => mret {| rr_req := None; rr_modRev := 0; rr_rev := 0; rr_err := Some e |}
  | inr resp =>
      match resp_kvs resp with
      | [] => mret {| rr_req := None; rr_modRev := 0; rr_rev := resp_revision resp;
                      rr_err := Some ErrNotFound |}
      | kv :: _ =>
          match Unmarshal (kv_value kv) with
          | Ok req => mret {| rr_req := Some req; rr_modRev := kv_mod kv;
                              rr_rev := resp_revision resp; rr_err := None |}
          | Err e => mret {| rr_req := None; rr_modRev := 0; rr_rev := 0; rr_err := Some e |}
          | Panic why => panic why
          | Running => blocked
          end
      end
  end.

(** The request and its revisions, or the error, as most callers use it. *)
Definition get_request_rev : M W (UpdateRequest * Z * Z) :=
  r ← GetRequestWithRev;
  match rr_err r, rr_req r with
  | None, Some req => mret (req, rr_modRev r, rr_rev r)
  | Some e, _ => fail e
  | None, None => panic "nil pointer dereference"
  end.

Definition GetRequest : M W UpdateRequest :=
  '(req, _, _) ← get_request_rev; mret req.

Definition PutStatus (lrn : Z) (st : UpdateStatus) : M W unit :=
  data ← lift (Marshal st); etcd_put (keyStatus lrn) data.

Definition GetStatus (lrn : Z) : M W UpdateStatus := get_json (keyStatus lrn).

(** The loop of [getStatusesAt]: statuses keyed by the number in the key. *)
Fixpoint decode_statuses (kvs : list KeyValue) (m : gmap Z UpdateStatus)
    : outcome (gmap Z UpdateStatus) :=
  match kvs with
  | [] => Ok m
  | kv :: kvs =>
      suffix ← key_suffix KeyWorkerStatusPrefix (kv_key kv);
      lrn ← Atoi suffix; u ← Unmarshal (kv_value kv);
      decode_statuses kvs (<[lrn := u]> m)
  end.

(** A nil map and an empty one behave alike for every reader. *)
Definition getStatusesAt (rev : Z) : M W (gmap Z UpdateStatus) :=
  resp ← etcd_get KeyWorkerStatusPrefix (opt_prefix_rev rev);
  lift (decode_statuses (resp_kvs resp) ∅).

Definition GetStatuses : M W (gmap Z UpdateStatus) := getStatusesAt 0.

Fixpoint ClearStatusAndContents (fuel : nat) : M W unit :=
  match fuel with
  | O => blocked
  | S fuel =>
      '(req, modRev, _) ← get_request_rev;
      if negb (req_Stop req) then fail ErrNotStopped
      else
        resp ← etcd_txn [ModRevisionEq KeyCurrent modRev]
                 [OpDeletePrefix KeyStatusPrefix; OpDeletePrefix KeyContentsPrefix];
        if txn_succeeded resp then mret () else ClearStatusAndContents fuel
  end.

(** ** [snapshot.go] *)
Record Snapshot := {
  ss_Revision : Z;
  ss_Request : option UpdateRequest;
  ss_Statuses : gmap Z UpdateStatus;
  ss_Latest : string;
  ss_Servers : slice Z;
}.

Fixpoint decode_servers (kvs : list KeyValue) : outcome (list Z) :=
  match kvs with
  | [] => Ok []
  | kv :: kvs =>
      suffix ← key_suffix KeyBootserversPrefix (kv_key kv);
      lrn ← Atoi suffix; lrns ← decode_servers kvs; Ok (lrn :: lrns)
  end.

Definition NewSnapshot : M W Snapshot :=
  resp ← etcd_get KeyCurrent opt_key;
  let rev := resp_revision resp in
  req ← match resp_kvs resp with
        | [] => mret None
        | kv :: _ => req ← lift (Unmarshal (kv_value kv)); mret (Some req)
        end;
  resp ← etcd_get KeyBootserversPrefix (opt_prefix_rev rev);
  servers ← match resp_kvs resp with
            | [] => mret None
            | kvs => lrns ← lift (decode_servers kvs); mret (Some lrns)
            end;
  resp ← etcd_get KeyNecoRelease (opt_rev rev);
  let latest := match resp_kvs resp with [] => "" | kv :: _ => kv_value kv end in
  statuses ← getStatusesAt rev;
  mret {| ss_Revision := rev; ss_Request := req; ss_Statuses := statuses;
          ss_Latest := latest; ss_Servers := servers |}.

(** ** [neco-rebooter.go] *)
Definition IsNecoRebooterEnabled : M W bool :=
  resp ← etcd_get KeyNecoRebooterIsEnabled opt_key;
  match resp_kvs resp with
  | [] => mret false
  | kv :: _ => mret (bool_decide ("true" = kv_value kv))
  end.

Definition EnableNecoRebooter (flag : bool) : M W unit :=
  etcd_put KeyNecoRebooterIsEnabled (if flag then "true" else "false").

Definition rebootListEntryKey (index : Z) : string := KeyNecoRebooterRebootList +:+ hex016 index.

Definition GetRebootListEntry (index : Z) : M W RebootListEntry :=
  get_json (rebootListEntryKey index).

Fixpoint decode_entries (kvs : list KeyValue) : outcome (list RebootListEntry) :=
  match kvs with
  | [] => Ok []
  | kv :: kvs => r ← Unmarshal (kv_value kv); rs ← decode_entries kvs; Ok (r :: rs)
  end.

Definition GetRebootListEntries : M W (list RebootListEntry) :=
  resp ← etcd_get KeyNecoRebooterRebootList opt_prefix;
  lift (decode_entries (resp_kvs resp)).

Definition RemoveRebootListEntry (leaderKey : string) (entry : RebootListEntry) : M W unit :=
  leader_txn leaderKey [OpDelete (rebootListEntryKey (rl_Index entry))].

Fixpoint update_entry_loop (fuel : nat) (key data : string) : M W unit :=
  match fuel with
  | O => blocked
  | S fuel =>
      resp ← etcd_get key opt_key;
      match resp_kvs resp with
      | [] => fail ErrNotFound
      | kv :: _ =>
          r ← etcd_txn [ModRevisionEq key (kv_mod kv)] [OpPut key data];
          if txn_succeeded r then mret () else update_entry_loop fuel key data
      end
  end.

Definition UpdateRebootListEntry (fuel : nat) (entry : RebootListEntry) : M W unit :=
  data ← lift (Marshal entry);
  update_entry_loop fuel (rebootListEntryKey (rl_Index entry)) data.

Definition with_index (entry : RebootListEntry) (index : Z) : RebootListEntry :=
  {| rl_Index := index; rl_Node := rl_Node entry; rl_Group := rl_Group entry;
     rl_RebootTime := rl_RebootTime entry; rl_Status := rl_Status entry |}.

(** Returns the entry with the index it was registered under, which the code
    stores through the pointer. *)
Fixpoint RegisterRebootListEntry (fuel : nat) (entry : RebootListEntry) : M W RebootListEntry :=
  match fuel with
  | O => blocked
  | S fuel =>
      resp ← etcd_get KeyNecoRebooterWriteIndex opt_key;
      '(writeIndex, writeIndexRev) ←
        match resp_kvs resp with
        | [] => mret (0, 0)
        | kv :: _ => value ← lift (ParseInt (kv_value kv)); mret (value, kv_mod kv)
        end;
      let entry := with_index entry writeIndex in
      data ← lift (Marshal entry);
      r ← etcd_txn [ModRevisionEq KeyNecoRebooterWriteIndex writeIndexRev]
            [OpPut (rebootListEntryKey writeIndex) data;
             OpPut KeyNecoRebooterWriteIndex (FormatInt (wrap64 (writeIndex + 1)))];
      if txn_succeeded r then mret entry else RegisterRebootListEntry fuel entry
  end.

Definition GetProcessingGroup : M W string :=
  resp ← etcd_get KeyNecoRebooterProcessingGroup opt_key;
  match resp_kvs resp with
  | [] => mret ""
  | kv :: _ => mret (kv_value kv)
  end.

Fixpoint UpdateProcessingGroup (fuel : nat) (group : string) : M W unit :=
  match fuel with
  | O => blocked
  | S fuel =>
      resp ← etcd_get KeyNecoRebooterProcessingGroup opt_key;
      let rev := match resp_kvs resp with [] => 0 | kv :: _ => kv_mod kv end in
      r ← etcd_txn [ModRevisionEq KeyNecoRebooterProcessingGroup rev]
            [OpPut KeyNecoRebooterProcessingGroup group];
      if txn_succeeded r then mret () else UpdateProcessingGroup fuel group
  end.

(** ** [wait.go] *)
Definition watch_current_puts : WatchOpts :=
  {| wo_key := KeyCurrent; wo_prefix := false; wo_filter_delete := true; wo_filter_put := false |}.

(** [for wr := range ch] of [WaitRequest], from revision [next]. *)
Fixpoint wait_request_loop (fuel : nat) (next : Z) : M W (UpdateRequest * Z) :=
  match fuel with
  | O => blocked
  | S fuel =>
      r ← etcd_recv watch_current_puts next;
      match r with
      | RecvErr e => fail e
      | RecvClosed _ => fail (ErrMsg "waitRequest was interrupted")
      | RecvEvents [] next => wait_request_loop fuel next
      | RecvEvents (ev :: _) _ =>
          match we_event ev with
          | EvPut _ value => req ← lift (Unmarshal value); mret (req, we_rev ev)
          | EvDelete _ => req ← lift (Unmarshal ""); mret (req, we_rev ev)
          end
      end
  end.
Definition WaitRequest (fuel : nat) (rev : Z) : M W (UpdateRequest * Z) :=
  wait_request_loop fuel (rev + 1).

Definition WaitRequestDeletion (rev : Z) : M W unit :=
  receive_err {| wo_key := KeyCurrent; wo_prefix := false;
                 wo_filter_delete := false; wo_filter_put := true |} (rev + 1).

(** [now] is the revision etcd starts the watch at, the one after the latest. *)
Definition WaitConfigChange (now : Z) : M W unit :=
  r ← etcd_recv {| wo_key := KeyConfigPrefix; wo_prefix := true;
                   wo_filter_delete := false; wo_filter_put := false |} now;
  match r with
  | RecvClosed _ => mret ()
  | RecvErr e => fail e
  | RecvEvents _ _ => fail (ErrMsg "detected config change")
  end.
End storage.
