(* ===== verification/StorageProofs.v ===== *)
(** * Correctness of the storage layer

    What the leader-guarded writes, compare-and-swap loops and snapshots of
    [storage/] guarantee under concurrent clients, proved from the etcd laws. *)
From S2P Require Import Prelude GoStr GoTime Json Types Etcd Storage.

Local Open Scope Z_scope.

Section proofs.
Context {W : Type} `{EtcdLaws W}.
Implicit Types (w : W) (l : Log).

(** ** Building blocks *)
Lemma get_kv w key w' resp :
  etcd_get key opt_key w = (w', Ok resp) →
  view w `prefix_of` view w' ∧ resp_revision resp = revision (view w') ∧
  resp_kvs resp =
    match store (view w') !! key with
    | Some v => [{| kv_key := key; kv_value := ver_value v; kv_mod := ver_mod v |}]
    | None => []
    end.
Proof. intros [? ->]%get_ok. by rewrite resp_kvs_key. Qed.

Lemma leader_txn_ok leaderKey ops w w' :
  leader_txn leaderKey ops w = (w', Ok tt) →
  ∃ l, view w `prefix_of` l ∧ is_Some (store l !! leaderKey) ∧ view w' = commit l ops.
Proof.
  unfold leader_txn. intros E. minv. destruct (txn_succeeded _) eqn:Es; minv.
  apply txn_ok in H1 as (l & Hp & Hs & Hv). rewrite Es in Hs, Hv. destruct Hv as [-> _].
  exists l. split; [done|]. simpl in Hs. rewrite andb_true_r in Hs.
  symmetry in Hs. by apply bool_decide_eq_true in Hs.
Qed.

Lemma leader_txn_lost leaderKey ops w w' :
  leader_txn leaderKey ops w = (w', Err ErrNoLeader) →
  view w `prefix_of` view w' ∧ store (view w') !! leaderKey = None.
Proof.
  unfold leader_txn. intros [E|(w1 & resp & E & E')]%bind_err.
  - by apply txn_law in E as [_ []].
  - destruct (txn_succeeded resp) eqn:Es; minv.
    apply txn_ok in E as (l & Hp & Hs & Hv). rewrite Es in Hs, Hv. subst l.
    split; [done|]. simpl in Hs. rewrite andb_true_r in Hs.
    symmetry in Hs. apply bool_decide_eq_false in Hs. by apply eq_None_not_Some.
Qed.

(** ** Update requests are written only by the leader *)

Lemma PutRequest_ok req leaderKey w w' :
  PutRequest req leaderKey w = (w', Ok tt) →
  ∃ l data, view w `prefix_of` l ∧ is_Some (store l !! leaderKey) ∧
    Marshal req = Ok data ∧ view w' = l ++ [[EvPut KeyCurrent data]].
Proof.
  unfold PutRequest. intros E. minv. apply leader_txn_ok in E as (l & Hp & Hl & Hv). eauto 10.
Qed.

(** Storing a request is guarded by the leader key.  If it succeeds, the
    caller's leader key existed at the very commit that stored the request and
    nothing but the current request changed; if it reports lost leadership, the
    leader key was gone and the call wrote nothing. *)
Theorem PutRequest_guarded req leaderKey w w' r :
  PutRequest req leaderKey w = (w', r) →
  match r with
  | Ok _ => ∃ l data, view w `prefix_of` l ∧ is_Some (store l !! leaderKey) ∧
      Marshal req = Ok data ∧ view w' = l ++ [[EvPut KeyCurrent data]]
  | Err ErrNoLeader => view w `prefix_of` view w' ∧ store (view w') !! leaderKey = None
  | _ => True
  end.
Proof.
  intros E. destruct r as [[]|e| |]; try done.
  - by apply PutRequest_ok.
  - destruct e; try done. unfold PutRequest in E. apply bind_err in E as [E|(w1 & data & E & E')].
    + minv. unfold Marshal in E. simpl in E. unfold encode_request, format_rfc3339 in E.
      destruct (civil_of_days _) as [[]]. simpl in E. by case_match.
    + minv. by eapply leader_txn_lost.
Qed.

Lemma get_json_spec {A} `{JsonCodec A} key w w' (a : A) :
  get_json key w = (w', Ok a) →
  view w `prefix_of` view w' ∧
  ∃ v, store (view w') !! key = Some v ∧ Unmarshal (ver_value v) = Ok a.
Proof.
  unfold get_json. intros E. minv. apply get_kv in H2 as (Hp & _ & Hk). rewrite Hk in E.
  destruct (store _ !! key) as [v|] eqn:Hs; minv; simpl in *. eauto.
Qed.

Lemma get_request_rev_spec w w' req modRev rev :
  get_request_rev w = (w', Ok (req, modRev, rev)) →
  view w `prefix_of` view w' ∧ rev = revision (view w') ∧
  ∃ v, store (view w') !! KeyCurrent = Some v ∧ Unmarshal (ver_value v) = Ok req ∧
       modRev = ver_mod v.
Proof.
  unfold get_request_rev, GetRequestWithRev.
  intros (w1 & rr & (w2 & [e|resp] & E1%attempt_ok & E2)%bind_ok & E)%bind_ok;
    [minv; simpl in E; minv|].
  apply get_kv in E1 as (Hp & Hr & Hk). rewrite Hk in E2.
  destruct (store _ !! KeyCurrent) as [v|] eqn:Hs; simpl in E2; [|minv; simpl in E; minv].
  destruct (Unmarshal (ver_value v)) eqn:Eu; minv; simpl in E; minv.
  simplify_eq. eauto 10.
Qed.

(** A key whose last modification is the given commit holds what it wrote. *)
Lemma last_write l k data l' v :
  (l ++ [[EvPut k data]]) `prefix_of` l' → store l' !! k = Some v →
  ver_mod v = revision (l ++ [[EvPut k data]]) → ver_value v = data.
Proof.
  intros Hp Hl Hm. pose proof (store_old_version _ _ _ _ Hp Hl) as Ho.
  rewrite Hm in Ho. specialize (Ho (Z.le_refl _)). rewrite store_snoc in Ho. simpl in Ho.
  rewrite lookup_insert_eq in Ho. by injection Ho as <-.
Qed.

(** A request read back is the request that was stored, as long as the read
    reports the revision of that write; concurrent clients may do anything in
    between to other keys. *)
Theorem PutRequest_GetRequest req leaderKey w w1 w2 req' modRev rev :
  json_ok req →
  PutRequest req leaderKey w = (w1, Ok tt) →
  get_request_rev w1 = (w2, Ok (req', modRev, rev)) →
  modRev = revision (view w1) → req' = req.
Proof.
  intros Hok Hput Hget Hm. apply PutRequest_ok in Hput as (l & data & _ & _ & Hd & Hv).
  apply get_request_rev_spec in Hget as (Hp & _ & v & Hl & Hu & ->).
  rewrite Hv in Hp, Hm. pose proof (last_write _ _ _ _ _ Hp Hl Hm) as <-.
  rewrite (Unmarshal_Marshal req _ Hok Hd) in Hu. by injection Hu.
Qed.

(** The same for the status a boot server reports under its own key. *)
Theorem PutStatus_GetStatus lrn st w w1 w2 st' :
  json_ok st →
  PutStatus lrn st w = (w1, Ok tt) →
  GetStatus lrn w1 = (w2, Ok st') →
  mod_revision (store (view w2)) (keyStatus lrn) = revision (view w1) → st' = st.
Proof.
  unfold PutStatus, GetStatus. intros Hok Hput Hget Hm. minv.
  apply put_ok in Hput as (l & _ & Hv). apply get_json_spec in Hget as (Hp & v & Hl & Hu).
  unfold mod_revision in Hm. rewrite Hl in Hm. rewrite Hv in Hp, Hm.
  pose proof (last_write _ _ _ _ _ Hp Hl Hm) as <-.
  rewrite (Unmarshal_Marshal st _ Hok H1) in Hu. by injection Hu.
Qed.

Lemma PutReconfigureRequest_ok req leaderKey w w' :
  PutReconfigureRequest req leaderKey w = (w', Ok tt) →
  ∃ l data, view w `prefix_of` l ∧ is_Some (store l !! leaderKey) ∧ Marshal req = Ok data ∧
    view w' = commit l [OpPut KeyCurrent data; OpDeletePrefix KeyWorkerStatusPrefix].
Proof.
  unfold PutReconfigureRequest. intros E. minv. apply leader_txn_ok in E as (l & ? & ? & ?). eauto 10.
Qed.

(** Reconfiguration is atomic: the new request appears and every worker
    status disappears at one commit, which the leader key guards. *)
Theorem PutReconfigureRequest_atomic req leaderKey w w' :
  PutReconfigureRequest req leaderKey w = (w', Ok tt) →
  ∃ l data, view w `prefix_of` l ∧ is_Some (store l !! leaderKey) ∧
    Marshal req = Ok data ∧ view w' = commit l [OpPut KeyCurrent data; OpDeletePrefix KeyWorkerStatusPrefix] ∧
    store (view w') !! KeyCurrent = Some {| ver_value := data; ver_mod := revision l + 1 |} ∧
    (∀ lrn, store (view w') !! keyStatus lrn = None) ∧
    (∀ k, k ≠ KeyCurrent → HasPrefix k KeyWorkerStatusPrefix = false →
          store (view w') !! k = store l !! k).
Proof.
  intros (l & data & Hp & Hl & Hm & Hv)%PutReconfigureRequest_ok.
  exists l, data. rewrite Hv, store_commit. simpl. split_and!; try done.
  - by rewrite lookup_filter_prefix, lookup_insert_eq.
  - intros lrn. rewrite lookup_filter_prefix. unfold keyStatus. by rewrite HasPrefix_app.
  - intros k Hk Hpk. by rewrite lookup_filter_prefix, Hpk, lookup_insert_ne.
Qed.

(** ** Clearing a stopped update *)


(** ** Snapshots are consistent *)

(** The snapshot of the store at one point of the log: the specification of
    [NewSnapshot]. *)
Definition snapshot_at (l : Log) : outcome Snapshot :=
  req ← match store l !! KeyCurrent with
        | None => Ok None
        | Some v => req ← Unmarshal (ver_value v); Ok (Some req)
        end;
  servers ← match range KeyBootserversPrefix true (store l) with
            | [] => Ok None
            | kvs => lrns ← decode_servers kvs; Ok (Some lrns)
            end;
  statuses ← decode_statuses (range KeyWorkerStatusPrefix true (store l)) ∅;
  Ok {| ss_Revision := revision l; ss_Request := req; ss_Statuses := statuses;
        ss_Latest := match store l !! KeyNecoRelease with Some v => ver_value v | None => "" end;
        ss_Servers := servers |}.

Lemma get_at w key pfx l w' resp :
  l `prefix_of` view w →
  etcd_get key {| get_prefix := pfx; get_rev := revision l |} w = (w', Ok resp) →
  l `prefix_of` view w' ∧ resp_kvs resp = range key pfx (store l).
Proof.
  intros Hl [Hp ->]%get_ok. assert (l `prefix_of` view w') as Hl' by by etrans.
  split; [done|]. simpl. by rewrite log_at_prefix.
Qed.

Lemma NewSnapshot_ok w w' ss :
  NewSnapshot w = (w', Ok ss) →
  ∃ l, view w `prefix_of` l ∧ l `prefix_of` view w' ∧
       ss_Revision ss = revision l ∧ snapshot_at l = Ok ss.
Proof.
  unfold NewSnapshot.
  intros (w1 & r1 & E1 & (w2 & req & Ereq & (w3 & r3 & E3 & (w4 & sv & Esv &
    (w5 & r5 & E5 & (w6 & sts & E6 & E)%bind_ok)%bind_ok)%bind_ok)%bind_ok)%bind_ok)%bind_ok.
  apply get_kv in E1 as (Hp & Hr & Hk). rewrite Hr in *. exists (view w1). rewrite Hk in Ereq.
  assert (w2 = w1 ∧ match store (view w1) !! KeyCurrent with
                    | None => Ok None
                    | Some v => req ← Unmarshal (ver_value v); Ok (Some req)
                    end = Ok req) as [-> Hreq].
  { destruct (store _ !! KeyCurrent); simpl in Ereq; minv; [|done]. by rewrite H1. }
  apply get_at in E3 as [Hp3 Hk3]; [|done]. rewrite Hk3 in Esv.
  assert (w4 = w3 ∧ match range KeyBootserversPrefix true (store (view w1)) with
                    | [] => Ok None
                    | kvs => lrns ← decode_servers kvs; Ok (Some lrns)
                    end = Ok sv) as [-> Hsv].
  { destruct (range _ _ _); minv; [done|]. by rewrite H1. }
  apply get_at in E5 as [Hp5 Hk5]; [|done]. unfold getStatusesAt in E6.
  apply bind_ok in E6 as (w7 & r7 & E7 & E6). apply get_at in E7 as [Hp7 Hk7]; [|done].
  rewrite Hk7 in E6. minv. split_and!; try done. unfold snapshot_at.
  rewrite (bind_pure_eq _ _ _ Hreq), (bind_pure_eq _ _ _ Hsv), (bind_pure_eq _ _ _ E6).
  rewrite Hk5, range_key. by destruct (store (view w1) !! KeyNecoRelease).
Qed.

(** C12: although a snapshot takes four reads, it is the state of the store at one
    revision: whatever other clients commit between the reads, the request, the
    boot servers, the release and the statuses belong together. *)
Theorem NewSnapshot_consistent w w' ss :
  NewSnapshot w = (w', Ok ss) →
  ∃ l, view w `prefix_of` l ∧ l `prefix_of` view w' ∧
       ss_Revision ss = revision l ∧ snapshot_at l = Ok ss.
Proof. apply NewSnapshot_ok. Qed.

(** ** The reboot list *)

(** The number the next registered entry gets. *)
Definition write_index (m : Store) : outcome Z :=
  match m !! KeyNecoRebooterWriteIndex with
  | None => Ok 0
  | Some v => ParseInt (ver_value v)
  end.

(** Every entry sits under the key of a number already given out. *)
Definition reboot_list_inv (m : Store) : Prop :=
  ∃ wi, write_index m = Ok wi ∧ 0 ≤ wi ∧
  ∀ key, is_Some (m !! key) → HasPrefix key KeyNecoRebooterRebootList = true →
         ∃ i, 0 ≤ i < wi ∧ key = rebootListEntryKey i.

Lemma rebootListEntryKey_compare a b :
  0 ≤ a ≤ int64_max → 0 ≤ b ≤ int64_max →
  String.compare (rebootListEntryKey a) (rebootListEntryKey b) = Z.compare a b.
Proof. intros. unfold rebootListEntryKey. by rewrite string_compare_app, hex016_compare. Qed.

Lemma rebootListEntryKey_inj a b :
  0 ≤ a ≤ int64_max → 0 ≤ b ≤ int64_max →
  rebootListEntryKey a = rebootListEntryKey b → a = b.
Proof.
  intros Ha Hb E. apply Z.compare_eq_iff. rewrite <-rebootListEntryKey_compare by done.
  rewrite E, rebootListEntryKey_compare by done. apply Z.compare_refl.
Qed.

Lemma rebootListEntryKey_prefix i : HasPrefix (rebootListEntryKey i) KeyNecoRebooterRebootList = true.
Proof. apply HasPrefix_app. Qed.

(** Registering an entry never overwrites another one and numbers entries
    without reuse, whatever other clients do concurrently: the entry is written
    under the number the write index held at the commit, together with the
    increment of the index, and if the list was well-formed there then that key
    was free and the list is well-formed afterwards. *)
Theorem RegisterRebootListEntry_fresh fuel entry w w' e :
  RegisterRebootListEntry fuel entry w = (w', Ok e) →
  ∃ l data, view w `prefix_of` l ∧
    write_index (store l) = Ok (rl_Index e) ∧ e = with_index entry (rl_Index e) ∧
    Marshal e = Ok data ∧
    store (view w') = <[KeyNecoRebooterWriteIndex :=
        Build_Version (FormatInt (wrap64 (rl_Index e + 1))) (revision l + 1)]>
      (<[rebootListEntryKey (rl_Index e) := Build_Version data (revision l + 1)]> (store l)) ∧
    (reboot_list_inv (store l) → rl_Index e < int64_max →
     store l !! rebootListEntryKey (rl_Index e) = None ∧ reboot_list_inv (store (view w'))).
Proof.
  revert w entry. induction fuel as [|fuel IH]; intros w entry E; simpl in E; [done|].
  apply bind_ok in E as (w1 & resp & E1 & (w2 & [wi wrev] & E2 & E)%bind_ok).
  apply get_kv in E1 as (Hp1 & _ & Hk). rewrite Hk in E2.
  assert (w2 = w1 ∧ write_index (store (view w1)) = Ok wi ∧
          wrev = mod_revision (store (view w1)) KeyNecoRebooterWriteIndex) as (-> & Hwi & ->).
  { unfold write_index, mod_revision.
    destruct (store (view w1) !! KeyNecoRebooterWriteIndex); simpl in E2; minv; by simplify_eq/=. }
  apply bind_ok in E as (w3 & data & [-> Hdata]%lift_ok & (w4 & tr & Etxn & E)%bind_ok).
  apply txn_ok in Etxn as (l & Hp & Hs & Hv). destruct (txn_succeeded tr) eqn:Et.
  2: { apply IH in E as (l' & data' & Hp' & Hwi' & He & Hrest). exists l', data'.
       rewrite Hv in Hp'. split; [by do 2 (etrans; [done|])|]. split; [done|]. split; [|done].
       rewrite He at 1. done. }
  minv. exists l, data. destruct Hv as [Hv _].
  assert (store l !! KeyNecoRebooterWriteIndex = store (view w1) !! KeyNecoRebooterWriteIndex) as Hst.
  { apply mod_revision_stable; [done|]. simpl in Hs. rewrite andb_true_r in Hs.
    symmetry in Hs. by apply Z.eqb_eq in Hs. }
  assert (write_index (store l) = Ok wi) as Hwl by (unfold write_index in *; by rewrite Hst).
  cbn [rl_Index with_index]. split; [by etrans|]. split; [done|]. split; [done|]. split; [done|].
  rewrite Hv, store_commit. split; [done|]. intros (wi' & Hwi' & Hpos & Hkeys) Hmax.
  rewrite Hwl in Hwi'. injection Hwi' as <-. simpl.
  assert (in_int64 (wi + 1)) as Hrange by (unfold in_int64, int64_min, int64_max in *; lia).
  split.
  - destruct (store l !! rebootListEntryKey wi) eqn:Ek; [|done].
    destruct (Hkeys (rebootListEntryKey wi)) as (i & Hi & Heq);
      [eauto|apply rebootListEntryKey_prefix|].
    apply rebootListEntryKey_inj in Heq; [lia| |]; unfold in_int64, int64_max in *; lia.
  - exists (wi + 1). unfold write_index. rewrite lookup_insert_eq. simpl. split; [|split; [lia|]].
    + rewrite wrap64_id by done. by apply ParseInt_FormatInt.
    + intros key [v Hv'] Hpre. apply lookup_insert_Some in Hv' as [[<- _]|[_ Hv']]; [done|].
      apply lookup_insert_Some in Hv' as [[<- _]|[_ Hv']]; [exists wi; split; [lia|done]|].
      destruct (Hkeys key) as (i & Hi & ->); [eauto|done|]. exists i. split; [lia|done].
Qed.

Lemma update_entry_loop_spec fuel key data w w' r :
  update_entry_loop fuel key data w = (w', r) →
  match r with
  | Ok _ => ∃ l, view w `prefix_of` l ∧ is_Some (store l !! key) ∧
                 view w' = l ++ [[EvPut key data]]
  | Err ErrNotFound => view w `prefix_of` view w' ∧ store (view w') !! key = None
  | _ => True
  end.
Proof.
  revert w w' r. induction fuel as [|fuel IH]; intros w w' r E; [by injection E as <- <-|].
  simpl in E. unfold mbind, M_bind in E.
  destruct (etcd_get key opt_key w) as [w1 [resp|e| |]] eqn:Eg;
    [|apply get_err in Eg as [_ He]; by destruct e; injection E as <- <-
     |by injection E as <- <-..].
  apply get_kv in Eg as (Hp & _ & Hk). rewrite Hk in E.
  destruct (store (view w1) !! key) as [v|] eqn:Hs; [|injection E as <- <-; done].
  destruct (etcd_txn _ _ w1) as [w2 [tr|e| |]] eqn:Et;
    [|apply txn_law in Et as [_ He]; by destruct e; injection E as <- <-
     |by injection E as <- <-..].
  apply txn_ok in Et as (l & Hp2 & Hts & Hv). destruct (txn_succeeded tr).
  - injection E as <- <-. destruct Hv as [Hv _]. exists l. split; [by etrans|].
    split; [|done]. simpl in Hts. rewrite andb_true_r in Hts. symmetry in Hts.
    apply Z.eqb_eq in Hts. rewrite (mod_revision_stable (view w1)); [by rewrite Hs|done|].
    unfold mod_revision in *. by rewrite Hts, Hs.
  - subst l. apply IH in E. destruct r as [[]|e| |]; try done.
    + destruct E as (l & Hl & ?). exists l. split; [|done]. by do 2 (etrans; [done|]).
    + destruct e; try done. destruct E as [Hl ?]. split; [|done]. by do 2 (etrans; [done|]).
Qed.

(** Updating an entry never brings back an entry that has been removed: the
    write happens at a commit where the key still exists, with the contents
    given; an absent key is reported as not found. *)
Theorem UpdateRebootListEntry_no_resurrection fuel entry w w' r :
  UpdateRebootListEntry fuel entry w = (w', r) →
  let key := rebootListEntryKey (rl_Index entry) in
  match r with
  | Ok _ => ∃ l data, view w `prefix_of` l ∧ is_Some (store l !! key) ∧
      Marshal entry = Ok data ∧ view w' = l ++ [[EvPut key data]]
  | Err ErrNotFound => view w `prefix_of` view w' ∧ store (view w') !! key = None
  | _ => True
  end.
Proof.
  unfold UpdateRebootListEntry, mbind, M_bind, lift. cbv zeta.
  destruct (Marshal entry) as [data|e| |] eqn:Em; try discriminate Em.
  intros E%update_entry_loop_spec. destruct r as [[]|e| |]; try done.
  destruct E as (l & ? & ? & ?). by exists l, data.
Qed.

(** ** Entries come back in the order they were registered *)

(** Each entry of the list is stored under the key of its own index. *)
Definition entry_keys_agree (m : Store) : Prop :=
  ∀ key v, m !! key = Some v → HasPrefix key KeyNecoRebooterRebootList = true →
    ∃ e, Unmarshal (ver_value v) = Ok e ∧ key = rebootListEntryKey (rl_Index e) ∧
         0 ≤ rl_Index e ≤ int64_max.

Lemma decode_entries_forall (P : RebootListEntry → Prop) kvs es :
  decode_entries kvs = Ok es →
  (∀ kv e, kv ∈ kvs → Unmarshal (kv_value kv) = Ok e → P e) → Forall P es.
Proof.
  revert es. induction kvs as [|kv kvs IH]; intros es E HP; cbn [decode_entries] in E; minv;
    constructor; [|apply IH; [done|]]; intros; eapply HP; set_solver.
Qed.

Lemma decode_entries_sorted kvs es :
  StronglySorted (λ a b, String.le (kv_key a) (kv_key b)) kvs → NoDup (map kv_key kvs) →
  (∀ kv e, kv ∈ kvs → Unmarshal (kv_value kv) = Ok e →
     kv_key kv = rebootListEntryKey (rl_Index e) ∧ 0 ≤ rl_Index e ≤ int64_max) →
  decode_entries kvs = Ok es →
  StronglySorted (λ a b, rl_Index a < rl_Index b) es.
Proof.
  revert es. induction kvs as [|kv kvs IH]; intros es Hs Hnd Hkv E;
    cbn [decode_entries] in E; minv; [constructor|].
  apply StronglySorted_cons in Hs as [Hall Hs]. apply NoDup_cons in Hnd as [Hni Hnd].
  constructor; [apply IH; auto; set_solver|].
  destruct (Hkv kv x) as [Hk Hb]; [set_solver|done|].
  eapply decode_entries_forall; [done|]. intros kv' e' Hin He'.
  destruct (Hkv kv' e') as [Hk' Hb']; [set_solver|done|].
  rewrite Forall_forall in Hall. specialize (Hall kv' Hin).
  rewrite string_le_compare, Hk, Hk', rebootListEntryKey_compare in Hall by done.
  destruct (Z.compare_spec (rl_Index x) (rl_Index e')) as [Heq| |]; [|done|done].
  contradict Hni. rewrite Hk, Heq, <-Hk'. by apply list_elem_of_In, in_map, list_elem_of_In.
Qed.

(** The reboot list is read in ascending order of index, although etcd sorts
    keys as text: the fixed-width hexadecimal keys make the two orders agree. *)
Theorem GetRebootListEntries_sorted w w' es :
  GetRebootListEntries w = (w', Ok es) → entry_keys_agree (store (view w')) →
  StronglySorted (λ a b, rl_Index a < rl_Index b) es.
Proof.
  unfold GetRebootListEntries. intros E Hagree. minv. apply get_ok in H1 as [_ ->].
  eapply decode_entries_sorted; [apply range_sorted|apply range_keys_NoDup| |exact E].
  intros kv e [Hm Hl]%elem_of_range He. destruct (Hagree _ _ Hl Hm) as (e' & He' & ?).
  simpl in He'. congruence.
Qed.

(** ** Removing a boot server *)
Lemma DeleteBootServer_ok lrn w w' :
  DeleteBootServer lrn w = (w', Ok tt) →
  ∃ l, view w `prefix_of` l ∧ is_Some (store l !! keyBootServer lrn) ∧
    ∀ k, store (view w') !! k =
         if bool_decide (k = keyBootServer lrn) || HasPrefix k (keyInstall lrn) then None
         else store l !! k.
Proof.
  unfold DeleteBootServer. intros E. minv. apply txn_ok in H1 as (l & Hp & Hs & Hv).
  simpl in Hs. rewrite Hs in Hv. destruct Hv as [Hv Hd]. rewrite Hd in E.
  simpl in E. rewrite range_key in E. exists l. split; [done|].
  destruct (store l !! keyBootServer lrn) eqn:Hl; simpl in E; minv. split; [done|].
  intros k. rewrite Hv, store_commit. simpl. rewrite lookup_filter_prefix.
  destruct (HasPrefix k (keyInstall lrn)); [by rewrite orb_true_r|]. rewrite orb_false_r.
  case_bool_decide as Hk; [subst; by rewrite lookup_delete_eq|by rewrite lookup_delete_ne].
Qed.

(** Deleting a boot server removes its registration and every key that
    begins with its install prefix, and nothing else; an unregistered boot server
    is reported as not found. *)
Theorem DeleteBootServer_spec lrn w w' r :
  DeleteBootServer lrn w = (w', r) →
  match r with
  | Ok _ => ∃ l, view w `prefix_of` l ∧ is_Some (store l !! keyBootServer lrn) ∧
      ∀ k, store (view w') !! k =
           if bool_decide (k = keyBootServer lrn) || HasPrefix k (keyInstall lrn) then None
           else store l !! k
  | Err ErrNotFound => ∃ l, view w `prefix_of` l ∧ store l !! keyBootServer lrn = None
  | Err e => client_error e
  | _ => False
  end.
Proof.
  intros E. destruct r as [[]|e|why|].
  - by apply DeleteBootServer_ok.
  - unfold DeleteBootServer in E. apply bind_err in E as [E|(w1 & resp & E1 & E)].
    + apply txn_law in E as [_ Hc]. by destruct e.
    + apply txn_ok in E1 as (l & Hp & Hs & Hv). simpl in Hs. rewrite Hs in Hv.
      destruct Hv as [_ Hd]. rewrite Hd in E. simpl in E. rewrite range_key in E.
      destruct (store l !! keyBootServer lrn) eqn:Hl; simpl in E; minv. simplify_eq. eauto.
  - unfold DeleteBootServer, mbind, M_bind in E.
    destruct (etcd_txn _ _ w) as [w1 [resp| | |]] eqn:E1; try (by apply txn_law in E1 as [_ Hc]).
    apply txn_ok in E1 as (l & Hp & Hs & Hv). simpl in Hs. rewrite Hs in Hv.
    destruct Hv as [_ Hd]. rewrite Hd in E. simpl in E. by case_match.
  - unfold DeleteBootServer, mbind, M_bind in E.
    destruct (etcd_txn _ _ w) as [w1 [resp| | |]] eqn:E1; try (by apply txn_law in E1 as [_ Hc]).
    apply txn_ok in E1 as (l & Hp & Hs & Hv). simpl in Hs. rewrite Hs in Hv.
    destruct Hv as [_ Hd]. rewrite Hd in E. simpl in E. by case_match.
Qed.

(** The install prefix of a boot server has no final slash, so deleting boot
    server [n] also deletes what is recorded as installed on the boot servers
    [10 n], ..., [10 n + 9]. *)
Theorem DeleteBootServer_overreach lrn d name w w' :
  1 ≤ lrn → 0 ≤ d ≤ 9 → DeleteBootServer lrn w = (w', Ok tt) →
  store (view w') !! keyContainer (10 * lrn + d) name = None ∧
  store (view w') !! keyDeb (10 * lrn + d) name = None.
Proof.
  intros Hl Hd (l & _ & _ & Hk)%DeleteBootServer_ok.
  destruct (Itoa_digit lrn d Hl Hd) as [c Hc]. unfold keyContainer, keyDeb. rewrite Hc, !Hk.
  assert (∀ t, HasPrefix ("install/" +:+ (Itoa lrn +:+ String c "") +:+ t) (keyInstall lrn) = true) as Hp.
  { intros t. apply HasPrefix_spec. exists (String c t). unfold keyInstall.
    by rewrite !string_app_assoc, string_app_cons. }
  by rewrite !Hp, !orb_true_r.
Qed.
End proofs.
