(* ===== verification/Watch.v ===== *)
(** * The watchers of the storage layer

    [storage/status_watcher.go] and [storage/worker_watcher.go]: loops over an etcd
    watch that decode each event and hand it to callbacks.  The callbacks are
    parameters, as in the source; the world [V] they run in is any world with etcd.

    The main result is that the way etcd batches events into responses is
    irrelevant: a watch handles the same events in the same order whether they
    arrive one commit at a time or many at once. *)
From S2P Require Import Prelude GoStr GoTime Json Types Etcd Storage.

Local Open Scope Z_scope.

(** The value of an event; a deletion carries none. *)
Definition event_value (ev : Event) : string :=
  match ev with EvPut _ v => v | EvDelete _ => "" end.

Section watch.
Context {V : Type} `{Etcd V}.

(** ** [StatusWatcher] *)
Record StatusWatcher := {
  handleRequest : UpdateRequest → M V bool;
  handleStatus : Z → UpdateStatus → M V bool;
  handleError : error → M V unit;
}.
Implicit Types sw : StatusWatcher.

Definition dispatch sw (ev : WatchEvent) : M V bool :=
  if bool_decide (we_key ev = KeyCurrent) then
    req ← lift (Unmarshal (event_value (we_event ev)));
    handleRequest sw req
  else
    suffix ← lift (key_suffix KeyWorkerStatusPrefix (we_key ev));
    lrn ← lift (Atoi suffix);
    st ← lift (Unmarshal (event_value (we_event ev)));
    handleStatus sw lrn st.

(** [for _, ev := range wr.Events]: stops at the first error and at the first
    event that completes the watch. *)
Fixpoint dispatch_all sw (evs : list WatchEvent) : M V bool :=
  match evs with
  | [] => mret false
  | ev :: evs =>
      completed ← dispatch sw ev;
      if (completed : bool) then mret true else dispatch_all sw evs
  end.

(** One response: an error goes through [handleError] and ends the watch. *)
Definition handle_response sw (evs : list WatchEvent) : M V bool :=
  r ← attempt (dispatch_all sw evs);
  match r with
  | inl err => _ ← ignore_error (handleError sw err); fail err
  | inr completed => mret completed
  end.

Definition watch_status : WatchOpts :=
  {| wo_key := KeyStatusPrefix; wo_prefix := true;
     wo_filter_delete := true; wo_filter_put := false |}.

(** [for wr := range ch], from revision [next]. *)
Fixpoint status_watch_loop (fuel : nat) sw (next : Z) : M V unit :=
  match fuel with
  | O => blocked
  | S fuel =>
      r ← etcd_recv watch_status next;
      match r with
      | RecvClosed _ => mret ()
      | RecvErr err => _ ← ignore_error (handleError sw err); fail err
      | RecvEvents evs next =>
          completed ← handle_response sw evs;
          if (completed : bool) then mret () else status_watch_loop fuel sw next
      end
  end.

Definition StatusWatcher_Watch (fuel : nat) sw (rev : Z) : M V unit :=
  status_watch_loop fuel sw (rev + 1).

(** ** [WorkerWatcher] *)
Section worker_watcher.
Variable handleWorker : Z → UpdateStatus → M V bool.

Fixpoint worker_events (evs : list WatchEvent) : M V bool :=
  match evs with
  | [] => mret false
  | ev :: evs =>
      st ← lift (Unmarshal (event_value (we_event ev)));
      suffix ← lift (key_suffix KeyWorkerStatusPrefix (we_key ev));
      lrn ← lift (Atoi suffix);
      completed ← handleWorker lrn st;
      if (completed : bool) then mret true else worker_events evs
  end.

Definition watch_workers : WatchOpts :=
  {| wo_key := KeyWorkerStatusPrefix; wo_prefix := true;
     wo_filter_delete := true; wo_filter_put := false |}.

(** The channel closes when the context ends; [ctx.Err()] is then not nil. *)
Fixpoint worker_watch_loop (fuel : nat) (next : Z) : M V unit :=
  match fuel with
  | O => blocked
  | S fuel =>
      r ← etcd_recv watch_workers next;
      match r with
      | RecvClosed (Some ErrDeadlineExceeded) => fail ErrTimedOut
      | RecvClosed (Some e) => fail e
      | RecvClosed None => mret ()
      | RecvErr e => fail e
      | RecvEvents evs next =>
          completed ← worker_events evs;
          if (completed : bool) then mret () else worker_watch_loop fuel next
      end
  end.

Definition WorkerWatcher_Watch (fuel : nat) (rev : Z) : M V unit :=
  worker_watch_loop fuel (rev + 1).
End worker_watcher.

(** ** Batching *)
Lemma dispatch_all_app sw evs1 evs2 v :
  dispatch_all sw (evs1 ++ evs2) v =
  (completed ← dispatch_all sw evs1;
   if (completed : bool) then mret true else dispatch_all sw evs2) v.
Proof.
  revert v. induction evs1 as [|ev evs1 IH]; intros v; cbn [dispatch_all app]; [done|].
  unfold mbind, M_bind in *. destruct (dispatch sw ev v) as [v1 [[]|e| |]]; try done.
Qed.

(** Handling two responses one after the other is handling their events as one
    response. *)
Lemma handle_response_app sw evs1 evs2 v :
  handle_response sw (evs1 ++ evs2) v =
  (completed ← handle_response sw evs1;
   if (completed : bool) then mret true else handle_response sw evs2) v.
Proof.
  unfold handle_response, mbind, M_bind, attempt. rewrite dispatch_all_app.
  unfold mbind, M_bind. destruct (dispatch_all sw evs1 v) as [v1 [[]|e| |]]; try done.
  destruct (ignore_error _ v1) as [v2 [[]| | |]]; done.
Qed.
End watch.
Arguments StatusWatcher V : clear implicits.

(** Every event of a log from revision [rev] on carries a revision of at least [rev]. *)
Lemma events_from_bounds rev l e : e ∈ events_from rev l → rev ≤ we_rev e < rev + Z.of_nat (length l).
Proof.
  revert rev. induction l as [|c l IH]; intros rev; cbn [events_from length]; [set_solver|].
  rewrite elem_of_app. intros [He|He%IH]; [|lia].
  apply list_elem_of_In, in_map_iff in He as (ev & <- & _). simpl. lia.
Qed.

(** What a watch delivers between two revisions is what it delivers up to any
    revision in between, then the rest: the events arrive in the order of the log. *)
Lemma watch_slice_split o lo mid hi l :
  lo ≤ mid ≤ hi → watch_slice o lo hi l = watch_slice o lo mid l ++ watch_slice o mid hi l.
Proof.
  intros Hm. unfold watch_slice. generalize 2 as rev. induction l as [|c l IH]; intros rev; [done|].
  cbn [events_from]. rewrite !filter_app, IH. clear IH.
  destruct (decide (rev < mid)) as [Hlt|Hge].
  - rewrite (filter_all_false (λ e, watched o (we_event e) = true ∧ mid ≤ we_rev e < hi) (map _ c)).
    + rewrite app_nil_l, app_assoc. do 2 f_equal. apply filter_ext_elem.
      intros e He. apply list_elem_of_In, in_map_iff in He as (ev & <- & _). simpl. naive_solver lia.
    + intros e He. apply list_elem_of_In, in_map_iff in He as (ev & <- & _). simpl. lia.
  - rewrite (filter_all_false (λ e, watched o (we_event e) = true ∧ lo ≤ we_rev e < mid) (map _ c)).
    + rewrite (filter_all_false (λ e, watched o (we_event e) = true ∧ lo ≤ we_rev e < mid)
                 (events_from (rev + 1) l)).
      * rewrite !app_nil_l. f_equal. apply filter_ext_elem. intros e He.
        apply list_elem_of_In, in_map_iff in He as (ev & <- & _). simpl. naive_solver lia.
      * intros e He%events_from_bounds. lia.
    + intros e He. apply list_elem_of_In, in_map_iff in He as (ev & <- & _). simpl. lia.
Qed.

(** A watch has seen nothing more of a log once it has been extended past [hi]. *)
Lemma watch_slice_prefix o lo hi l l' :
  l `prefix_of` l' → hi ≤ revision l + 1 → watch_slice o lo hi l' = watch_slice o lo hi l.
Proof.
  intros [k ->] Hhi. unfold watch_slice, revision in *.
  assert (∀ rev, hi ≤ rev + Z.of_nat (length l) → 
    filter (λ e, watched o (we_event e) = true ∧ lo ≤ we_rev e < hi) (events_from rev (l ++ k)) =
    filter (λ e, watched o (we_event e) = true ∧ lo ≤ we_rev e < hi) (events_from rev l)) as Hgen.
  { clear Hhi. induction l as [|c l IH]; intros rev Hr; cbn [events_from app length] in *.
    - rewrite filter_all_false; [done|]. intros e He%events_from_bounds. lia.
    - rewrite !filter_app, IH by lia. done. }
  apply Hgen. lia.
Qed.
