(* ===== verification/Worker.v ===== *)
(** * The update worker ([worker/worker.go], [barrier.go], [strategy.go])

    [Worker] is the state machine that every boot server runs: it waits for an
    update request, reports its step under its own status key, watches the status
    of all boot servers and runs each step behind a barrier.  What a step does is
    behind the [Operator] interface, a type class here as it is an interface in
    the source.

    A handler runs in the world [W * Worker]: the outside world, and the worker's
    own fields, which keep the values assigned to them even when a call fails. *)
From S2P Require Import Prelude GoStr GoTime Json Types Etcd Worlds Storage Watch.

Local Open Scope Z_scope.

(** ** [barrier.go] *)
Abbreviation Barrier := (gset Z).
Definition NewBarrier (lrns : list Z) : Barrier := list_to_set lrns.
(** [Barrier.Check]: the barrier without [lrn], and whether nobody is left. *)
Definition Barrier_Check (b : Barrier) (lrn : Z) : Barrier * bool :=
  let b := b ∖ {[lrn]} in (b, bool_decide (size b = 0%nat)).

(** ** [strategy.go] *)
Fixpoint update_aborted (version : string) (mylrn : Z) (statuses : list (Z * UpdateStatus)) : bool :=
  match statuses with
  | [] => false
  | (lrn, u) :: statuses =>
      if negb (bool_decide (st_Version u = version)) then update_aborted version mylrn statuses
      else if st_Cond u =? CondComplete then update_aborted version mylrn statuses
      else if st_Cond u =? CondAbort then true
      else if (st_Step u =? 1) && negb (lrn =? mylrn) then update_aborted version mylrn statuses
      else true
  end.
(** Go ranges over the map in an unspecified order; [UpdateAborted_spec] shows that
    the order does not matter. *)
Definition UpdateAborted (version : string) (mylrn : Z) (statuses : gmap Z UpdateStatus) : bool :=
  update_aborted version mylrn (map_to_list statuses).

(** ** [sort.SearchInts] *)
Fixpoint search_loop (fuel : nat) (f : Z → bool) (i j : Z) : Z :=
  match fuel with
  | O => i
  | S fuel =>
      if i <? j then
        let h := (i + j) / 2 in
        if f h then search_loop fuel f i h else search_loop fuel f (h + 1) j
      else i
  end.
Definition SearchInts (a : list Z) (x : Z) : Z :=
  search_loop (length a) (λ h, x <=? nth (Z.to_nat h) a 0) 0 (Z.of_nat (length a)).

(** ** The [Operator] interface ([operator.go]) *)
Class Operator (W : Type) := {
  op_UpdateNeco : UpdateRequest → M W unit;
  op_FinalStep : Z;
  op_RunStep : UpdateRequest → Z → M W unit;
  op_StartServices : M W unit;
  op_RestartEtcd : Z → UpdateRequest → M W unit;
}.

(** ** [worker.go] *)
Record Worker := {
  wk_mylrn : Z;
  wk_version : string;
  wk_req : option UpdateRequest;
  wk_step : Z;
  wk_barrier : Barrier;
  wk_bch : bool;    (* the one-place channel [bch] is full *)
}.

Definition NewWorker (version : string) (mylrn : Z) : Worker :=
  {| wk_mylrn := mylrn; wk_version := version; wk_req := None; wk_step := 0;
     wk_barrier := ∅; wk_bch := false |}.

Definition set_req (w : Worker) (req : UpdateRequest) : Worker :=
  {| wk_mylrn := wk_mylrn w; wk_version := wk_version w; wk_req := Some req;
     wk_step := wk_step w; wk_barrier := wk_barrier w; wk_bch := wk_bch w |}.
Definition set_step (w : Worker) (step : Z) (b : Barrier) : Worker :=
  {| wk_mylrn := wk_mylrn w; wk_version := wk_version w; wk_req := wk_req w;
     wk_step := step; wk_barrier := b; wk_bch := wk_bch w |}.
Definition set_barrier (w : Worker) (b : Barrier) : Worker := set_step w (wk_step w) b.
Definition set_bch (w : Worker) : Worker :=
  {| wk_mylrn := wk_mylrn w; wk_version := wk_version w; wk_req := wk_req w;
     wk_step := wk_step w; wk_barrier := wk_barrier w; wk_bch := true |}.

Section worker.
Context {W : Type} `{Etcd W} `{Operator W}.
Abbreviation MW := (M (W * Worker)).

(** [w.req], which is nil until [Run] has accepted a request. *)
Definition current_req : MW UpdateRequest :=
  w ← get_local;
  match wk_req w with
  | Some req => mret req
  | None => panic "nil pointer dereference"
  end.

Definition handleCurrent (req : UpdateRequest) : MW bool :=
  if req_Stop req then mret true else fail (ErrMsg "unexpected request").

Definition running_status (version : string) (step : Z) : UpdateStatus :=
  {| st_Version := version; st_Step := step; st_Cond := CondRunning; st_Message := "" |}.
Definition abort_status (version : string) (step : Z) (err : error) : UpdateStatus :=
  {| st_Version := version; st_Step := step; st_Cond := CondAbort;
     st_Message := error_text err |}.
Definition complete_status (version : string) (step : Z) : UpdateStatus :=
  {| st_Version := version; st_Step := step; st_Cond := CondComplete; st_Message := "" |}.

Definition runStep : MW bool :=
  req ← current_req;
  w ← get_local;
  r ← attempt (on_world (op_RunStep req (wk_step w)));
  match r with
  | inl err =>
      _ ← ignore_error (PutStatus (wk_mylrn w) (abort_status (req_Version req) (wk_step w) err));
      fail err
  | inr _ =>
      if negb (wk_step w =? op_FinalStep) then
        let step := wrap64 (wk_step w + 1) in
        _ ← put_local (set_step w step (NewBarrier (elems (req_Servers req))));
        _ ← PutStatus (wk_mylrn w) (running_status (req_Version req) step);
        mret false
      else
        _ ← PutStatus (wk_mylrn w) (complete_status (req_Version req) (wk_step w));
        _ ← ignore_error (on_world
              (op_RestartEtcd (SearchInts (elems (req_Servers req)) (wk_mylrn w)) req));
        mret true
  end.

Definition handleWorkerStatus (lrn : Z) (st : UpdateStatus) : MW bool :=
  req ← current_req;
  w ← get_local;
  if negb (IsMember req lrn) then mret false
  else if negb (bool_decide (st_Version st = req_Version req)) then
    fail (ErrMsg ("unexpected version in worker status: " +:+ st_Version st))
  else if st_Cond st =? CondAbort then
    fail (ErrMsg ("other boot server failed to update: " +:+ Itoa lrn))
  else if negb (st_Step st =? wk_step w) then
    fail (ErrMsg ("unexpected step in worker status: " +:+ Itoa (st_Step st)))
  else if st_Cond st =? CondComplete then
    fail (ErrMsg ("other boot server reports completion: " +:+ Itoa lrn))
  else
    let '(b, all) := Barrier_Check (wk_barrier w) lrn in
    _ ← put_local (set_barrier w b);
    if (all : bool) then
      _ ← put_local (set_bch (set_barrier w b));
      runStep
    else mret false.

Definition registerAbort (err : error) : MW unit :=
  req ← current_req;
  w ← get_local;
  PutStatus (wk_mylrn w) (abort_status (req_Version req) (wk_step w) err).

Definition worker_watcher : StatusWatcher (W * Worker) :=
  {| handleRequest := handleCurrent; handleStatus := handleWorkerStatus;
     handleError := registerAbort |}.

(** The part of [update] before the watch. *)
Definition update_start : MW unit :=
  req ← current_req;
  w ← get_local;
  _ ← PutStatus (wk_mylrn w) (running_status (req_Version req) 1);
  put_local (set_step w 1 (NewBarrier (elems (req_Servers req)))).

Definition update (fuel : nat) (modRev : Z) : MW unit :=
  _ ← update_start; StatusWatcher_Watch fuel worker_watcher modRev.

(** The variables of [Run]'s loop. *)
Record RunVars := {
  rv_req : option UpdateRequest;
  rv_modRev : Z;
  rv_rev : Z;
  rv_err : option error;
}.

(** [req, modRev, err = w.storage.WaitRequest(ctx, rev); rev = modRev]. *)
Definition wait_next (fuel : nat) (rev : Z) : MW RunVars :=
  r ← attempt (WaitRequest fuel rev);
  match r with
  | inl e => mret {| rv_req := None; rv_modRev := 0; rv_rev := 0; rv_err := Some e |}
  | inr (req, modRev) =>
      mret {| rv_req := Some req; rv_modRev := modRev; rv_rev := modRev; rv_err := None |}
  end.

(** What one turn of the loop decides: to go on with new variables, or to return. *)
Definition run_iteration (fuel : nat) (rv : RunVars) : MW (RunVars + unit) :=
  match rv_err rv with
  | Some ErrNotFound => rv ← wait_next fuel (rv_rev rv); mret (inl rv)
  | Some e => fail e
  | None =>
      match rv_req rv with
      | None => panic "nil pointer dereference"
      | Some req =>
          w ← get_local;
          if req_Stop req then rv ← wait_next fuel (rv_rev rv); mret (inl rv)
          else if negb (IsMember req (wk_mylrn w)) then
            rv ← wait_next fuel (rv_rev rv); mret (inl rv)
          else if negb (bool_decide (wk_version w = req_Version req)) then
            _ ← on_world (op_UpdateNeco req); mret (inr ())
          else
            stMap ← GetStatuses;
            if UpdateAborted (req_Version req) (wk_mylrn w) stMap then
              _ ← match stMap !! wk_mylrn w with
                  | Some myst =>
                      PutStatus (wk_mylrn w)
                        {| st_Version := st_Version myst; st_Step := st_Step myst;
                           st_Cond := CondAbort; st_Message := st_Message myst |}
                  | None => mret ()
                  end;
              rv ← wait_next fuel (rv_rev rv); mret (inl rv)
            else if UpdateCompleted (req_Version req) (elems (req_Servers req)) stMap then
              rv ← wait_next fuel (rv_rev rv); mret (inl rv)
            else
              _ ← put_local (set_req w req);
              _ ← update fuel (rv_modRev rv);
              rv ← wait_next fuel (rv_rev rv); mret (inl rv)
      end
  end.

Fixpoint run_loop (fuel : nat) (rv : RunVars) : MW unit :=
  match fuel with
  | O => blocked
  | S fuel =>
      r ← run_iteration fuel rv;
      match r with
      | inl rv => run_loop fuel rv
      | inr _ => mret ()
      end
  end.

Definition Run (fuel : nat) : MW unit :=
  _ ← on_world op_StartServices;
  r ← GetRequestWithRev;
  run_loop fuel {| rv_req := rr_req r; rv_modRev := rr_modRev r; rv_rev := rr_rev r;
                   rv_err := rr_err r |}.
End worker.
