(* ===== verification/WorkerProofs.v ===== *)
(** * Correctness of the worker's decisions

    The barrier, the abort test of a restarted worker, the index that spreads the
    final etcd restarts, and what one turn of [Run] does. *)
From S2P Require Import Prelude GoStr GoTime Json Types Etcd Worlds Storage StorageProofs Watch Worker.

Local Open Scope Z_scope.

(** ** The barrier *)
Lemma Barrier_Check_spec b lrn b' all :
  Barrier_Check b lrn = (b', all) → b' = b ∖ {[lrn]} ∧ (all = true ↔ b ⊆ {[lrn]}).
Proof.
  unfold Barrier_Check. intros [= <- <-]. split; [done|].
  rewrite bool_decide_eq_true, size_empty_iff. split.
  - intros Hb x Hx. destruct (decide (x = lrn)); set_solver.
  - set_solver.
Qed.

Lemma subset_union_difference (b X Y : gset Z) : b ∖ X ⊆ Y ↔ b ⊆ X ∪ Y.
Proof.
  split; intros Hs x Hx.
  - destruct (decide (x ∈ X)); [set_solver|]. apply elem_of_union_r, Hs. set_solver.
  - apply elem_of_difference in Hx as [Hx HX]. specialize (Hs x Hx). set_solver.
Qed.

(** The barrier after a sequence of arrivals, and whether any of them opened it. *)
Fixpoint arrivals (b : Barrier) (lrns : list Z) : Barrier * bool :=
  match lrns with
  | [] => (b, false)
  | lrn :: lrns =>
      let '(b, all) := Barrier_Check b lrn in
      let '(b, later) := arrivals b lrns in (b, all || later)
  end.

Lemma arrivals_spec b lrns :
  (arrivals b lrns).1 = b ∖ list_to_set lrns ∧
  (lrns ≠ [] → (arrivals b lrns).2 = true ↔ b ⊆ list_to_set lrns).
Proof.
  revert b. induction lrns as [|lrn lrns IH]; intros b; [simpl; set_solver|]. cbn [arrivals].
  destruct (Barrier_Check b lrn) as [b' all] eqn:E. apply Barrier_Check_spec in E as [-> Hall].
  destruct (IH (b ∖ {[lrn]})) as [IH1 IH2].
  destruct (arrivals (b ∖ {[lrn]}) lrns) as [b2 later] eqn:E2. cbn [fst snd] in *. subst b2.
  split; [by rewrite list_to_set_cons, difference_difference_l_L|]. intros _.
  rewrite orb_true_iff, Hall, list_to_set_cons.
  destruct lrns as [|l lrns]; [injection E2 as _ <-|].
  - rewrite list_to_set_nil, union_empty_r_L. naive_solver.
  - rewrite IH2 by done. rewrite subset_union_difference. split; [intros [Hb|Hb]|by right].
    + etrans; [exact Hb|apply union_subseteq_l].
    + done.
Qed.

(** A new barrier opens exactly when every boot server of the request has
    arrived, in whatever order and however often they report. *)
Theorem NewBarrier_opens servers lrns :
  lrns ≠ [] →
  (arrivals (NewBarrier servers) lrns).2 = true ↔ ∀ lrn, lrn ∈ servers → lrn ∈ lrns.
Proof.
  intros Hne. destruct (arrivals_spec (NewBarrier servers) lrns) as [_ Hs].
  rewrite Hs by done. unfold NewBarrier. set_solver.
Qed.

(** ** Aborted updates *)

(** A status that stands for an update that cannot go on. *)
Definition stale (version : string) (mylrn : Z) (lrn : Z) (u : UpdateStatus) : Prop :=
  st_Version u = version ∧ st_Cond u ≠ CondComplete ∧
  (st_Cond u = CondAbort ∨ st_Step u ≠ 1 ∨ lrn = mylrn).

Lemma update_aborted_spec version mylrn l :
  update_aborted version mylrn l = true ↔ ∃ lrn u, (lrn, u) ∈ l ∧ stale version mylrn lrn u.
Proof.
  induction l as [|[lrn u] l IH]; [set_solver|].
  assert ((∃ lrn' u', (lrn', u') ∈ (lrn, u) :: l ∧ stale version mylrn lrn' u') ↔
          stale version mylrn lrn u ∨ update_aborted version mylrn l = true) as ->.
  { rewrite IH. setoid_rewrite elem_of_cons. split.
    - intros (lrn' & u' & [[= -> ->]|Hin] & Hs); eauto.
    - intros [Hs|(lrn' & u' & Hin & Hs)]; eauto 10. }
  clear IH. unfold stale. cbn [update_aborted]. case_bool_decide as Hv; simpl; [|tauto].
  destruct (Z.eqb_spec (st_Cond u) CondComplete); [tauto|].
  destruct (Z.eqb_spec (st_Cond u) CondAbort); [tauto|].
  destruct (Z.eqb_spec (st_Step u) 1), (Z.eqb_spec lrn mylrn); simpl; tauto.
Qed.

(** A worker treats the current update as aborted exactly when some status for
    the requested version is neither complete nor another server's first step, or
    is an abort; the order in which Go walks the status map does not matter. *)
Theorem UpdateAborted_spec version mylrn statuses :
  (UpdateAborted version mylrn statuses = true ↔
   ∃ lrn u, statuses !! lrn = Some u ∧ stale version mylrn lrn u) ∧
  ∀ l, l ≡ₚ map_to_list statuses → update_aborted version mylrn l = UpdateAborted version mylrn statuses.
Proof.
  unfold UpdateAborted. split.
  - rewrite update_aborted_spec. by setoid_rewrite elem_of_map_to_list.
  - intros l Hl. apply eq_bool_prop_intro. rewrite !Is_true_true, !update_aborted_spec.
    by setoid_rewrite Hl.
Qed.

(** ** The restart index *)
Lemma search_loop_spec fuel f i j :
  0 ≤ i ≤ j → j - i ≤ Z.of_nat fuel →
  (∀ a b, i ≤ a ≤ b → b < j → f a = true → f b = true) →
  i ≤ search_loop fuel f i j ≤ j ∧
  (∀ k, i ≤ k < search_loop fuel f i j → f k = false) ∧
  (∀ k, search_loop fuel f i j ≤ k < j → f k = true).
Proof.
  revert i j. induction fuel as [|fuel IH]; intros i j Hij Hfuel Hmono; cbn [search_loop].
  { split_and!; intros; lia. }
  destruct (Z.ltb_spec i j) as [Hlt|Hge]; [|split_and!; intros; lia].
  assert (i ≤ (i + j) / 2 < j) as [Hlo Hhi].
  { split; [apply Z.div_le_lower_bound; lia|apply Z.div_lt_upper_bound; lia]. }
  destruct (f ((i + j) / 2)) eqn:Ef.
  - destruct (IH i ((i + j) / 2)) as (Hr & Hf & Ht); [lia|lia|intros; eapply (Hmono a); eauto; lia|].
    split; [lia|]. split; [done|]. intros k Hk.
    destruct (decide (k < (i + j) / 2)); [apply Ht; lia|]. apply (Hmono ((i + j) / 2)); [lia|lia|done].
  - destruct (IH ((i + j) / 2 + 1) j) as (Hr & Hf & Ht); [lia|lia|intros; eapply (Hmono a); eauto; lia|].
    split; [lia|]. split; [|done]. intros k Hk.
    destruct (decide ((i + j) / 2 < k)); [apply Hf; lia|].
    destruct (f k) eqn:Ek; [|done]. rewrite (Hmono k ((i + j) / 2)) in Ef by (done || lia). done.
Qed.

Lemma sorted_nth (a : list Z) i j :
  StronglySorted Z.lt a → (i < j < length a)%nat → nth i a 0 < nth j a 0.
Proof.
  intros Hs. revert i j. induction Hs as [|x a Hs IH Hall]; intros i j Hij; simpl in *; [lia|].
  destruct i as [|i], j as [|j]; try lia.
  - rewrite Forall_forall in Hall. apply Hall. apply list_elem_of_In, nth_In. lia.
  - apply IH. lia.
Qed.

(** With the boot servers of the request in ascending order, the binary search
    finds each worker its own position, so no two of them restart etcd at once. *)
Theorem SearchInts_index a x :
  StronglySorted Z.lt a → x ∈ a → a !! Z.to_nat (SearchInts a x) = Some x.
Proof.
  intros Hs [n Hn]%list_elem_of_lookup. pose proof (lookup_lt_Some _ _ _ Hn) as Hlt.
  pose proof (nth_lookup_Some _ _ 0 _ Hn) as Hx. unfold SearchInts.
  destruct (search_loop_spec (length a) (λ h, x <=? nth (Z.to_nat h) a 0) 0 (Z.of_nat (length a)))
    as (Hr & Hf & Ht); [lia|lia| |].
  { intros i j Hij Hj Hi%Z.leb_le. apply Z.leb_le. destruct (decide (i = j)) as [->|]; [done|].
    pose proof (sorted_nth a (Z.to_nat i) (Z.to_nat j) Hs). lia. }
  set (r := search_loop _ _ _ _) in *.
  assert (Z.of_nat n = r) as <-; [|by rewrite Nat2Z.id].
  destruct (Z.lt_trichotomy (Z.of_nat n) r) as [Hlt'|[->|Hgt]]; [|done|].
  - specialize (Hf (Z.of_nat n)). rewrite Nat2Z.id, Hx, Z.leb_refl in Hf. specialize (Hf ltac:(lia)). done.
  - specialize (Ht r ltac:(lia)). apply Z.leb_le in Ht. rewrite <-Hx in Ht.
    pose proof (sorted_nth a (Z.to_nat r) n Hs). lia.
Qed.

(** The boot servers of a request come in the order of etcd's keys, which is
    the order of their decimal text; for boot servers 0, 10 and 2 the binary search
    then gives 10 and 2 the same position, and both restart etcd at once. *)
Theorem SearchInts_text_order :
  (∃ m, m !! keyBootServer 0 = Some (Build_Version "" 2) ∧
        m !! keyBootServer 2 = Some (Build_Version "" 3) ∧
        m !! keyBootServer 10 = Some (Build_Version "" 4) ∧
        decode_servers (range KeyBootserversPrefix true m) = Ok [0; 10; 2]) ∧
  SearchInts [0; 10; 2] 10 = SearchInts [0; 10; 2] 2.
Proof.
  split; [|reflexivity].
  exists (<[keyBootServer 10 := Build_Version "" 4]> (<[keyBootServer 2 := Build_Version "" 3]>
    (<[keyBootServer 0 := Build_Version "" 2]> ∅))).
  split_and!; vm_compute; reflexivity.
Qed.

(** ** The guards of [Run] *)

(** Computations that leave the worker's fields alone. *)
Definition keeps {W S A} (m : M (W * S) A) : Prop := ∀ v v' r, m v = (v', r) → v'.2 = v.2.

Lemma keeps_bind {W S A B} (m : M (W * S) A) (f : A → M (W * S) B) :
  keeps m → (∀ a, keeps (f a)) → keeps (mbind f m).
Proof.
  intros Hm Hf v v' r. unfold mbind, M_bind. destruct (m v) as [v1 o] eqn:E. apply Hm in E.
  destruct o as [a|e|y|]; [intros E'%Hf; congruence|intros [= <- <-]; done..].
Qed.
Lemma keeps_mret {W S A} (a : A) : keeps (mret a : M (W * S) A).
Proof. by intros v v' r [= <- <-]. Qed.
Lemma keeps_lift {W S A} (o : outcome A) : keeps (lift o : M (W * S) A).
Proof. by intros v v' r [= <- <-]. Qed.
Lemma keeps_fail {W S A} e : keeps (fail e : M (W * S) A).
Proof. by intros v v' r [= <- <-]. Qed.
Lemma keeps_panic {W S A} e : keeps (panic e : M (W * S) A).
Proof. by intros v v' r [= <- <-]. Qed.
Lemma keeps_blocked {W S A} : keeps (blocked : M (W * S) A).
Proof. by intros v v' r [= <- <-]. Qed.
Lemma keeps_get {W S} : keeps (get_local : M (W * S) S).
Proof. by intros v v' r [= <- <-]. Qed.
Lemma keeps_world {W S A} (m : M W A) : keeps (on_world m : M (W * S) A).
Proof. by intros v v' r [_ ?]%on_world_inv. Qed.
Lemma keeps_attempt {W S A} (m : M (W * S) A) : keeps m → keeps (attempt m).
Proof.
  intros Hm v v' r. unfold attempt. destruct (m v) as [v1 o] eqn:E. apply Hm in E.
  by destruct o; intros [= <- <-].
Qed.
#[export] Hint Resolve keeps_bind keeps_mret keeps_lift keeps_fail keeps_panic keeps_blocked keeps_get
  keeps_world keeps_attempt : neco.

Ltac keeps := repeat first
  [ assumption
  | match goal with |- ∀ _, _ => intro end
  | apply keeps_bind | apply keeps_attempt
  | match goal with |- keeps (match ?x with _ => _ end) => destruct x end
  | solve [eauto with neco]
  | match goal with |- keeps (etcd_get _ _) => apply keeps_world end
  | match goal with |- keeps (etcd_put _ _) => apply keeps_world end
  | match goal with |- keeps (etcd_recv _ _) => apply keeps_world end ].

Section run.
Context {W : Type} `{Etcd W} `{Operator W}.
Implicit Types (w : W) (wk : Worker).

Lemma keeps_PutStatus lrn st : keeps (PutStatus lrn st : M (W * Worker) unit).
Proof. unfold PutStatus. keeps. Qed.
Lemma keeps_GetStatuses : keeps (GetStatuses : M (W * Worker) _).
Proof. unfold GetStatuses, getStatusesAt. keeps. Qed.
Lemma keeps_WaitRequest fuel rev : keeps (WaitRequest fuel rev : M (W * Worker) _).
Proof.
  unfold WaitRequest. generalize (rev + 1) as next. induction fuel as [|fuel IH]; intros next;
    cbn [wait_request_loop]; [apply keeps_blocked|]. keeps.
Qed.
Lemma keeps_wait_next fuel rev : keeps (wait_next fuel rev : M (W * Worker) _).
Proof. unfold wait_next. pose proof (keeps_WaitRequest fuel rev). keeps. Qed.

(** A turn of [Run] starts an update, the only way for it to touch the
    worker's state, only for a request that is not stopped, lists this boot
    server, asks for the version of this worker, and whose statuses show neither
    an aborted nor a completed update. *)
Theorem run_iteration_guards fuel rv w wk w' wk' r :
  run_iteration fuel rv (w, wk) = ((w', wk'), r) → wk' ≠ wk →
  rv_err rv = None ∧ ∃ req w1 stMap, rv_req rv = Some req ∧
    req_Stop req = false ∧ IsMember req (wk_mylrn wk) = true ∧ wk_version wk = req_Version req ∧
    GetStatuses (w, wk) = ((w1, wk), Ok stMap) ∧
    UpdateAborted (req_Version req) (wk_mylrn wk) stMap = false ∧
    UpdateCompleted (req_Version req) (elems (req_Servers req)) stMap = false.
Proof.
  intros E Hne. unfold run_iteration in E.
  assert (∀ (m : M (W * Worker) (RunVars + unit)) w0, keeps m → m (w0, wk) = ((w', wk'), r) → False) as Hk.
  { intros m w0 Hm E'%Hm. by apply Hne. }
  assert (∀ rev, keeps (rv ← wait_next fuel rev; mret (inl rv) : M (W * Worker) (RunVars + unit))) as Hw.
  { intros rev. pose proof (keeps_wait_next fuel rev). keeps. }
  destruct (rv_err rv) as [e|] eqn:Herr.
  { exfalso. destruct e; (eapply Hk; [|exact E]); eauto with neco. }
  split; [done|]. destruct (rv_req rv) as [req|]; [|exfalso; eapply Hk; [apply keeps_panic|exact E]].
  unfold get_local at 1, mbind at 1, M_bind at 1 in E. cbn [snd] in E. exists req.
  destruct (req_Stop req) eqn:Hstop; [exfalso; eauto|].
  destruct (IsMember req (wk_mylrn wk)) eqn:Hmem; cbn [negb] in E; [|exfalso; eauto].
  case_bool_decide as Hv; cbn [negb] in E.
  2: { exfalso. eapply Hk; [|exact E]. keeps. }
  unfold mbind at 1, M_bind at 1 in E.
  destruct (GetStatuses (w, wk)) as [[w1 wk1] o] eqn:Eg.
  pose proof (keeps_GetStatuses _ _ _ Eg) as Hkeep. simpl in Hkeep. subst wk1.
  destruct o as [stMap|e|y|]; try (by injection E as <- <- <-).
  exists w1, stMap. destruct (UpdateAborted _ _ stMap) eqn:Ha.
  { exfalso. eapply Hk; [|exact E]. apply keeps_bind; [|intros _; apply Hw].
    destruct (stMap !! _); [apply keeps_PutStatus|apply keeps_mret]. }
  destruct (UpdateCompleted _ _ stMap) eqn:Hc; [exfalso; eauto|]. done.
Qed.
End run.
