(* ===== verification/Cluster.v ===== *)
(** * A cluster of workers over one etcd

    Every boot server runs the worker of [worker/worker.go] against the same etcd.
    [exec] is the executable step function of such a cluster: one worker starts its
    update, one worker handles the next commit of the log through the watch it has
    open, another client commits something, or a worker crashes.  A worker's turn
    runs the very handlers of [Worker], with the outcome of the operator's step and
    of each etcd write chosen by the label.

    A turn is atomic here although a step may take minutes.  Nothing is lost by it:
    between the moment it reads an event and its last write a handler only writes
    its own status key, so commits of others that fall in between can be moved
    before the turn. *)
From S2P Require Import Prelude GoStr GoTime Json Types Etcd Worlds Storage Watch Worker.

Local Open Scope Z_scope.

(** ** The world of one turn *)

(** What an etcd write comes to: it succeeds, it fails without effect, or it takes
    effect and the client sees an error. *)
Inductive PutMode := PutOk | PutLost (e : error) | PutApplied (e : error).

Record TurnWorld := {
  tw_log : Log;
  tw_step : option error;       (* what [RunStep] returns *)
  tw_puts : list PutMode;       (* what the writes of the turn come to *)
  tw_ran : list (Z * bool);     (* steps run in this turn, and whether they succeeded *)
}.

Definition set_log (w : TurnWorld) (l : Log) (puts : list PutMode) : TurnWorld :=
  {| tw_log := l; tw_step := tw_step w; tw_puts := puts; tw_ran := tw_ran w |}.

Definition tw_put (k v : string) : M TurnWorld unit := λ w,
  match tw_puts w with
  | [] => (set_log w (commit (tw_log w) [OpPut k v]) [], Ok ())
  | PutOk :: puts => (set_log w (commit (tw_log w) [OpPut k v]) puts, Ok ())
  | PutLost e :: puts => (set_log w (tw_log w) puts, Err e)
  | PutApplied e :: puts => (set_log w (commit (tw_log w) [OpPut k v]) puts, Err e)
  end.

Definition tw_access {A} (f : Log → Log * outcome A) : M TurnWorld A := λ w,
  let '(l, r) := f (tw_log w) in (set_log w l (tw_puts w), r).

#[export] Instance TurnWorld_etcd : Etcd TurnWorld := {
  etcd_get k o := tw_access (λ l, (l, Ok (read k o l)));
  etcd_put := tw_put;
  etcd_delete k := tw_access (λ l, (commit l [OpDelete k], Ok ()));
  etcd_txn cs ops := tw_access (sim_txn cs ops);
  etcd_recv o rev := tw_access (sim_recv o rev);
}.

(** The number of the operator's final step. *)
Class Final := FinalStep : Z.

#[export] Instance TurnWorld_operator `{Final} : Operator TurnWorld := {
  op_UpdateNeco _ := mret ();
  op_FinalStep := FinalStep;
  op_RunStep _ step := λ w,
    ({| tw_log := tw_log w; tw_step := tw_step w; tw_puts := tw_puts w;
        tw_ran := tw_ran w ++ [(step, bool_decide (tw_step w = None))] |},
     match tw_step w with None => Ok () | Some e => Err e end);
  op_StartServices := mret ();
  op_RestartEtcd _ _ := mret ();
}.

Section cluster.
Context `{Final}.
(** The request being processed. *)
Variable req : UpdateRequest.
(** The log up to the commit that stored the request. *)
Variable base : Log.

(** ** Nodes and clusters *)

(** Where a worker is in [update]: before it, in the watch, returned from it
    without error (complete or stopped), or failed. *)
Inductive Phase := Waiting | Watching | Done | Failed.
#[export] Instance Phase_eq_dec : EqDecision Phase.
Proof. solve_decision. Defined.

Record Node := {
  nd_worker : Worker;
  nd_next : nat;      (* number of commits of the log already delivered *)
  nd_phase : Phase;
}.

Record Cluster := {
  cl_log : Log;
  cl_nodes : gmap Z Node;
  cl_ran : list (Z * Z * bool);   (* (boot server, step, success), oldest first *)
}.

(** A worker that has accepted the request in [Run]. *)
Definition accepted_worker (lrn : Z) : Worker := set_req (NewWorker (req_Version req) lrn) req.

Definition new_node (lrn : Z) : Node :=
  {| nd_worker := accepted_worker lrn; nd_next := length base; nd_phase := Waiting |}.

Definition initial : Cluster :=
  {| cl_log := base;
     cl_nodes := list_to_map (map (λ lrn, (lrn, new_node lrn)) (elems (req_Servers req)));
     cl_ran := [] |}.

Inductive Label :=
  | LStart (lrn : Z) (puts : list PutMode)
  | LEvent (lrn : Z) (step : option error) (puts : list PutMode)
  | LEnv (c : Commit)
  | LCrash (lrn : Z).

(** Commits of other clients write the current request or keys outside of
    [status/]. *)
Definition env_event (ev : Event) : bool :=
  match ev with
  | EvPut k _ => bool_decide (k = KeyCurrent) || negb (HasPrefix k KeyStatusPrefix)
  | EvDelete k => bool_decide (k = KeyCurrent) || negb (HasPrefix k KeyStatusPrefix)
  end.

(** Run a handler of a node as one turn and store what it leaves behind. *)
Definition turn {A} (m : M (TurnWorld * Worker) A) (step : option error) (puts : list PutMode)
    (lrn : Z) (nd : Node) (next : nat) (phase : outcome A → Phase) (c : Cluster) : Cluster :=
  let w := {| tw_log := cl_log c; tw_step := step; tw_puts := puts; tw_ran := [] |} in
  let '((w', wk), r) := m (w, nd_worker nd) in
  {| cl_log := tw_log w';
     cl_nodes := <[lrn := {| nd_worker := wk; nd_next := next; nd_phase := phase r |}]> (cl_nodes c);
     cl_ran := cl_ran c ++ map (λ '(k, ok), (lrn, k, ok)) (tw_ran w') |}.

Definition start_phase (r : outcome unit) : Phase :=
  match r with Ok _ => Watching | _ => Failed end.
Definition event_phase (r : outcome bool) : Phase :=
  match r with Ok true => Done | Ok false => Watching | _ => Failed end.

(** The events of one commit that the status watch delivers. *)
Definition delivered (c : Commit) (n : nat) : list WatchEvent :=
  filter (λ e, watched watch_status (we_event e) = true)
    (map (λ ev, {| we_event := ev; we_rev := Z.of_nat n + 2 |}) c).

Definition exec (lb : Label) (c : Cluster) : option Cluster :=
  match lb with
  | LStart lrn puts =>
      nd ← cl_nodes c !! lrn;
      match nd_phase nd with
      | Waiting => Some (turn update_start None puts lrn nd (nd_next nd) start_phase c)
      | _ => None
      end
  | LEvent lrn step puts =>
      nd ← cl_nodes c !! lrn;
      match nd_phase nd, cl_log c !! nd_next nd with
      | Watching, Some commit =>
          Some (turn (handle_response worker_watcher (delivered commit (nd_next nd)))
                  step puts lrn nd (S (nd_next nd)) event_phase c)
      | _, _ => None
      end
  | LEnv commit =>
      if forallb env_event commit then
        Some {| cl_log := cl_log c ++ [commit]; cl_nodes := cl_nodes c; cl_ran := cl_ran c |}
      else None
  | LCrash lrn =>
      nd ← cl_nodes c !! lrn;
      Some {| cl_log := cl_log c;
              cl_nodes := <[lrn := {| nd_worker := nd_worker nd; nd_next := nd_next nd;
                                      nd_phase := Failed |}]> (cl_nodes c);
              cl_ran := cl_ran c |}
  end.

Fixpoint exec_all (lbs : list Label) (c : Cluster) : option Cluster :=
  match lbs with
  | [] => Some c
  | lb :: lbs => c ← exec lb c; exec_all lbs c
  end.

(** Errors whose text is valid UTF-8, so that a status that carries them is
    stored as it is. *)
Definition utf8_error (e : error) : Prop := valid_utf8 (error_text e) = true.
Definition put_ok_text (p : PutMode) : Prop :=
  match p with PutOk => True | PutLost e | PutApplied e => utf8_error e end.
Definition label_ok (lb : Label) : Prop :=
  match lb with
  | LStart _ puts => Forall put_ok_text puts
  | LEvent _ step puts =>
      Forall put_ok_text puts ∧ match step with None => True | Some e => utf8_error e end
  | LEnv c =>
      Forall (λ ev, ∀ e, Unmarshal (A := UpdateRequest) (event_value ev) = Err e → utf8_error e) c
  | LCrash _ => True
  end.

(** Everything that can happen to the cluster. *)
Inductive reachable : Cluster → Prop :=
  | reach_initial : reachable initial
  | reach_step c lb c' : reachable c → label_ok lb → exec lb c = Some c' → reachable c'.

(** Runs in which nothing fails and nobody interferes with the request. *)
Definition smooth (lb : Label) : Prop :=
  match lb with
  | LStart _ puts => Forall (λ p, p = PutOk) puts
  | LEvent _ step puts => step = None ∧ Forall (λ p, p = PutOk) puts
  | LEnv c => Forall (λ ev, watched watch_status ev = false) c
  | LCrash _ => False
  end.

Inductive smoothly : Cluster → Prop :=
  | smooth_initial : smoothly initial
  | smooth_step c lb c' : smoothly c → smooth lb → exec lb c = Some c' → smoothly c'.
End cluster.
