(* ===== verification/ClusterProofs.v ===== *)
(** * Barrier synchronisation is correct

    First the worker's handlers are shown to refine [reacts], a relation that says
    what a worker may do on a status event.  On top of it, two invariants of the
    cluster: one for every run, with failing steps, failing writes, crashes and
    cancelled requests, and one for the runs in which nothing fails. *)
From S2P Require Import Prelude GoStr GoTime Json Types Etcd Worlds Storage Watch Worker Cluster.

Local Open Scope Z_scope.

(** ** Status events *)
Definition status_data (st : UpdateStatus) : string :=
  match Marshal st with Ok data => data | _ => "" end.

Lemma Marshal_status st : Marshal st = Ok (status_data st).
Proof. done. Qed.

Definition status_put (lrn : Z) (st : UpdateStatus) : Commit :=
  [EvPut (keyStatus lrn) (status_data st)].

Lemma keyStatus_current lrn : keyStatus lrn ≠ KeyCurrent.
Proof. done. Qed.

Lemma keyStatus_prefix lrn : HasPrefix (keyStatus lrn) KeyStatusPrefix = true.
Proof. done. Qed.

Lemma dispatch_status {V} (sw : StatusWatcher V) lrn st rev :
  in_int64 lrn → status_ok st →
  dispatch sw {| we_event := EvPut (keyStatus lrn) (status_data st); we_rev := rev |} =
  handleStatus sw lrn st.
Proof.
  intros Hl Hst. unfold dispatch. cbn [we_key we_event event_value].
  rewrite bool_decide_eq_false_2 by apply keyStatus_current.
  unfold keyStatus, key_suffix. rewrite slice_from_app.
  unfold mbind at 1 2 3, M_bind, lift. rewrite Atoi_Itoa by done.
  by rewrite (@Unmarshal_Marshal _ UpdateStatus_codec st _ Hst (Marshal_status st)).
Qed.

Lemma delivered_status lrn st n :
  delivered (status_put lrn st) n =
  [{| we_event := EvPut (keyStatus lrn) (status_data st); we_rev := Z.of_nat n + 2 |}].
Proof. done. Qed.

Lemma delivered_env c n :
  forallb env_event c = true →
  Forall (λ e, ∃ data, we_event e = EvPut KeyCurrent data) (delivered c n).
Proof.
  intros Hc. unfold delivered. apply Forall_forall. intros e [Hw He]%list_elem_of_filter.
  apply list_elem_of_In, in_map_iff in He as (ev & <- & Hin). simpl in *.
  rewrite forallb_forall in Hc. specialize (Hc ev Hin).
  destruct ev as [k v|k]; simpl in *; [|by rewrite andb_false_r in Hw].
  rewrite andb_true_r in Hw. rewrite Hw, orb_false_r in Hc. apply bool_decide_eq_true in Hc as ->.
  eauto.
Qed.

Section reacts.
Context `{Final}.
Variable req : UpdateRequest.
Abbreviation servers := (elems (req_Servers req)).

Definition all_aborts (sts : list UpdateStatus) : Prop :=
  Forall (λ st, st_Cond st = CondAbort ∧ status_ok st) sts.

(** A status event that counts as an arrival at the worker's barrier. *)
Definition arrival (wk : Worker) (j : Z) (st : UpdateStatus) : Prop :=
  j ∈ servers ∧ st_Version st = req_Version req ∧ st_Step st = wk_step wk ∧
  st_Cond st ≠ CondAbort ∧ st_Cond st ≠ CondComplete.

Definition after_arrival (wk : Worker) (j : Z) : Worker :=
  set_barrier wk (wk_barrier wk ∖ {[j]}).
Definition barrier_opens (wk : Worker) (j : Z) : Prop := wk_barrier wk ∖ {[j]} = ∅.
#[local] Instance barrier_opens_dec wk j : Decision (barrier_opens wk j).
Proof. unfold barrier_opens. apply _. Defined.

Definition next_worker (wk : Worker) : Worker :=
  set_step (set_bch wk) (wk_step wk + 1) (NewBarrier servers).

(** What a worker may do when boot server [j] reports [st]: its new state, the
    statuses it writes, the steps it runs with their success, and the result. *)
Inductive reacts (wk : Worker) (j : Z) (st : UpdateStatus)
  : Worker → list UpdateStatus → list (Z * bool) → outcome bool → Prop :=
  | reacts_ignore : j ∉ servers → reacts wk j st wk [] [] (Ok false)
  | reacts_reject e sts :
      j ∈ servers → ¬ arrival wk j st → all_aborts sts → reacts wk j st wk sts [] (Err e)
  | reacts_wait :
      arrival wk j st → ¬ barrier_opens wk j →
      reacts wk j st (after_arrival wk j) [] [] (Ok false)
  | reacts_fail e sts :
      arrival wk j st → barrier_opens wk j → all_aborts sts →
      reacts wk j st (set_bch (after_arrival wk j)) sts [(wk_step wk, false)] (Err e)
  | reacts_next :
      arrival wk j st → barrier_opens wk j → wk_step wk ≠ FinalStep →
      reacts wk j st (next_worker wk)
        [running_status (req_Version req) (wk_step wk + 1)] [(wk_step wk, true)] (Ok false)
  | reacts_next_fail e sts sts' :
      arrival wk j st → barrier_opens wk j → wk_step wk ≠ FinalStep →
      sts `sublist_of` [running_status (req_Version req) (wk_step wk + 1)] → all_aborts sts' →
      reacts wk j st (next_worker wk) (sts ++ sts') [(wk_step wk, true)] (Err e)
  | reacts_complete :
      arrival wk j st → barrier_opens wk j → wk_step wk = FinalStep →
      reacts wk j st (set_bch (after_arrival wk j))
        [complete_status (req_Version req) (wk_step wk)] [(wk_step wk, true)] (Ok true)
  | reacts_complete_fail e sts sts' :
      arrival wk j st → barrier_opens wk j → wk_step wk = FinalStep →
      sts `sublist_of` [complete_status (req_Version req) (wk_step wk)] → all_aborts sts' →
      reacts wk j st (set_bch (after_arrival wk j)) (sts ++ sts') [(wk_step wk, true)] (Err e).

Hypothesis version_utf8 : valid_utf8 (req_Version req) = true.
Hypothesis final_range : 1 ≤ FinalStep < int64_max.

(** Writing statuses in a turn. *)
Definition wrote (lrn : Z) (w w' : TurnWorld) (sts : list UpdateStatus) : Prop :=
  tw_log w' = tw_log w ++ map (status_put lrn) sts ∧ tw_step w' = tw_step w ∧
  tw_ran w' = tw_ran w ∧ Forall put_ok_text (tw_puts w').

Lemma wrote_app lrn w w1 w2 sts1 sts2 :
  wrote lrn w w1 sts1 → wrote lrn w1 w2 sts2 → wrote lrn w w2 (sts1 ++ sts2).
Proof.
  intros (L1 & S1 & R1 & P1) (L2 & S2 & R2 & P2). unfold wrote.
  rewrite L2, L1, S2, S1, R2, R1, map_app, app_assoc. done.
Qed.

Lemma put_cases lrn st w wk :
  Forall put_ok_text (tw_puts w) →
  ∃ w' r sts, PutStatus lrn st (w, wk : Worker) = ((w', wk), r) ∧ wrote lrn w w' sts ∧
    sts `sublist_of` [st] ∧
    match r with Ok _ => sts = [st] | Err e => utf8_error e | _ => False end.
Proof.
  intros Hp. unfold PutStatus. rewrite Marshal_status.
  unfold mbind, M_bind, lift. cbn [etcd_put local_etcd TurnWorld_etcd]. unfold on_world. cbn [fst snd].
  unfold tw_put. destruct (tw_puts w) as [|[|e|e] puts] eqn:E; apply Forall_cons in Hp as Hp' || idtac.
  - do 2 eexists. exists [st]. split; [done|]. unfold wrote. simpl. rewrite commit_put. done.
  - do 2 eexists. exists [st]. split; [done|]. unfold wrote. simpl. rewrite commit_put.
    destruct Hp'. done.
  - do 2 eexists. exists []. split; [done|]. unfold wrote. simpl. rewrite app_nil_r.
    destruct Hp'. split; [done|]. split; [apply sublist_nil_l|done].
  - do 2 eexists. exists [st]. split; [done|]. unfold wrote. simpl. rewrite commit_put.
    destruct Hp'. done.
Qed.

(** A handler that fails leads to an abort status and ends the watch. *)
Lemma handle_response_one (ev : WatchEvent) (v : TurnWorld * Worker) :
  handle_response worker_watcher [ev] v =
  match dispatch worker_watcher ev v with
  | (v', Err e) => (_ ← ignore_error (registerAbort e); fail e) v'
  | vr => vr
  end.
Proof.
  unfold handle_response, mbind, M_bind, attempt. simpl.
  unfold mbind, M_bind. destruct (dispatch _ ev v) as [v' [[]|e| |]]; done.
Qed.

Lemma small_int64 z : 0 ≤ z ≤ FinalStep → in_int64 z.
Proof. unfold in_int64, int64_min, int64_max in *. lia. Qed.

Lemma abort_one step e sts :
  in_int64 step → utf8_error e →
  sts `sublist_of` [abort_status (req_Version req) step e] → all_aborts sts.
Proof.
  intros Hs He Hsub. eapply Forall_sub; [exact Hsub|]. apply Forall_singleton. split; [done|].
  unfold status_ok. simpl. split_and!; try done.
Qed.

Lemma abort_spec e w wk v r :
  wk_req wk = Some req → Forall put_ok_text (tw_puts w) → utf8_error e → in_int64 (wk_step wk) →
  (_ ← ignore_error (registerAbort e); fail e : M _ bool) (w, wk) = (v, r) →
  ∃ w' sts, v = (w', wk) ∧ r = Err e ∧ wrote (wk_mylrn wk) w w' sts ∧ all_aborts sts.
Proof.
  intros Hreq Hp He Hs E.
  destruct (put_cases (wk_mylrn wk) (abort_status (req_Version req) (wk_step wk) e) w wk Hp)
    as (w' & r' & sts & Ep & Hw & Hsub & Hr).
  exists w', sts. revert E. unfold ignore_error, registerAbort, current_req, get_local, fail.
  unfold mbind, M_bind, attempt, mret, M_ret. cbn [snd]. rewrite Hreq. cbn [snd]. rewrite Ep.
  assert (all_aborts sts) as Ha.
  { by eapply abort_one. }
  destruct r'; try done; by intros [= <- <-].
Qed.

(** The barrier's answer decides between waiting and running the step. *)
Lemma runStep_spec w wk v r :
  wk_req wk = Some req → Forall put_ok_text (tw_puts w) →
  match tw_step w with None => True | Some e => utf8_error e end →
  1 ≤ wk_step wk ≤ FinalStep →
  runStep (w, wk) = (v, r) →
  ∃ w' ok sts wk', v = (w', wk') ∧ tw_log w' = tw_log w ++ map (status_put (wk_mylrn wk)) sts ∧
    tw_ran w' = tw_ran w ++ [(wk_step wk, ok)] ∧ Forall put_ok_text (tw_puts w') ∧
    if ok then
      let st := if decide (wk_step wk = FinalStep)
                then complete_status (req_Version req) (wk_step wk)
                else running_status (req_Version req) (wk_step wk + 1) in
      sts `sublist_of` [st] ∧
      wk' = (if decide (wk_step wk = FinalStep) then wk
             else set_step wk (wk_step wk + 1) (NewBarrier servers)) ∧
      match r with
      | Ok b => sts = [st] ∧ b = bool_decide (wk_step wk = FinalStep)
      | Err e => utf8_error e
      | _ => False
      end
    else wk' = wk ∧ all_aborts sts ∧ ∃ e, r = Err e ∧ utf8_error e.
Proof.
  intros Hreq Hp Hop Hs E. assert (in_int64 (wk_step wk)) as Hin
    by (unfold in_int64, int64_min, int64_max in *; lia).
  unfold runStep, current_req, get_local, attempt, fail in E.
  unfold mbind, M_bind, attempt, mret, M_ret, on_world in E. cbn [fst snd] in E.
  rewrite Hreq in E. cbn [op_RunStep TurnWorld_operator fst snd] in E.
  destruct (tw_step w) as [e|] eqn:Es.
  - rewrite bool_decide_eq_false_2 in E by done. unfold ignore_error in E.
    unfold mbind, M_bind, attempt in E. cbn [tw_log tw_step tw_puts tw_ran] in E.
    set (w1 := {| tw_ran := tw_ran w ++ _ |}) in E.
    destruct (put_cases (wk_mylrn wk) (abort_status (req_Version req) (wk_step wk) e) w1 wk Hp)
      as (w' & r' & sts & Ep & (Hl & _ & Hr & Hp') & Hsub & Hr'). rewrite Ep in E.
    exists w', false, sts, wk.
    assert (all_aborts sts) by (by eapply abort_one).
    destruct r'; try done; injection E as <- <-; eauto 10.
  - rewrite bool_decide_eq_true_2 in E by done. cbn [op_FinalStep TurnWorld_operator] in E.
    rewrite wrap64_id in E by (unfold in_int64, int64_min, int64_max in *; lia).
    set (w1 := {| tw_ran := tw_ran w ++ _ |}) in E.
    destruct (Z.eqb_spec (wk_step wk) FinalStep) as [HF|HF]; cbn [negb] in E.
    + destruct (put_cases (wk_mylrn wk) (complete_status (req_Version req) (wk_step wk)) w1 wk Hp)
        as (w' & r' & sts & Ep & (Hl & _ & Hr & Hp') & Hsub & Hr'). rewrite Ep in E.
      exists w', true, sts, wk. rewrite !decide_True, bool_decide_eq_true_2 by done.
      destruct r' as [[]| | |]; try done; injection E as <- <-; split_and!; try done.
    + cbn [put_local] in E. unfold put_local in E. cbn [fst snd] in E.
      set (wk1 := set_step wk _ _) in E.
      destruct (put_cases (wk_mylrn wk) (running_status (req_Version req) (wk_step wk + 1)) w1 wk1 Hp)
        as (w' & r' & sts & Ep & (Hl & _ & Hr & Hp') & Hsub & Hr'). rewrite Ep in E.
      exists w', true, sts, wk1. rewrite !decide_False, bool_decide_eq_false_2 by done.
      destruct r' as [[]| | |]; try done; injection E as <- <-; split_and!; try done.
Qed.

(** The checks of [handleWorkerStatus] before the barrier, as one decision. *)
Definition check_status (wk : Worker) (j : Z) (st : UpdateStatus) : option error :=
  if negb (bool_decide (st_Version st = req_Version req)) then
    Some (ErrMsg ("unexpected version in worker status: " +:+ st_Version st))
  else if st_Cond st =? CondAbort then
    Some (ErrMsg ("other boot server failed to update: " +:+ Itoa j))
  else if negb (st_Step st =? wk_step wk) then
    Some (ErrMsg ("unexpected step in worker status: " +:+ Itoa (st_Step st)))
  else if st_Cond st =? CondComplete then
    Some (ErrMsg ("other boot server reports completion: " +:+ Itoa j))
  else None.

Lemma handleWorkerStatus_eq wk j st w :
  wk_req wk = Some req →
  handleWorkerStatus j st (w, wk) =
  if IsMember req j then
    match check_status wk j st with
    | Some e => ((w, wk), Err e)
    | None =>
        if bool_decide (barrier_opens wk j) then runStep (w, set_bch (after_arrival wk j))
        else ((w, after_arrival wk j), Ok false)
    end
  else ((w, wk), Ok false).
Proof.
  intros Hreq. unfold handleWorkerStatus, current_req, get_local, put_local, fail.
  unfold mbind, M_bind, mret, M_ret. cbn [fst snd]. rewrite Hreq.
  destruct (IsMember req j); cbn [negb snd]; [|done]. unfold check_status.
  repeat match goal with |- context [if ?b then _ else _] =>
    lazymatch b with
    | bool_decide (barrier_opens _ _) => fail
    | _ => destruct b; try done
    end
  end.
  unfold Barrier_Check. cbn [fst snd].
  rewrite (bool_decide_ext (size _ = 0%nat) (barrier_opens wk j)); [|unfold barrier_opens; rewrite size_empty_iff; by rewrite leibniz_equiv_iff].
  destruct (bool_decide _); done.
Qed.

Lemma check_status_spec wk j st :
  j ∈ servers →
  match check_status wk j st with
  | Some e => ¬ arrival wk j st ∧ (status_ok st → utf8_error e)
  | None => arrival wk j st
  end.
Proof.
  intros Hj. unfold check_status, arrival. case_bool_decide as Hv; simpl.
  2: { split; [tauto|]. intros (Hu & _). by apply valid_utf8_app. }
  destruct (Z.eqb_spec (st_Cond st) CondAbort).
  { split; [tauto|]. intros _. apply valid_utf8_app; [done|]. apply valid_utf8_Itoa. }
  destruct (Z.eqb_spec (st_Step st) (wk_step wk)); simpl.
  2: { split; [tauto|]. intros _. apply valid_utf8_app; [done|]. apply valid_utf8_Itoa. }
  destruct (Z.eqb_spec (st_Cond st) CondComplete); [|tauto].
  split; [tauto|]. intros _. apply valid_utf8_app; [done|]. apply valid_utf8_Itoa.
Qed.

(** The worker's code does on a status event only what [reacts] allows: it
    runs a step exactly when the event completes the barrier of its current step,
    moves on or completes only after the step succeeded, and reports any failure
    as an abort. *)
Lemma handle_status_reacts w wk j st rev v r :
  wk_req wk = Some req → 1 ≤ wk_step wk ≤ FinalStep → tw_ran w = [] →
  Forall put_ok_text (tw_puts w) → match tw_step w with None => True | Some e => utf8_error e end →
  in_int64 j → status_ok st →
  handle_response worker_watcher
    [{| we_event := EvPut (keyStatus j) (status_data st); we_rev := rev |}] (w, wk) = (v, r) →
  ∃ w' wk' sts, v = (w', wk') ∧ tw_log w' = tw_log w ++ map (status_put (wk_mylrn wk)) sts ∧
    reacts wk j st wk' sts (tw_ran w') r.
Proof.
  intros Hreq Hs Hran Hp Hop Hj Hst E.
  rewrite handle_response_one, dispatch_status in E by done.
  cbn [handleStatus worker_watcher] in E. rewrite handleWorkerStatus_eq in E by done.
  destruct (IsMember req j) eqn:Em.
  2: { injection E as <- <-. exists w, wk, []. rewrite app_nil_r, Hran. split_and!; try done.
       apply reacts_ignore. rewrite <-IsMember_spec. by rewrite Em. }
  apply IsMember_spec in Em. pose proof (check_status_spec wk j st Em) as Hc.
  destruct (check_status wk j st) as [e|].
  { destruct Hc as [Hna He].
    destruct (abort_spec e w wk v r Hreq Hp (He Hst) (small_int64 (wk_step wk) ltac:(lia)) E)
      as (w' & sts & -> & -> & (Hl & _ & Hr & _) & Ha).
    exists w', wk, sts. rewrite Hr, Hran. split_and!; try done. by apply reacts_reject. }
  case_bool_decide as Hb.
  2: { injection E as <- <-. exists w, (after_arrival wk j), []. rewrite app_nil_r, Hran.
       split_and!; try done. by apply reacts_wait. }
  destruct (runStep _) as [v1 r1] eqn:Er.
  apply runStep_spec in Er as (w1 & ok & sts & wk1 & -> & Hl & Hr & Hp1 & Hok); try done.
  rewrite Hran in Hr. cbn [app wk_step set_bch after_arrival set_barrier set_step wk_mylrn] in *.
  destruct ok.
  - destruct Hok as (Hsub & -> & Hres). destruct r1 as [b|e| |]; try done.
    + injection E as <- <-. destruct Hres as [-> ->]. do 3 eexists. split; [done|].
      split; [done|]. rewrite Hr.
      case_decide as HF; [rewrite bool_decide_eq_true_2 by done|rewrite bool_decide_eq_false_2 by done].
      * by apply reacts_complete.
      * by apply reacts_next.
    + apply abort_spec in E as (w' & sts' & -> & -> & (Hl' & _ & Hr' & _) & Ha); try done.
      * do 2 eexists. exists (sts ++ sts'). split; [done|]. rewrite Hl', Hl, Hr', Hr.
        rewrite map_app, <-app_assoc. split; [by case_decide|].
        case_decide as HF; [by apply reacts_complete_fail|by apply reacts_next_fail].
      * by case_decide.
      * unfold in_int64, int64_min, int64_max in *. case_decide; simpl; lia.
  - destruct Hok as (-> & Ha & e & -> & He).
    apply abort_spec in E as (w' & sts' & -> & -> & (Hl' & _ & Hr' & _) & Ha'); try done.
    + do 2 eexists. exists (sts ++ sts'). split; [done|]. rewrite Hl', Hl, Hr', Hr.
      rewrite map_app, <-app_assoc. split; [done|]. apply reacts_fail; try done.
      by apply Forall_app.
    + by apply small_int64; simpl; lia.
Qed.

(** A request event never runs a step; at worst it makes the worker abort. *)
Definition request_event (e : WatchEvent) : Prop :=
  ∃ data, we_event e = EvPut KeyCurrent data ∧
    ∀ err, Unmarshal (A := UpdateRequest) data = Err err → utf8_error err.

Lemma dispatch_request e v :
  request_event e → ∃ r, dispatch worker_watcher e v = (v, r) ∧
    match r with Ok _ => True | Err err => utf8_error err | _ => False end.
Proof.
  intros (data & He & Hu). unfold dispatch, we_key. rewrite He, bool_decide_eq_true_2 by done.
  cbn [event_value]. unfold mbind, M_bind, lift.
  pose proof (Unmarshal_plain (A := UpdateRequest) data) as Hpl.
  destruct (Unmarshal data) as [q|err| |]; [|eexists; split; [done|by apply Hu]|done..].
  cbn [handleRequest worker_watcher]. unfold handleCurrent. destruct (req_Stop q); eexists; done.
Qed.

Lemma handle_requests evs w wk v r :
  wk_req wk = Some req → in_int64 (wk_step wk) → Forall put_ok_text (tw_puts w) →
  Forall request_event evs →
  handle_response worker_watcher evs (w, wk) = (v, r) →
  ∃ w' sts, v = (w', wk) ∧ tw_log w' = tw_log w ++ map (status_put (wk_mylrn wk)) sts ∧
    tw_ran w' = tw_ran w ∧ all_aborts sts.
Proof.
  intros Hreq Hs Hp Hevs E. unfold handle_response in E.
  assert (∃ r', dispatch_all worker_watcher evs (w, wk) = ((w, wk), r') ∧
    match r' with Ok _ => True | Err err => utf8_error err | _ => False end) as (r' & Ed & Hr').
  { clear E. induction Hevs as [|e evs He Hevs IH]; [by exists (Ok false)|]. cbn [dispatch_all].
    destruct (dispatch_request e (w, wk) He) as (r1 & E1 & H1). unfold mbind, M_bind. rewrite E1.
    destruct r1 as [[]| | |]; [by exists (Ok true)|exact IH|by eexists (Err _)|done..]. }
  unfold mbind at 1, M_bind at 1, attempt in E. rewrite Ed in E.
  destruct r' as [b|err| |]; try done.
  - injection E as <- <-. exists w, []. rewrite app_nil_r. split_and!; by try constructor.
  - apply abort_spec in E as (w' & sts & -> & -> & (Hl & _ & Hr & _) & Ha); eauto 10.
Qed.
End reacts.
