(* ===== verification/ClusterSafety.v ===== *)
(** * Barrier safety

    The invariant of every run of the cluster, with failing steps, failing writes,
    crashes and interference, and what follows from it: no boot server runs a step
    before all of them have completed the one before, nobody runs a step twice, and
    a failed step stops the whole cluster. *)
From S2P Require Import Prelude GoStr GoTime Json Types Etcd Worlds Storage Watch Worker Cluster.
From S2P Require Import ClusterProofs.

Local Open Scope Z_scope.

Section safety.
Context `{Final}.
Variable req : UpdateRequest.
Variable base : Log.
Abbreviation servers := (elems (req_Servers req)).

Hypothesis version_utf8 : valid_utf8 (req_Version req) = true.
Hypothesis final_range : 1 ≤ FinalStep < int64_max.
Hypothesis servers_range : Forall in_int64 servers.

(** The commits after the request: a worker's status, or another client's. *)
Inductive Item :=
  | IStatus (lrn : Z) (st : UpdateStatus)
  | IOther (c : Commit).

Definition enc (i : Item) : Commit :=
  match i with IStatus lrn st => status_put lrn st | IOther c => c end.

Definition item_ok (i : Item) : Prop :=
  match i with
  | IStatus lrn st => in_int64 lrn ∧ status_ok st ∧
      (st_Cond st = CondRunning ∨ st_Cond st = CondAbort ∨ st_Cond st = CondComplete)
  | IOther c => forallb env_event c = true ∧
      Forall (λ ev, ∀ e, Unmarshal (A := UpdateRequest) (event_value ev) = Err e → utf8_error e) c
  end.

(** Boot server [j] has reported that it is about to run step [k]. *)
Definition reported (hist : list Item) (j k : Z) : Prop :=
  ∃ st, IStatus j st ∈ hist ∧ st_Cond st = CondRunning ∧ st_Step st = k.

Definition node_inv (hist : list Item) (lrn : Z) (nd : Node) : Prop :=
  lrn ∈ servers ∧ wk_mylrn (nd_worker nd) = lrn ∧ wk_req (nd_worker nd) = Some req ∧
  (length base ≤ nd_next nd)%nat ∧
  (nd_phase nd = Watching →
   1 ≤ wk_step (nd_worker nd) ≤ FinalStep ∧
   ∀ j, j ∈ servers → j ∉ wk_barrier (nd_worker nd) →
        reported hist j (wk_step (nd_worker nd))).

(** Steps run so far respect the barrier. *)
Definition ordered (ran : list (Z * Z * bool)) : Prop :=
  ∀ p j k ok, ran !! p = Some (j, k, ok) → j ∈ servers ∧ 1 ≤ k ≤ FinalStep ∧
    (2 ≤ k → ∀ i, i ∈ servers → ∃ q, (q < p)%nat ∧ ran !! q = Some (i, k - 1, true)).

Definition tag (lrn : Z) (r : Z * bool) : Z * Z * bool := (lrn, r.1, r.2).

Record inv (c : Cluster) (hist : list Item) : Prop := {
  inv_log : cl_log c = base ++ map enc hist;
  inv_items : Forall item_ok hist;
  inv_nodes lrn nd : cl_nodes c !! lrn = Some nd → node_inv hist lrn nd;
  inv_reports j k : reported hist j k → 1 ≤ k ≤ FinalStep ∧ (2 ≤ k → (j, k - 1, true) ∈ cl_ran c);
  inv_ordered : ordered (cl_ran c);
  inv_once : NoDup (cl_ran c).*1;
  inv_past j k ok : (j, k, ok) ∈ cl_ran c →
    ∃ nd, cl_nodes c !! j = Some nd ∧ nd_phase nd ≠ Waiting ∧
          (nd_phase nd = Watching → k < wk_step (nd_worker nd));
}.

Lemma reported_app hist hist' j k : reported hist j k → reported (hist ++ hist') j k.
Proof. intros (st & Hin & ?). exists st. split; [set_solver|done]. Qed.

Lemma node_inv_app hist hist' lrn nd : node_inv hist lrn nd → node_inv (hist ++ hist') lrn nd.
Proof.
  unfold node_inv. intros (? & ? & ? & ? & Hw). split_and!; try done.
  intros [? Hb]%Hw. split; [done|]. eauto using reported_app.
Qed.

(** What one worker's turn adds is safe to add. *)
Record safe_turn (c : Cluster) (hist : list Item) (lrn : Z) (nd nd' : Node)
    (sts : list UpdateStatus) (ran : list (Z * bool)) : Prop := {
  st_items : Forall (λ st, item_ok (IStatus lrn st)) sts;
  st_reports st : st ∈ sts → st_Cond st = CondRunning →
    1 ≤ st_Step st ≤ FinalStep ∧
    (2 ≤ st_Step st → (lrn, st_Step st - 1, true) ∈ cl_ran c ++ map (tag lrn) ran);
  st_ran k ok : (k, ok) ∈ ran → nd_phase nd = Watching ∧ k = wk_step (nd_worker nd) ∧
    ∀ i, i ∈ servers → reported hist i k;
  st_short : (length ran ≤ 1)%nat;
  st_node : node_inv (hist ++ map (IStatus lrn) sts) lrn nd';
  st_phase : nd_phase nd' ≠ Waiting;
  st_past k : nd_phase nd' = Watching → nd_phase nd = Watching →
    k < wk_step (nd_worker nd) ∨ k ∈ ran.*1 → k < wk_step (nd_worker nd');
  st_forward : nd_phase nd' = Watching → nd_phase nd = Watching ∨ nd_phase nd = Waiting;
}.

Definition turned (c : Cluster) (lrn : Z) (nd' : Node) (sts : list UpdateStatus)
    (ran : list (Z * bool)) : Cluster :=
  {| cl_log := cl_log c ++ map (status_put lrn) sts;
     cl_nodes := <[lrn := nd']> (cl_nodes c);
     cl_ran := cl_ran c ++ map (tag lrn) ran |}.

Lemma reported_new hist lrn sts j k :
  reported (hist ++ map (IStatus lrn) sts) j k →
  reported hist j k ∨ j = lrn ∧ ∃ st, st ∈ sts ∧ st_Cond st = CondRunning ∧ st_Step st = k.
Proof.
  intros (st & Hin & Hc & Hk). apply elem_of_app in Hin as [Hin|Hin]; [left; by exists st|right].
  apply list_elem_of_In, in_map_iff in Hin as (st' & [= -> ->] & Hin).
  apply list_elem_of_In in Hin. eauto.
Qed.

Lemma inv_turn c hist lrn nd nd' sts ran :
  inv c hist → cl_nodes c !! lrn = Some nd → safe_turn c hist lrn nd nd' sts ran →
  inv (turned c lrn nd' sts ran) (hist ++ map (IStatus lrn) sts).
Proof.
  intros Hi Hnd Hs. pose proof (inv_nodes _ _ Hi _ _ Hnd) as (Hlrn & _).
  assert (∀ k ok, (k, ok) ∈ ran → ∀ ok', (lrn, k, ok') ∉ cl_ran c) as Hnew.
  { intros k ok Hin ok' Hin'. destruct (st_ran _ _ _ _ _ _ _ Hs _ _ Hin) as (Hw & -> & _).
    destruct (inv_past _ _ Hi _ _ _ Hin') as (nd2 & Hnd2 & _ & Hlt). simplify_eq.
    specialize (Hlt Hw). lia. }
  split; cbn [turned cl_log cl_nodes cl_ran].
  - rewrite (inv_log _ _ Hi), <-app_assoc, map_app, map_map. done.
  - apply Forall_app; split; [apply (inv_items _ _ Hi)|]. apply Forall_map, (st_items _ _ _ _ _ _ _ Hs).
  - intros lrn' nd2 [[<- <-]|[_ Hl]]%lookup_insert_Some; [apply (st_node _ _ _ _ _ _ _ Hs)|].
    apply node_inv_app. by apply (inv_nodes _ _ Hi).
  - intros j k [Hr|(-> & st & Hin & Hc & <-)]%reported_new.
    + destruct (inv_reports _ _ Hi _ _ Hr). set_solver.
    + by apply (st_reports _ _ _ _ _ _ _ Hs).
  - intros p j k ok [Hp|[Hlen Hp]]%lookup_app_Some.
    + destruct (inv_ordered _ _ Hi _ _ _ _ Hp) as (? & ? & Hq). split_and!; try done; try lia.
      intros H2 i Hin. destruct (Hq H2 i Hin) as (q & Hlt & Hq'). exists q. split; [done|].
      by apply lookup_app_l_Some.
    + apply list_elem_of_lookup_2 in Hp.
      apply list_elem_of_In, in_map_iff in Hp as ([k' ok'] & [= <- <- <-] & Hin).
      apply list_elem_of_In in Hin.
      destruct (st_ran _ _ _ _ _ _ _ Hs _ _ Hin) as (_ & _ & Hall).
      split; [done|]. split; [by apply (inv_reports _ _ Hi _ _ (Hall lrn Hlrn))|]. intros H2 i Hsv.
      destruct (inv_reports _ _ Hi _ _ (Hall i Hsv)) as [_ Hr]. simpl in Hr.
      apply list_elem_of_lookup in Hr as [q Hq]; [|done]. exists q.
      pose proof (lookup_lt_Some _ _ _ Hq). split; [lia|]. by apply lookup_app_l_Some.
  - rewrite fmap_app. apply NoDup_app. split; [apply (inv_once _ _ Hi)|]. split.
    + intros [j k] Hold Hin. apply list_elem_of_fmap in Hold as ([[? ?] ok] & [= -> ->] & Hold).
      apply list_elem_of_fmap in Hin as ([[? ?] ok'] & [= -> ->] & Hin).
      apply list_elem_of_In, in_map_iff in Hin as ([k' ok2] & [= <- <- <-] & Hin).
      apply list_elem_of_In in Hin. by eapply Hnew.
    + pose proof (st_short _ _ _ _ _ _ _ Hs). destruct ran as [|a [|b ran]]; simpl in *;
        [constructor|apply NoDup_singleton|lia].
  - intros j k ok [Hin|Hin]%elem_of_app.
    + destruct (inv_past _ _ Hi _ _ _ Hin) as (nd2 & Hnd2 & Hp & Hlt).
      destruct (decide (j = lrn)) as [->|Hne]; [|exists nd2; by rewrite lookup_insert_ne by done].
      simplify_eq. exists nd'. rewrite lookup_insert_eq. split; [done|].
      split; [apply (st_phase _ _ _ _ _ _ _ Hs)|]. intros Hw'.
      destruct (st_forward _ _ _ _ _ _ _ Hs Hw') as [Hw|]; [|done].
      apply (st_past _ _ _ _ _ _ _ Hs k Hw' Hw). left. by apply Hlt.
    + apply list_elem_of_In, in_map_iff in Hin as ([k' ok'] & [= <- <- <-] & Hin).
      apply list_elem_of_In in Hin. exists nd'. rewrite lookup_insert_eq. split; [done|].
      split; [apply (st_phase _ _ _ _ _ _ _ Hs)|]. intros Hw'.
      destruct (st_ran _ _ _ _ _ _ _ Hs _ _ Hin) as (Hw & _).
      apply (st_past _ _ _ _ _ _ _ Hs k' Hw' Hw). right. apply list_elem_of_fmap. by exists (k', ok').
Qed.

(** ** Each kind of turn is safe *)
Lemma servers_int64 j : j ∈ servers → in_int64 j.
Proof. rewrite Forall_forall in servers_range. apply servers_range. Qed.

Lemma running_item lrn k : lrn ∈ servers → 1 ≤ k ≤ FinalStep →
  item_ok (IStatus lrn (running_status (req_Version req) k)).
Proof.
  intros Hl Hk. split; [by apply servers_int64|]. split; [|by left].
  unfold status_ok. simpl. split_and!; try done; apply small_int64; done || lia.
Qed.
Lemma complete_item lrn : lrn ∈ servers →
  item_ok (IStatus lrn (complete_status (req_Version req) FinalStep)).
Proof.
  intros Hl. split; [by apply servers_int64|]. split; [|by right; right].
  unfold status_ok. simpl. split_and!; try done; apply small_int64; done || lia.
Qed.
Lemma abort_items lrn sts :
  lrn ∈ servers → all_aborts sts → Forall (λ st, item_ok (IStatus lrn st)) sts.
Proof.
  intros Hl Ha. eapply Forall_impl; [exact Ha|]. intros st [Hc Hok].
  split; [by apply servers_int64|]. split; [done|by right; left].
Qed.

Lemma aborts_not_running sts st : all_aborts sts → st ∈ sts → st_Cond st ≠ CondRunning.
Proof. intros Ha Hin Hc. unfold all_aborts in Ha. rewrite Forall_forall in Ha. destruct (Ha st Hin) as [Hc2 _]. by rewrite Hc in Hc2. Qed.

(** A turn after which the worker is out of the watch, having run at most a step. *)
Lemma safe_stopped c hist lrn nd nd' sts ran :
  node_inv hist lrn nd → nd_phase nd = Watching →
  nd_phase nd' ≠ Waiting → nd_phase nd' ≠ Watching →
  wk_mylrn (nd_worker nd') = lrn → wk_req (nd_worker nd') = Some req →
  (length base ≤ nd_next nd')%nat → (length ran ≤ 1)%nat →
  Forall (λ st, item_ok (IStatus lrn st)) sts →
  (∀ st, st ∈ sts → st_Cond st = CondRunning →
     st_Step st ≤ FinalStep ∧ 2 ≤ st_Step st ∧ (st_Step st - 1, true) ∈ ran) →
  (∀ k ok, (k, ok) ∈ ran → k = wk_step (nd_worker nd) ∧ ∀ i, i ∈ servers → reported hist i k) →
  safe_turn c hist lrn nd nd' sts ran.
Proof.
  intros (Hl & _) Hw Hp1 Hp2 Hm Hr Hn Hlen Hit Hrun Hran. split; try done.
  - intros st Hin Hc. destruct (Hrun st Hin Hc) as (? & ? & Hin'). split; [lia|]. intros _.
    apply elem_of_app. right. apply list_elem_of_In, in_map_iff. eexists. split; [|by apply list_elem_of_In].
    done.
  - intros k ok Hin. split; [done|]. by apply Hran in Hin.
Qed.

Lemma arrival_reported hist wk j st :
  Forall item_ok hist → IStatus j st ∈ hist → arrival req wk j st → reported hist j (wk_step wk).
Proof.
  intros Hok Hin (_ & _ & Hs & Hna & Hnc). exists st. split; [done|]. split; [|done].
  rewrite Forall_forall in Hok. destruct (Hok _ Hin) as (_ & _ & Hc). tauto.
Qed.

Lemma opened_reported hist lrn nd j st :
  Forall item_ok hist → node_inv hist lrn nd → nd_phase nd = Watching → IStatus j st ∈ hist →
  arrival req (nd_worker nd) j st → barrier_opens (nd_worker nd) j →
  ∀ i, i ∈ servers → reported hist i (wk_step (nd_worker nd)).
Proof.
  intros Hok (_ & _ & _ & _ & Hw) Hph Hin Ha Hb i Hi. destruct (Hw Hph) as [_ Hrep].
  destruct (decide (i = j)) as [->|Hne]; [by eapply arrival_reported|].
  apply Hrep; [done|]. unfold barrier_opens in Hb. set_solver.
Qed.

Definition moved (nd : Node) (wk : Worker) (r : outcome bool) : Node :=
  {| nd_worker := wk; nd_next := S (nd_next nd); nd_phase := event_phase r |}.

Lemma set_barrier_id wk : set_barrier wk (wk_barrier wk) = wk.
Proof. by destruct wk. Qed.

Lemma safe_quiet c hist lrn nd b :
  node_inv hist lrn nd → nd_phase nd = Watching →
  (∀ j, j ∈ servers → j ∉ b → reported hist j (wk_step (nd_worker nd))) →
  safe_turn c hist lrn nd (moved nd (set_barrier (nd_worker nd) b) (Ok false)) [] [].
Proof.
  intros (Hl & Hm & Hrq & Hnx & Hw) Hph Hb. destruct (Hw Hph) as [Hst _]. split; simpl; try done.
  - by intros st ?%not_elem_of_nil.
  - by intros k ok ?%not_elem_of_nil.
  - lia.
  - rewrite app_nil_r. split_and!; simpl; try done. lia.
  - intros k _ _ [?|?%not_elem_of_nil]; done.
  - by left.
Qed.

Lemma safe_reacts c hist lrn nd j st wk' sts ran r :
  inv c hist → cl_nodes c !! lrn = Some nd → nd_phase nd = Watching → IStatus j st ∈ hist →
  reacts req (nd_worker nd) j st wk' sts ran r →
  safe_turn c hist lrn nd (moved nd wk' r) sts ran.
Proof.
  intros Hi Hnd Hph Hin Hre. pose proof (inv_nodes _ _ Hi _ _ Hnd) as Hn.
  pose proof (inv_items _ _ Hi) as Hok.
  pose proof (opened_reported _ _ _ _ _ Hok Hn Hph Hin) as Hopen.
  pose proof Hn as (Hl & Hm & Hrq & Hnx & Hw). destruct (Hw Hph) as [Hst Hrep].
  destruct Hre as [Hj|e sts Hj Hna Ha|Ha Hb|e sts Ha Hb Hab|Ha Hb HF|e sts sts' Ha Hb HF Hsub Hab
    |Ha Hb HF|e sts sts' Ha Hb HF Hsub Hab].
  - pose proof (safe_quiet c hist lrn nd (wk_barrier (nd_worker nd)) Hn Hph Hrep) as Hq.
    by rewrite set_barrier_id in Hq.
  - apply safe_stopped; simpl; try done; try lia.
    + by apply abort_items.
    + intros st' Hin' Hc. by destruct (aborts_not_running _ _ Ha Hin').
    + by intros k ok ?%not_elem_of_nil.
  - apply safe_quiet; [done|done|]. intros i His Hib.
    destruct (decide (i = j)) as [->|]; [by eapply arrival_reported|]. apply Hrep; [done|]. set_solver.
  - apply safe_stopped; simpl; try done; try lia.
    + by apply abort_items.
    + intros st' Hin' Hc. by destruct (aborts_not_running _ _ Hab Hin').
    + intros k ok [= -> ->]%list_elem_of_singleton. auto.
  - split; simpl; try done; try lia.
    + apply Forall_singleton, running_item; [done|]. lia.
    + intros st' ->%list_elem_of_singleton _. simpl. split; [lia|]. intros _.
      replace (wk_step (nd_worker nd) + 1 - 1) with (wk_step (nd_worker nd)) by lia. set_solver.
    + intros k ok [= -> ->]%list_elem_of_singleton. auto.
    + split_and!; simpl; try done; [lia|]. intros _. split; [lia|]. intros i His Hib.
      contradict Hib. unfold NewBarrier. set_solver.
    + intros k _ _ [?| ->%list_elem_of_singleton]; lia.
    + by left.
  - apply safe_stopped; simpl; try done; try lia.
    + apply Forall_app. split; [|by apply abort_items]. eapply Forall_sub; [done|].
      apply Forall_singleton, running_item; [done|]. lia.
    + intros st' [Hin'|Hin']%elem_of_app Hc; [|by destruct (aborts_not_running _ _ Hab Hin')].
      eapply elem_of_sublist in Hin'; [|done]. apply list_elem_of_singleton in Hin' as ->. simpl.
      replace (wk_step (nd_worker nd) + 1 - 1) with (wk_step (nd_worker nd)) by lia.
      split_and!; [lia..|set_solver].
    + intros k ok [= -> ->]%list_elem_of_singleton. auto.
  - apply safe_stopped; simpl; try done; try lia.
    + apply Forall_singleton. rewrite HF. by apply complete_item.
    + by intros st' ->%list_elem_of_singleton.
    + intros k ok [= -> ->]%list_elem_of_singleton. auto.
  - apply safe_stopped; simpl; try done; try lia.
    + apply Forall_app. split; [|by apply abort_items]. eapply Forall_sub; [done|].
      apply Forall_singleton. rewrite HF. by apply complete_item.
    + intros st' [Hin'|Hin']%elem_of_app Hc; [|by destruct (aborts_not_running _ _ Hab Hin')].
      eapply elem_of_sublist in Hin'; [|done]. by apply list_elem_of_singleton in Hin' as ->.
    + intros k ok [= -> ->]%list_elem_of_singleton. auto.
Qed.

Lemma safe_aborts c hist lrn nd r sts :
  node_inv hist lrn nd → nd_phase nd = Watching → all_aborts sts →
  safe_turn c hist lrn nd (moved nd (nd_worker nd) r) sts [].
Proof.
  intros Hn Hph Ha. pose proof Hn as (Hl & Hm & Hrq & Hnx & Hw). destruct (Hw Hph) as [Hst Hb].
  split; simpl; try done.
  - by apply abort_items.
  - intros st Hin Hc. by destruct (aborts_not_running _ _ Ha Hin).
  - by intros k ok ?%not_elem_of_nil.
  - lia.
  - split_and!; simpl; try done; [lia|]. intros _. eauto using reported_app.
  - by destruct r as [[]| | |].
  - intros k _ _ [?|?%not_elem_of_nil]; done.
  - by left.
Qed.

Lemma safe_start c hist lrn nd wk sts phase :
  node_inv hist lrn nd → nd_phase nd = Waiting → phase ≠ Waiting →
  sts `sublist_of` [running_status (req_Version req) 1] →
  (phase = Watching → wk = set_step (nd_worker nd) 1 (NewBarrier servers)) →
  (phase ≠ Watching → wk_mylrn wk = lrn ∧ wk_req wk = Some req) →
  safe_turn c hist lrn nd
    {| nd_worker := wk; nd_next := nd_next nd; nd_phase := phase |} sts [].
Proof.
  intros (Hl & Hm & Hrq & Hnx & _) Hph Hp Hsub Hw Hf. split; simpl; try done.
  - eapply Forall_sub; [done|]. apply Forall_singleton, running_item; [done|]. lia.
  - intros st Hin _. eapply elem_of_sublist in Hin; [|done].
    apply list_elem_of_singleton in Hin as ->. simpl. lia.
  - by intros k ok ?%not_elem_of_nil.
  - lia.
  - destruct (decide (phase = Watching)) as [Heq|Hne].
    + rewrite (Hw Heq). split_and!; simpl; try done. intros _. split; [lia|].
      intros i His Hib. contradict Hib. unfold NewBarrier. set_solver.
    + destruct (Hf Hne). by split_and!.
  - congruence.
  - by right.
Qed.

Lemma turn_eq {A} (m : M (TurnWorld * Worker) A) step puts lrn nd next phase c w' wk' r sts :
  m ({| tw_log := cl_log c; tw_step := step; tw_puts := puts; tw_ran := [] |}, nd_worker nd)
    = ((w', wk'), r) →
  tw_log w' = cl_log c ++ map (status_put lrn) sts →
  turn m step puts lrn nd next phase c =
  turned c lrn {| nd_worker := wk'; nd_next := next; nd_phase := phase r |} sts (tw_ran w').
Proof.
  intros E Hl. unfold turn, turned. rewrite E, Hl. do 2 f_equal. apply map_ext. by intros [].
Qed.

Lemma update_start_spec w wk v r :
  wk_req wk = Some req → Forall put_ok_text (tw_puts w) →
  update_start (w, wk) = (v, r) →
  ∃ w' wk' sts, v = (w', wk') ∧ wrote (wk_mylrn wk) w w' sts ∧
    sts `sublist_of` [running_status (req_Version req) 1] ∧
    match r with
    | Ok _ => sts = [running_status (req_Version req) 1] ∧
              wk' = set_step wk 1 (NewBarrier servers)
    | Err _ => wk' = wk
    | _ => False
    end.
Proof.
  intros Hreq Hp E. unfold update_start, current_req, get_local, put_local in E.
  unfold mbind, M_bind, mret, M_ret in E. cbn [fst snd] in E. rewrite Hreq in E. cbn [fst snd] in E.
  destruct (put_cases (wk_mylrn wk) (running_status (req_Version req) 1) w wk Hp)
    as (w' & r' & sts & Ep & Hw & Hsub & Hr). rewrite Ep in E.
  destruct r' as [[]|e| |]; try done; injection E as <- <-; eauto 10.
Qed.

Lemma request_events cm n : item_ok (IOther cm) → Forall request_event (delivered cm n).
Proof.
  intros [Henv Hu]. pose proof (delivered_env cm n Henv) as Hd.
  rewrite Forall_forall in Hd |- *. intros e He. destruct (Hd e He) as [data Hdata].
  exists data. split; [done|]. apply list_elem_of_filter in He as [_ He].
  apply list_elem_of_In, in_map_iff in He as (ev & <- & Hin). simpl in Hdata. subst ev.
  rewrite Forall_forall in Hu. apply (Hu (EvPut KeyCurrent data)). by apply list_elem_of_In.
Qed.

Definition Inv (c : Cluster) : Prop := ∃ hist, inv c hist.

Lemma Inv_start c lrn puts c' :
  Inv c → Forall put_ok_text puts → exec (LStart lrn puts) c = Some c' → Inv c'.
Proof.
  intros [hist Hi] Hp E. unfold exec in E. destruct (cl_nodes c !! lrn) as [nd|] eqn:Hnd; [|done].
  simpl in E. destruct (nd_phase nd) eqn:Hph; try done. injection E as <-.
  pose proof (inv_nodes _ _ Hi _ _ Hnd) as Hn. pose proof Hn as (_ & Hm & Hrq & _).
  destruct (update_start ({| tw_log := cl_log c; tw_step := None; tw_puts := puts; tw_ran := [] |},
              nd_worker nd)) as [v r] eqn:E.
  pose proof E as (w' & wk' & sts & -> & (Hl & _ & Hr & _) & Hsub & Hres)%update_start_spec; [|done..].
  exists (hist ++ map (IStatus lrn) sts). rewrite Hm in Hl. erewrite turn_eq; [|done|done].
  eapply inv_turn; [done|done|]. rewrite Hr. apply safe_start; try done.
  - by destruct r as [[]| | |].
  - destruct r as [[]| | |]; try done. by destruct Hres.
  - destruct r as [[]| | |]; try done. subst. done.
Qed.

Lemma Inv_event c lrn step puts c' :
  Inv c → label_ok (LEvent lrn step puts) → exec (LEvent lrn step puts) c = Some c' → Inv c'.
Proof.
  intros [hist Hi] [Hp Hop] E. unfold exec in E.
  destruct (cl_nodes c !! lrn) as [nd|] eqn:Hnd; [|done]. simpl in E.
  destruct (nd_phase nd) eqn:Hph; try done.
  destruct (cl_log c !! nd_next nd) as [cm|] eqn:Hcm; [|done]. injection E as <-.
  pose proof (inv_nodes _ _ Hi _ _ Hnd) as Hn. pose proof Hn as (_ & Hm & Hrq & Hnx & Hw).
  destruct (Hw Hph) as [Hst _].
  rewrite (inv_log _ _ Hi), lookup_app_r, list_lookup_fmap in Hcm by done.
  destruct (hist !! _) as [it|] eqn:Hit; [|done]. injection Hcm as <-.
  apply list_elem_of_lookup_2 in Hit.
  pose proof (inv_items _ _ Hi) as Hok. rewrite Forall_forall in Hok. specialize (Hok it Hit).
  destruct (handle_response worker_watcher (delivered (enc it) (nd_next nd))
    ({| tw_log := cl_log c; tw_step := step; tw_puts := puts; tw_ran := [] |}, nd_worker nd))
    as [v r] eqn:E.
  destruct it as [j st|cm].
  - destruct Hok as (Hj & Hsok & _). cbn [enc] in E. rewrite delivered_status in E.
    apply (handle_status_reacts req) in E as E'; try done.
    destruct E' as (w' & wk' & sts & -> & Hl & Hre). rewrite Hm in Hl.
    exists (hist ++ map (IStatus lrn) sts). cbn [enc]. rewrite delivered_status.
    erewrite turn_eq; [|done|done]. eapply inv_turn; [done|done|]. by eapply safe_reacts.
  - destruct Hok as [Henv Hu]. apply (handle_requests req) in E as E'; try done.
    + destruct E' as (w' & sts & -> & Hl & Hr & Ha). rewrite Hm in Hl.
      exists (hist ++ map (IStatus lrn) sts). erewrite turn_eq; [|done|done].
      eapply inv_turn; [done|done|]. rewrite Hr. by apply safe_aborts.
    + by apply small_int64; simpl; lia.
    + apply request_events; done.
Qed.

Lemma Inv_env c cm c' :
  Inv c → label_ok (LEnv cm) → exec (LEnv cm) c = Some c' → Inv c'.
Proof.
  intros [hist Hi] Hu E. unfold exec in E. destruct (forallb env_event cm) eqn:Hc; [|done].
  injection E as <-. exists (hist ++ [IOther cm]).
  assert (∀ j k, reported (hist ++ [IOther cm]) j k → reported hist j k) as Hrep.
  { intros j k (st & [Hin|Hin]%elem_of_app & ?); [by exists st|]. by apply list_elem_of_singleton in Hin. }
  split; simpl; try apply Hi.
  - rewrite (inv_log _ _ Hi), map_app, app_assoc. done.
  - apply Forall_app. split; [apply (inv_items _ _ Hi)|]. by apply Forall_singleton.
  - intros lrn nd Hnd. by apply node_inv_app, (inv_nodes _ _ Hi).
  - intros j k Hr. by apply (inv_reports _ _ Hi), Hrep.
Qed.

Lemma Inv_crash c lrn c' : Inv c → exec (LCrash lrn) c = Some c' → Inv c'.
Proof.
  intros [hist Hi] E. unfold exec in E. destruct (cl_nodes c !! lrn) as [nd|] eqn:Hnd; [|done].
  injection E as <-. exists hist. split; simpl; try apply Hi.
  - intros lrn' nd2 [[<- <-]|[_ Hl]]%lookup_insert_Some; [|by apply (inv_nodes _ _ Hi)].
    destruct (inv_nodes _ _ Hi _ _ Hnd) as (? & ? & ? & ? & _). by split_and!.
  - intros j k ok (nd2 & Hnd2 & Hp & Hlt)%(inv_past _ _ Hi).
    destruct (decide (j = lrn)) as [->|Hne].
    + eexists. rewrite lookup_insert_eq. by split_and!.
    + exists nd2. by rewrite lookup_insert_ne by done.
Qed.

Lemma Inv_initial : Inv (initial req base).
Proof.
  exists []. split; simpl; try done.
  - by rewrite app_nil_r.
  - intros lrn nd Hl. apply elem_of_list_to_map_2 in Hl.
    apply list_elem_of_In, in_map_iff in Hl as (lrn' & [= -> <-] & Hin).
    apply list_elem_of_In in Hin. by split_and!.
  - intros j k (st & ?%not_elem_of_nil & _). done.
  - constructor.
  - by intros j k ok ?%not_elem_of_nil.
Qed.

Lemma reachable_Inv c : reachable req base c → Inv c.
Proof.
  induction 1 as [|c lb c' _ IH Hlb E]; [apply Inv_initial|].
  destruct lb; eauto using Inv_start, Inv_event, Inv_env, Inv_crash.
Qed.

(** From a step that was run, everyone's success of each earlier step. *)
Lemma ordered_chain ran i n j k ok :
  ordered ran → (j, k, ok) ∈ ran → i ∈ servers → 1 ≤ k - Z.of_nat (S n) →
  (i, k - Z.of_nat (S n), true) ∈ ran.
Proof.
  intros Ho Hin Hi. revert j k ok Hin. induction n as [|n IH]; intros j k ok Hin Hk;
    apply list_elem_of_lookup in Hin as [p Hp]; destruct (Ho _ _ _ _ Hp) as (_ & _ & Hq);
    destruct (Hq ltac:(lia) i Hi) as (q & _ & Hq').
  - replace (k - Z.of_nat 1) with (k - 1) by lia. by eapply list_elem_of_lookup_2.
  - apply list_elem_of_lookup_2 in Hq'. replace (k - Z.of_nat (S (S n))) with (k - 1 - Z.of_nat (S n)) by lia.
    eapply IH; [done|lia].
Qed.



(** C3: once a step has failed on one boot server, no boot server ever runs a
    later step of that update. *)
Theorem failure_stops_cluster c i k j k' ok :
  reachable req base c → (i, k, false) ∈ cl_ran c → (j, k', ok) ∈ cl_ran c → k' ≤ k.
Proof.
  intros [hist Hi]%reachable_Inv Hf Hj. destruct (decide (k' ≤ k)) as [|Hgt]; [done|exfalso].
  apply list_elem_of_lookup in Hf as [p Hp].
  destruct (inv_ordered _ _ Hi _ _ _ _ Hp) as (His & Hk & _).
  assert ((i, k, true) ∈ cl_ran c) as [q Hq]%list_elem_of_lookup.
  { replace k with (k' - Z.of_nat (S (Z.to_nat (k' - k - 1)))) by lia.
    eapply ordered_chain; [apply (inv_ordered _ _ Hi)|done|done|lia]. }
  assert (p = q) as ->; [|congruence].
  eapply NoDup_lookup; [apply (inv_once _ _ Hi)|..]; rewrite list_lookup_fmap.
  - by rewrite Hp.
  - by rewrite Hq.
Qed.
End safety.
