(* ===== verification/ClusterLiveness.v ===== *)
(** * The update completes when nothing fails

    In the runs where no step, write or worker fails and nobody touches the
    request, the workers never mistake each other's reports for a failure, some
    worker can always move until all are done, every move brings the end nearer,
    and at the end the updater's completion test holds. *)
From S2P Require Import Prelude GoStr GoTime Json Types Etcd Worlds Storage Watch Worker Cluster.
From S2P Require Import ClusterProofs ClusterSafety.

Local Open Scope Z_scope.

Section liveness.
Context `{Final}.
Variable req : UpdateRequest.
Variable base : Log.
Abbreviation servers := (elems (req_Servers req)).

Hypothesis version_utf8 : valid_utf8 (req_Version req) = true.
Hypothesis final_range : 1 ≤ FinalStep < int64_max.
Hypothesis servers_range : Forall in_int64 servers.

Abbreviation run k := (running_status (req_Version req) k).
Abbreviation fin := (complete_status (req_Version req) FinalStep).

(** ** Turns without failures *)
Definition all_ok (puts : list PutMode) : Prop := Forall (λ p, p = PutOk) puts.

Lemma put_smooth lrn st w (wk : Worker) :
  all_ok (tw_puts w) →
  ∃ w', PutStatus lrn st (w, wk) = ((w', wk), Ok ()) ∧
    tw_log w' = tw_log w ++ [status_put lrn st] ∧ tw_ran w' = tw_ran w.
Proof.
  intros Hp. unfold PutStatus. rewrite Marshal_status.
  unfold mbind, M_bind, lift. cbn [etcd_put local_etcd TurnWorld_etcd]. unfold on_world. cbn [fst snd].
  unfold tw_put. destruct (tw_puts w) as [|p puts]; [by eexists|].
  apply Forall_cons in Hp as [-> Hp]. by eexists.
Qed.

Lemma start_smooth w wk :
  wk_req wk = Some req → all_ok (tw_puts w) →
  ∃ w', update_start (w, wk) = ((w', set_step wk 1 (NewBarrier servers)), Ok ()) ∧
    tw_log w' = tw_log w ++ [status_put (wk_mylrn wk) (run 1)] ∧ tw_ran w' = tw_ran w.
Proof.
  intros Hreq Hp. destruct (put_smooth (wk_mylrn wk) (run 1) w wk Hp) as (w' & Ep & Hl & Hr).
  exists w'. split; [|done]. unfold update_start, current_req, get_local, put_local.
  unfold mbind, M_bind, mret, M_ret. cbn [fst snd]. rewrite Hreq. cbn [fst snd]. by rewrite Ep.
Qed.

(** On an arrival the worker waits for the others, moves to the next step, or
    completes. *)
Lemma event_smooth w wk j st rev :
  wk_req wk = Some req → 1 ≤ wk_step wk ≤ FinalStep → tw_step w = None → all_ok (tw_puts w) →
  in_int64 j → status_ok st → arrival req wk j st →
  ∃ w' wk' sts r,
    handle_response worker_watcher
      [{| we_event := EvPut (keyStatus j) (status_data st); we_rev := rev |}] (w, wk)
      = ((w', wk'), Ok r) ∧
    tw_log w' = tw_log w ++ map (status_put (wk_mylrn wk)) sts ∧
    if decide (wk_barrier wk ∖ {[j]} = ∅) then
      if decide (wk_step wk = FinalStep)
      then r = true ∧ sts = [fin] ∧ wk' = set_bch (after_arrival wk j)
      else r = false ∧ sts = [run (wk_step wk + 1)] ∧
           wk' = next_worker req wk
    else r = false ∧ sts = [] ∧ wk' = after_arrival wk j.
Proof.
  intros Hreq Hs Hop Hp Hj Hst Ha. rewrite handle_response_one, dispatch_status by done.
  cbn [handleStatus worker_watcher]. rewrite (handleWorkerStatus_eq req) by done.
  pose proof Ha as (Hsv & _). rewrite (proj2 (IsMember_spec _ _) Hsv).
  pose proof (check_status_spec req final_range wk j st Hsv) as Hc.
  destruct (check_status req wk j st); [by destruct Hc|].
  case_decide as Hb.
  2: { rewrite bool_decide_eq_false_2 by done. exists w, (after_arrival wk j), [], false.
       by rewrite app_nil_r. }
  rewrite bool_decide_eq_true_2 by done. set (wk1 := set_bch (after_arrival wk j)).
  change (wk_req wk1 = Some req) in Hreq. change (wk_step wk) with (wk_step wk1) in *.
  unfold runStep, current_req, get_local, put_local.
  unfold mbind, M_bind, attempt, mret, M_ret, on_world. cbn [fst snd]. rewrite Hreq.
  cbn [fst snd op_RunStep TurnWorld_operator]. rewrite Hop. cbn [op_FinalStep TurnWorld_operator].
  rewrite wrap64_id by (unfold in_int64, int64_min, int64_max in *; lia).
  destruct (Z.eqb_spec (wk_step wk1) FinalStep) as [HF|HF]; cbn [negb fst snd].
  - edestruct (put_smooth (wk_mylrn wk1) (complete_status (req_Version req) (wk_step wk1)))
      as (w' & Ep & Hl & _); [|rewrite Ep; exists w', wk1, [fin], true]; [done|].
    split; [done|]. split; [rewrite Hl, HF; done|]. by rewrite decide_True.
  - edestruct (put_smooth (wk_mylrn wk1) (run (wk_step wk1 + 1))) as (w' & Ep & Hl & _);
      [|rewrite Ep; exists w', (next_worker req wk), [run (wk_step wk1 + 1)], false]; [done|].
    split; [done|]. split; [rewrite Hl; done|]. by rewrite decide_False.
Qed.

(** ** The invariant of runs without failures *)
Definition item_live (it : Item) : Prop :=
  match it with
  | IStatus j st => j ∈ servers ∧ ((∃ k, 1 ≤ k ≤ FinalStep ∧ st = run k) ∨ st = fin)
  | IOther cm => forallb env_event cm = true ∧ Forall (λ ev, watched watch_status ev = false) cm
  end.

(** Reports come in rounds: a step is announced only after everyone has announced
    the step before, and completion after everyone has announced the last step. *)
Definition rounds (hist : list Item) : Prop :=
  ∀ p j st, hist !! p = Some (IStatus j st) →
  ∀ i, i ∈ servers →
    (∀ k, st = run k → 2 ≤ k → ∃ q, (q < p)%nat ∧ hist !! q = Some (IStatus i (run (k - 1)))) ∧
    (st = fin → ∃ q, (q < p)%nat ∧ hist !! q = Some (IStatus i (run FinalStep))).

Definition unique (hist : list Item) : Prop :=
  ∀ p q j st, hist !! p = Some (IStatus j st) → hist !! q = Some (IStatus j st) → p = q.

Definition own_reports (hist : list Item) (lrn k : Z) : Prop :=
  ∀ k', IStatus lrn (run k') ∈ hist ↔ 1 ≤ k' ≤ k.

(** What a worker at step [k] with barrier [b] has seen. *)
Definition seen_inv (seen : list Item) (k : Z) (b : Barrier) : Prop :=
  (2 ≤ k → ∀ i, i ∈ servers → IStatus i (run (k - 1)) ∈ seen) ∧
  (∀ i, i ∈ b ↔ i ∈ servers ∧ IStatus i (run k) ∉ seen) ∧ b ≠ ∅ ∧
  (∀ i k', k < k' → IStatus i (run k') ∉ seen).

Definition phase_live (hist : list Item) (lrn : Z) (wk : Worker) (cur : nat) (ph : Phase) : Prop :=
  match ph with
  | Waiting => cur = 0%nat ∧ ∀ st, IStatus lrn st ∉ hist
  | Watching => 1 ≤ wk_step wk ≤ FinalStep ∧ own_reports hist lrn (wk_step wk) ∧
      (IStatus lrn fin ∉ hist) ∧ seen_inv (take cur hist) (wk_step wk) (wk_barrier wk)
  | Done => own_reports hist lrn FinalStep ∧ IStatus lrn fin ∈ hist
  | Failed => False
  end.

Definition node_live (hist : list Item) (lrn : Z) (nd : Node) : Prop :=
  lrn ∈ servers ∧ wk_mylrn (nd_worker nd) = lrn ∧ wk_req (nd_worker nd) = Some req ∧
  ∃ cur, nd_next nd = (length base + cur)%nat ∧ (cur ≤ length hist)%nat ∧
         phase_live hist lrn (nd_worker nd) cur (nd_phase nd).

Record live (c : Cluster) (hist : list Item) : Prop := {
  live_log : cl_log c = base ++ map enc hist;
  live_items : Forall item_live hist;
  live_rounds : rounds hist;
  live_unique : unique hist;
  live_dom i : i ∈ servers → is_Some (cl_nodes c !! i);
  live_nodes lrn nd : cl_nodes c !! lrn = Some nd → node_live hist lrn nd;
}.

Lemma run_fin k : run k ≠ fin.
Proof. done. Qed.
Lemma run_inj k k' : run k = run k' → k = k'.
Proof. by intros [=]. Qed.

(** Everyone has announced every earlier step before a report. *)
Lemma rounds_chain hist p j k i n :
  rounds hist → hist !! p = Some (IStatus j (run k)) → i ∈ servers → 1 ≤ k - Z.of_nat (S n) →
  ∃ q, (q < p)%nat ∧ hist !! q = Some (IStatus i (run (k - Z.of_nat (S n)))).
Proof.
  intros Hr Hp Hi. revert p j k Hp. induction n as [|n IH]; intros p j k Hp Hk;
    destruct (Hr _ _ _ Hp i Hi) as [Hq _]; destruct (Hq k eq_refl ltac:(lia)) as (q & Hlt & Hq').
  - replace (k - Z.of_nat 1) with (k - 1) by lia. eauto.
  - replace (k - Z.of_nat (S (S n))) with (k - 1 - Z.of_nat (S n)) by lia.
    destruct (IH q i (k - 1) Hq' ltac:(lia)) as (q' & ? & ?). exists q'. split; [lia|done].
Qed.

Lemma rounds_before hist p j k i k' :
  rounds hist → hist !! p = Some (IStatus j (run k)) → i ∈ servers → 1 ≤ k' < k →
  ∃ q, (q < p)%nat ∧ hist !! q = Some (IStatus i (run k')).
Proof.
  intros Hr Hp Hi Hk. replace k' with (k - Z.of_nat (S (Z.to_nat (k - k' - 1)))) by lia.
  eapply rounds_chain; [done..|lia].
Qed.

(** The next event of a worker is always an arrival at its barrier: with no
    failures there are no spurious aborts. *)
Lemma next_is_arrival hist cur k b j st :
  Forall item_live hist → rounds hist → unique hist → 1 ≤ k ≤ FinalStep →
  seen_inv (take cur hist) k b → hist !! cur = Some (IStatus j st) → st = run k.
Proof.
  intros Hit Hr Hu Hk (Hprev & Hb & Hne & Hnone) Hcur.
  assert (∀ q i k', (q < cur)%nat → hist !! q = Some (IStatus i (run k')) →
    IStatus i (run k') ∈ take cur hist) as Hseen.
  { intros q i k' Hq Hl. apply list_elem_of_lookup. exists q. by rewrite lookup_take_lt. }
  destruct (set_choose_L b Hne) as [x Hx]. apply Hb in Hx as [Hxs Hxn].
  rewrite Forall_forall in Hit.
  destruct (Hit (IStatus j st) (list_elem_of_lookup_2 _ _ _ Hcur)) as [Hjs [(k' & Hk' & ->)| ->]].
  - f_equal. destruct (Z.lt_trichotomy k' k) as [Hlt|[->|Hgt]]; [|done|]; exfalso.
    + assert (IStatus j (run (k - 1)) ∈ take cur hist) as Hpr by (apply Hprev; [lia|done]).
      apply list_elem_of_lookup in Hpr as [q Hq]. apply lookup_take_Some in Hq as [Hq Hqc].
      destruct (decide (k' = k - 1)) as [->|Hne'].
      { pose proof (Hu _ _ _ _ Hq Hcur). lia. }
      destruct (rounds_before _ _ _ _ j k' Hr Hq Hjs ltac:(lia)) as (q' & Hlt' & Hq').
      pose proof (Hu _ _ _ _ Hq' Hcur). lia.
    + destruct (rounds_before _ _ _ _ x k Hr Hcur Hxs ltac:(lia)) as (q & Hlt & Hq). eauto.
  - exfalso. destruct (Hr _ _ _ Hcur x Hxs) as [_ Hf]. destruct (Hf eq_refl) as (q & Hlt & Hq).
    destruct (decide (k = FinalStep)) as [->|Hkn]; [eauto|].
    assert (k < FinalStep) as Hlt' by lia. apply (Hnone x _ Hlt'). eauto.
Qed.

(** ** The invariant is preserved *)
Lemma phase_live_snoc hist it lrn wk cur ph :
  (∀ st, it ≠ IStatus lrn st) → (cur ≤ length hist)%nat →
  phase_live hist lrn wk cur ph → phase_live (hist ++ [it]) lrn wk cur ph.
Proof.
  intros Hit Hcur. assert (∀ st, IStatus lrn st ∈ hist ++ [it] ↔ IStatus lrn st ∈ hist) as Hin.
  { intros st. rewrite elem_of_app, list_elem_of_singleton. split; [|by left].
    intros [?|Heq]; [done|]. by destruct (Hit st). }
  unfold phase_live, own_reports. rewrite take_app_le by done. destruct ph; try setoid_rewrite Hin; done.
Qed.

Lemma node_live_snoc hist it lrn nd :
  (∀ st, it ≠ IStatus lrn st) → node_live hist lrn nd → node_live (hist ++ [it]) lrn nd.
Proof.
  intros Hit (? & ? & ? & cur & ? & ? & ?). split_and!; try done. exists cur. split_and!; [done| |].
  - rewrite length_app. simpl. lia.
  - by apply phase_live_snoc.
Qed.

Lemma rounds_snoc hist it :
  rounds hist →
  (∀ j st, it = IStatus j st → ∀ i, i ∈ servers →
     (∀ k, st = run k → 2 ≤ k → IStatus i (run (k - 1)) ∈ hist) ∧
     (st = fin → IStatus i (run FinalStep) ∈ hist)) →
  rounds (hist ++ [it]).
Proof.
  intros Hr Hit p j st Hp i Hi.
  assert (∀ it', it' ∈ hist → ∃ q, (q < length hist)%nat ∧ (hist ++ [it]) !! q = Some it') as Hold.
  { intros it' [q Hq]%list_elem_of_lookup. exists q. split; [by eapply lookup_lt_Some|].
    by apply lookup_app_l_Some. }
  apply lookup_app_Some in Hp as [Hp|[Hlen Hp]].
  - destruct (Hr _ _ _ Hp i Hi) as [H1 H2]. split.
    + intros k Hk H2k. destruct (H1 k Hk H2k) as (q & ? & ?). exists q.
      split; [done|by apply lookup_app_l_Some].
    + intros Hf. destruct (H2 Hf) as (q & ? & ?). exists q. split; [done|by apply lookup_app_l_Some].
  - apply list_lookup_singleton_Some in Hp as [Hz Hit'].
    destruct (Hit j st Hit' i Hi) as [H1 H2]. split.
    + intros k Hk H2k. destruct (Hold _ (H1 k Hk H2k)) as (q & ? & ?). exists q. split; [lia|done].
    + intros Hf. destruct (Hold _ (H2 Hf)) as (q & ? & ?). exists q. split; [lia|done].
Qed.

Lemma unique_snoc hist it :
  unique hist → (∀ j st, it = IStatus j st → it ∉ hist) → unique (hist ++ [it]).
Proof.
  intros Hu Hit p q j st Hp Hq.
  apply lookup_app_Some in Hp as [Hp|[Hlp Hp]]; apply lookup_app_Some in Hq as [Hq|[Hlq Hq]];
    [by eapply Hu|..].
  - apply list_lookup_singleton_Some in Hq as [_ Heq]. destruct (Hit j st Heq). rewrite Heq.
    by eapply list_elem_of_lookup_2.
  - apply list_lookup_singleton_Some in Hp as [_ Heq]. destruct (Hit j st Heq). rewrite Heq.
    by eapply list_elem_of_lookup_2.
  - apply list_lookup_singleton_Some in Hp as [? _], Hq as [? _]. lia.
Qed.

Lemma live_other c hist cm c' :
  live c hist → smooth (LEnv cm) → exec (LEnv cm) c = Some c' → live c' (hist ++ [IOther cm]).
Proof.
  intros Hi Hs E. unfold exec in E. destruct (forallb env_event cm) eqn:Hc; [|done]. injection E as <-.
  split; cbn [cl_log cl_nodes]; try apply Hi.
  - rewrite (live_log _ _ Hi), map_app, app_assoc. done.
  - apply Forall_app. split; [apply Hi|]. by apply Forall_singleton.
  - by apply rounds_snoc; [apply Hi|].
  - by apply unique_snoc; [apply Hi|].
  - intros lrn nd Hnd. by apply node_live_snoc, (live_nodes _ _ Hi).
Qed.

Lemma live_dom_insert (nodes : gmap Z Node) lrn nd i :
  (is_Some (nodes !! i)) → is_Some (<[lrn := nd]> nodes !! i).
Proof.
  destruct (decide (i = lrn)) as [->|]; [by rewrite lookup_insert_eq|by rewrite lookup_insert_ne].
Qed.

(** A turn that writes nothing. *)
Lemma live_quiet c hist lrn nd' ran :
  live c hist → node_live hist lrn nd' → live (turned c lrn nd' [] ran) hist.
Proof.
  intros Hi Hn. split; cbn [turned cl_log cl_nodes map]; try apply Hi.
  - rewrite app_nil_r. apply Hi.
  - intros i His. by apply live_dom_insert, Hi.
  - intros lrn' nd2 [[<- <-]|[_ Hl]]%lookup_insert_Some; [done|]. by apply Hi.
Qed.

(** A turn that writes one report. *)
Lemma live_report c hist lrn nd' st ran :
  live c hist → item_live (IStatus lrn st) → IStatus lrn st ∉ hist →
  (∀ i, i ∈ servers →
     (∀ k, st = run k → 2 ≤ k → IStatus i (run (k - 1)) ∈ hist) ∧
     (st = fin → IStatus i (run FinalStep) ∈ hist)) →
  node_live (hist ++ [IStatus lrn st]) lrn nd' →
  live (turned c lrn nd' [st] ran) (hist ++ [IStatus lrn st]).
Proof.
  intros Hi Hit Hnew Hr Hn. split; cbn [turned cl_log cl_nodes].
  - rewrite (live_log _ _ Hi), map_app, app_assoc. done.
  - apply Forall_app. split; [apply Hi|]. by apply Forall_singleton.
  - apply rounds_snoc; [apply Hi|]. by intros j st' [= <- <-].
  - apply unique_snoc; [apply Hi|done].
  - intros i His. by apply live_dom_insert, Hi.
  - intros lrn' nd2 [[<- <-]|[Hne Hl]]%lookup_insert_Some; [done|].
    apply node_live_snoc; [naive_solver|]. by apply Hi.
Qed.

#[local] Instance Item_eq_dec : EqDecision Item.
Proof. solve_decision. Defined.

Lemma seen_arrive seen k b j :
  seen_inv seen k b → b ∖ {[j]} ≠ ∅ → seen_inv (seen ++ [IStatus j (run k)]) k (b ∖ {[j]}).
Proof.
  intros (Hprev & Hb & _ & Hnone) Hne. split_and!; [| |done|].
  - intros Hk i Hi. apply elem_of_app. left. auto.
  - intros i. rewrite elem_of_difference, Hb, not_elem_of_app, elem_of_singleton, list_elem_of_singleton.
    split; [|naive_solver]. intros [[? ?] Hij]. split_and!; naive_solver.
  - intros i k' Hk'. rewrite not_elem_of_app, list_elem_of_singleton. split; [auto|].
    intros [= _ ?]. lia.
Qed.

Lemma seen_all seen k b j i :
  seen_inv seen k b → b ∖ {[j]} = ∅ → i ∈ servers → IStatus i (run k) ∈ seen ++ [IStatus j (run k)].
Proof.
  intros (_ & Hb & _) Hop Hi. apply elem_of_app. destruct (decide (i = j)) as [->|Hne].
  { right. by apply list_elem_of_singleton. }
  left. destruct (decide (IStatus i (run k) ∈ seen)) as [|Hn]; [done|].
  assert (i ∈ b) by (by apply Hb). assert (i ∈ b ∖ {[j]}) as Hin by set_solver.
  rewrite Hop in Hin. set_solver.
Qed.

Lemma seen_next seen k b j lrn :
  seen_inv seen k b → b ∖ {[j]} = ∅ → lrn ∈ servers →
  seen_inv (seen ++ [IStatus j (run k)]) (k + 1) (NewBarrier servers).
Proof.
  intros Hs Hop Hl. split_and!.
  - intros _ i Hi. replace (k + 1 - 1) with k by lia. by eapply seen_all.
  - intros i. unfold NewBarrier. rewrite elem_of_list_to_set. split; [|by intros [? _]].
    intros Hi. split; [done|]. rewrite not_elem_of_app, list_elem_of_singleton.
    split; [apply Hs; lia|]. intros [= _ ?]. lia.
  - unfold NewBarrier. intros Heq. assert (lrn ∈ (∅ : gset Z)); [|set_solver].
    rewrite <-Heq. by apply elem_of_list_to_set.
  - intros i k' Hk'. rewrite not_elem_of_app, list_elem_of_singleton.
    split; [apply Hs; lia|]. intros [= _ ?]. lia.
Qed.

(** The reports a worker has still to write. *)
Definition reports_left (nd : Node) : Z :=
  match nd_phase nd with
  | Waiting => FinalStep + 1
  | Watching => FinalStep + 1 - wk_step (nd_worker nd)
  | Done | Failed => 0
  end.

(** A turn brings the end nearer: it writes a report or consumes a commit. *)
Definition advances (nd nd' : Node) (sts : list UpdateStatus) : Prop :=
  reports_left nd' = reports_left nd - Z.of_nat (length sts) ∧
  (nd_next nd ≤ nd_next nd')%nat ∧ (sts = [] → nd_next nd' = S (nd_next nd)).

Definition good_turn (c : Cluster) (lrn : Z) (c' : Cluster) : Prop :=
  ∃ nd nd' sts ran hist', cl_nodes c !! lrn = Some nd ∧ c' = turned c lrn nd' sts ran ∧
    advances nd nd' sts ∧ live c' hist'.

Lemma live_start c hist lrn puts c' :
  live c hist → all_ok puts → exec (LStart lrn puts) c = Some c' → good_turn c lrn c'.
Proof.
  intros Hi Hp E. unfold exec in E. destruct (cl_nodes c !! lrn) as [nd|] eqn:Hnd; [|done].
  simpl in E. destruct (nd_phase nd) eqn:Hph; try done. injection E as <-.
  pose proof (live_nodes _ _ Hi _ _ Hnd) as (Hl & Hm & Hrq & cur & Hnx & Hcur & Hlive).
  rewrite Hph in Hlive. destruct Hlive as [-> Hnone].
  destruct (start_smooth {| tw_log := cl_log c; tw_step := None; tw_puts := puts; tw_ran := [] |}
              (nd_worker nd) Hrq Hp) as (w' & E & Hlog & Hran).
  rewrite Hm in Hlog. erewrite (turn_eq _ _ _ _ _ _ _ _ _ _ _ [run 1]); [|done|done].
  eexists nd, _, [run 1], _, (hist ++ [IStatus lrn (run 1)]). split; [done|]. split; [done|].
  split; [by unfold advances, reports_left; rewrite Hph; simpl; split_and!; try done; lia|].
  apply live_report; try done.
  - split; [done|]. left. exists 1. split; [lia|done].
  - intros i His. split; [intros k [= <-]; lia|done].
  - split_and!; try done. exists 0%nat. split; [done|]. split; [lia|]. split; [simpl; lia|]. split_and!.
    + intros k'. simpl. rewrite elem_of_app, list_elem_of_singleton. split.
      * intros [?|[= ->]]; [naive_solver|lia].
      * intros Hk. right. do 2 f_equal. lia.
    + rewrite not_elem_of_app, list_elem_of_singleton. naive_solver.
    + rewrite take_0. simpl. split_and!; [lia| | |intros i k' _; apply not_elem_of_nil].
      * intros i. unfold NewBarrier. rewrite elem_of_list_to_set. split; [|by intros [? _]].
        intros His. split; [done|]. apply not_elem_of_nil.
      * unfold NewBarrier. intros Heq. assert (lrn ∈ (∅ : gset Z)); [|set_solver].
        rewrite <-Heq. by apply elem_of_list_to_set.
Qed.

Lemma run_arrival wk j : j ∈ servers → arrival req wk j (run (wk_step wk)).
Proof. intros Hj. by split_and!. Qed.

(** A worker in the watch with an event to handle. *)
Record handling (c : Cluster) (hist : list Item) (lrn : Z) (nd : Node) (cur : nat) (it : Item)
    : Prop := {
  hd_node : cl_nodes c !! lrn = Some nd;
  hd_live : live c hist;
  hd_server : lrn ∈ servers;
  hd_lrn : wk_mylrn (nd_worker nd) = lrn;
  hd_req : wk_req (nd_worker nd) = Some req;
  hd_next : nd_next nd = (length base + cur)%nat;
  hd_item : hist !! cur = Some it;
  hd_phase : nd_phase nd = Watching;
  hd_watching : phase_live hist lrn (nd_worker nd) cur Watching;
}.

Lemma handling_exec c hist lrn step puts c' :
  live c hist → exec (LEvent lrn step puts) c = Some c' →
  ∃ nd cur it, handling c hist lrn nd cur it ∧
    c' = turn (handle_response worker_watcher (delivered (enc it) (nd_next nd)))
           step puts lrn nd (S (nd_next nd)) event_phase c.
Proof.
  intros Hi E. unfold exec in E. destruct (cl_nodes c !! lrn) as [nd|] eqn:Hnd; [|done].
  simpl in E. destruct (nd_phase nd) eqn:Hph; try done.
  destruct (cl_log c !! nd_next nd) as [cm|] eqn:Hcm; [|done]. injection E as <-.
  pose proof (live_nodes _ _ Hi _ _ Hnd) as (Hl & Hm & Hrq & cur & Hnx & Hcur & Hlive).
  rewrite Hph in Hlive. rewrite (live_log _ _ Hi), Hnx, lookup_app_r in Hcm by lia.
  replace (length base + cur - length base)%nat with cur in Hcm by lia.
  rewrite list_lookup_fmap in Hcm. destruct (hist !! cur) as [it|] eqn:Hit; [|done].
  injection Hcm as <-. exists nd, cur, it. split; [|done]. by split.
Qed.

(** The worker stays in the watch without writing. *)
Lemma live_stay c hist lrn nd cur it wk ran :
  handling c hist lrn nd cur it →
  wk_mylrn wk = lrn → wk_req wk = Some req → wk_step wk = wk_step (nd_worker nd) →
  seen_inv (take cur hist ++ [it]) (wk_step wk) (wk_barrier wk) →
  live (turned c lrn {| nd_worker := wk; nd_next := S (nd_next nd); nd_phase := Watching |} [] ran) hist.
Proof.
  intros Hh Hm Hr Hs Hseen. apply live_quiet; [apply Hh|]. split_and!; try done; [apply Hh|].
  exists (S cur). pose proof (hd_item _ _ _ _ _ _ Hh) as Hit.
  pose proof (lookup_lt_Some _ _ _ Hit). destruct (hd_watching _ _ _ _ _ _ Hh) as (Hk & Hown & Hf & _).
  split; [simpl; rewrite (hd_next _ _ _ _ _ _ Hh); lia|]. split; [lia|].
  cbn [nd_worker nd_phase phase_live]. rewrite (take_S_r _ _ _ Hit).
  split; [lia|]. split; [by rewrite Hs|]. done.
Qed.

Lemma live_unwatched c hist lrn nd cur cm puts :
  handling c hist lrn nd cur (IOther cm) →
  good_turn c lrn (turn (handle_response worker_watcher (delivered cm (nd_next nd)))
          None puts lrn nd (S (nd_next nd)) event_phase c).
Proof.
  intros Hh. assert (delivered cm (nd_next nd) = []) as ->.
  { pose proof (live_items _ _ (hd_live _ _ _ _ _ _ Hh)) as Hit'. rewrite Forall_forall in Hit'.
    destruct (Hit' _ (list_elem_of_lookup_2 _ _ _ (hd_item _ _ _ _ _ _ Hh))) as [_ Hw].
    rewrite Forall_forall in Hw.
    apply filter_all_false. intros e He. apply list_elem_of_In, in_map_iff in He as (ev & <- & Hin).
    simpl. rewrite Hw; [done|]. by apply list_elem_of_In. }
  erewrite (turn_eq _ _ _ _ _ _ _ _ _ _ _ []); [|done|by rewrite app_nil_r].
  eexists nd, _, [], _, hist. split; [apply Hh|]. split; [done|]. split.
  { unfold advances, reports_left. rewrite (hd_phase _ _ _ _ _ _ Hh). simpl. split_and!; try done; lia. }
  eapply live_stay; [done|by eapply hd_lrn|by eapply hd_req|done|].
  destruct (hd_watching _ _ _ _ _ _ Hh) as (_ & _ & _ & H1 & H2 & H3 & H4).
  split; [|split; [|split; [done|]]].
  - intros H2k i His. apply elem_of_app. left. auto.
  - intros i. rewrite H2, not_elem_of_app, list_elem_of_singleton. naive_solver.
  - intros i k' Hk'. rewrite not_elem_of_app, list_elem_of_singleton. naive_solver.
Qed.

Lemma own_reports_next hist lrn k :
  1 ≤ k → own_reports hist lrn k →
  own_reports (hist ++ [IStatus lrn (run (k + 1))]) lrn (k + 1).
Proof.
  intros H1 Hown k'. rewrite elem_of_app, list_elem_of_singleton, (Hown k'). split.
  - intros [?|[= ->]]; lia.
  - intros Hk2. destruct (decide (k' ≤ k)); [left; lia|right]. do 2 f_equal. lia.
Qed.

(** The last arrival at the barrier: everyone has announced the step. *)
Lemma handling_all c hist lrn nd cur j i :
  handling c hist lrn nd cur (IStatus j (run (wk_step (nd_worker nd)))) →
  wk_barrier (nd_worker nd) ∖ {[j]} = ∅ → i ∈ servers →
  IStatus i (run (wk_step (nd_worker nd))) ∈ hist.
Proof.
  intros Hh Hop Hi. destruct (hd_watching _ _ _ _ _ _ Hh) as (_ & _ & _ & Hseen).
  pose proof (seen_all _ _ _ _ _ Hseen Hop Hi) as Hin.
  rewrite <-(take_S_r _ _ _ (hd_item _ _ _ _ _ _ Hh)) in Hin.
  apply elem_of_take in Hin as (q & Hq & _). by eapply list_elem_of_lookup_2.
Qed.

Lemma live_next c hist lrn nd cur j ran :
  handling c hist lrn nd cur (IStatus j (run (wk_step (nd_worker nd)))) →
  wk_barrier (nd_worker nd) ∖ {[j]} = ∅ → wk_step (nd_worker nd) ≠ FinalStep →
  live (turned c lrn {| nd_worker := next_worker req (nd_worker nd); nd_next := S (nd_next nd);
                        nd_phase := Watching |} [run (wk_step (nd_worker nd) + 1)] ran)
    (hist ++ [IStatus lrn (run (wk_step (nd_worker nd) + 1))]).
Proof.
  intros Hh Hop HF. destruct (hd_watching _ _ _ _ _ _ Hh) as (Hk & Hown & Hf & Hseen).
  pose proof (hd_item _ _ _ _ _ _ Hh) as Hit. pose proof (lookup_lt_Some _ _ _ Hit).
  pose proof (hd_server _ _ _ _ _ _ Hh) as Hl. apply live_report; try apply Hh.
  - split; [done|]. left. eexists. split; [|done]. lia.
  - intros Hin%Hown. lia.
  - intros i His. split; [|done]. intros k Hk2 _. apply run_inj in Hk2 as <-.
    replace (wk_step (nd_worker nd) + 1 - 1) with (wk_step (nd_worker nd)) by lia.
    by eapply handling_all.
  - split_and!; [done|exact (hd_lrn _ _ _ _ _ _ Hh)|exact (hd_req _ _ _ _ _ _ Hh)|]. exists (S cur).
    split; [simpl; rewrite (hd_next _ _ _ _ _ _ Hh); lia|]. split; [rewrite length_app; simpl; lia|].
    cbn [nd_worker nd_phase phase_live next_worker set_step wk_step wk_barrier set_bch].
    split; [lia|]. split; [apply own_reports_next; [lia|done]|]. split.
    + rewrite not_elem_of_app, list_elem_of_singleton. done.
    + rewrite take_app_le, (take_S_r _ _ _ Hit) by lia. by eapply seen_next.
Qed.

Lemma live_done c hist lrn nd cur j ran :
  handling c hist lrn nd cur (IStatus j (run (wk_step (nd_worker nd)))) →
  wk_barrier (nd_worker nd) ∖ {[j]} = ∅ → wk_step (nd_worker nd) = FinalStep →
  live (turned c lrn {| nd_worker := set_bch (after_arrival (nd_worker nd) j);
                        nd_next := S (nd_next nd); nd_phase := Done |} [fin] ran)
    (hist ++ [IStatus lrn fin]).
Proof.
  intros Hh Hop HF. destruct (hd_watching _ _ _ _ _ _ Hh) as (Hk & Hown & Hf & Hseen).
  pose proof (hd_item _ _ _ _ _ _ Hh) as Hit. pose proof (lookup_lt_Some _ _ _ Hit).
  pose proof (hd_server _ _ _ _ _ _ Hh) as Hl. apply live_report; try apply Hh; try done.
  - split; [done|by right].
  - intros i His. split; [done|]. intros _. rewrite <-HF. by eapply handling_all.
  - split_and!; [done|exact (hd_lrn _ _ _ _ _ _ Hh)|exact (hd_req _ _ _ _ _ _ Hh)|]. exists (S cur).
    split; [simpl; rewrite (hd_next _ _ _ _ _ _ Hh); lia|]. split; [rewrite length_app; simpl; lia|].
    split; [|set_solver]. intros k'. rewrite elem_of_app, list_elem_of_singleton, <-HF, <-(Hown k').
    naive_solver.
Qed.

Lemma live_event c hist lrn step puts c' :
  live c hist → smooth (LEvent lrn step puts) → exec (LEvent lrn step puts) c = Some c' →
  good_turn c lrn c'.
Proof.
  intros Hi [-> Hp] (nd & cur & it & Hh & ->)%(handling_exec _ _ _ _ _ _ Hi).
  pose proof (hd_node _ _ _ _ _ _ Hh) as Hnd. pose proof (hd_phase _ _ _ _ _ _ Hh) as Hph.
  destruct it as [j st|cm]; [|by eapply live_unwatched].
  pose proof (hd_item _ _ _ _ _ _ Hh) as Hit. pose proof (hd_watching _ _ _ _ _ _ Hh) as (Hk & _ & _ & Hs).
  assert (j ∈ servers) as Hj.
  { pose proof (live_items _ _ Hi) as Hit'. rewrite Forall_forall in Hit'.
    by apply (Hit' _ (list_elem_of_lookup_2 _ _ _ Hit)). }
  assert (st = run (wk_step (nd_worker nd))) as ->.
  { eapply next_is_arrival; [apply Hi|apply Hi|apply Hi|done..]. }
  pose proof (running_item req version_utf8 final_range servers_range j _ Hj Hk) as (_ & Hok & _).
  destruct (event_smooth {| tw_log := cl_log c; tw_step := None; tw_puts := puts; tw_ran := [] |}
    (nd_worker nd) j _ (Z.of_nat (nd_next nd) + 2) (hd_req _ _ _ _ _ _ Hh) Hk eq_refl Hp
    (servers_int64 req servers_range j Hj) Hok (run_arrival _ _ Hj))
    as (w' & wk' & sts & r & E & Hlog & Hcase).
  cbn [enc]. rewrite delivered_status. rewrite (hd_lrn _ _ _ _ _ _ Hh) in Hlog.
  erewrite turn_eq; [|done|done]. repeat case_decide; destruct Hcase as (-> & -> & ->).
  - exists nd. do 4 eexists. split; [done|]. split; [done|]. split; [|by eapply live_done].
    unfold advances, reports_left. rewrite Hph. simpl. split_and!; try done; lia.
  - exists nd. do 4 eexists. split; [done|]. split; [done|]. split; [|by eapply live_next].
    unfold advances, reports_left. rewrite Hph. simpl. split_and!; try done; lia.
  - exists nd. do 4 eexists. split; [done|]. split; [done|]. split.
    + unfold advances, reports_left. rewrite Hph. simpl. split_and!; try done; lia.
    + eapply live_stay; [done|by eapply hd_lrn|by eapply hd_req|done|]. by apply seen_arrive.
Qed.

Lemma live_initial : live (initial req base) [].
Proof.
  split; cbn [initial cl_log cl_nodes].
  - by rewrite app_nil_r.
  - constructor.
  - by intros p j st Hp.
  - by intros p q j st Hp.
  - intros i Hi. destruct (list_to_map _ !! i) eqn:E; [done|]. apply not_elem_of_list_to_map_2 in E.
    contradict E. rewrite map_map, map_id. done.
  - intros lrn nd Hl. apply elem_of_list_to_map_2 in Hl.
    apply list_elem_of_In, in_map_iff in Hl as (lrn' & [= -> <-] & Hin).
    apply list_elem_of_In in Hin. split_and!; try done. exists 0%nat. split_and!; [simpl; lia|done|].
    split; [done|]. intros st. apply not_elem_of_nil.
Qed.

Lemma smoothly_live c : smoothly req base c → ∃ hist, live c hist.
Proof.
  induction 1 as [|c lb c' _ [hist Hi] Hs E]; [eexists; apply live_initial|].
  destruct lb; [| |by eauto using live_other|done].
  - edestruct live_start as (? & ? & ? & ? & hist' & _ & _ & _ & Hl); eauto.
  - edestruct live_event as (? & ? & ? & ? & hist' & _ & _ & _ & Hl); eauto.
Qed.

(** Whoever is missing at a barrier is a worker at an earlier step. *)
Lemma stuck_earlier c hist lrn nd :
  live c hist → cl_nodes c !! lrn = Some nd → nd_phase nd = Watching →
  (length (cl_log c) ≤ nd_next nd)%nat →
  (∀ i nd, cl_nodes c !! i = Some nd → nd_phase nd ≠ Waiting) →
  ∃ i nd', cl_nodes c !! i = Some nd' ∧ nd_phase nd' = Watching ∧
           wk_step (nd_worker nd') < wk_step (nd_worker nd).
Proof.
  intros Hi Hnd Hph Hend Hnw.
  pose proof (live_nodes _ _ Hi _ _ Hnd) as (_ & _ & _ & cur & Hnx & Hcur & Hlive).
  rewrite Hph in Hlive. destruct Hlive as (Hk & _ & _ & _ & Hb & Hne & _).
  rewrite (live_log _ _ Hi), length_app, length_map in Hend.
  rewrite take_ge in Hb by lia. destruct (set_choose_L _ Hne) as [i [His Hin]%Hb].
  destruct (live_dom _ _ Hi _ His) as [nd' Hnd']. exists i, nd'. split; [done|].
  pose proof (live_nodes _ _ Hi _ _ Hnd') as (_ & _ & _ & cur' & _ & _ & Hlive').
  specialize (Hnw _ _ Hnd'). destruct (nd_phase nd'); try done.
  - split; [done|]. destruct Hlive' as (_ & Hown & _).
    destruct (decide (wk_step (nd_worker nd') < wk_step (nd_worker nd))); [done|].
    contradict Hin. apply (Hown (wk_step (nd_worker nd))). lia.
  - destruct Hlive' as [Hown _]. contradict Hin. apply (Hown (wk_step (nd_worker nd))). lia.
Qed.

(** With no failures, no worker ever fails: the order in which reports reach
    the workers never looks like an unexpected step, version or completion. *)
Theorem no_spurious_abort c lrn nd :
  smoothly req base c → cl_nodes c !! lrn = Some nd → nd_phase nd ≠ Failed.
Proof.
  intros [hist Hi]%smoothly_live (_ & _ & _ & cur & _ & _ & Hlive)%(live_nodes _ _ Hi) Hf.
  by rewrite Hf in Hlive.
Qed.

Definition worker_label (lb : Label) : Prop :=
  match lb with LStart _ _ | LEvent _ _ _ => True | _ => False end.

(** Whether a node can take a turn right now. *)
Definition can_move (c : Cluster) (nd : Node) : Prop :=
  nd_phase nd = Waiting ∨ nd_phase nd = Watching ∧ (nd_next nd < length (cl_log c))%nat.

Lemma can_move_exec c lrn nd :
  cl_nodes c !! lrn = Some nd → can_move c nd →
  ∃ lb c', smooth lb ∧ worker_label lb ∧ exec lb c = Some c'.
Proof.
  intros Hnd [Hp|[Hp Hlt]].
  - exists (LStart lrn []). eexists. split; [by constructor|]. split; [done|].
    unfold exec. rewrite Hnd. simpl. by rewrite Hp.
  - apply lookup_lt_is_Some_2 in Hlt as [cm Hcm]. exists (LEvent lrn None []). eexists.
    split; [by split; [|constructor]|]. split; [done|].
    unfold exec. rewrite Hnd. simpl. by rewrite Hp, Hcm.
Qed.

(** C4: the workers never deadlock at a barrier: as long as one of them is not
    done, some worker can take a turn. *)
Theorem progress c lrn nd :
  smoothly req base c → cl_nodes c !! lrn = Some nd → nd_phase nd ≠ Done →
  ∃ lb c', smooth lb ∧ worker_label lb ∧ exec lb c = Some c'.
Proof.
  intros Hs Hnd Hnd'. destruct (smoothly_live _ Hs) as [hist Hi].
  destruct (decide (map_Exists (λ _ nd, can_move c nd) (cl_nodes c))) as [(i & nd' & Hl & Hm)|Hno].
  { by eapply can_move_exec. }
  exfalso. assert (∀ i nd, cl_nodes c !! i = Some nd → ¬ can_move c nd) as Hstuck.
  { intros i nd' Hl Hm. apply Hno. by exists i, nd'. }
  assert (∀ n i nd, cl_nodes c !! i = Some nd → nd_phase nd = Watching →
    (Z.to_nat (wk_step (nd_worker nd)) < n)%nat → False) as Hdesc.
  { induction n as [|n IH]; intros i nd2 Hl Hp Hn; [lia|].
    destruct (stuck_earlier c hist i nd2) as (i' & nd3 & Hl' & Hp' & Hlt); try done.
    - destruct (decide (nd_next nd2 < length (cl_log c))%nat); [|lia].
      destruct (Hstuck _ _ Hl). by right.
    - intros i' nd3 Hl' Hp'. apply (Hstuck _ _ Hl'). by left.
    - apply (IH i' nd3 Hl' Hp'). pose proof (live_nodes _ _ Hi _ _ Hl') as (_ & _ & _ & ? & _ & _ & Hlive).
      rewrite Hp' in Hlive. destruct Hlive as (? & _). lia. }
  pose proof (live_nodes _ _ Hi _ _ Hnd) as (_ & _ & _ & cur & _ & _ & Hlive).
  destruct (nd_phase nd) eqn:Hph; try done.
  - apply (Hstuck _ _ Hnd). by left.
  - eapply Hdesc; [done|done|]. apply Nat.lt_succ_diag_r.
Qed.

(** ** Termination *)
Definition total (g : Node → Z) (m : gmap Z Node) : Z := map_fold (λ _ nd acc, g nd + acc) 0 m.

Lemma total_delete g m i nd :
  m !! i = Some nd → total g m = g nd + total g (delete i m).
Proof. intros Hl. unfold total. by rewrite (map_fold_delete_L _ _ i nd m) by (done || lia). Qed.

Lemma total_insert g m i nd nd' :
  m !! i = Some nd → total g (<[i := nd']> m) = total g m - g nd + g nd'.
Proof.
  intros Hl. rewrite (total_delete g m i nd Hl), (total_delete g _ i nd').
  - rewrite delete_insert_eq. lia.
  - by rewrite lookup_insert_eq.
Qed.

Lemma total_nonneg g m : (∀ i nd, m !! i = Some nd → 0 ≤ g nd) → 0 ≤ total g m.
Proof.
  induction m as [|i nd m Hn Hfold IH] using map_first_key_ind; intros Hg; [done|].
  rewrite (total_delete g _ i nd) by by rewrite lookup_insert_eq.
  rewrite delete_insert_id by done. pose proof (Hg i nd ltac:(by rewrite lookup_insert_eq)).
  assert (0 ≤ total g m); [|lia]. apply IH. intros i' nd' Hl. apply (Hg i').
  apply lookup_insert_Some. right. split; [|done]. intros ->. congruence.
Qed.

(** Reports still to be written count for more than the turns others need to
    consume them. *)
Definition weight (n : Z) (len : nat) (nd : Node) : Z :=
  (n + 1) * reports_left nd + (Z.of_nat len - Z.of_nat (nd_next nd)).
Definition measure (c : Cluster) : Z :=
  total (weight (Z.of_nat (size (cl_nodes c))) (length (cl_log c))) (cl_nodes c).

Lemma total_shift n len k m :
  total (weight n (len + k)) m = total (weight n len) m + Z.of_nat k * Z.of_nat (size m).
Proof.
  induction m as [|i nd m Hn Hfold IH] using map_first_key_ind; [rewrite map_size_empty; unfold total; rewrite !map_fold_empty; lia|].
  rewrite !(total_delete _ (<[i:=nd]> m) i nd) by by rewrite lookup_insert_eq.
  rewrite !delete_insert_id, IH, map_size_insert_None by done. unfold weight. lia.
Qed.

Lemma measure_nonneg c hist : live c hist → 0 ≤ measure c.
Proof.
  intros Hi. apply total_nonneg. intros i nd Hnd. unfold weight.
  pose proof (live_nodes _ _ Hi _ _ Hnd) as (_ & _ & _ & cur & Hnx & Hcur & Hlive).
  assert (0 ≤ reports_left nd) as Hr.
  { unfold reports_left. destruct (nd_phase nd); try lia. destruct Hlive. lia. }
  rewrite (live_log _ _ Hi), length_app, length_map. nia.
Qed.

Lemma measure_turn c lrn c' : good_turn c lrn c' → 0 ≤ measure c' < measure c.
Proof.
  intros (nd & nd' & sts & ran & hist' & Hnd & -> & (Hleft & Hnx & Hstay) & Hl).
  split; [by eapply measure_nonneg|]. unfold measure, turned. cbn [cl_nodes cl_log].
  rewrite map_size_insert, Hnd, (total_insert _ _ _ nd) by done.
  rewrite length_app, length_map, total_shift. unfold id.
  generalize (total (weight (Z.of_nat (size (cl_nodes c))) (length (cl_log c))) (cl_nodes c)).
  intros T. unfold weight. rewrite Hleft.
  destruct sts as [|st sts]; [specialize (Hstay eq_refl)|]; simpl length; nia.
Qed.

End liveness.
