(* ===== verification/ClusterComplete.v ===== *)
(** * A finished update is recognised as complete

    When every worker is done, the statuses stored in etcd make [UpdateCompleted]
    true: this is what the updater waits for. *)
From S2P Require Import Prelude GoStr GoTime Json Types Etcd Worlds Storage Watch Worker Cluster.
From S2P Require Import ClusterProofs ClusterSafety ClusterLiveness.
From S2P Require Import WorkerProofs.

Local Open Scope Z_scope.

(** ** The last write to a key *)
Definition event_key (ev : Event) : string := match ev with EvPut k _ => k | EvDelete k => k end.
Definition untouched (k : string) (c : Commit) : Prop := Forall (λ ev, event_key ev ≠ k) c.

Lemma apply_commit_untouched k rev m c : untouched k c → apply_commit rev m c !! k = m !! k.
Proof.
  unfold apply_commit. revert m. induction c as [|ev c IH]; intros m Hc; [done|].
  apply Forall_cons in Hc as [He Hc]. simpl. rewrite IH by done.
  destruct ev; simpl in *; [by rewrite lookup_insert_ne|by rewrite lookup_delete_ne].
Qed.

Lemma store_untouched k l l' : Forall (untouched k) l' → store (l ++ l') !! k = store l !! k.
Proof.
  induction l' as [|c l' IH] using rev_ind; intros Hl; [by rewrite app_nil_r|].
  apply Forall_app in Hl as [Hl Hc]. rewrite Forall_singleton in Hc.
  rewrite app_assoc, store_snoc, apply_commit_untouched by done. by apply IH.
Qed.

Lemma store_last_put k v l l' :
  Forall (untouched k) l' → ∃ rev, store (l ++ [EvPut k v] :: l') !! k = Some (Build_Version v rev).
Proof.
  intros Hl. replace (l ++ [EvPut k v] :: l') with ((l ++ [[EvPut k v]]) ++ l')
    by by rewrite <-app_assoc.
  rewrite store_untouched by done. rewrite store_snoc. simpl. rewrite lookup_insert_eq. eauto.
Qed.

(** ** Reading all statuses *)

(** A store in which every worker status is readable. *)
Definition status_key_ok (k value : string) : Prop :=
  ∃ j st, in_int64 j ∧ k = keyStatus j ∧ Unmarshal (A := UpdateStatus) value = Ok st.
Definition statuses_ok (m : Store) : Prop :=
  ∀ k v, m !! k = Some v → HasPrefix k KeyWorkerStatusPrefix = true → status_key_ok k (ver_value v).

Lemma keyStatus_inj i j : keyStatus i = keyStatus j → i = j.
Proof. unfold keyStatus, Itoa. intros E%(inj (String.append _)). by apply (inj pretty.pretty) in E. Qed.

Lemma decode_statuses_ok kvs m0 :
  (∀ kv, kv ∈ kvs → status_key_ok (kv_key kv) (kv_value kv)) → NoDup (map kv_key kvs) →
  ∃ m, decode_statuses kvs m0 = Ok m ∧
    (∀ j, keyStatus j ∉ map kv_key kvs → m !! j = m0 !! j) ∧
    (∀ kv j st, kv ∈ kvs → kv_key kv = keyStatus j → Unmarshal (kv_value kv) = Ok st →
       m !! j = Some st).
Proof.
  revert m0. induction kvs as [|kv kvs IH]; intros m0 Hok Hnd.
  { exists m0. split_and!; [done|done|]. by intros kv j st ?%not_elem_of_nil. }
  apply NoDup_cons in Hnd as [Hnew Hnd].
  destruct (Hok kv) as (j & st & Hj & Hk & Hu); [set_solver|].
  destruct (IH (<[j := st]> m0)) as (m & Hm & Hout & Hin); [set_solver|done|].
  exists m. split_and!.
  - cbn [decode_statuses]. rewrite Hk. unfold key_suffix, keyStatus. rewrite slice_from_app. simpl.
    rewrite Atoi_Itoa by done. simpl. by rewrite Hu.
  - intros j' Hj'. cbn [map] in Hj'. apply not_elem_of_cons in Hj' as [Hne Hj'].
    rewrite Hout by done. apply lookup_insert_ne. intros <-. by rewrite Hk in Hne.
  - intros kv' j' st' [->|Hkv]%elem_of_cons Hk' Hu'; [|by eapply Hin].
    rewrite Hk in Hk'. apply keyStatus_inj in Hk' as <-. rewrite Hout by by rewrite <-Hk.
    rewrite lookup_insert_eq. congruence.
Qed.

Section complete.
Context `{Final}.
Variable req : UpdateRequest.
Variable base : Log.
Abbreviation servers := (elems (req_Servers req)).

Hypothesis version_utf8 : valid_utf8 (req_Version req) = true.
Hypothesis final_range : 1 ≤ FinalStep < int64_max.
Hypothesis servers_range : Forall in_int64 servers.

Abbreviation fin := (complete_status (req_Version req) FinalStep).

Lemma env_untouched cm lrn : forallb env_event cm = true → untouched (keyStatus lrn) cm.
Proof.
  intros Hc. apply Forall_forall. intros ev Hin Hk. rewrite forallb_forall in Hc.
  specialize (Hc ev (proj1 (list_elem_of_In _ _) Hin)).
  destruct ev; simpl in *; subst; rewrite keyStatus_prefix, orb_false_r in Hc;
    apply bool_decide_eq_true in Hc; by apply keyStatus_current in Hc.
Qed.

(** After a worker's completion it writes nothing more. *)
Lemma completion_is_last hist p q lrn st :
  rounds req hist → unique hist → Forall (item_live req) hist → lrn ∈ servers →
  hist !! p = Some (IStatus lrn fin) → hist !! q = Some (IStatus lrn st) → (q ≤ p)%nat.
Proof.
  intros Hr Hu Hit Hl Hp Hq. rewrite Forall_forall in Hit.
  destruct (Hr _ _ _ Hp lrn Hl) as [_ Hf]. destruct (Hf eq_refl) as (q0 & Hlt & Hq0).
  destruct (Hit _ (list_elem_of_lookup_2 _ _ _ Hq)) as [_ [(k & Hk & ->)| ->]].
  - destruct (decide (k = FinalStep)) as [->|Hne]; [rewrite (Hu _ _ _ _ Hq Hq0); lia|].
    destruct (rounds_before req hist q0 lrn FinalStep lrn k) as (q1 & Hlt1 & Hq1); [done..|lia|].
    rewrite (Hu _ _ _ _ Hq Hq1). lia.
  - by rewrite (Hu _ _ _ _ Hq Hp).
Qed.

Lemma completed_in_store c hist lrn :
  live req base c hist → lrn ∈ servers → IStatus lrn fin ∈ hist →
  ∃ rev, store (cl_log c) !! keyStatus lrn = Some (Build_Version (status_data fin) rev).
Proof.
  intros Hi Hl [p Hp]%list_elem_of_lookup.
  pose proof (take_drop_middle _ _ _ Hp) as Hsplit.
  rewrite (live_log _ _ _ _ Hi), <-Hsplit, map_app. cbn [map enc]. rewrite app_assoc.
  apply store_last_put. apply Forall_map, Forall_forall. intros it [q Hq]%list_elem_of_lookup.
  rewrite lookup_drop in Hq. pose proof (live_items _ _ _ _ Hi) as Hit.
  pose proof Hit as Hit'. rewrite Forall_forall in Hit'.
  specialize (Hit' it (list_elem_of_lookup_2 _ _ _ Hq)). destruct it as [j st|cm].
  - apply Forall_singleton. simpl. intros Hk%keyStatus_inj. subst j.
    assert (S p + q ≤ p)%nat; [|lia].
    eapply completion_is_last; [apply Hi|apply Hi|done|done|done|done].
  - apply env_untouched, Hit'.
Qed.

Lemma statuses_ok_event m rev ev :
  statuses_ok m →
  match ev with
  | EvPut k v => HasPrefix k KeyWorkerStatusPrefix = true → status_key_ok k v
  | EvDelete _ => True
  end → statuses_ok (apply_event rev m ev).
Proof.
  intros Hm Hev k v Hl Hp. destruct ev as [k' v'|k']; simpl in Hl.
  - apply lookup_insert_Some in Hl as [[-> <-]|[_ Hl]]; [by apply Hev|by apply (Hm k)].
  - apply lookup_delete_Some in Hl as [_ Hl]. by apply (Hm k).
Qed.

Lemma worker_prefix_status k :
  HasPrefix k KeyWorkerStatusPrefix = true → HasPrefix k KeyStatusPrefix = true ∧ k ≠ KeyCurrent.
Proof.
  intros [t ->]%HasPrefix_spec. split; [done|]. done.
Qed.

Lemma statuses_ok_item m rev it :
  statuses_ok m → item_live req it → statuses_ok (apply_commit rev m (enc it)).
Proof.
  intros Hm Hit. destruct it as [j st|cm]; simpl in Hit.
  - apply statuses_ok_event; [done|]. intros _. destruct Hit as [Hj Hst].
    exists j, st. split; [by eapply servers_int64|]. split; [done|].
    apply (@Unmarshal_Marshal _ UpdateStatus_codec); [|apply Marshal_status].
    destruct Hst as [(k & Hk & ->)| ->].
    + by eapply running_item.
    + by eapply complete_item.
  - destruct Hit as [Hc _]. cbn [enc]. unfold apply_commit. revert m Hm.
    induction cm as [|ev cm IH]; intros m Hm; [done|]. simpl in *. apply andb_true_iff in Hc as [He Hc].
    apply IH; [done|]. apply statuses_ok_event; [done|]. destruct ev as [k v|k]; [|done].
    intros [Hp Hk]%worker_prefix_status. simpl in He. rewrite Hp, orb_false_r in He.
    by apply bool_decide_eq_true in He.
Qed.

Lemma statuses_ok_log hist :
  statuses_ok (store base) → Forall (item_live req) hist → statuses_ok (store (base ++ map enc hist)).
Proof.
  intros Hb. induction hist as [|it hist IH] using rev_ind; intros Hit; [by rewrite app_nil_r|].
  apply Forall_app in Hit as [Hit Hn]. rewrite Forall_singleton in Hn.
  rewrite map_app, app_assoc. cbn [map]. rewrite store_snoc. by apply statuses_ok_item; [apply IH|].
Qed.

End complete.

(** ** The theorems at concrete inputs

    Two boot servers and an update of two steps, run to completion, and a run in
    which a step fails. *)
Module Witness.
#[local] Instance two_steps : Final := 2.

Definition req2 : UpdateRequest :=
  {| req_Version := "1.0.0"; req_Servers := Some [0; 1]; req_Stop := false;
     req_StartedAt := 1700000000 * Second |}.
Definition base2 : Log := [[EvPut KeyCurrent "request"]].

Lemma reachable_exec c lbs c' :
  reachable req2 base2 c → Forall label_ok lbs → exec_all lbs c = Some c' → reachable req2 base2 c'.
Proof.
  revert c. induction lbs as [|lb lbs IH]; intros c Hc Hl E; cbn [exec_all] in E.
  - by injection E as <-.
  - apply Forall_cons in Hl as [Hlb Hl]. destruct (exec lb c) as [c1|] eqn:E1; [|done].
    apply (IH c1); [by eapply reach_step|done|done].
Qed.

Lemma smoothly_exec c lbs c' :
  smoothly req2 base2 c → Forall smooth lbs → exec_all lbs c = Some c' → smoothly req2 base2 c'.
Proof.
  revert c. induction lbs as [|lb lbs IH]; intros c Hc Hl E; cbn [exec_all] in E.
  - by injection E as <-.
  - apply Forall_cons in Hl as [Hlb Hl]. destruct (exec lb c) as [c1|] eqn:E1; [|done].
    apply (IH c1); [by eapply smooth_step|done|done].
Qed.

(** The hypotheses on the request. *)
Lemma req2_utf8 : valid_utf8 (req_Version req2) = true.
Proof. reflexivity. Qed.
Lemma final2 : 1 ≤ FinalStep < int64_max.
Proof. vm_compute. split; [discriminate|reflexivity]. Qed.
Lemma servers2 : Forall in_int64 (elems (req_Servers req2)).
Proof. repeat constructor; vm_compute; discriminate. Qed.

Definition ev (lrn : Z) : Label := LEvent lrn None [].
(** Both workers report step 1; worker 0, then worker 1 runs step 1. *)
Definition first_step : list Label := [LStart 0 []; LStart 1 []; ev 0; ev 0; ev 1; ev 1].
Definition whole_run : list Label := first_step ++ [ev 0; ev 1; ev 1; ev 0].
(** Step 2 fails on worker 0, and its first attempt to say so is lost. *)
Definition failing_run : list Label :=
  first_step ++ [ev 0; LEvent 0 (Some (ErrMsg "vault did not start")) [PutLost (ErrMsg "timeout")]].

Definition after (lbs : list Label) : Cluster := default (initial req2 base2) (exec_all lbs (initial req2 base2)).

Lemma reachable_after lbs :
  Forall label_ok lbs → is_Some (exec_all lbs (initial req2 base2)) → reachable req2 base2 (after lbs).
Proof.
  intros Hl [c Hc]. unfold after. rewrite Hc. eapply reachable_exec; [apply reach_initial|done|done].
Qed.
Lemma smoothly_after lbs :
  Forall smooth lbs → is_Some (exec_all lbs (initial req2 base2)) → smoothly req2 base2 (after lbs).
Proof.
  intros Hl [c Hc]. unfold after. rewrite Hc. eapply smoothly_exec; [apply smooth_initial|done|done].
Qed.

Ltac reach := apply reachable_after; [repeat constructor|vm_compute; eexists; reflexivity].
Ltac glide := apply smoothly_after; [repeat constructor|vm_compute; eexists; reflexivity].



Lemma failure_stops_cluster_witness :
  (0, 2, false) ∈ cl_ran (after failing_run) ∧ (1, 1, true) ∈ cl_ran (after failing_run) ∧ 1 ≤ 2.
Proof.
  split; [vm_compute; right; right; left|]. split; [vm_compute; right; left|].
  apply (failure_stops_cluster req2 base2 req2_utf8 final2 servers2 (after failing_run) 0 2 1 1 true).
  - reach.
  - vm_compute; right; right; left.
  - vm_compute; right; left.
Defined.

Lemma no_spurious_abort_witness :
  match cl_nodes (after first_step) !! 0 with
  | Some nd => nd_phase nd ≠ Failed
  | None => False
  end.
Proof.
  destruct (cl_nodes (after first_step) !! 0) as [nd|] eqn:E; [|vm_compute in E; discriminate].
  apply (no_spurious_abort req2 base2 req2_utf8 final2 servers2 (after first_step) 0 nd); [glide|exact E].
Defined.

Lemma progress_witness :
  ∃ lb c', smooth lb ∧ worker_label lb ∧ exec lb (after first_step) = Some c'.
Proof.
  destruct (cl_nodes (after first_step) !! 0) as [nd|] eqn:E; [|vm_compute in E; discriminate].
  apply (progress req2 base2 req2_utf8 final2 servers2 (after first_step) 0 nd); [glide|exact E|].
  vm_compute in E. injection E as <-. discriminate.
Defined.


Definition world2 : TurnWorld :=
  {| tw_log := cl_log (after whole_run); tw_step := None; tw_puts := []; tw_ran := [] |}.


(** ** The worker's own theorems *)

Lemma NewBarrier_opens_witness :
  [1; 0; 1] ≠ [] ∧
  ((arrivals (NewBarrier [0; 1]) [1; 0; 1]).2 = true ↔ ∀ lrn, lrn ∈ [0; 1] → lrn ∈ [1; 0; 1]).
Proof. split; [discriminate|]. apply NewBarrier_opens. discriminate. Defined.

Lemma SearchInts_index_witness : [0; 2; 10] !! Z.to_nat (SearchInts [0; 2; 10] 10) = Some 10.
Proof. apply SearchInts_index; [repeat constructor|]. right. right. left. Defined.

Definition turn2 : TurnWorld := {| tw_log := base2; tw_step := None; tw_puts := []; tw_ran := [] |}.
Definition vars2 : RunVars := {| rv_req := Some req2; rv_modRev := 2; rv_rev := 2; rv_err := None |}.
Definition worker2 : Worker := NewWorker "1.0.0" 0.

Lemma run_iteration_guards_witness :
  wk_step (run_iteration 3 vars2 (turn2, worker2)).1.2 = 1 ∧
  rv_err vars2 = None ∧ ∃ req w1 stMap, rv_req vars2 = Some req ∧
    req_Stop req = false ∧ IsMember req (wk_mylrn worker2) = true ∧
    wk_version worker2 = req_Version req ∧
    GetStatuses (turn2, worker2) = ((w1, worker2), Ok stMap) ∧
    UpdateAborted (req_Version req) (wk_mylrn worker2) stMap = false ∧
    UpdateCompleted (req_Version req) (elems (req_Servers req)) stMap = false.
Proof.
  split; [vm_compute; reflexivity|].
  eapply (run_iteration_guards 3 vars2 turn2 worker2
    (run_iteration 3 vars2 (turn2, worker2)).1.1 (run_iteration 3 vars2 (turn2, worker2)).1.2).
  - do 2 rewrite <-surjective_pairing. reflexivity.
  - intros E. apply (f_equal wk_step) in E. vm_compute in E. discriminate.
Defined.
End Witness.
