(* ===== verification/StorageWitness.v ===== *)
(** * The storage theorems at work

    Each theorem about the storage layer applied to a concrete etcd whose log other
    clients extend while the calls run. *)
From S2P Require Import Prelude GoStr GoTime Json Types Etcd Storage StorageProofs.

Local Open Scope Z_scope.

(** A run from a concrete world ends as computed. *)
Ltac runs := match goal with
  |- ?m = (_, ?r) => rewrite (surjective_pairing m); f_equal; vm_compute; reflexivity end.

(** A small literal fits in 64 bits. *)
Ltac small := split; vm_compute; discriminate.

Definition req1 : UpdateRequest :=
  {| req_Version := "1.0.0"; req_Servers := Some [0; 1; 2]; req_Stop := false;
     req_StartedAt := 1700000000 * Second |}.
Definition req_stopped : UpdateRequest :=
  {| req_Version := "1.0.0"; req_Servers := Some [0; 1; 2]; req_Stop := true;
     req_StartedAt := 1700000000 * Second |}.
Definition status1 : UpdateStatus :=
  {| st_Version := "1.0.0"; st_Step := 3; st_Cond := CondRunning; st_Message := "" |}.
Definition text_of {A} `{JsonCodec A} (a : A) : string :=
  match Marshal a with Ok s => s | _ => "" end.

(** An elected leader, and another client that registers boot servers meanwhile. *)
Definition leader_key := "leader/updater/694d".
Definition world (l : Log) : Sim :=
  {| sim_log := l; sim_env := [[[EvPut "info/bootservers/3" ""]]; []; [[EvPut "info/ssh-pubkey" "k"]]];
     sim_fail := [] |}.
Definition elected : Sim := world [[EvPut leader_key "host"]].

Lemma PutRequest_guarded_witness :
  (PutRequest req1 leader_key elected).2 = Ok () ∧
  ∃ l data, view elected `prefix_of` l ∧ is_Some (store l !! leader_key) ∧
    Marshal req1 = Ok data ∧
    view (PutRequest req1 leader_key elected).1 = l ++ [[EvPut KeyCurrent data]].
Proof.
  split; [vm_compute; reflexivity|].
  apply (PutRequest_guarded req1 leader_key elected _ (Ok ())). runs.
Defined.

Definition after_put : Sim := (PutRequest req1 leader_key elected).1.
Lemma PutRequest_GetRequest_witness :
  ∃ req' modRev rev, (get_request_rev after_put).2 = Ok (req', modRev, rev) ∧ req' = req1.
Proof.
  exists req1, 4, 4. split; [vm_compute; reflexivity|].
  apply (PutRequest_GetRequest req1 leader_key elected after_put (get_request_rev after_put).1
           req1 4 4); [|unfold after_put; runs|runs|vm_compute; reflexivity].
  split; [reflexivity|]. repeat apply Forall_cons_2; [small..|apply Forall_nil_2].
Defined.

Definition after_status : Sim := (PutStatus 1 status1 elected).1.
Lemma PutStatus_GetStatus_witness :
  (GetStatus 1 after_status).2 = Ok status1 ∧ status1 = status1.
Proof.
  split; [vm_compute; reflexivity|].
  apply (PutStatus_GetStatus 1 status1 elected after_status (GetStatus 1 after_status).1 status1);
    [|unfold after_status; runs|runs|vm_compute; reflexivity].
  split; [reflexivity|]. split; [small|]. split; [small|reflexivity].
Defined.

(** A running update with two reports, while another client stores a third. *)
Definition updating : Sim :=
  {| sim_log := [[EvPut leader_key "host"]; [EvPut KeyCurrent (text_of req1)];
                 [EvPut (keyStatus 0) (text_of status1)]; [EvPut (keyStatus 1) (text_of status1)]];
     sim_env := [[[EvPut (keyStatus 2) (text_of status1)]]]; sim_fail := [] |}.

Lemma PutReconfigureRequest_atomic_witness :
  let w' := (PutReconfigureRequest req1 leader_key updating).1 in
  (PutReconfigureRequest req1 leader_key updating).2 = Ok () ∧
  ∃ l data, view updating `prefix_of` l ∧ is_Some (store l !! leader_key) ∧
    Marshal req1 = Ok data ∧
    view w' = commit l [OpPut KeyCurrent data; OpDeletePrefix KeyWorkerStatusPrefix] ∧
    store (view w') !! KeyCurrent = Some {| ver_value := data; ver_mod := revision l + 1 |} ∧
    (∀ lrn, store (view w') !! keyStatus lrn = None) ∧
    (∀ k, k ≠ KeyCurrent → HasPrefix k KeyWorkerStatusPrefix = false →
          store (view w') !! k = store l !! k).
Proof.
  split; [vm_compute; reflexivity|].
  apply (PutReconfigureRequest_atomic req1 leader_key updating). runs.
Defined.

(** A stopped update; the stop request is written again while it is cleared. *)
Definition stopping : Sim :=
  {| sim_log := [[EvPut leader_key "host"]; [EvPut KeyCurrent (text_of req_stopped)];
                 [EvPut (keyStatus 0) (text_of status1)]; [EvPut KeySabakanContents "x"]];
     sim_env := [[]; [[EvPut KeyCurrent (text_of req_stopped)]]]; sim_fail := [] |}.


(** A snapshot during which another client registers a boot server and stops the
    update. *)
Definition changing : Sim :=
  {| sim_log := [[EvPut KeyCurrent (text_of req1)]; [EvPut (keyBootServer 0) ""];
                 [EvPut (keyBootServer 1) ""]; [EvPut (keyStatus 0) (text_of status1)]];
     sim_env := [[]; [[EvPut (keyBootServer 2) ""]]; [[EvPut KeyCurrent (text_of req_stopped)]]];
     sim_fail := [] |}.
Definition taken : Snapshot :=
  {| ss_Revision := 5; ss_Request := Some req1; ss_Statuses := {[0 := status1]};
     ss_Latest := ""; ss_Servers := Some [0; 1] |}.

Lemma NewSnapshot_consistent_witness :
  (NewSnapshot changing).2 = Ok taken ∧
  ∃ l, view changing `prefix_of` l ∧ l `prefix_of` view (NewSnapshot changing).1 ∧
       ss_Revision taken = revision l ∧ snapshot_at l = Ok taken.
Proof.
  split; [vm_compute; reflexivity|]. apply (NewSnapshot_consistent changing). runs.
Defined.

(** Two clients register entries at the same time. *)
Definition entry1 : RebootListEntry :=
  {| rl_Index := 0; rl_Node := "10.69.0.4"; rl_Group := "rack0"; rl_RebootTime := "default";
     rl_Status := RebootListEntryStatusPending |}.
Definition listed : Sim :=
  {| sim_log := [[EvPut (rebootListEntryKey 0) (text_of entry1); EvPut KeyNecoRebooterWriteIndex "1"]];
     sim_env := [[]; [[EvPut (rebootListEntryKey 1) (text_of (with_index entry1 1));
                       EvPut KeyNecoRebooterWriteIndex "2"]]];
     sim_fail := [] |}.

Lemma RegisterRebootListEntry_fresh_witness :
  let e := with_index entry1 2 in
  (RegisterRebootListEntry 2 entry1 listed).2 = Ok e ∧
  ∃ l data, view listed `prefix_of` l ∧
    write_index (store l) = Ok (rl_Index e) ∧ e = with_index entry1 (rl_Index e) ∧
    Marshal e = Ok data ∧
    store (view (RegisterRebootListEntry 2 entry1 listed).1) = <[KeyNecoRebooterWriteIndex :=
        Build_Version (FormatInt (wrap64 (rl_Index e + 1))) (revision l + 1)]>
      (<[rebootListEntryKey (rl_Index e) := Build_Version data (revision l + 1)]> (store l)) ∧
    (reboot_list_inv (store l) → rl_Index e < int64_max →
     store l !! rebootListEntryKey (rl_Index e) = None ∧
     reboot_list_inv (store (view (RegisterRebootListEntry 2 entry1 listed).1))).
Proof.
  split; [vm_compute; reflexivity|]. apply (RegisterRebootListEntry_fresh 2 entry1 listed). runs.
Defined.

(** The entry is removed while a client updates it. *)
Definition removing : Sim :=
  {| sim_log := [[EvPut (rebootListEntryKey 0) (text_of entry1)]];
     sim_env := [[]; [[EvDelete (rebootListEntryKey 0)]]]; sim_fail := [] |}.

Lemma UpdateRebootListEntry_no_resurrection_witness :
  (UpdateRebootListEntry 2 entry1 removing).2 = Err ErrNotFound ∧
  view removing `prefix_of` view (UpdateRebootListEntry 2 entry1 removing).1 ∧
  store (view (UpdateRebootListEntry 2 entry1 removing).1) !! rebootListEntryKey 0 = None.
Proof.
  split; [vm_compute; reflexivity|].
  apply (UpdateRebootListEntry_no_resurrection 2 entry1 removing _ (Err ErrNotFound)). runs.
Defined.

(** Entries 9 and 10, whose decimal order as text is the opposite. *)
Definition entry9 := with_index entry1 9.
Definition entry10 := with_index entry1 10.
Definition two_listed : Sim :=
  {| sim_log := [[EvPut (rebootListEntryKey 10) (text_of entry10)];
                 [EvPut (rebootListEntryKey 9) (text_of entry9)]]; sim_env := []; sim_fail := [] |}.

Lemma GetRebootListEntries_sorted_witness :
  (GetRebootListEntries two_listed).2 = Ok [entry9; entry10] ∧
  StronglySorted (λ a b, rl_Index a < rl_Index b) [entry9; entry10].
Proof.
  split; [vm_compute; reflexivity|].
  apply (GetRebootListEntries_sorted two_listed (GetRebootListEntries two_listed).1); [runs|].
  intros key v Hl Hp.
  change (store (view (GetRebootListEntries two_listed).1)) with (store (sim_log two_listed)) in Hl.
  unfold store in Hl. cbn [replay two_listed sim_log apply_commit foldl apply_event] in Hl.
  apply lookup_insert_Some in Hl as [[<- <-]|[_ Hl]];
    [exists entry9; split; [vm_compute; reflexivity|]; split; [reflexivity|small]|].
  apply lookup_insert_Some in Hl as [[<- <-]|[_ Hl]];
    [exists entry10; split; [vm_compute; reflexivity|]; split; [reflexivity|small]|].
  by rewrite lookup_empty in Hl.
Defined.

(** Boot servers 1 and 12, each with an installed container. *)
Definition installed : Sim :=
  world [[EvPut (keyBootServer 1) ""]; [EvPut (keyBootServer 12) ""];
         [EvPut (keyContainer 1 "serf") "0.9.1"]; [EvPut (keyContainer 12 "serf") "0.9.1"]].

Lemma DeleteBootServer_spec_witness :
  (DeleteBootServer 1 installed).2 = Ok () ∧
  ∃ l, view installed `prefix_of` l ∧ is_Some (store l !! keyBootServer 1) ∧
    ∀ k, store (view (DeleteBootServer 1 installed).1) !! k =
         if bool_decide (k = keyBootServer 1) || HasPrefix k (keyInstall 1) then None
         else store l !! k.
Proof.
  split; [vm_compute; reflexivity|]. apply (DeleteBootServer_spec 1 installed _ (Ok ())). runs.
Defined.

Lemma DeleteBootServer_overreach_witness :
  (DeleteBootServer 1 installed).2 = Ok () ∧
  is_Some (store (view installed) !! keyContainer 12 "serf") ∧
  store (view (DeleteBootServer 1 installed).1) !! keyContainer (10 * 1 + 2) "serf" = None ∧
  store (view (DeleteBootServer 1 installed).1) !! keyDeb (10 * 1 + 2) "serf" = None.
Proof.
  split; [vm_compute; reflexivity|]. split; [vm_compute; eexists; reflexivity|].
  apply (DeleteBootServer_overreach 1 2 "serf" installed); [lia|lia|runs].
Defined.
