(* ===== verification/Rebooter.v ===== *)
(** * neco-rebooter ([pkg/neco-rebooter/])

    The controller that feeds nodes of the reboot list, one group at a time, into
    CKE's reboot queue.  CKE's storage is third-party code: the class [CKE].

    [runOnce] reads the two lists once and then works on pointers into them:
    [collectEntries] files pointers, and the handlers write through them before the
    lists are looked at again.  The pointers are positions here, and the two lists,
    with the group order kept between calls, are the local state. *)
From S2P Require Import Prelude GoStr GoTime Json Types Etcd Worlds Storage Watch Worker.

Local Open Scope Z_scope.

(** ** CKE *)
Record RebootQueueEntry := {
  rq_Index : Z;
  rq_Node : string;
  rq_Status : string;
  rq_DrainBackOffCount : Z;
}.
#[export] Instance RebootQueueEntry_eq_dec : EqDecision RebootQueueEntry.
Proof. solve_decision. Defined.

Class CKEStatus := {
  RebootStatusRebooting : string;
  RebootStatusCancelled : string;
  NewRebootQueueEntry : string → RebootQueueEntry;
}.
Class CKE (W : Type) := {
  cke_GetRebootsEntries : M W (list RebootQueueEntry);
  cke_UpdateRebootsEntry : RebootQueueEntry → M W unit;
  cke_RegisterRebootsEntry : RebootQueueEntry → M W unit;
}.

(** ** [utils.go] *)
Fixpoint find_index {A} (f : A → bool) (l : list A) : option nat :=
  match l with
  | [] => None
  | x :: l => if f x then Some O else S <$> find_index f l
  end.

Definition findRebootQueueEntryFromRebootListEntry (rqs : list RebootQueueEntry)
    (rl : RebootListEntry) : option nat :=
  find_index (λ e, bool_decide (rq_Node e = rl_Node rl)) rqs.
Definition findRebootListEntryFromRebootQueueEntry (rls : list RebootListEntry)
    (rq : RebootQueueEntry) : option nat :=
  find_index (λ e, bool_decide (rl_Node e = rq_Node rq)) rls.

(** [slices.Sort] and [slices.Compact]. *)
Definition Sort (l : list string) : list string := merge_sort String.le l.
Fixpoint Compact (l : list string) : list string :=
  match l with
  | [] => []
  | x :: l =>
      match Compact l with
      | [] => [x]
      | y :: k => if decide (x = y) then y :: k else x :: y :: k
      end
  end.

Definition isEqualContents (slice1 slice2 : list string) : bool :=
  if negb (Nat.eqb (length slice1) (length slice2)) then false
  else bool_decide (Sort slice1 = Sort slice2).

(** [append(slice[offset:], slice[:offset]...)] may write behind the end of [slice]
    in its backing array, never into it. *)
Definition cycleSlices (slice : list string) (offset : Z) : list string :=
  if offset <? 0 then slice
  else if Nat.eqb (length slice) 0 then slice
  else if Z.of_nat (length slice) <=? offset then slice
  else drop (Z.to_nat offset) slice ++ take (Z.to_nat offset) slice.

(** [slices.Index]. *)
Definition Index (l : list string) (x : string) : Z :=
  match find_index (λ y, bool_decide (y = x)) l with Some i => Z.of_nat i | None => -1 end.

(** [math/rand]'s [Shuffle]. *)
Class Rand (W : Type) := { Shuffle : list string → M W (list string) }.

(** ** [config.go] *)
Record RebootTimes := {
  rt_Name : string;
  rt_MatchLabels : gmap string string;
  rt_Deny : list string;
  rt_Allow : list string;
}.

Section config.
Context `{Cron}.
Record RebootTime := { Deny : list Schedule; Allow : list Schedule }.

Fixpoint parse_schedules (ts : list string) : outcome (list Schedule) :=
  match ts with
  | [] => Ok []
  | t :: ts => s ← ParseStandard t; ss ← parse_schedules ts; Ok (s :: ss)
  end.

Fixpoint reboot_times (rts : list RebootTimes) (m : gmap string RebootTime)
    : outcome (gmap string RebootTime) :=
  match rts with
  | [] => Ok m
  | rt :: rts =>
      deny ← parse_schedules (rt_Deny rt);
      allow ← parse_schedules (rt_Allow rt);
      reboot_times rts (<[rt_Name rt := {| Deny := deny; Allow := allow |}]> m)
  end.
Definition GetRebootTime (rts : list RebootTimes) : outcome (gmap string RebootTime) :=
  reboot_times rts ∅.
End config.

(** ** [controller.go] *)

(** Pointers to an entry of the reboot list and of the reboot queue. *)
Record EntrySet := { es_list : option nat; es_queue : option nat }.

Record EntriesCollection := {
  CompletedEntry : list nat;
  TimedOutEntry : list EntrySet;
  NewEntry : list nat;
  CancelledEntry : list EntrySet;
  QueuedEntry : list EntrySet;
  OrphanedEntry : list EntrySet;
}.

(** What the pointers point to, and the global [allGroups]. *)
Record RebooterState := {
  rs_list : list RebootListEntry;
  rs_queue : list RebootQueueEntry;
  rs_allGroups : list string;
}.
Definition set_list (s : RebooterState) l : RebooterState :=
  {| rs_list := l; rs_queue := rs_queue s; rs_allGroups := rs_allGroups s |}.
Definition set_queue (s : RebooterState) q : RebooterState :=
  {| rs_list := rs_list s; rs_queue := q; rs_allGroups := rs_allGroups s |}.
Definition set_groups (s : RebooterState) g : RebooterState :=
  {| rs_list := rs_list s; rs_queue := rs_queue s; rs_allGroups := g |}.

Definition list_status (e : RebootListEntry) (st : string) : RebootListEntry :=
  {| rl_Index := rl_Index e; rl_Node := rl_Node e; rl_Group := rl_Group e;
     rl_RebootTime := rl_RebootTime e; rl_Status := st |}.
Definition queue_status (e : RebootQueueEntry) (st : string) : RebootQueueEntry :=
  {| rq_Index := rq_Index e; rq_Node := rq_Node e; rq_Status := st;
     rq_DrainBackOffCount := rq_DrainBackOffCount e |}.

Section controller.
Context {W : Type} `{Etcd W} `{Clock W} `{CKEStatus} `{CKE W} `{Rand W} `{Cron}.
Abbreviation MC := (M (W * RebooterState)).

(** The fields of [Controller] that do not change. *)
Variable rebootTimes : gmap string RebootTime.
Variable timeZone : Location.
Variable leaderKey : string.

(** Reading through a pointer. *)
Definition list_entry (i : option nat) : MC RebootListEntry :=
  s ← get_local;
  match i ≫= λ i, rs_list s !! i with
  | Some e => mret e
  | None => panic "nil pointer dereference"
  end.
Definition queue_entry (j : nat) : MC RebootQueueEntry :=
  s ← get_local;
  match rs_queue s !! j with
  | Some e => mret e
  | None => panic "nil pointer dereference"
  end.
(** [p.Status = st], and the entry as it is then. *)
Definition set_list_status (i : option nat) (st : string) : MC RebootListEntry :=
  e ← list_entry i;
  s ← get_local;
  let e := list_status e st in
  _ ← put_local (set_list s (match i with Some i => <[i := e]> (rs_list s) | None => rs_list s end));
  mret e.
Definition set_queue_status (j : nat) (st : string) : MC RebootQueueEntry :=
  e ← queue_entry j;
  s ← get_local;
  let e := queue_status e st in
  _ ← put_local (set_queue s (<[j := e]> (rs_queue s)));
  mret e.

Definition cancel_queue_entry (j : nat) : MC unit :=
  e ← set_queue_status j RebootStatusCancelled;
  on_world (cke_UpdateRebootsEntry e).

Definition removeCancelledEntry (entries : list EntrySet) : MC unit :=
  for_each entries (λ es,
    _ ← match es_queue es with Some j => cancel_queue_entry j | None => mret () end;
    e ← list_entry (es_list es);
    RemoveRebootListEntry leaderKey e).

Definition removeCompletedEntry (entries : list nat) : MC unit :=
  for_each entries (λ i, e ← list_entry (Some i); RemoveRebootListEntry leaderKey e).

Definition dequeueAndCancelEntry (fuel : nat) (entries : list EntrySet) : MC unit :=
  for_each entries (λ es,
    e ← set_list_status (es_list es) RebootListEntryStatusPending;
    _ ← UpdateRebootListEntry fuel e;
    match es_queue es with Some j => cancel_queue_entry j | None => mret () end).

Definition RemoveOrphanedEntry (entries : list EntrySet) : MC unit :=
  for_each entries (λ es,
    match es_queue es with Some j => cancel_queue_entry j | None => mret () end).

Definition addRebootListEntry (fuel : nat) (entries : list nat) : MC unit :=
  for_each entries (λ i,
    e ← set_list_status (Some i) RebootListEntryStatusQueued;
    _ ← on_world (cke_RegisterRebootsEntry (NewRebootQueueEntry (rl_Node e)));
    UpdateRebootListEntry fuel e).

Fixpoint moveToNextGroup (fuel : nat) (candidate : list string) (processingGroup : string)
    : MC string :=
  match candidate with
  | [] => mret processingGroup
  | group :: candidate =>
      if negb (bool_decide (group = processingGroup)) then
        _ ← UpdateProcessingGroup fuel group; mret group
      else moveToNextGroup fuel candidate processingGroup
  end.

(** Each call reads the clock. *)
Definition isWithinSchedule (schedule : Schedule) : MC bool :=
  now ← on_world clock_now;
  mret (Sub (Next schedule timeZone now) now <=? Second * 60).

Fixpoint any_within (schedules : list Schedule) : MC bool :=
  match schedules with
  | [] => mret false
  | s :: schedules =>
      b ← isWithinSchedule s;
      if (b : bool) then mret true else any_within schedules
  end.

Definition isRebootable (entry : RebootListEntry) : MC bool :=
  match rebootTimes !! rl_RebootTime entry with
  | None => mret false
  | Some rebootTime =>
      denied ← any_within (Deny rebootTime);
      if (denied : bool) then mret false else any_within (Allow rebootTime)
  end.

(** [group]'s rebootable entries; the caller only asks whether there are any. *)
Fixpoint findRebootableNodeInGroup (entries : list RebootListEntry) (group : string)
    : MC (list RebootListEntry) :=
  match entries with
  | [] => mret []
  | entry :: entries =>
      keep ← (if bool_decide (rl_Group entry = group) then isRebootable entry else mret false);
      rest ← findRebootableNodeInGroup entries group;
      mret (if (keep : bool) then entry :: rest else rest)
  end.

Definition empty_collection : EntriesCollection :=
  {| CompletedEntry := []; TimedOutEntry := []; NewEntry := []; CancelledEntry := [];
     QueuedEntry := []; OrphanedEntry := [] |}.

(** Filing one entry of the reboot list, at position [i]. *)
Definition collect_list_entry (processingGroup : string) (rqs : list RebootQueueEntry)
    (i : nat) (entry : RebootListEntry) (c : EntriesCollection) : MC EntriesCollection :=
  let rqEntry := findRebootQueueEntryFromRebootListEntry rqs entry in
  let es := {| es_list := Some i; es_queue := rqEntry |} in
  if bool_decide (rl_Status entry = RebootListEntryStatusCancelled) then
    mret {| CompletedEntry := CompletedEntry c; TimedOutEntry := TimedOutEntry c;
            NewEntry := NewEntry c; CancelledEntry := CancelledEntry c ++ [es];
            QueuedEntry := QueuedEntry c; OrphanedEntry := OrphanedEntry c |}
  else if bool_decide (rl_Status entry = RebootListEntryStatusPending) then
    match rqEntry with
    | Some _ => mret c
    | None =>
        ok ← (if bool_decide (rl_Group entry = processingGroup) then isRebootable entry
              else mret false);
        if (ok : bool) then
          mret {| CompletedEntry := CompletedEntry c; TimedOutEntry := TimedOutEntry c;
                  NewEntry := NewEntry c ++ [i]; CancelledEntry := CancelledEntry c;
                  QueuedEntry := QueuedEntry c; OrphanedEntry := OrphanedEntry c |}
        else mret c
    end
  else if bool_decide (rl_Status entry = RebootListEntryStatusQueued) then
    match rqEntry with
    | None =>
        mret {| CompletedEntry := CompletedEntry c ++ [i]; TimedOutEntry := TimedOutEntry c;
                NewEntry := NewEntry c; CancelledEntry := CancelledEntry c;
                QueuedEntry := QueuedEntry c; OrphanedEntry := OrphanedEntry c |}
    | Some j =>
        ok ← isRebootable entry;
        let late := negb ok &&
          match rqs !! j with
          | Some rq => negb (bool_decide (rq_Status rq = RebootStatusRebooting))
          | None => false
          end in
        mret {| CompletedEntry := CompletedEntry c;
                TimedOutEntry := if late then TimedOutEntry c ++ [es] else TimedOutEntry c;
                NewEntry := NewEntry c; CancelledEntry := CancelledEntry c;
                QueuedEntry := QueuedEntry c ++ [es]; OrphanedEntry := OrphanedEntry c |}
    end
  else mret c.

Fixpoint collect_list (processingGroup : string) (rqs : list RebootQueueEntry) (i : nat)
    (rls : list RebootListEntry) (c : EntriesCollection) : MC EntriesCollection :=
  match rls with
  | [] => mret c
  | entry :: rls =>
      c ← collect_list_entry processingGroup rqs i entry c;
      collect_list processingGroup rqs (S i) rls c
  end.

(** The orphans among the queue entries from position [j] on. *)
Fixpoint collect_orphans (rls : list RebootListEntry) (j : nat) (rqs : list RebootQueueEntry)
    : list EntrySet :=
  match rqs with
  | [] => []
  | rq :: rqs =>
      if bool_decide (rq_Status rq = RebootStatusCancelled) then collect_orphans rls (S j) rqs
      else
        match findRebootListEntryFromRebootQueueEntry rls rq with
        | None => {| es_list := None; es_queue := Some j |} :: collect_orphans rls (S j) rqs
        | Some i =>
            match rls !! i with
            | Some rl =>
                if bool_decide (rl_Status rl = RebootListEntryStatusPending) then
                  {| es_list := Some i; es_queue := Some j |} :: collect_orphans rls (S j) rqs
                else collect_orphans rls (S j) rqs
            | None => collect_orphans rls (S j) rqs
            end
        end
  end.

Definition collectEntries (processingGroup : string) : MC EntriesCollection :=
  s ← get_local;
  c ← collect_list processingGroup (rs_queue s) 0 (rs_list s) empty_collection;
  mret {| CompletedEntry := CompletedEntry c; TimedOutEntry := TimedOutEntry c;
          NewEntry := NewEntry c; CancelledEntry := CancelledEntry c;
          QueuedEntry := QueuedEntry c;
          OrphanedEntry := collect_orphans (rs_list s) 0 (rs_queue s) |}.

Definition getAllGroups (entries : list RebootListEntry) : MC (list string) :=
  on_world (Shuffle (Compact (Sort (map rl_Group entries)))).

(** The groups of [groups] that have a rebootable entry. *)
Fixpoint candidates_of (entries : list RebootListEntry) (groups : list string) : MC (list string) :=
  match groups with
  | [] => mret []
  | group :: groups =>
      nodes ← findRebootableNodeInGroup entries group;
      rest ← candidates_of entries groups;
      mret (match nodes with [] => rest | _ => group :: rest end)
  end.

Definition is_stuck (rqs : list RebootQueueEntry) : bool :=
  forallb (λ rq, negb (bool_decide (rq_Status rq = RebootStatusRebooting) ||
                       (rq_DrainBackOffCount rq =? 0))) rqs.

(** Which group to work on, after leaving a group that is done or stuck. *)
Definition choose_group (fuel : nat) (enabled : bool) (processingGroup : string)
    (candidate : list string) : MC string :=
  s ← get_local;
  match candidate with
  | [] => mret processingGroup
  | _ :: _ =>
      if negb enabled then mret processingGroup
      else
        match rs_queue s with
        | [] => moveToNextGroup fuel candidate processingGroup
        | _ :: _ =>
            if is_stuck (rs_queue s) then
              collection ← collectEntries processingGroup;
              _ ← dequeueAndCancelEntry fuel (QueuedEntry collection);
              moveToNextGroup fuel candidate processingGroup
            else mret processingGroup
        end
  end.

(** What is done with the filed entries. *)
Definition process (fuel : nat) (enabled : bool) (c : EntriesCollection) : MC unit :=
  match CancelledEntry c, OrphanedEntry c with
  | _ :: _, _ => removeCancelledEntry (CancelledEntry c)
  | [], _ :: _ => RemoveOrphanedEntry (OrphanedEntry c)
  | [], [] =>
      _ ← removeCompletedEntry (CompletedEntry c);
      if enabled then
        _ ← addRebootListEntry fuel (NewEntry c);
        dequeueAndCancelEntry fuel (TimedOutEntry c)
      else dequeueAndCancelEntry fuel (QueuedEntry c)
  end.

Definition runOnce (fuel : nat) : MC unit :=
  enabled ← IsNecoRebooterEnabled;
  rebootListEntries ← GetRebootListEntries;
  rebootQueueEntries ← on_world cke_GetRebootsEntries;
  processingGroup ← GetProcessingGroup;
  currentAllGroups ← getAllGroups rebootListEntries;
  s ← get_local;
  let allGroups := if isEqualContents (rs_allGroups s) currentAllGroups
                   then rs_allGroups s else currentAllGroups in
  _ ← put_local {| rs_list := rebootListEntries; rs_queue := rebootQueueEntries;
                   rs_allGroups := allGroups |};
  candidate ← candidates_of rebootListEntries
                (cycleSlices allGroups (Index allGroups processingGroup));
  processingGroup ← choose_group fuel enabled processingGroup candidate;
  collection ← collectEntries processingGroup;
  process fuel enabled collection.
End controller.
