(* ===== verification/RebooterFiling.v ===== *)
(** * How neco-rebooter files the entries of the two lists

    The record of a pass: what it does to the world and what it reads from the clock.
    [collectEntries] asks the clock while it files.  Its result is the pure filing
    [filing] of the entries with one verdict per entry, and each verdict that was
    asked for agrees with the clock readings on record. *)
From S2P Require Import Prelude GoStr GoTime Json Types Etcd Worlds Storage Watch Worker Rebooter.

Local Open Scope Z_scope.

(** ** The record of a pass *)
Inductive Effect :=
  | ReadClock (now : Time)
  | Registered (q : RebootQueueEntry)
  | CkeUpdated (q : RebootQueueEntry)
  | Txn (cs : list Cmp) (ops : list Op)
  | Put (k v : string)
  | Delete (k : string).

Abbreviation TW W := (Traced Effect W).

#[export] Instance traced_etcd {W} `{Etcd W} : Etcd (TW W) := {
  etcd_get k o := traced (λ _, []) (etcd_get k o);
  etcd_put k v := traced (λ _, [Put k v]) (etcd_put k v);
  etcd_delete k := traced (λ _, [Delete k]) (etcd_delete k);
  etcd_txn cs ops := traced (λ _, [Txn cs ops]) (etcd_txn cs ops);
  etcd_recv o rev := traced (λ _, []) (etcd_recv o rev);
}.
#[export] Instance traced_clock {W} `{Clock W} : Clock (TW W) := {
  clock_now := traced (λ r, match r with Ok now => [ReadClock now] | _ => [] end) clock_now;
  clock_after d := traced (λ _, []) (clock_after d);
}.
#[export] Instance traced_cke {W} `{CKE W} : CKE (TW W) := {
  cke_GetRebootsEntries := traced (λ _, []) cke_GetRebootsEntries;
  cke_UpdateRebootsEntry q := traced (λ _, [CkeUpdated q]) (cke_UpdateRebootsEntry q);
  cke_RegisterRebootsEntry q := traced (λ _, [Registered q]) (cke_RegisterRebootsEntry q);
}.
#[export] Instance traced_rand {W} `{Rand W} : Rand (TW W) := {
  Shuffle l := traced (λ _, []) (Shuffle l);
}.

Abbreviation RW W := (TW W * RebooterState)%type.

(** ** Lists *)
Lemma find_index_Some {A} (f : A → bool) l i :
  find_index f l = Some i → ∃ x, l !! i = Some x ∧ f x = true.
Proof.
  revert i. induction l as [|x l IH]; intros i E; simpl in E; [done|].
  destruct (f x) eqn:Hf; [injection E as <-; eauto|].
  destruct (find_index f l) as [k|]; [|done]. injection E as <-. by apply IH.
Qed.
Lemma find_index_None {A} (f : A → bool) l :
  find_index f l = None ↔ ∀ x, x ∈ l → f x = false.
Proof.
  induction l as [|x l IH]; simpl; [split; [intros _ x Hx; by apply not_elem_of_nil in Hx|done]|].
  destruct (f x) eqn:Hf.
  - split; [done|]. intros Hall. specialize (Hall x). rewrite Hf in Hall. set_solver.
  - rewrite fmap_None, IH. split; [|set_solver]. intros Hall y [->|Hy]%elem_of_cons; auto.
Qed.

(** ** The pure filing *)
Section filing.
Context `{CKEStatus}.
Variable g : string.
Variable rqs : list RebootQueueEntry.
Implicit Types (i : nat) (e : RebootListEntry) (b : bool).

Abbreviation queued_at e := (findRebootQueueEntryFromRebootListEntry rqs e).
Definition pair_of i e : EntrySet := {| es_list := Some i; es_queue := queued_at e |}.
Definition rebooting_at (j : nat) : bool :=
  match rqs !! j with
  | Some rq => bool_decide (rq_Status rq = RebootStatusRebooting)
  | None => true
  end.

(** The entries for which [isRebootable] is asked. *)
Definition asked e : bool :=
  match queued_at e with
  | None => bool_decide (rl_Status e = RebootListEntryStatusPending) && bool_decide (rl_Group e = g)
  | Some _ => bool_decide (rl_Status e = RebootListEntryStatusQueued)
  end.

Definition new_of i e b : list nat :=
  if asked e && b && bool_decide (queued_at e = None) then [i] else [].
Definition completed_of i e b : list nat :=
  if bool_decide (rl_Status e = RebootListEntryStatusQueued) && bool_decide (queued_at e = None)
  then [i] else [].
Definition cancelled_of i e b : list EntrySet :=
  if bool_decide (rl_Status e = RebootListEntryStatusCancelled) then [pair_of i e] else [].
Definition queued_of i e b : list EntrySet :=
  if bool_decide (rl_Status e = RebootListEntryStatusQueued) && negb (bool_decide (queued_at e = None))
  then [pair_of i e] else [].
Definition timedout_of i e b : list EntrySet :=
  match queued_at e with
  | Some j => if asked e && negb b && negb (rebooting_at j) then [pair_of i e] else []
  | None => []
  end.

(** Everything [sel] says of the entries, which stand from position [i] on. *)
Fixpoint filed {A} (sel : nat → RebootListEntry → bool → list A) i
    (l : list (RebootListEntry * bool)) : list A :=
  match l with
  | [] => []
  | (e, b) :: l => sel i e b ++ filed sel (S i) l
  end.
Definition filing i l : EntriesCollection :=
  {| CompletedEntry := filed completed_of i l; TimedOutEntry := filed timedout_of i l;
     NewEntry := filed new_of i l; CancelledEntry := filed cancelled_of i l;
     QueuedEntry := filed queued_of i l; OrphanedEntry := [] |}.
Definition joined (c c' : EntriesCollection) : EntriesCollection :=
  {| CompletedEntry := CompletedEntry c ++ CompletedEntry c';
     TimedOutEntry := TimedOutEntry c ++ TimedOutEntry c';
     NewEntry := NewEntry c ++ NewEntry c';
     CancelledEntry := CancelledEntry c ++ CancelledEntry c';
     QueuedEntry := QueuedEntry c ++ QueuedEntry c';
     OrphanedEntry := OrphanedEntry c ++ OrphanedEntry c' |}.

Lemma elem_of_filed {A} (sel : nat → RebootListEntry → bool → list A) i l x :
  x ∈ filed sel i l ↔ ∃ k e b, l !! k = Some (e, b) ∧ x ∈ sel (i + k)%nat e b.
Proof.
  revert i. induction l as [|[e b] l IH]; intros i; simpl.
  - split; [by intros ?%not_elem_of_nil|]. intros (k & e & b & E & _). by destruct k.
  - rewrite elem_of_app, IH. split.
    + intros [Hx|(k & e' & b' & E & Hx)].
      * exists O, e, b. by rewrite Nat.add_0_r.
      * exists (S k), e', b'. by rewrite <-plus_n_Sm.
    + intros ([|k] & e' & b' & E & Hx); simpl in E.
      * injection E as <- <-. rewrite Nat.add_0_r in Hx. by left.
      * right. exists k, e', b'. by rewrite <-plus_n_Sm in Hx.
Qed.

Lemma joined_cons c i e b l :
  joined c (filing i ((e, b) :: l)) = joined (joined c (filing i [(e, b)])) (filing (S i) l).
Proof. unfold joined, filing. simpl. by rewrite !app_nil_r, <-!app_assoc. Qed.
End filing.

(** ** What the clock was seen to say *)
Section verdicts.
Context `{Cron}.
Variable rebootTimes : gmap string RebootTime.
Variable timeZone : Location.
Implicit Types (t : list Effect) (s : Schedule) (e : RebootListEntry).

(** [s] fires within a minute of [now]. *)
Definition within s (now : Time) : bool := Sub (Next s timeZone now) now <=? Second * 60.
Definition seen t s (b : bool) : Prop := ∃ now, ReadClock now ∈ t ∧ within s now = b.

(** The readings in [t] show [e] outside every denied time and inside an allowed one. *)
Definition may_reboot t e : Prop := ∃ rt, rebootTimes !! rl_RebootTime e = Some rt ∧
  (∀ s, s ∈ Deny rt → seen t s false) ∧ ∃ s, s ∈ Allow rt ∧ seen t s true.
(** They show it inside a denied time or outside every allowed one. *)
Definition may_not_reboot t e : Prop := ∀ rt, rebootTimes !! rl_RebootTime e = Some rt →
  (∃ s, s ∈ Deny rt ∧ seen t s true) ∨ ∀ s, s ∈ Allow rt → seen t s false.
Definition verdict t e (b : bool) : Prop := if b then may_reboot t e else may_not_reboot t e.

Lemma seen_mono t t' s b : t ⊆ t' → seen t s b → seen t' s b.
Proof. intros Ht (now & Hin & Hb). exists now. auto. Qed.
Lemma verdict_mono t t' e b : t ⊆ t' → verdict t e b → verdict t' e b.
Proof.
  intros Ht. unfold verdict, may_reboot, may_not_reboot. destruct b.
  - intros (rt & E & Hd & s & Hs & Ha). exists rt. eauto 8 using seen_mono.
  - intros Hn rt E. destruct (Hn rt E) as [(s & Hs & Hd)|Ha]; eauto 8 using seen_mono.
Qed.
End verdicts.

(** A run that only read the clock. *)
Definition reads {W} (v v' : RW W) : Prop := ∃ nows, logged v (ReadClock <$> nows) v'.
Lemma reads_refl {W} (v : RW W) : reads v v.
Proof. exists []. unfold logged. by rewrite app_nil_r. Qed.
Lemma reads_trans {W} (v1 v2 v3 : RW W) : reads v1 v2 → reads v2 v3 → reads v1 v3.
Proof.
  intros [n1 [E1 S1]] [n2 [E2 S2]]. exists (n1 ++ n2). unfold logged.
  rewrite E2, E1, fmap_app, app_assoc. by rewrite S2, S1.
Qed.
Lemma reads_sub {W} (v v' : RW W) : reads v v' → log_of v ⊆ log_of v'.
Proof. intros [n [E _]]. rewrite E. set_solver. Qed.
#[export] Hint Resolve reads_refl reads_trans reads_sub : neco.

Section filing_runs.
Context {W : Type} `{Etcd W} `{Clock W} `{CKEStatus} `{CKE W} `{Rand W} `{Cron}.
Variable rebootTimes : gmap string RebootTime.
Variable timeZone : Location.
Variable I : RW W → Prop.
Hypothesis I_reads : ∀ v v', reads v v' → I v → I v'.
Implicit Types (v : RW W) (e : RebootListEntry).
Abbreviation verdict t e b := (verdict rebootTimes timeZone t e b).
Abbreviation seen t s b := (seen timeZone t s b).

(** [m] only reads the clock, and its result satisfies [P] of the readings. *)
Definition asks {A} (m : M (RW W) A) (P : list Effect → A → Prop) : Prop :=
  ∀ v, I v → wp I m v (λ a v', reads v v' ∧ I v' ∧ P (log_of v') a).

Lemma asks_ret {A} (a : A) (P : list Effect → A → Prop) : (∀ t, P t a) → asks (mret a) P.
Proof. intros HP v HI. apply wp_ret. auto with neco. Qed.
Lemma asks_bind {A B} (m : M (RW W) A) (f : A → M (RW W) B) P Q :
  asks m P → (∀ a, asks (f a) (λ t b, ∀ t', t' ⊆ t → P t' a → Q t b)) → asks (m ≫= f) Q.
Proof.
  intros Hm Hf v HI. apply wp_bind. eapply wp_mono; [by apply Hm|]. intros a v' (Hr & HI' & HP).
  eapply wp_mono; [by apply Hf|]. simpl. intros b v'' (Hr' & HI'' & HQ). split_and!; eauto with neco.
Qed.
Lemma asks_mono {A} (m : M (RW W) A) (P Q : list Effect → A → Prop) :
  asks m P → (∀ t a, P t a → Q t a) → asks m Q.
Proof. intros Hm HPQ v HI. eapply wp_mono; [by apply Hm|]. simpl. naive_solver. Qed.

Lemma asks_schedule s : asks (isWithinSchedule timeZone s) (λ t b, seen t s b).
Proof.
  intros v HI. unfold isWithinSchedule. apply wp_bind, wp_traced. intros v' r Hl.
  assert (reads v v') as Hr.
  { destruct r as [now|x|x|]; [by exists [now]|by exists []..]. }
  destruct r as [now|x|x|]; eauto. apply wp_ret. split_and!; eauto. exists now. split; [|done].
  destruct Hl as [-> _]. set_solver.
Qed.

Lemma asks_any ss : asks (any_within timeZone ss) (λ t b,
  if b : bool then ∃ s, s ∈ ss ∧ seen t s true else ∀ s, s ∈ ss → seen t s false).
Proof.
  induction ss as [|s ss IH]; simpl; [apply asks_ret; intros t s Hs; by apply not_elem_of_nil in Hs|].
  eapply asks_bind; [apply asks_schedule|]. intros [|].
  - apply asks_ret. intros t t' Ht Hs. exists s. split; [set_solver|by eapply seen_mono].
  - eapply asks_mono; [apply IH|]. intros t [|] Hb t' Ht Hs.
    + set_solver.
    + intros s' [->|Hs']%elem_of_cons; [by eapply seen_mono|auto].
Qed.

Lemma asks_isRebootable e : asks (isRebootable rebootTimes timeZone e) (λ t b, verdict t e b).
Proof.
  unfold isRebootable. unfold RebooterFiling.verdict, may_reboot, may_not_reboot.
  destruct (rebootTimes !! _) as [rt|] eqn:E; [|apply asks_ret; by intros].
  eapply asks_bind; [apply asks_any|]. intros [|].
  - apply asks_ret. intros t t' Ht (s & Hs & Hd) rt' [= <-]. eauto using seen_mono.
  - eapply asks_mono; [apply asks_any|]. intros t [|] Ha t' Ht Hd.
    + exists rt. eauto 8 using seen_mono.
    + intros rt' [= <-]. auto.
Qed.

(** Filing with nothing to ask. *)
Lemma asks_nothing g rqs i e c c' :
  asked g rqs e = false → c' = joined c (filing g rqs i [(e, false)]) →
  asks (mret c') (λ t c', ∃ b,
    (asked g rqs e → verdict t e b) ∧ c' = joined c (filing g rqs i [(e, b)])).
Proof. intros Ha ->. apply asks_ret. intros t. exists false. by rewrite Ha. Qed.

Local Ltac filing_cases Ej :=
  unfold joined, filing, filed, new_of, completed_of, cancelled_of, queued_of, timedout_of,
    asked, pair_of, rebooting_at in *; rewrite ?Ej in *;
  unfold RebootListEntryStatusCancelled, RebootListEntryStatusPending,
    RebootListEntryStatusQueued in *;
  repeat case_bool_decide; simpl; rewrite ?app_nil_r; try congruence.

Lemma asks_entry g rqs i e c :
  asks (collect_list_entry rebootTimes timeZone g rqs i e c) (λ t c', ∃ b,
    (asked g rqs e → verdict t e b) ∧ c' = joined c (filing g rqs i [(e, b)])).
Proof.
  unfold collect_list_entry. destruct c as [c1 c2 c3 c4 c5 c6].
  destruct (findRebootQueueEntryFromRebootListEntry rqs e) as [j|] eqn:Ej;
    repeat case_bool_decide; try (apply asks_nothing; solve [filing_cases Ej]).
  - eapply asks_bind; [apply asks_isRebootable|]. intros b. apply asks_ret.
    intros t t' Ht Hb. exists b. split; [by eauto using verdict_mono|].
    filing_cases Ej. destruct (rqs !! j), b; simpl; repeat case_bool_decide; simpl; by rewrite ?app_nil_r.
  - eapply asks_bind; [apply asks_isRebootable|]. intros b.
    destruct b; apply asks_ret; intros t t' Ht Hb; [exists true|exists false];
      (split; [by eauto using verdict_mono|filing_cases Ej]).
Qed.

Lemma asks_list g rqs rls : ∀ i c,
  asks (collect_list rebootTimes timeZone g rqs i rls c) (λ t c', ∃ bs,
    Forall2 (λ e b, asked g rqs e → verdict t e b) rls bs ∧
    c' = joined c (filing g rqs i (zip rls bs))).
Proof.
  induction rls as [|e rls IH]; intros i c; simpl.
  { apply asks_ret. intros t. exists []. split; [constructor|].
    destruct c. unfold joined. simpl. by rewrite !app_nil_r. }
  eapply asks_bind; [apply asks_entry|]. intros c1. eapply asks_mono; [apply IH|].
  intros t c' (bs & Hbs & ->) t' Ht (b & Hb & ->). exists (b :: bs). simpl. split.
  - constructor; [|done]. intros Ha. eapply verdict_mono; [done|auto].
  - symmetry. apply joined_cons.
Qed.

Definition with_orphans (c : EntriesCollection) (os : list EntrySet) : EntriesCollection :=
  {| CompletedEntry := CompletedEntry c; TimedOutEntry := TimedOutEntry c;
     NewEntry := NewEntry c; CancelledEntry := CancelledEntry c;
     QueuedEntry := QueuedEntry c; OrphanedEntry := os |}.

Lemma asks_collect g v : I v →
  wp I (collectEntries rebootTimes timeZone g) v (λ c v', reads v v' ∧ I v' ∧ ∃ bs,
    Forall2 (λ e b, asked g (rs_queue v.2) e → verdict (log_of v') e b) (rs_list v.2) bs ∧
    c = with_orphans (filing g (rs_queue v.2) 0 (zip (rs_list v.2) bs))
          (collect_orphans (rs_list v.2) 0 (rs_queue v.2))).
Proof.
  intros HI. unfold collectEntries. apply wp_bind. unfold wp at 1. simpl. apply wp_bind.
  eapply wp_mono; [by apply asks_list|]. simpl. intros c v' (Hr & HI' & bs & Hbs & ->).
  apply wp_ret. split_and!; [done..|]. exists bs. split; [done|]. by destruct (filing _ _ _ _).
Qed.
End filing_runs.

(** ** Orphans *)
Section orphans.
Context `{CKEStatus}.
Variable rls : list RebootListEntry.

(** The list has no entry of [rq]'s node, or a pending one. *)
Definition unclaimed (rq : RebootQueueEntry) : Prop :=
  ∀ i e, findRebootListEntryFromRebootQueueEntry rls rq = Some i → rls !! i = Some e →
         rl_Status e = RebootListEntryStatusPending.
(** CKE's entry [rq] is live and unclaimed. *)
Definition orphaned (rq : RebootQueueEntry) : Prop :=
  rq_Status rq ≠ RebootStatusCancelled ∧ unclaimed rq.
Definition orphan_at (j : nat) (rq : RebootQueueEntry) : EntrySet :=
  {| es_list := findRebootListEntryFromRebootQueueEntry rls rq; es_queue := Some j |}.

Lemma collect_orphans_cons j rq rqs :
  (orphaned rq ∧ collect_orphans rls j (rq :: rqs) = orphan_at j rq :: collect_orphans rls (S j) rqs) ∨
  (¬ orphaned rq ∧ collect_orphans rls j (rq :: rqs) = collect_orphans rls (S j) rqs).
Proof.
  unfold orphaned, unclaimed, orphan_at. simpl. case_bool_decide; [right; naive_solver|].
  destruct (findRebootListEntryFromRebootQueueEntry rls rq) as [i|] eqn:E; [|left; naive_solver].
  apply find_index_Some in E as (e & Ei & _). rewrite Ei. case_bool_decide; [left|right]; naive_solver.
Qed.

Lemma elem_of_orphans rqs j es :
  es ∈ collect_orphans rls j rqs ↔
  ∃ k rq, rqs !! k = Some rq ∧ orphaned rq ∧ es = orphan_at (j + k) rq.
Proof.
  revert j. induction rqs as [|rq rqs IH]; intros j.
  { split; [by intros ?%not_elem_of_nil|]. intros (k & rq & E & _). by destruct k. }
  assert (es ∈ collect_orphans rls j (rq :: rqs) ↔
          orphaned rq ∧ es = orphan_at j rq ∨ es ∈ collect_orphans rls (S j) rqs) as ->.
  { destruct (collect_orphans_cons j rq rqs) as [[Ho ->]|[Ho ->]]; set_solver. }
  rewrite IH. split.
  - intros [[Ho ->]|(k & rq' & E & Ho & ->)].
    + exists O, rq. by rewrite Nat.add_0_r.
    + exists (S k), rq'. by rewrite <-plus_n_Sm.
  - intros ([|k] & rq' & E & Ho & ->); simpl in E.
    + injection E as <-. rewrite Nat.add_0_r. by left.
    + right. exists k, rq'. by rewrite <-plus_n_Sm.
Qed.
End orphans.

(** ** What is filed where *)
(** CKE's queue [rqs] has an entry of [e]'s node. *)
Definition in_queue (rqs : list RebootQueueEntry) (e : RebootListEntry) : Prop :=
  ∃ rq, rq ∈ rqs ∧ rq_Node rq = rl_Node e.

Lemma not_in_queue rqs e :
  findRebootQueueEntryFromRebootListEntry rqs e = None ↔ ¬ in_queue rqs e.
Proof.
  unfold findRebootQueueEntryFromRebootListEntry, in_queue. rewrite find_index_None.
  setoid_rewrite bool_decide_eq_false. naive_solver.
Qed.
Lemma queue_position rqs e j :
  findRebootQueueEntryFromRebootListEntry rqs e = Some j →
  ∃ rq, rqs !! j = Some rq ∧ rq_Node rq = rl_Node e.
Proof. intros (rq & E & Hn%bool_decide_eq_true)%find_index_Some. eauto. Qed.
Lemma is_in_queue rqs e :
  findRebootQueueEntryFromRebootListEntry rqs e ≠ None ↔ in_queue rqs e.
Proof.
  rewrite not_in_queue. split; [|by intros ? []]. intros Hn.
  destruct (findRebootQueueEntryFromRebootListEntry rqs e) as [j|] eqn:E.
  - apply queue_position in E as (rq & ?%list_elem_of_lookup_2 & ?). by exists rq.
  - by apply not_in_queue in E.
Qed.

Lemma elem_of_filed_zip {A} (P : RebootListEntry → bool → Prop) sel rls bs (x : A) :
  Forall2 P rls bs →
  x ∈ filed sel 0 (zip rls bs) ↔
  ∃ k e b, rls !! k = Some e ∧ bs !! k = Some b ∧ P e b ∧ x ∈ sel k e b.
Proof.
  intros HF. rewrite elem_of_filed. split.
  - intros (k & e & b & E & Hx). apply lookup_zip_with_Some in E as (? & ? & [= <- <-] & He & Hb).
    exists k, e, b. split_and!; [done..| |done]. by eapply Forall2_lookup_lr.
  - intros (k & e & b & He & Hb & _ & Hx). exists k, e, b. split; [|done].
    apply lookup_zip_with_Some. eauto.
Qed.
(** The choices that do not depend on the verdict. *)
Lemma elem_of_filed_zip' {A} (P : RebootListEntry → bool → Prop) sel rls bs (x : A) :
  Forall2 P rls bs → (∀ k e b, sel k e b = sel k e false) →
  x ∈ filed sel 0 (zip rls bs) ↔ ∃ k e, rls !! k = Some e ∧ x ∈ sel k e false.
Proof.
  intros HF Hsel. rewrite elem_of_filed_zip by done. split.
  - intros (k & e & b & He & _ & _ & Hx). rewrite Hsel in Hx. eauto.
  - intros (k & e & He & Hx). destruct (Forall2_lookup_l _ _ _ _ _ HF He) as (b & Hb & HP).
    exists k, e, b. by rewrite Hsel.
Qed.
Lemma elem_of_if {A} (b : bool) (x y : A) : x ∈ (if b then [y] else []) ↔ b = true ∧ x = y.
Proof. destruct b; set_solver. Qed.

(** ** Filing *)
Section filed_entries.
Context `{CKEStatus} `{Cron}.
Variable rebootTimes : gmap string RebootTime.
Variable timeZone : Location.
Implicit Types (e : RebootListEntry) (c : EntriesCollection).

(** What the lists of [c] hold, given the two lists, the group being processed and
    the clock readings [t]. *)
Record files (g : string) (s : RebooterState) (t : list Effect) c : Prop := {
  files_new i : i ∈ NewEntry c → ∃ e, rs_list s !! i = Some e ∧
    rl_Status e = RebootListEntryStatusPending ∧ rl_Group e = g ∧ ¬ in_queue (rs_queue s) e ∧
    may_reboot rebootTimes timeZone t e;
  files_not_new i e : rs_list s !! i = Some e → rl_Status e = RebootListEntryStatusPending →
    rl_Group e = g → ¬ in_queue (rs_queue s) e → i ∉ NewEntry c →
    may_not_reboot rebootTimes timeZone t e;
  files_completed i : i ∈ CompletedEntry c ↔ ∃ e, rs_list s !! i = Some e ∧
    rl_Status e = RebootListEntryStatusQueued ∧ ¬ in_queue (rs_queue s) e;
  files_cancelled es : es ∈ CancelledEntry c ↔ ∃ i e, rs_list s !! i = Some e ∧
    es = pair_of (rs_queue s) i e ∧ rl_Status e = RebootListEntryStatusCancelled;
  files_queued es : es ∈ QueuedEntry c ↔ ∃ i e, rs_list s !! i = Some e ∧
    es = pair_of (rs_queue s) i e ∧ rl_Status e = RebootListEntryStatusQueued ∧
    in_queue (rs_queue s) e;
  files_timedout es : es ∈ TimedOutEntry c → es ∈ QueuedEntry c ∧ ∃ i e j rq,
    es_list es = Some i ∧ rs_list s !! i = Some e ∧
    es_queue es = Some j ∧ rs_queue s !! j = Some rq ∧ rq_Status rq ≠ RebootStatusRebooting ∧
    may_not_reboot rebootTimes timeZone t e;
  files_orphaned es : es ∈ OrphanedEntry c ↔ ∃ j rq, rs_queue s !! j = Some rq ∧
    orphaned (rs_list s) rq ∧ es = orphan_at (rs_list s) j rq;
}.

Lemma timedout_filed g rqs rls t bs es :
  Forall2 (λ e b, asked g rqs e → verdict rebootTimes timeZone t e b) rls bs →
  es ∈ filed (timedout_of g rqs) 0 (zip rls bs) →
  ∃ i e j rq, rls !! i = Some e ∧ es = pair_of rqs i e ∧ es_queue es = Some j ∧
    rqs !! j = Some rq ∧ rl_Status e = RebootListEntryStatusQueued ∧
    rq_Status rq ≠ RebootStatusRebooting ∧ may_not_reboot rebootTimes timeZone t e.
Proof.
  intros HF Hes. eapply elem_of_filed_zip in Hes as (i & e & b & He & _ & Hv & Hes); [|done].
  unfold timedout_of in Hes.
  destruct (findRebootQueueEntryFromRebootListEntry rqs e) as [j|] eqn:Ej;
    [|by apply not_elem_of_nil in Hes].
  apply elem_of_if in Hes as [[[Ha Hb]%andb_true_iff Hr]%andb_true_iff ->].
  destruct b; [done|]. rewrite Ha in Hv. unfold asked in Ha. rewrite Ej in Ha.
  apply bool_decide_eq_true in Ha. unfold rebooting_at in Hr.
  destruct (queue_position _ _ _ Ej) as (rq & Erq & _). rewrite Erq in Hr.
  apply negb_true_iff, bool_decide_eq_false in Hr. exists i, e, j, rq. naive_solver.
Qed.

Lemma filing_files g s t bs :
  Forall2 (λ e b, asked g (rs_queue s) e → verdict rebootTimes timeZone t e b) (rs_list s) bs →
  files g s t (with_orphans (filing g (rs_queue s) 0 (zip (rs_list s) bs))
                 (collect_orphans (rs_list s) 0 (rs_queue s))).
Proof.
  intros HF. split; simpl.
  - intros i Hi. eapply elem_of_filed_zip in Hi as (k & e & b & He & _ & Hv & Hi); [|done].
    apply elem_of_if in Hi as [[[Ha Hb]%andb_true_iff Hq]%andb_true_iff ->].
    destruct b; [|done]. rewrite Ha in Hv. apply bool_decide_eq_true in Hq. unfold asked in Ha.
    rewrite Hq in Ha. apply andb_true_iff in Ha as [?%bool_decide_eq_true ?%bool_decide_eq_true].
    exists e. split_and!; [done..|by apply not_in_queue|by apply Hv].
  - intros i e He Hs Hg Hq%not_in_queue Hn.
    destruct (Forall2_lookup_l _ _ _ _ _ HF He) as (b & Hb & Hv).
    assert (asked g (rs_queue s) e = true) as Ha.
    { unfold asked. by rewrite Hq, !bool_decide_eq_true_2. }
    rewrite Ha in Hv. destruct b; [|by apply Hv]. exfalso. apply Hn.
    eapply elem_of_filed_zip; [done|]. exists i, e, true. split_and!; [done..|by intros _; apply Hv|].
    apply elem_of_if. by rewrite Ha, bool_decide_eq_true_2.
  - intros i. erewrite elem_of_filed_zip' by done. unfold completed_of.
    setoid_rewrite elem_of_if. setoid_rewrite andb_true_iff.
    setoid_rewrite bool_decide_eq_true. setoid_rewrite not_in_queue. naive_solver.
  - intros es. erewrite elem_of_filed_zip' by done. unfold cancelled_of.
    setoid_rewrite elem_of_if. setoid_rewrite bool_decide_eq_true. naive_solver.
  - intros es. erewrite elem_of_filed_zip' by done. unfold queued_of.
    setoid_rewrite elem_of_if. setoid_rewrite andb_true_iff. setoid_rewrite negb_true_iff.
    setoid_rewrite bool_decide_eq_true. setoid_rewrite bool_decide_eq_false.
    setoid_rewrite is_in_queue. naive_solver.
  - intros es Hes. destruct (timedout_filed _ _ _ _ _ _ HF Hes)
      as (i & e & j & rq & He & -> & Ej & Erq & Hs & Hr & Hv).
    split; [|by exists i, e, j, rq]. eapply elem_of_filed_zip'; [done..|]. exists i, e.
    split; [done|]. apply elem_of_if. unfold pair_of in Ej. simpl in Ej. rewrite Ej.
    by rewrite (bool_decide_eq_true_2 (_ = RebootListEntryStatusQueued)).
  - intros es. apply elem_of_orphans.
Qed.
End filed_entries.

Section collect.
Context {W : Type} `{Etcd W} `{Clock W} `{CKEStatus} `{CKE W} `{Rand W} `{Cron}.
Variable rebootTimes : gmap string RebootTime.
Variable timeZone : Location.

Lemma wp_collect (I : RW W → Prop) g v :
  (∀ v v', reads v v' → I v → I v') → I v →
  wp I (collectEntries rebootTimes timeZone g) v
    (λ c v', reads v v' ∧ I v' ∧ files rebootTimes timeZone g v.2 (log_of v') c).
Proof.
  intros HI Hv. eapply wp_mono; [by apply asks_collect|]. simpl.
  intros c v' (Hr & Hv' & bs & HF & ->). split_and!; [done..|]. by apply filing_files.
Qed.

(** [collectEntries] leaves both lists as they are and files every entry where it
    belongs.  New are only pending entries of the processing group, at a time that
    admits a reboot, of a node that CKE's queue does not hold yet, and such an entry
    is left out only at a time that does not admit it; completed are exactly the
    queued entries CKE is done with; timed out are only queued entries outside
    their times that are not rebooting; orphans are exactly CKE's live entries
    without an entry in the list, or with a pending one. *)
Theorem collectEntries_files g (v v' : RW W) c :
  collectEntries rebootTimes timeZone g v = (v', Ok c) →
  v'.2 = v.2 ∧ files rebootTimes timeZone g v.2 (log_of v') c.
Proof.
  intros E. pose proof (wp_collect (λ _, True) g v) as Hwp. unfold wp in Hwp. rewrite E in Hwp.
  destruct Hwp as ([nows [_ Hs]] & _ & Hf); auto.
Qed.
End collect.
