(* ===== verification/RebooterSafety.v ===== *)
(** * What a pass of neco-rebooter may do

    Every write of a pass is justified by the lists, the group and the switch as the
    pass read them, and by the clock readings before the write. *)
From S2P Require Import Prelude GoStr GoTime Json Types Etcd Worlds Storage Watch Worker Rebooter RebooterFiling.

Local Open Scope Z_scope.

(** ** Justified records *)
Section justified.
Context `{CKEStatus} `{Cron}.
Variable rebootTimes : gmap string RebootTime.
Variable timeZone : Location.
Variable leaderKey : string.
(** What the pass read. *)
Variable enabled : bool.
Variable rls : list RebootListEntry.
Variable rqs : list RebootQueueEntry.
Variable processingGroup : string.
Implicit Types (t : list Effect) (e : RebootListEntry) (rq : RebootQueueEntry).

(** The group in force after [t]. *)
Definition moved (g : string) (x : Effect) : string :=
  match x with
  | Txn _ [OpPut k g'] => if bool_decide (k = KeyNecoRebooterProcessingGroup) then g' else g
  | _ => g
  end.
Definition group_after t : string := foldl moved processingGroup t.

(** A listed entry of [rq]'s node in status [st]. *)
Definition listed rq (st : string) e : Prop :=
  e ∈ rls ∧ rl_Node e = rq_Node rq ∧ rl_Status e = st.

(** Why CKE's entry [rq] may be cancelled. *)
Definition cancel_cause t rq : Prop :=
  (∃ e, listed rq RebootListEntryStatusCancelled e) ∨
  unclaimed rls rq ∨
  ∃ e, listed rq RebootListEntryStatusQueued e ∧
    (enabled = false ∨ is_stuck rqs = true ∨
     rq_Status rq ≠ RebootStatusRebooting ∧ may_not_reboot rebootTimes timeZone t e).

Definition permits t (x : Effect) : Prop :=
  match x with
  | ReadClock _ => True
  | Registered q => enabled = true ∧ ∃ e, e ∈ rls ∧ q = NewRebootQueueEntry (rl_Node e) ∧
      rl_Status e = RebootListEntryStatusPending ∧ ¬ in_queue rqs e ∧
      rl_Group e = group_after t ∧ may_reboot rebootTimes timeZone t e
  | CkeUpdated q => ∃ rq, rq ∈ rqs ∧ q = queue_status rq RebootStatusCancelled ∧ cancel_cause t rq
  | Txn cs ops =>
      (∃ g rev, cs = [ModRevisionEq KeyNecoRebooterProcessingGroup rev] ∧
         ops = [OpPut KeyNecoRebooterProcessingGroup g] ∧ enabled = true ∧
         (rqs = [] ∨ is_stuck rqs = true) ∧
         ∃ e, e ∈ rls ∧ rl_Group e = g ∧ may_reboot rebootTimes timeZone t e) ∨
      (∃ e, e ∈ rls ∧ cs = [KeyExists leaderKey] ∧
         ops = [OpDelete (rebootListEntryKey (rl_Index e))] ∧
         (rl_Status e = RebootListEntryStatusCancelled ∨
          rl_Status e = RebootListEntryStatusQueued ∧ ¬ in_queue rqs e)) ∨
      (∃ e st data rev, e ∈ rls ∧ Marshal (list_status e st) = Ok data ∧
         cs = [ModRevisionEq (rebootListEntryKey (rl_Index e)) rev] ∧
         ops = [OpPut (rebootListEntryKey (rl_Index e)) data] ∧
         (st = RebootListEntryStatusQueued ∧ Registered (NewRebootQueueEntry (rl_Node e)) ∈ t ∨
          st = RebootListEntryStatusPending ∧ rl_Status e = RebootListEntryStatusQueued ∧
          in_queue rqs e))
  | Put _ _ | Delete _ => False
  end.

Lemma justified_reads t nows : justified permits t → justified permits (t ++ (ReadClock <$> nows)).
Proof.
  revert t. induction nows as [|now nows IH]; intros t Ht; simpl; [by rewrite app_nil_r|].
  rewrite (cons_middle (ReadClock now)), app_assoc. by apply IH, justified_snoc.
Qed.

Lemma group_after_snoc t x : group_after (t ++ [x]) = moved (group_after t) x.
Proof. unfold group_after. by rewrite foldl_app. Qed.
Lemma group_after_reads t nows : group_after (t ++ (ReadClock <$> nows)) = group_after t.
Proof. unfold group_after. rewrite foldl_app. generalize (foldl moved processingGroup t).
  induction nows; simpl; auto. Qed.
Lemma group_after_entry t cs i data :
  group_after (t ++ [Txn cs [OpPut (rebootListEntryKey i) data]]) = group_after t.
Proof. by rewrite group_after_snoc. Qed.

Lemma cancel_cause_mono t t' rq : t ⊆ t' → cancel_cause t rq → cancel_cause t' rq.
Proof.
  intros Ht [?|[?|(e & He & Hc)]]; [by left|by right; left|]. right; right. exists e.
  split; [done|]. destruct Hc as [?|[?|[? Hn]]]; auto. right; right. split; [done|].
  by apply (verdict_mono _ _ t t' e false).
Qed.
End justified.

(** ** The handlers *)
Section pass.
Context {W : Type} `{Etcd W} `{Clock W} `{CKEStatus} `{CKE W} `{Rand W} `{Cron}.
Variable rebootTimes : gmap string RebootTime.
Variable timeZone : Location.
Variable leaderKey : string.
Variable enabled : bool.
Variable rls : list RebootListEntry.
Variable rqs : list RebootQueueEntry.
Variable processingGroup : string.
Implicit Types (v : RW W).
Abbreviation permits := (permits rebootTimes timeZone leaderKey enabled rls rqs processingGroup).
Abbreviation cancel_cause := (cancel_cause rebootTimes timeZone enabled rls rqs).
Abbreviation group_after := (group_after processingGroup).
Abbreviation files := (files rebootTimes timeZone).
Abbreviation may_reboot := (may_reboot rebootTimes timeZone).

Definition just v : Prop := justified permits (log_of v).

(** Only statuses differ from what was read. *)
Definition keyed (s : RebooterState) : Prop :=
  Forall2 (λ e e', ∃ st, e' = list_status e st) rls (rs_list s) ∧
  Forall2 (λ q q', ∃ st, q' = queue_status q st) rqs (rs_queue s).
(** What is known of a run's state: it grew from [t], in group [g]. *)
Definition since (t : list Effect) (g : string) v : Prop :=
  just v ∧ keyed v.2 ∧ t ⊆ log_of v ∧ group_after (log_of v) = g.

Lemma just_reads v v' : reads v v' → just v → just v'.
Proof. unfold just. intros [nows [-> _]]. apply justified_reads. Qed.
Lemma since_reads t g v v' : reads v v' → since t g v → since t g v'.
Proof.
  intros Hr (Hj & Hk & Ht & Hg). split_and!; [by eapply just_reads| | |].
  - by destruct Hr as [nows [_ ->]].
  - etrans; [done|]. by apply reads_sub.
  - destruct Hr as [nows [-> _]]. by rewrite group_after_reads.
Qed.
Lemma since_just t g v : since t g v → just v.
Proof. by intros []. Qed.
Hint Resolve since_just : neco.

Lemma wp_call {A} x (m : M W A) v (Q : A → RW W → Prop) :
  just v → permits (log_of v) x →
  (∀ a v', just v' → logged v [x] v' → Q a v') →
  wp just (on_world (traced (λ _, [x]) m)) v Q.
Proof.
  intros Hj Hp HQ. apply wp_traced. intros v' r Hl.
  assert (just v') by (unfold just; destruct Hl as [-> _]; by apply justified_snoc).
  destruct r; auto.
Qed.
Lemma wp_read {A} (m : M W A) v (Q : A → RW W → Prop) :
  just v → (∀ a v', just v' → logged v [] v' → Q a v') →
  wp just (on_world (traced (λ _, []) m)) v Q.
Proof.
  intros Hj HQ. apply wp_traced. intros v' r Hl.
  assert (just v') by (unfold just; destruct Hl as [-> _]; by rewrite app_nil_r).
  destruct r; auto.
Qed.
Lemma since_logged t g v es v' :
  since t g v → just v' → logged v es v' → group_after (log_of v ++ es) = g → since t g v'.
Proof.
  intros (_ & Hk & Ht & Hg) Hj [El Es] Hg'. split_and!; [done| | |]; rewrite ?El, ?Es; set_solver.
Qed.

(** Through the pointers. *)
Lemma keyed_list s i e' : keyed s → rs_list s !! i = Some e' →
  ∃ e st, rls !! i = Some e ∧ e' = list_status e st.
Proof. intros [HF _] E. destruct (Forall2_lookup_r _ _ _ _ _ HF E) as (e & ? & st & ?). eauto. Qed.
Lemma keyed_queue s j q' : keyed s → rs_queue s !! j = Some q' →
  ∃ q st, rqs !! j = Some q ∧ q' = queue_status q st.
Proof. intros [_ HF] E. destruct (Forall2_lookup_r _ _ _ _ _ HF E) as (q & ? & st & ?). eauto. Qed.

Lemma wp_list_entry i v (Q : RebootListEntry → RW W → Prop) :
  just v → keyed v.2 →
  (∀ e st, rls !! i = Some e → rs_list v.2 !! i = Some (list_status e st) → Q (list_status e st) v) →
  wp just (list_entry (Some i)) v Q.
Proof.
  intros Hj Hk HQ. unfold list_entry. apply wp_bind. unfold wp at 1. simpl.
  destruct (rs_list v.2 !! i) as [e'|] eqn:E; [|done].
  destruct (keyed_list _ _ _ Hk E) as (e & st & He & ->). by apply HQ.
Qed.

Lemma wp_set_list_status t g i st v (Q : RebootListEntry → RW W → Prop) :
  since t g v →
  (∀ e l', rls !! i = Some e → l' = <[i := list_status e st]> (rs_list v.2) →
     since t g (v.1, set_list v.2 l') → Q (list_status e st) (v.1, set_list v.2 l')) →
  wp just (set_list_status (Some i) st) v Q.
Proof.
  intros (Hj & Hk & Ht & Hg) HQ. unfold set_list_status. apply wp_bind.
  apply wp_list_entry; [done..|]. intros e st' He E'. apply wp_bind. unfold wp at 1. simpl.
  apply wp_bind. unfold wp at 1. simpl. apply wp_ret.
  change (list_status (list_status e st') st) with (list_status e st).
  apply HQ; [done..|]. split_and!; [done| |done..]. destruct Hk as [Hl Hq]. split; [|done]. simpl.
  rewrite <-(list_insert_id rls i e) by done. apply Forall2_insert; eauto.
Qed.

Lemma wp_cancel t g j v :
  since t g v → (∀ rq, rqs !! j = Some rq → cancel_cause t rq) →
  wp just (cancel_queue_entry j) v (λ _ v', since t g v' ∧ rs_list v'.2 = rs_list v.2).
Proof.
  intros (Hj & Hk & Ht & Hg) Hc. unfold cancel_queue_entry. apply wp_bind.
  unfold set_queue_status, queue_entry. apply wp_bind, wp_bind. unfold wp at 1. simpl.
  destruct (rs_queue v.2 !! j) as [q'|] eqn:E; [|done].
  destruct (keyed_queue _ _ _ Hk E) as (rq & st & Hrq & ->). simpl.
  apply wp_ret, wp_bind. unfold wp at 1. simpl. apply wp_bind. unfold wp at 1. simpl. apply wp_ret.
  change (queue_status (queue_status rq st) RebootStatusCancelled)
    with (queue_status rq RebootStatusCancelled).
  set (v1 := (v.1, _)). apply wp_call; [done| |].
  { exists rq. split; [by eapply list_elem_of_lookup_2|]. split; [done|].
    eapply cancel_cause_mono; [apply Ht|auto]. }
  intros [] v' Hj' [El Es]. split; [|by rewrite Es].
  split_and!; [done| | |]; rewrite ?El, ?Es; [|set_solver|by rewrite group_after_snoc].
  destruct Hk as [Hl Hq]. split; [done|]. simpl.
  rewrite <-(list_insert_id rqs j rq) by done. apply Forall2_insert; eauto.
Qed.

(** Writes of the reboot list. *)
Lemma wp_leader_txn t g ops v :
  since t g v → permits (log_of v) (Txn [KeyExists leaderKey] ops) →
  moved g (Txn [KeyExists leaderKey] ops) = g →
  wp just (leader_txn leaderKey ops) v (λ _, since t g).
Proof.
  intros Hv Hp Hm. unfold leader_txn. apply wp_bind.
  apply wp_call; [by eauto with neco|done|]. intros r v' Hj' Hl.
  assert (since t g v').
  { eapply since_logged; [done..|]. rewrite group_after_snoc. by destruct Hv as (_ & _ & _ & ->). }
  destruct (txn_succeeded r); [done|]. by apply (wp_lift just (Err ErrNoLeader) v').
Qed.

Lemma wp_remove t g i v :
  since t g v →
  (∀ e, rls !! i = Some e → rl_Status e = RebootListEntryStatusCancelled ∨
     rl_Status e = RebootListEntryStatusQueued ∧ ¬ in_queue rqs e) →
  wp just (e ← list_entry (Some i); RemoveRebootListEntry leaderKey e) v (λ _, since t g).
Proof.
  intros Hv Hc. apply wp_bind. apply wp_list_entry; [by eauto with neco|by destruct Hv as (_ & ? & _)|].
  intros e st He _. apply wp_leader_txn; [done| |done].
  right; left. exists e. split; [by eapply list_elem_of_lookup_2|]. auto.
Qed.

Lemma wp_put_loop t g key data :
  (∀ v rev, since t g v → permits (log_of v) (Txn [ModRevisionEq key rev] [OpPut key data])) →
  (∀ rev, moved g (Txn [ModRevisionEq key rev] [OpPut key data]) = g) →
  ∀ fuel v, since t g v → wp just (update_entry_loop fuel key data) v
    (λ _ v', since t g v' ∧ v'.2 = v.2).
Proof.
  intros Hp Hm. induction fuel as [|fuel IH]; intros v Hv; simpl; [by eapply since_just|].
  apply wp_bind. apply wp_read; [by eauto with neco|]. intros resp v1 Hj1 Hl1.
  assert (since t g v1) as Hv1.
  { eapply since_logged; [done..|]. rewrite app_nil_r. by destruct Hv as (_ & _ & _ & ->). }
  destruct (resp_kvs resp) as [|kv _]; [by apply (wp_lift just (Err ErrNotFound) v1)|].
  apply wp_bind. apply wp_call; [done|by apply Hp|]. intros r v2 Hj2 Hl2.
  assert (since t g v2) as Hv2.
  { eapply since_logged; [apply Hv1|done..|]. rewrite group_after_snoc.
    by destruct Hv1 as (_ & _ & _ & ->). }
  assert (v2.2 = v.2) as Hs by (destruct Hl1 as [_ <-]; by destruct Hl2).
  destruct (txn_succeeded r); [by apply wp_ret|].
  eapply wp_mono; [by apply IH|]. simpl. intros _ v3 [? ->]. done.
Qed.

Lemma wp_update_entry t g fuel e st v :
  since t g v → e ∈ rls →
  (st = RebootListEntryStatusQueued ∧ Registered (NewRebootQueueEntry (rl_Node e)) ∈ t ∨
   st = RebootListEntryStatusPending ∧ rl_Status e = RebootListEntryStatusQueued ∧ in_queue rqs e) →
  wp just (UpdateRebootListEntry fuel (list_status e st)) v (λ _ v', since t g v' ∧ v'.2 = v.2).
Proof.
  intros Hv He Hst. unfold UpdateRebootListEntry. apply wp_bind. apply wp_lift; [by eauto with neco|].
  intros data Ed. apply wp_put_loop; [|done|done]. intros v1 rev (_ & _ & Ht & _).
  right; right. exists e, st, data, rev. split_and!; [done..|]. set_solver.
Qed.

(** A listed entry of group [g] was seen to admit a reboot. *)
Definition ready t g : Prop := ∃ e, e ∈ rls ∧ rl_Group e = g ∧ may_reboot t e.
Lemma ready_mono t t' g : t ⊆ t' → ready t g → ready t' g.
Proof.
  intros Ht (e & He & Hg & Hr). exists e. split_and!; [done..|].
  by apply (verdict_mono _ _ t t' e true).
Qed.

Lemma wp_processing_group t g' fuel :
  enabled = true → (rqs = [] ∨ is_stuck rqs = true) → ready t g' →
  ∀ g v, since t g v →
  wp just (UpdateProcessingGroup fuel g') v (λ _ v', since t g' v' ∧ v'.2 = v.2).
Proof.
  intros He Hq Hready. induction fuel as [|fuel IH]; intros g v Hv; simpl; [by eapply since_just|].
  apply wp_bind. apply wp_read; [by eauto with neco|]. intros resp v1 Hj1 Hl1.
  assert (since t g v1) as Hv1.
  { eapply since_logged; [done..|]. rewrite app_nil_r. by destruct Hv as (_ & _ & _ & ->). }
  apply wp_bind. apply wp_call; [done| |].
  { left. exists g'. eexists. split_and!; [done..|]. eapply ready_mono; [|done]. apply Hv1. }
  intros r v2 Hj2 Hl2.
  assert (since t g' v2) as Hv2.
  { destruct Hv1 as (_ & Hk & Ht & _), Hl2 as [El Es].
    split_and!; [done| | |]; rewrite ?El, ?Es; [done|set_solver|by rewrite group_after_snoc]. }
  assert (v2.2 = v.2) as Hs by (destruct Hl1 as [_ <-]; by destruct Hl2).
  destruct (txn_succeeded r); [by apply wp_ret|].
  eapply wp_mono; [by eapply IH|]. simpl. intros _ v3 [? ->]. done.
Qed.

Lemma wp_move t fuel cs :
  enabled = true → (rqs = [] ∨ is_stuck rqs = true) → Forall (ready t) cs →
  ∀ v, since t processingGroup v →
  wp just (moveToNextGroup fuel cs processingGroup) v (λ g v', since t g v' ∧ v'.2 = v.2).
Proof.
  intros He Hq. induction 1 as [|c cs Hc _ IH]; intros v Hv; simpl; [done|].
  case_bool_decide; simpl; [by apply IH|]. apply wp_bind.
  eapply wp_mono; [by eapply wp_processing_group|]. simpl. intros _ v' [? ?]. by apply wp_ret.
Qed.

(** The candidates. *)
Lemma asks_nodes g entries :
  asks just (findRebootableNodeInGroup rebootTimes timeZone entries g)
    (λ t nodes, ∀ e, e ∈ nodes → e ∈ entries ∧ rl_Group e = g ∧ may_reboot t e).
Proof.
  induction entries as [|e entries IH]; simpl.
  { apply asks_ret. intros t e He. by apply not_elem_of_nil in He. }
  eapply (asks_bind just _ _ (λ t b, b = true → rl_Group e = g ∧ may_reboot t e)).
  { case_bool_decide; [|by apply asks_ret].
    eapply asks_mono; [apply (asks_isRebootable rebootTimes timeZone just just_reads)|].
    intros t [|] Hv; [auto|done]. }
  intros b. eapply asks_bind; [apply IH|]. intros nodes. apply asks_ret.
  intros t t' Ht Hn t'' Ht' Hb e' He'. destruct b.
  - apply elem_of_cons in He' as [->|He'].
    + destruct (Hb eq_refl) as [? Hr]. split_and!; [set_solver|done|].
      by apply (verdict_mono _ _ t'' t e true).
    + destruct (Hn e' He') as (? & ? & Hr). split_and!; [set_solver|done|].
      by apply (verdict_mono _ _ t' t e' true).
  - destruct (Hn e' He') as (? & ? & Hr). split_and!; [set_solver|done|].
    by apply (verdict_mono _ _ t' t e' true).
Qed.

Lemma asks_candidates groups :
  asks just (candidates_of rebootTimes timeZone rls groups) (λ t cs, Forall (ready t) cs).
Proof.
  induction groups as [|g groups IH]; simpl; [apply asks_ret; by constructor|].
  eapply asks_bind; [apply asks_nodes|]. intros nodes. eapply asks_bind; [apply IH|].
  intros cs. apply asks_ret. intros t t' Ht Hcs t'' Ht' Hn.
  assert (Forall (ready t) cs) by (eapply Forall_impl; eauto using ready_mono).
  destruct nodes as [|e nodes]; [done|]. constructor; [|done].
  destruct (Hn e) as (? & ? & Hr); [set_solver|]. exists e. split_and!; [done..|].
  apply (verdict_mono _ _ t'' t e true); [|done]. set_solver.
Qed.

(** ** Handlers of the filed entries *)

(** CKE's side of a filed pair may be cancelled. *)
Definition may_cancel t (es : EntrySet) : Prop :=
  ∀ j rq, es_queue es = Some j → rqs !! j = Some rq → cancel_cause t rq.
Definition may_dequeue t (es : EntrySet) : Prop := may_cancel t es ∧
  ∃ i e, es_list es = Some i ∧ rls !! i = Some e ∧
    rl_Status e = RebootListEntryStatusQueued ∧ in_queue rqs e.

(** Entries differ from what was read only in having been taken back from the queue. *)
Definition demoted (s : RebooterState) : Prop := ∀ i e e',
  rls !! i = Some e → rs_list s !! i = Some e' → e' = e ∨
  rl_Status e = RebootListEntryStatusQueued ∧ in_queue rqs e ∧
  e' = list_status e RebootListEntryStatusPending.

Lemma wp_cancel_opt t g es v :
  since t g v → may_cancel t es →
  wp just (match es_queue es with Some j => cancel_queue_entry j | None => mret () end) v
    (λ _ v', since t g v' ∧ rs_list v'.2 = rs_list v.2).
Proof.
  intros Hv Hc. destruct (es_queue es) as [j|] eqn:E; [|by apply wp_ret].
  apply wp_cancel; [done|]. intros rq. by apply Hc.
Qed.

Lemma wp_dequeue t g fuel es v :
  since t g v → Forall (may_dequeue t) es →
  wp just (dequeueAndCancelEntry fuel es) v
    (λ _ v', since t g v' ∧ (demoted v.2 → demoted v'.2)).
Proof.
  intros Hv Hes. unfold dequeueAndCancelEntry.
  apply wp_for_each; [done|]. intros x v1 Hx [Hv1 Hd1].
  rewrite Forall_forall in Hes. destruct (Hes x Hx) as [Hc (i & e & Ei & He & Hs & Hq)].
  rewrite Ei. apply wp_bind. eapply wp_set_list_status; [done|]. intros e0 l' He0 El Hv2.
  simplify_eq. apply wp_bind. eapply wp_mono.
  { apply wp_update_entry; [done|by eapply list_elem_of_lookup_2|auto]. }
  simpl. intros _ v3 [Hv3 Hs3]. eapply wp_mono; [by apply wp_cancel_opt|]. simpl.
  intros _ v4 [Hv4 El4]. split; [done|]. intros Hd. specialize (Hd1 Hd).
  intros k a a' Ha Ha'. rewrite El4, Hs3 in Ha'. simpl in Ha'.
  apply list_lookup_insert_Some in Ha' as [(-> & <- & _)|(_ & Ha')]; [|by apply (Hd1 k)].
  simplify_eq. auto.
Qed.

Lemma wp_removeCancelled t g es v :
  since t g v → Forall (may_cancel t) es →
  Forall (λ x, ∃ i e, es_list x = Some i ∧ rls !! i = Some e ∧
               rl_Status e = RebootListEntryStatusCancelled) es →
  wp just (removeCancelledEntry leaderKey es) v (λ _, since t g).
Proof.
  intros Hv Hc Hes. apply wp_for_each; [done|]. intros x v1 Hx Hv1.
  rewrite Forall_forall in Hes, Hc. destruct (Hes x Hx) as (i & e & Ei & He & Hs). apply wp_bind.
  eapply wp_mono; [apply wp_cancel_opt; by eauto|]. simpl. intros _ v2 [Hv2 _].
  rewrite Ei. apply wp_remove; [done|]. intros e' He'. simplify_eq. auto.
Qed.

Lemma wp_removeOrphaned t g es v :
  since t g v → Forall (may_cancel t) es →
  wp just (RemoveOrphanedEntry es) v (λ _, since t g).
Proof.
  intros Hv Hc. apply wp_for_each; [done|]. intros x v1 Hx Hv1. rewrite Forall_forall in Hc.
  eapply wp_mono; [apply wp_cancel_opt; by eauto|]. by intros _ v2 [Hv2 _].
Qed.

Lemma wp_removeCompleted t g es v :
  since t g v →
  Forall (λ i, ∃ e, rls !! i = Some e ∧ rl_Status e = RebootListEntryStatusQueued ∧
                    ¬ in_queue rqs e) es →
  wp just (removeCompletedEntry leaderKey es) v (λ _, since t g).
Proof.
  intros Hv Hes. apply wp_for_each; [done|]. intros i v1 Hi Hv1. rewrite Forall_forall in Hes.
  destruct (Hes i Hi) as (e & He & Hs & Hq). apply wp_remove; [done|].
  intros e' He'. simplify_eq. auto.
Qed.

Lemma since_weaken t t' g v : t ⊆ t' → since t' g v → since t g v.
Proof. intros ? (?&?&?&?). split_and!; [done..| |done]. set_solver. Qed.

Lemma wp_add t g fuel es v :
  enabled = true → since t g v →
  Forall (λ i, ∃ e, rls !! i = Some e ∧ rl_Status e = RebootListEntryStatusPending ∧
    rl_Group e = g ∧ ¬ in_queue rqs e ∧ may_reboot t e) es →
  wp just (addRebootListEntry fuel es) v (λ _, since t g).
Proof.
  intros Hen Hv Hes. apply wp_for_each; [done|]. intros i v1 Hi Hv1. rewrite Forall_forall in Hes.
  destruct (Hes i Hi) as (e & He & Hs & Hg & Hq & Hr). apply wp_bind.
  eapply wp_set_list_status; [done|]. intros e0 l' He0 El Hv2. simplify_eq. apply wp_bind.
  apply wp_call; [by eapply since_just| |].
  { split; [done|]. exists e. split_and!; [by eapply list_elem_of_lookup_2|done..| |].
    - symmetry. apply Hv2.
    - apply (verdict_mono _ _ t _ e true); [|done]. apply Hv2. }
  intros [] v3 Hj3 Hl3. destruct Hl3 as [El3 Es3].
  assert (since (t ++ [Registered (NewRebootQueueEntry (rl_Node e))]) (rl_Group e) v3) as Hv3.
  { destruct Hv2 as (_ & Hk & Ht & Hg2).
    split_and!; [done| | |]; rewrite ?El3, ?Es3; [done|set_solver|by rewrite group_after_snoc]. }
  eapply wp_mono; [apply wp_update_entry; [done|by eapply list_elem_of_lookup_2|]|].
  { left. split; [done|]. set_solver. }
  simpl. intros _ v4 [Hv4 _]. eapply since_weaken; [|done]. set_solver.
Qed.
End pass.
