(* ===== verification/RebooterPass.v ===== *)
(** * A whole pass of neco-rebooter

    [runOnce] composed: from any world, every write of a pass is justified by what
    the pass read, and what that means for nodes being rebooted. *)
From S2P Require Import Prelude GoStr GoTime Json Types Etcd Worlds Storage Watch Worker Rebooter RebooterFiling RebooterSafety.

Local Open Scope Z_scope.

Lemma find_index_Forall2 {A B} (f : A → bool) (f' : B → bool) l l' :
  Forall2 (λ x y, f x = f' y) l l' → find_index f l = find_index f' l'.
Proof. induction 1 as [|x y l l' E _ IH]; simpl; [done|]. by rewrite E, IH. Qed.

Section as_read.
Context `{CKEStatus} `{Cron}.
Variable rebootTimes : gmap string RebootTime.
Variable timeZone : Location.
Variable enabled : bool.
Variable rls : list RebootListEntry.
Variable rqs : list RebootQueueEntry.
Implicit Types (s : RebooterState) (t : list Effect).
Abbreviation cancel_cause := (cancel_cause rebootTimes timeZone enabled rls rqs).
Abbreviation may_cancel := (may_cancel rebootTimes timeZone enabled rls rqs).
Abbreviation may_dequeue := (may_dequeue rebootTimes timeZone enabled rls rqs).
Abbreviation keyed := (keyed rls rqs).
Abbreviation demoted := (demoted rls rqs).

(** Looking up by node gives what it gave in the lists as read. *)
Lemma keyed_find_queue s e st : keyed s →
  findRebootQueueEntryFromRebootListEntry (rs_queue s) (list_status e st) =
  findRebootQueueEntryFromRebootListEntry rqs e.
Proof.
  intros [_ HF]. symmetry. apply find_index_Forall2. eapply Forall2_impl; [done|].
  by intros q q' [st' ->].
Qed.
Lemma keyed_in_queue s e st : keyed s → in_queue (rs_queue s) (list_status e st) ↔ in_queue rqs e.
Proof. intros Hk. by rewrite <-!is_in_queue, keyed_find_queue. Qed.
Lemma keyed_find_list s q st : keyed s →
  findRebootListEntryFromRebootQueueEntry (rs_list s) (queue_status q st) =
  findRebootListEntryFromRebootQueueEntry rls q.
Proof.
  intros [HF _]. symmetry. apply find_index_Forall2. eapply Forall2_impl; [done|].
  by intros e e' [st' ->].
Qed.

(** The lists are as read, or the queue was stuck and entries were taken back. *)
Definition stale s : Prop := keyed s ∧ demoted s ∧
  (rs_list s = rls ∧ rs_queue s = rqs ∨ is_stuck rqs = true).

Lemma stale_entry s i e' : stale s → rs_list s !! i = Some e' →
  ∃ e, rls !! i = Some e ∧ e' = list_status e (rl_Status e') ∧
    (rl_Status e' = rl_Status e ∨ rl_Status e' = RebootListEntryStatusPending ∧
     rl_Status e = RebootListEntryStatusQueued ∧ in_queue rqs e ∧ is_stuck rqs = true).
Proof.
  intros (Hk & Hd & Hs) E. destruct (keyed_list _ _ _ _ _ Hk E) as (e & st & He & ->).
  exists e. split_and!; [done..|]. simpl. destruct (Hd i e _ He E) as [Heq|(Hq & Hin & Heq)].
  - left. by apply (f_equal rl_Status) in Heq.
  - destruct Hs as [[Hl _]|Hst].
    { rewrite Hl, He in E. injection E as E. left. by apply (f_equal rl_Status) in E. }
    right. by injection Heq as ->.
Qed.

Lemma stale_status s i e' st : stale s → rs_list s !! i = Some e' → rl_Status e' = st →
  st ≠ RebootListEntryStatusPending → ∃ e, rls !! i = Some e ∧ e' = list_status e st ∧ rl_Status e = st.
Proof.
  intros Hs E <- Hne. destruct (stale_entry _ _ _ Hs E) as (e & He & Ee & [Heq|[? _]]); [|done].
  exists e. by rewrite Heq in Ee |- *.
Qed.

Section filed_as_read.
Context {g : string} {s : RebooterState} {t : list Effect} {c : EntriesCollection}.
Hypothesis Hs : stale s.
Hypothesis Hf : files rebootTimes timeZone g s t c.

Lemma new_as_read :
  Forall (λ i, ∃ e, rls !! i = Some e ∧ rl_Status e = RebootListEntryStatusPending ∧
    rl_Group e = g ∧ ¬ in_queue rqs e ∧ may_reboot rebootTimes timeZone t e) (NewEntry c).
Proof.
  apply Forall_forall. intros i Hi. destruct (files_new _ _ _ _ _ _ Hf i Hi) as (e' & E & Hp & Hg & Hq & Hr).
  destruct (stale_entry _ _ _ Hs E) as (e & He & Ee & Hc). rewrite Ee in Hg, Hr, Hq.
  rewrite keyed_in_queue in Hq by apply Hs. exists e. split_and!; try done.
  destruct Hc as [<-|(_ & _ & ? & _)]; done.
Qed.
Lemma completed_as_read :
  Forall (λ i, ∃ e, rls !! i = Some e ∧ rl_Status e = RebootListEntryStatusQueued ∧
                    ¬ in_queue rqs e) (CompletedEntry c).
Proof.
  apply Forall_forall. intros i (e' & E & Hp & Hq)%(files_completed _ _ _ _ _ _ Hf).
  destruct (stale_status _ _ _ _ Hs E Hp) as (e & He & Ee & Hst); [done|]. rewrite Ee in Hq.
  rewrite keyed_in_queue in Hq by apply Hs. eauto.
Qed.

(** The filed partner of a listed entry. *)
Lemma partner_cause i e st :
  (∀ rq, rl_Node e = rq_Node rq → rq ∈ rqs → cancel_cause t rq) →
  may_cancel t (pair_of (rs_queue s) i (list_status e st)).
Proof.
  intros Hc j rq Ej Erq. simpl in Ej. rewrite keyed_find_queue in Ej by apply Hs.
  destruct (queue_position _ _ _ Ej) as (rq' & Erq' & Hn). simplify_eq.
  apply Hc; [done|]. by eapply list_elem_of_lookup_2.
Qed.
Lemma cancelled_as_read :
  Forall (may_cancel t) (CancelledEntry c) ∧
  Forall (λ x, ∃ i e, es_list x = Some i ∧ rls !! i = Some e ∧
               rl_Status e = RebootListEntryStatusCancelled) (CancelledEntry c).
Proof.
  rewrite !Forall_forall. split; intros es (i & e' & E & -> & Hp)%(files_cancelled _ _ _ _ _ _ Hf);
    (destruct (stale_status _ _ _ _ Hs E Hp) as (e & He & -> & Hst); [done|]).
  - apply partner_cause. intros rq Hn _. left. exists e. split_and!; [|done..].
    by eapply list_elem_of_lookup_2.
  - by exists i, e.
Qed.
Lemma queued_as_read :
  (enabled = false ∨ is_stuck rqs = true) → Forall (may_dequeue t) (QueuedEntry c).
Proof.
  intros Hd. apply Forall_forall.
  intros es (i & e' & E & -> & Hp & Hq)%(files_queued _ _ _ _ _ _ Hf).
  destruct (stale_status _ _ _ _ Hs E Hp) as (e & He & -> & Hst); [done|].
  rewrite keyed_in_queue in Hq by apply Hs. split; [|by exists i, e].
  apply partner_cause. intros rq Hn _. right; right. exists e.
  split; [|destruct Hd; auto]. split_and!; [by eapply list_elem_of_lookup_2|done..].
Qed.
Lemma timedout_as_read : Forall (may_dequeue t) (TimedOutEntry c).
Proof.
  apply Forall_forall. intros es Hes.
  destruct (files_timedout _ _ _ _ _ _ Hf es Hes) as (Hes' & i & e' & j & rq' & Ei & E & Ej & Erq & Hr & Hn).
  apply (files_queued _ _ _ _ _ _ Hf) in Hes' as (i' & e'' & E' & -> & Hp & Hq).
  simpl in Ei. injection Ei as ->. rewrite E' in E. injection E as ->.
  destruct (stale_status _ _ _ _ Hs E' Hp) as (e & He & -> & Hst); [done|].
  rewrite keyed_in_queue in Hq by apply Hs. split; [|by exists i, e].
  intros j' rq Ej' Erq'. rewrite Ej in Ej'. injection Ej' as <-.
  simpl in Ej. rewrite keyed_find_queue in Ej by apply Hs.
  destruct (queue_position _ _ _ Ej) as (rq'' & Erq'' & Hnode). simplify_eq.
  right; right. exists e. split; [split_and!; [by eapply list_elem_of_lookup_2|done..]|].
  destruct Hs as (_ & _ & [[_ HQ]|Hst']); [|by right; left]. rewrite HQ in Erq. simplify_eq. auto.
Qed.
Lemma orphaned_as_read : Forall (may_cancel t) (OrphanedEntry c).
Proof.
  apply Forall_forall. intros es (j & rq' & E & [_ Ho] & ->)%(files_orphaned _ _ _ _ _ _ Hf).
  intros j' rq [= <-] Erq. destruct (keyed_queue _ _ _ _ _ (proj1 Hs) E) as (rq0 & st & Erq0 & ->).
  simplify_eq. unfold unclaimed in Ho. rewrite keyed_find_list in Ho by apply Hs.
  destruct (findRebootListEntryFromRebootQueueEntry rls rq) as [i|] eqn:Ei;
    [|right; left; intros ??; by rewrite Ei].
  destruct (find_index_Some _ _ _ Ei) as (e & He & Hn%bool_decide_eq_true).
  destruct (Forall2_lookup_l _ _ _ _ _ (proj1 (proj1 Hs)) He) as (e' & E' & st' & ->).
  specialize (Ho i _ eq_refl E'). destruct (stale_entry _ _ _ Hs E') as (e0 & He0 & _ & Hst).
  rewrite He in He0. injection He0 as <-. rewrite Ho in Hst.
  destruct Hst as [Hp|(_ & Hp & _ & Hk)].
  - right; left. intros i' e' Ei' He'. rewrite Ei in Ei'. simplify_eq. done.
  - right; right. exists e. split; [|auto]. split_and!; [by eapply list_elem_of_lookup_2|done..].
Qed.
End filed_as_read.
End as_read.

Section whole_pass.
Context {W : Type} `{Etcd W} `{Clock W} `{CKEStatus} `{CKE W} `{Rand W} `{Cron}.
Variable rebootTimes : gmap string RebootTime.
Variable timeZone : Location.
Variable leaderKey : string.
Implicit Types (v : RW W) (w : W).
Abbreviation permits := (permits rebootTimes timeZone leaderKey).

Section after_reading.
Variable enabled : bool.
Variable rls : list RebootListEntry.
Variable rqs : list RebootQueueEntry.
Variable processingGroup : string.
Abbreviation just := (just rebootTimes timeZone leaderKey enabled rls rqs processingGroup).
Abbreviation since := (since rebootTimes timeZone leaderKey enabled rls rqs processingGroup).
Abbreviation stale := (stale rls rqs).
Abbreviation files := (files rebootTimes timeZone).

Lemma just_closed v v' : reads v v' → just v → just v'.
Proof. apply just_reads. Qed.

Lemma wp_collected t g v : since t g v →
  wp just (collectEntries rebootTimes timeZone g) v
    (λ c v', since (log_of v') g v' ∧ t ⊆ log_of v' ∧ v'.2 = v.2 ∧
             files g v.2 (log_of v') c).
Proof.
  intros Hv. eapply wp_mono; [apply (wp_collect rebootTimes timeZone just); [apply just_closed|apply Hv]|].
  simpl. intros c v' (Hr & Hj & Hf). pose proof (since_reads _ _ _ _ _ _ _ _ _ _ _ Hr Hv) as (_ & Hk & Ht & Hg).
  split; [done|]. split; [done|]. split; [|done]. by destruct Hr as [nows [_ ->]].
Qed.

Lemma wp_choose t fuel cs v :
  since t processingGroup v → Forall (ready rebootTimes timeZone rls t) cs →
  rs_list v.2 = rls → rs_queue v.2 = rqs →
  wp just (choose_group rebootTimes timeZone fuel enabled processingGroup cs) v
    (λ g v', since t g v' ∧ stale v'.2).
Proof.
  intros Hv Hcs Hl Hq. unfold choose_group. apply wp_bind. unfold wp at 1, get_local.
  assert (stale v.2) as Hs.
  { split_and!; [apply Hv| |auto]. intros i e e' He He'. rewrite Hl in He'. left. congruence. }
  destruct cs as [|c cs]; [by apply wp_ret|]. destruct (negb enabled) eqn:Hen; [by apply wp_ret|].
  apply negb_false_iff in Hen.
  destruct (rs_queue v.2) as [|rq rqs'] eqn:Eq.
  { eapply wp_mono; [apply wp_move with (t := t); eauto|]. simpl. by intros g v' [? ->]. }
  destruct (is_stuck (rq :: rqs')) eqn:Hst; [|by apply wp_ret]. rewrite Hq in Hst.
  apply wp_bind. eapply wp_mono; [by apply wp_collected|]. intros col v1 (Hv1 & Ht & Hs1 & Hf).
  apply wp_bind. eapply wp_mono.
  { apply wp_dequeue; [done|]. eapply queued_as_read; eauto. }
  intros [] v2 [Hv2 Hd]. apply (since_weaken _ _ _ _ _ _ _ t) in Hv2; [|done].
  eapply wp_mono; [apply wp_move with (t := t); eauto|]. simpl. intros g v3 [Hv3 Hs3]. split; [done|].
  split; [apply Hv3|]. split; [|by right]. rewrite Hs3. apply Hd. rewrite Hs1. apply Hs.
Qed.

Lemma wp_process t g fuel c v :
  since t g v → stale v.2 → files g v.2 t c →
  wp just (process leaderKey fuel enabled c) v (λ _, just).
Proof.
  intros Hv Hs Hf. unfold process.
  destruct (cancelled_as_read rebootTimes timeZone enabled _ _ Hs Hf) as [Hc Hc'].
  destruct (CancelledEntry c) as [|x xs]; cycle 1.
  { eapply wp_mono; [by apply wp_removeCancelled|]. by intros _ v' []. }
  pose proof (orphaned_as_read rebootTimes timeZone enabled _ _ Hs Hf) as Ho.
  destruct (OrphanedEntry c) as [|x xs]; cycle 1.
  { eapply wp_mono; [by apply wp_removeOrphaned|]. by intros _ v' []. }
  apply wp_bind. eapply wp_mono; [apply wp_removeCompleted; [done|by eapply completed_as_read]|].
  simpl. intros [] v1 Hv1. destruct enabled eqn:Hen.
  - apply wp_bind. eapply wp_mono; [apply wp_add; [done..|by eapply new_as_read]|].
    simpl. intros [] v2 Hv2. eapply wp_mono; [apply wp_dequeue; [done|by eapply timedout_as_read]|].
    by intros _ v' [[] _].
  - eapply wp_mono; [apply wp_dequeue; [done|eapply queued_as_read; eauto]|]. by intros _ v' [[] _].
Qed.
End after_reading.

(** The pass after its reads. *)
Definition runOnce_after fuel (enabled : bool) rls rqs processingGroup currentAllGroups
    : M (RW W) unit :=
  s ← get_local;
  let allGroups := if isEqualContents (rs_allGroups s) currentAllGroups
                   then rs_allGroups s else currentAllGroups in
  _ ← put_local {| rs_list := rls; rs_queue := rqs; rs_allGroups := allGroups |};
  candidate ← candidates_of rebootTimes timeZone rls
                (cycleSlices allGroups (Index allGroups processingGroup));
  g ← choose_group rebootTimes timeZone fuel enabled processingGroup candidate;
  collection ← collectEntries rebootTimes timeZone g;
  process leaderKey fuel enabled collection.

Lemma wp_pass_rest fuel enabled rls rqs pg groups v :
  log_of v = [] →
  wp (just rebootTimes timeZone leaderKey enabled rls rqs pg)
    (runOnce_after fuel enabled rls rqs pg groups) v
    (λ _, just rebootTimes timeZone leaderKey enabled rls rqs pg).
Proof.
  intros Hl. unfold runOnce_after. apply wp_bind. unfold wp at 1. simpl.
  apply wp_bind. unfold wp at 1. simpl. set (v1 := (v.1, _)).
  assert (since rebootTimes timeZone leaderKey enabled rls rqs pg [] pg v1) as Hv1.
  { unfold since, just. change (log_of v1) with (log_of v). rewrite Hl.
    split_and!; [constructor| |done..]. split; simpl.
    - apply Forall_Forall2_diag, Forall_forall. intros e _. exists (rl_Status e). by destruct e.
    - apply Forall_Forall2_diag, Forall_forall. intros q _. exists (rq_Status q). by destruct q. }
  apply wp_bind. eapply wp_mono.
  { apply (asks_candidates rebootTimes timeZone leaderKey enabled rls rqs pg). apply Hv1. }
  simpl. intros cs v2 (Hr & Hj & Hcs). apply wp_bind.
  pose proof (since_reads _ _ _ _ _ _ _ _ _ _ _ Hr Hv1) as (_ & Hk & _ & Hg).
  destruct Hr as [nows [_ Hs2]].
  eapply wp_mono; [by apply wp_choose with (t := log_of v2); [|done|rewrite Hs2..]|].
  simpl. intros g v3 [Hv3 Hs3]. apply wp_bind.
  eapply wp_mono; [by eapply wp_collected|]. simpl. intros c v4 (Hv4 & _ & Hs4 & Hf).
  rewrite <-Hs4 in Hs3, Hf. by eapply wp_process.
Qed.

(** What a pass reads first, from the world [w]. *)
Definition pass_reads w (enabled : bool) rls rqs processingGroup : Prop := ∃ w1 w2 w3 w4,
  IsNecoRebooterEnabled w = (w1, Ok enabled) ∧ GetRebootListEntries w1 = (w2, Ok rls) ∧
  cke_GetRebootsEntries w2 = (w3, Ok rqs) ∧ GetProcessingGroup w3 = (w4, Ok processingGroup).

Lemma quiet_reads :
  quiet (E:=Effect) (W:=W) (S:=RebooterState) IsNecoRebooterEnabled IsNecoRebooterEnabled ∧
  quiet (E:=Effect) (W:=W) (S:=RebooterState) GetRebootListEntries GetRebootListEntries ∧
  quiet (E:=Effect) (W:=W) (S:=RebooterState) GetProcessingGroup GetProcessingGroup.
Proof.
  split_and!; (apply quiet_bind; [apply quiet_traced|]); intros resp;
    [destruct (resp_kvs resp)|by apply quiet_const|destruct (resp_kvs resp)]; by apply quiet_const.
Qed.

Lemma runOnce_justified fuel w s v' r :
  runOnce rebootTimes timeZone leaderKey fuel ({| tr_world := w; tr_log := [] |}, s) = (v', r) →
  log_of v' = [] ∨ ∃ enabled rls rqs processingGroup,
    pass_reads w enabled rls rqs processingGroup ∧
    justified (permits enabled rls rqs processingGroup) (log_of v').
Proof.
  destruct quiet_reads as (Qe & Ql & Qg). unfold runOnce. intros E.
  destruct (quiet_bind_inv _ _ _ _ _ _ Qe E eq_refl) as [?|(enabled & v1 & E1 & L1 & _ & F)]; [by left|]; clear E; rename F into E.
  destruct (quiet_bind_inv _ _ _ _ _ _ Ql E L1) as [?|(rls & v2 & E2 & L2 & _ & F)]; [by left|]; clear E; rename F into E.
  destruct (quiet_bind_inv _ _ _ _ _ _ (quiet_traced _) E L2) as [?|(rqs & v3 & E3 & L3 & _ & F)]; [by left|]; clear E; rename F into E.
  destruct (quiet_bind_inv _ _ _ _ _ _ Qg E L3) as [?|(pg & v4 & E4 & L4 & _ & F)]; [by left|]; clear E; rename F into E.
  destruct (quiet_bind_inv _ _ _ _ _ _ (quiet_traced _) E L4) as [?|(groups & v5 & _ & L5 & _ & F)]; [by left|]; clear E; rename F into E.
  right. exists enabled, rls, rqs, pg. split; [by repeat eexists|].
  pose proof (wp_pass_rest fuel enabled rls rqs pg groups v5 L5) as Hwp. unfold wp in Hwp.
  change (runOnce_after fuel enabled rls rqs pg groups v5 = (v', r)) in E.
  rewrite E in Hwp. by destruct r.
Qed.

Lemma pass_reads_fun w enabled rls rqs pg enabled' rls' rqs' pg' :
  pass_reads w enabled rls rqs pg → pass_reads w enabled' rls' rqs' pg' →
  enabled' = enabled ∧ rls' = rls ∧ rqs' = rqs ∧ pg' = pg.
Proof.
  intros (w1 & w2 & w3 & w4 & A1 & A2 & A3 & A4) (u1 & u2 & u3 & u4 & B1 & B2 & B3 & B4).
  rewrite A1 in B1. injection B1 as <- <-. rewrite A2 in B2. injection B2 as <- <-.
  rewrite A3 in B3. injection B3 as <- <-. rewrite A4 in B4. by injection B4 as <- <-.
Qed.

(** A pass from [w] with the controller's state [s] ends in [v']. *)
Definition pass fuel w s v' : Prop := ∃ r,
  runOnce rebootTimes timeZone leaderKey fuel ({| tr_world := w; tr_log := [] |}, s) = (v', r).

(** Every write of a pass is permitted by the writes and readings before it. *)
Lemma pass_permits fuel w s v' enabled rls rqs pg x :
  pass fuel w s v' → pass_reads w enabled rls rqs pg → x ∈ log_of v' →
  ∃ t1 t2, log_of v' = t1 ++ x :: t2 ∧
    permits enabled rls rqs pg t1 x.
Proof.
  intros [r E] Hr Hx. apply runOnce_justified in E as [E|(?&?&?&?& Hr' & Hj)].
  - rewrite E in Hx. by apply not_elem_of_nil in Hx.
  - destruct (pass_reads_fun _ _ _ _ _ _ _ _ _ Hr Hr') as (-> & -> & -> & ->).
    by apply justified_lookup.
Qed.

(** C21: a pass puts a node into CKE's reboot queue only while neco-rebooter is enabled,
    and only for an entry of the reboot list that is pending, belongs to the group
    in force at that point, is in its reboot time by the clock readings so far, and
    has no entry of its node in CKE's queue yet; also in a pass that fails later. *)
Theorem runOnce_registers fuel w s v' enabled rls rqs pg q :
  pass fuel w s v' → pass_reads w enabled rls rqs pg → Registered q ∈ log_of v' →
  enabled = true ∧ ∃ e t1 t2, e ∈ rls ∧ q = NewRebootQueueEntry (rl_Node e) ∧
    rl_Status e = RebootListEntryStatusPending ∧ (∀ rq, rq ∈ rqs → rq_Node rq ≠ rl_Node e) ∧
    log_of v' = t1 ++ Registered q :: t2 ∧ rl_Group e = group_after pg t1 ∧
    may_reboot rebootTimes timeZone t1 e.
Proof.
  intros Hp Hr Hx. destruct (pass_permits _ _ _ _ _ _ _ _ _ Hp Hr Hx)
    as (t1 & t2 & E & Hen & e & He & Hq & Hs & Hn & Hg & Hm).
  split; [done|]. exists e, t1, t2. split_and!; [done..| |done|done|done].
  intros rq Hrq Hnode. apply Hn. by exists rq.
Qed.

Lemma stuck_not_rebooting rqs rq :
  is_stuck rqs = true → rq ∈ rqs → rq_Status rq ≠ RebootStatusRebooting.
Proof.
  unfold is_stuck. rewrite forallb_forall. intros Hs Hrq%list_elem_of_In Hb. apply Hs in Hrq.
  by rewrite bool_decide_eq_true_2 in Hrq.
Qed.

(** C22: all a pass does to an entry of CKE's queue is to cancel it, and while
    neco-rebooter is enabled it cancels a node that is being rebooted only if the
    node's entry in the reboot list was cancelled, is gone, or is back to pending. *)
Theorem runOnce_spares_rebooting fuel w s v' rls rqs pg q :
  pass fuel w s v' → pass_reads w true rls rqs pg → CkeUpdated q ∈ log_of v' →
  ∃ rq, rq ∈ rqs ∧ q = queue_status rq RebootStatusCancelled ∧
    (rq_Status rq = RebootStatusRebooting →
     (∃ e, listed rls rq RebootListEntryStatusCancelled e) ∨ unclaimed rls rq).
Proof.
  intros Hp Hr Hx. destruct (pass_permits _ _ _ _ _ _ _ _ _ Hp Hr Hx)
    as (t1 & t2 & _ & rq & Hrq & -> & Hc).
  exists rq. split_and!; [done..|]. intros Hb. destruct Hc as [?|[?|(e & _ & Hc)]]; [auto..|].
  destruct Hc as [?|[Hst|[? _]]]; [done| |done]. by apply stuck_not_rebooting in Hrq.
Qed.

(** C23: a pass deletes an entry of the reboot list only in a transaction that requires
    the leadership, and only if the entry was cancelled, or was queued and CKE's queue
    no longer holds its node. *)
Theorem runOnce_removes fuel w s v' enabled rls rqs pg cs ops k :
  pass fuel w s v' → pass_reads w enabled rls rqs pg → Txn cs ops ∈ log_of v' →
  OpDelete k ∈ ops →
  cs = [KeyExists leaderKey] ∧ ∃ e, e ∈ rls ∧ k = rebootListEntryKey (rl_Index e) ∧
    (rl_Status e = RebootListEntryStatusCancelled ∨
     rl_Status e = RebootListEntryStatusQueued ∧ ∀ rq, rq ∈ rqs → rq_Node rq ≠ rl_Node e).
Proof.
  intros Hp Hr Hx Hk. destruct (pass_permits _ _ _ _ _ _ _ _ _ Hp Hr Hx) as (t1 & t2 & _ & Hc).
  destruct Hc as [(g & rev & _ & -> & _)|[(e & He & -> & -> & Hs)|(e & st & data & rev & _ & _ & _ & -> & _)]];
    apply list_elem_of_singleton in Hk; try done. injection Hk as ->.
  split; [done|]. exists e. split_and!; [done..|]. destruct Hs as [?|[? Hn]]; [by left|right].
  split; [done|]. intros rq Hrq Hnode. apply Hn. by exists rq.
Qed.

(** C24: a pass leaves the group it works on only while neco-rebooter is enabled and
    CKE's queue is empty or stuck (nothing in it is rebooting and every drain has
    been put off), and it moves to a group with an entry that may reboot now. *)
Theorem runOnce_moves fuel w s v' enabled rls rqs pg cs g :
  pass fuel w s v' → pass_reads w enabled rls rqs pg →
  Txn cs [OpPut KeyNecoRebooterProcessingGroup g] ∈ log_of v' →
  enabled = true ∧ (rqs = [] ∨ is_stuck rqs = true) ∧
  ∃ e, e ∈ rls ∧ rl_Group e = g ∧ may_reboot rebootTimes timeZone (log_of v') e.
Proof.
  intros Hp Hr Hx. destruct (pass_permits _ _ _ _ _ _ _ _ _ Hp Hr Hx) as (t1 & t2 & E & Hc).
  destruct Hc as [(g' & rev & _ & [= <-] & Hen & Hq & e & He & Hg & Hm)|[(e & _ & _ & Ho & _)|(e & st & data & rev & _ & _ & _ & Ho & _)]];
    [|done..].
  split_and!; [done..|]. exists e. split_and!; [done..|]. rewrite E.
  apply (verdict_mono _ _ t1 _ e true); [set_solver|done].
Qed.
End whole_pass.
