(* ===== verification/RebooterActs.v ===== *)
(** * What a pass of neco-rebooter gets done

    [RebooterSafety] bounds what a pass may do; here is what a pass that succeeds has
    done with the entries it filed. *)
From S2P Require Import Prelude GoStr GoTime Json Types Etcd Worlds Storage Watch Worker Rebooter RebooterFiling RebooterSafety.

Local Open Scope Z_scope.

Section acts.
Context {W : Type} `{Etcd W} `{Clock W} `{CKEStatus} `{CKE W} `{Rand W} `{Cron}.
Variable leaderKey : string.
Variable rls : list RebootListEntry.
Variable rqs : list RebootQueueEntry.
Implicit Types (v : RW W).
Abbreviation keyed := (keyed rls rqs).

(** A run of [m] that succeeds adds [X] to the record, and its result satisfies [P]. *)
Definition does {A} (m : M (RW W) A) (P : A → Prop) (X : list Effect) : Prop := ∀ v,
  keyed v.2 → wp (λ _, True) m v (λ a v', keyed v'.2 ∧ log_of v ⊆ log_of v' ∧ X ⊆ log_of v' ∧ P a).

Lemma does_ret {A} (a : A) (P : A → Prop) : P a → does (mret a) P [].
Proof. intros HP v Hk. apply wp_ret. set_solver. Qed.
Lemma does_bind {A B} (m : M (RW W) A) (f : A → M (RW W) B) P Q X Y :
  does m P X → (∀ a, P a → does (f a) Q Y) → does (m ≫= f) Q (X ++ Y).
Proof.
  intros Hm Hf v Hk. apply wp_bind. eapply wp_mono; [by apply Hm|]. simpl.
  intros a v1 (Hk1 & Hl1 & HX & HP). eapply wp_mono; [by apply Hf|]. simpl.
  intros b v2 (Hk2 & Hl2 & HY & HQ). set_solver.
Qed.
Lemma does_weaken {A} (m : M (RW W) A) (P Q : A → Prop) X Y :
  does m P X → (∀ a, P a → Q a) → Y ⊆ X → does m Q Y.
Proof. intros Hm HPQ HXY v Hk. eapply wp_mono; [by apply Hm|]. simpl. set_solver. Qed.
Lemma does_for_each {A} (l : list A) (m : A → M (RW W) unit) (X : A → list Effect) :
  (∀ x, x ∈ l → does (m x) (λ _, True) (X x)) → does (for_each l m) (λ _, True) (l ≫= X).
Proof.
  induction l as [|x l IH]; intros Hm; [by apply does_ret|].
  eapply (does_bind (m x) (λ _, for_each l m) (λ _, True)); [apply Hm; set_solver|].
  intros [] _. apply IH. intros y Hy. apply Hm. set_solver.
Qed.
Lemma does_call {A} (m : M W A) X : does (on_world (traced (λ _, X) m)) (λ _, True) X.
Proof.
  intros v Hk. apply wp_traced. intros v' [a|e|y|] [El Es]; [|done..].
  rewrite El, Es. set_solver.
Qed.

Lemma does_list_entry i e :
  rls !! i = Some e → does (list_entry (Some i)) (λ e', ∃ st, e' = list_status e st) [].
Proof.
  intros He v Hk. unfold list_entry. apply wp_bind. unfold wp at 1. simpl.
  destruct (rs_list v.2 !! i) as [e'|] eqn:E; [|done].
  destruct (keyed_list _ _ _ _ _ Hk E) as (e0 & st & He0 & ->). simplify_eq.
  apply wp_ret. split_and!; [done|set_solver..|eauto].
Qed.
Lemma does_set_list i e st :
  rls !! i = Some e → does (set_list_status (Some i) st) (λ e', e' = list_status e st) [].
Proof.
  intros He. eapply (does_bind _ _ _ _ [] []); [by apply does_list_entry|]. intros e' [st' ->] v Hk.
  apply wp_bind. unfold wp at 1. simpl. apply wp_bind. unfold wp at 1. simpl. apply wp_ret.
  split_and!; [|set_solver..|done]. destruct Hk as [Hl Hq]. split; [|done]. simpl.
  rewrite <-(list_insert_id rls i e) by done. apply Forall2_insert; [done|]. by exists st.
Qed.
Lemma does_cancel j rq :
  rqs !! j = Some rq →
  does (cancel_queue_entry j) (λ _, True) [CkeUpdated (queue_status rq RebootStatusCancelled)].
Proof.
  intros Hrq. eapply (does_bind _ _ (λ q, q = queue_status rq RebootStatusCancelled) _ []).
  2: { intros q ->. apply does_call. }
  intros v Hk. unfold set_queue_status, queue_entry. apply wp_bind, wp_bind. unfold wp at 1. simpl.
  destruct (rs_queue v.2 !! j) as [q'|] eqn:E; [|done].
  destruct (keyed_queue _ _ _ _ _ Hk E) as (rq0 & st & Hrq0 & ->). simplify_eq. simpl.
  apply wp_ret, wp_bind. unfold wp at 1. simpl. apply wp_bind. unfold wp at 1. simpl. apply wp_ret.
  split_and!; [|set_solver..|done]. destruct Hk as [Hl Hq]. split; [done|]. simpl.
  rewrite <-(list_insert_id rqs j rq) by done. apply Forall2_insert; [done|].
  by exists RebootStatusCancelled.
Qed.

Lemma does_nothing {A} (o : outcome A) : does (lift o) (λ _, True) [].
Proof. intros v Hk. apply wp_lift; [done|]. intros a _. split_and!; [done|set_solver..]. Qed.
Lemma does_update fuel e : does (UpdateRebootListEntry fuel e) (λ _, True) [].
Proof.
  eapply (does_bind _ _ _ _ [] []); [apply does_nothing|]. intros data _.
  induction fuel as [|fuel IH]; simpl; [apply (does_nothing Running)|].
  eapply (does_bind _ _ _ _ [] []); [apply (does_call _ [])|]. intros resp _.
  destruct (resp_kvs resp); [apply (does_nothing (Err ErrNotFound))|].
  eapply does_weaken; [eapply (does_bind _ _ (λ _, True) (λ _, True) _ []); [apply does_call|]|done|].
  - intros r _. simpl. destruct (txn_succeeded r); [by apply does_ret|apply IH].
  - set_solver.
Qed.
Lemma does_remove i e : rls !! i = Some e →
  does (e ← list_entry (Some i); RemoveRebootListEntry leaderKey e) (λ _, True)
    [Txn [KeyExists leaderKey] [OpDelete (rebootListEntryKey (rl_Index e))]].
Proof.
  intros He. eapply (does_bind _ _ _ _ []); [by apply does_list_entry|]. intros e' [st ->].
  eapply does_weaken; [eapply (does_bind _ _ (λ _, True) (λ _, True) _ []); [apply does_call|]|done|].
  - intros r _. simpl. destruct (txn_succeeded r); [by apply does_ret|].
    apply (does_nothing (Err ErrNoLeader)).
  - set_solver.
Qed.

(** What is to happen to the entry at position [i], and to the filed pair [es]. *)
Definition registering (i : nat) : list Effect :=
  match rls !! i with Some e => [Registered (NewRebootQueueEntry (rl_Node e))] | None => [] end.
Definition removing (i : nat) : list Effect :=
  match rls !! i with
  | Some e => [Txn [KeyExists leaderKey] [OpDelete (rebootListEntryKey (rl_Index e))]]
  | None => []
  end.
Definition cancelling (es : EntrySet) : list Effect :=
  match es_queue es ≫= λ j, rqs !! j with
  | Some rq => [CkeUpdated (queue_status rq RebootStatusCancelled)]
  | None => []
  end.
Definition removing_pair (es : EntrySet) : list Effect :=
  cancelling es ++ match es_list es with Some i => removing i | None => [] end.

(** Outside the lists a pointer is not followed. *)
Lemma does_out_of_list {B} i (f : RebootListEntry → M (RW W) B) P X :
  rls !! i = None → does (e ← list_entry (Some i); f e) P X.
Proof.
  intros Hn v Hk. unfold list_entry. apply wp_bind, wp_bind. unfold wp at 1. simpl.
  destruct (rs_list v.2 !! i) as [e'|] eqn:E; [|done].
  destruct (keyed_list _ _ _ _ _ Hk E) as (e & _ & He & _). congruence.
Qed.
Lemma does_out_of_list' i st P X : rls !! i = None → does (set_list_status (Some i) st) P X.
Proof. apply does_out_of_list. Qed.

Lemma does_cancelling es :
  does (match es_queue es with Some j => cancel_queue_entry j | None => mret () end)
    (λ _, True) (cancelling es).
Proof.
  unfold cancelling. destruct (es_queue es) as [j|]; simpl; [|by apply does_ret].
  destruct (rqs !! j) as [rq|] eqn:E; [by apply does_cancel|]. intros v Hk.
  unfold cancel_queue_entry, set_queue_status, queue_entry. apply wp_bind, wp_bind, wp_bind.
  unfold wp at 1. simpl. destruct (rs_queue v.2 !! j) as [q|] eqn:E'; [|done].
  destruct (keyed_queue _ _ _ _ _ Hk E') as (rq & _ & Hrq & _). congruence.
Qed.
Lemma does_removing i :
  does (e ← list_entry (Some i); RemoveRebootListEntry leaderKey e) (λ _, True) (removing i).
Proof.
  unfold removing. destruct (rls !! i) as [e|] eqn:E; [by apply does_remove|by apply does_out_of_list].
Qed.
Lemma does_removing_pair es :
  does (_ ← match es_queue es with Some j => cancel_queue_entry j | None => mret () end;
        e ← list_entry (es_list es); RemoveRebootListEntry leaderKey e) (λ _, True) (removing_pair es).
Proof.
  eapply does_bind; [apply does_cancelling|]. intros [] _.
  destruct (es_list es) as [i|]; [apply does_removing|]. by intros v Hk.
Qed.
Lemma does_registering fuel i :
  does (e ← set_list_status (Some i) RebootListEntryStatusQueued;
        _ ← on_world (cke_RegisterRebootsEntry (NewRebootQueueEntry (rl_Node e)));
        UpdateRebootListEntry fuel e) (λ _, True) (registering i).
Proof.
  unfold registering. destruct (rls !! i) as [e|] eqn:E.
  - eapply (does_bind _ _ _ _ []); [by apply does_set_list|]. intros e' ->.
    eapply (does_bind _ _ _ _ [_] []); [apply does_call|]. intros [] _. apply does_update.
  - eapply (does_bind _ _ (λ _, False) _ []); [by apply does_out_of_list'|done].
Qed.
Lemma does_dequeueing fuel es :
  does (e ← set_list_status (es_list es) RebootListEntryStatusPending;
        _ ← UpdateRebootListEntry fuel e;
        match es_queue es with Some j => cancel_queue_entry j | None => mret () end)
    (λ _, True) (cancelling es).
Proof.
  destruct (es_list es) as [i|]; [|by intros v Hk]. destruct (rls !! i) as [e|] eqn:E.
  - eapply (does_bind _ _ _ _ []); [by apply does_set_list|]. intros e' ->.
    eapply (does_bind _ _ _ _ []); [apply does_update|]. intros [] _. apply does_cancelling.
  - eapply (does_bind _ _ (λ _, False) _ []); [by apply does_out_of_list'|done].
Qed.

(** All that [process] is to do with [c]. *)
Definition due (enabled : bool) (c : EntriesCollection) : list Effect :=
  match CancelledEntry c, OrphanedEntry c with
  | _ :: _, _ => CancelledEntry c ≫= removing_pair
  | [], _ :: _ => OrphanedEntry c ≫= cancelling
  | [], [] => (CompletedEntry c ≫= removing) ++
      if enabled then (NewEntry c ≫= registering) ++ (TimedOutEntry c ≫= cancelling)
      else QueuedEntry c ≫= cancelling
  end.

Lemma does_process fuel enabled c : does (process leaderKey fuel enabled c) (λ _, True) (due enabled c).
Proof.
  unfold process, due. destruct (CancelledEntry c) as [|x xs] eqn:Ec.
  2: { rewrite <-Ec. apply does_for_each. intros es _. apply does_removing_pair. }
  destruct (OrphanedEntry c) as [|x xs] eqn:Eo.
  2: { rewrite <-Eo. apply does_for_each. intros es _. apply does_cancelling. }
  eapply does_bind; [apply does_for_each; intros i _; apply does_removing|]. intros [] _.
  destruct enabled.
  - eapply does_bind; [apply does_for_each; intros i _; apply does_registering|]. intros [] _.
    apply does_for_each. intros es _. apply does_dequeueing.
  - apply does_for_each. intros es _. apply does_dequeueing.
Qed.
End acts.

Lemma bind_sub {A} (l : list A) (f : A → list Effect) t : l ≫= f ⊆ t ↔ ∀ x, x ∈ l → f x ⊆ t.
Proof.
  split.
  - intros Hs x Hx y Hy. apply Hs, list_elem_of_bind. eauto.
  - intros Hs y (x & Hy & Hx)%list_elem_of_bind. by apply (Hs x).
Qed.
Lemma app_sub (l k t : list Effect) : l ++ k ⊆ t ↔ l ⊆ t ∧ k ⊆ t.
Proof. set_solver. Qed.

Section done.
Context {W : Type} `{Etcd W} `{Clock W} `{CKEStatus} `{CKE W} `{Rand W} `{Cron}.

Lemma keyed_refl s : keyed (rs_list s) (rs_queue s) s.
Proof.
  split; apply Forall_Forall2_diag, Forall_forall.
  - intros e _. exists (rl_Status e). by destruct e.
  - intros q _. exists (rq_Status q). by destruct q.
Qed.

(** What a successful pass has done once its entries are filed.  Entries that
    were cancelled are removed, with their partner in CKE's queue, before anything
    else; then orphans of CKE's queue are cancelled; only without either are the
    completed entries removed and, while neco-rebooter is enabled, all new entries
    registered with CKE and all timed-out ones cancelled, or, while it is disabled,
    all queued ones cancelled. *)
Theorem process_acts leaderKey fuel enabled c (v v' : RW W) :
  process leaderKey fuel enabled c v = (v', Ok ()) →
  let removed := removing leaderKey (rs_list v.2) in
  let cancelled := cancelling (rs_queue v.2) in
  (∀ es, es ∈ CancelledEntry c →
     cancelled es ⊆ log_of v' ∧ ∀ i, es_list es = Some i → removed i ⊆ log_of v') ∧
  (CancelledEntry c = [] → ∀ es, es ∈ OrphanedEntry c → cancelled es ⊆ log_of v') ∧
  (CancelledEntry c = [] → OrphanedEntry c = [] →
     (∀ i, i ∈ CompletedEntry c → removed i ⊆ log_of v') ∧
     if enabled then (∀ i, i ∈ NewEntry c → registering (rs_list v.2) i ⊆ log_of v') ∧
                     (∀ es, es ∈ TimedOutEntry c → cancelled es ⊆ log_of v')
     else ∀ es, es ∈ QueuedEntry c → cancelled es ⊆ log_of v').
Proof.
  intros E. pose proof (does_process leaderKey _ _ fuel enabled c v (keyed_refl _)) as Hd.
  unfold wp in Hd. rewrite E in Hd. destruct Hd as (_ & _ & Hd & _). unfold due in Hd.
  cbv zeta. destruct (CancelledEntry c) as [|x xs].
  2: { split; [|done]. intros es Hes. pose proof (proj1 (bind_sub _ _ _) Hd es Hes) as Hs.
       unfold removing_pair in Hs. split; [set_solver|]. intros i Ei. rewrite Ei in Hs. set_solver. }
  split; [by intros es ?%not_elem_of_nil|]. destruct (OrphanedEntry c) as [|x xs].
  2: { split; [|done]. intros _. by apply bind_sub. }
  split; [by intros _ es ?%not_elem_of_nil|]. intros _ _.
  apply app_sub in Hd as [Hc Hd]. split; [by apply bind_sub|]. destruct enabled; [|by apply bind_sub].
  apply app_sub in Hd as [Hn Ht]. split; by apply bind_sub.
Qed.
End done.
