(* ===== verification/RebooterGroups.v ===== *)
(** * How the groups of the reboot list take turns

    The group order that is kept between passes lists every group exactly once, and
    moving to the next candidate in that order reaches every group that stays ready. *)
From S2P Require Import Prelude GoStr GoTime Json Types Etcd Worlds Storage Watch Worker Rebooter RebooterFiling.

Local Open Scope Z_scope.

(** ** Sorting and compacting *)
Lemma Sort_Permutation l : Sort l ≡ₚ l.
Proof. apply merge_sort_Permutation. Qed.
Lemma Sort_sorted l : Sorted String.le (Sort l).
Proof. apply Sorted_merge_sort; apply _. Qed.
Lemma Sort_unique l k : Sort l = Sort k ↔ l ≡ₚ k.
Proof.
  split; intros E.
  - by rewrite <-(Sort_Permutation l), E, Sort_Permutation.
  - apply (Sorted_unique String.le); [apply Sort_sorted..|]. by rewrite !Sort_Permutation.
Qed.
Lemma isEqualContents_spec l k : isEqualContents l k = true ↔ l ≡ₚ k.
Proof.
  unfold isEqualContents. destruct (Nat.eqb_spec (length l) (length k)) as [E|E]; simpl.
  - by rewrite bool_decide_eq_true, Sort_unique.
  - split; [done|]. intros HP. by apply Permutation_length in HP.
Qed.

Lemma Compact_hd x l : ∃ k, Compact (x :: l) = x :: k.
Proof. simpl. destruct (Compact l); [eauto|]. case_decide; subst; eauto. Qed.
Lemma elem_of_Compact l x : x ∈ Compact l ↔ x ∈ l.
Proof.
  induction l as [|y l IH]; [done|]. rewrite elem_of_cons, <-IH. simpl.
  destruct (Compact l); [set_solver|]. case_decide; set_solver.
Qed.
Lemma Compact_NoDup l : StronglySorted String.le l → NoDup (Compact l).
Proof.
  induction 1 as [|x l Hl IH Hx]; [constructor|]. destruct l as [|z l]; [by apply NoDup_singleton|].
  destruct (Compact_hd z l) as [k Ek]. change (Compact (x :: z :: l)) with
    (match Compact (z :: l) with [] => [x] | y :: k => if decide (x = y) then y :: k else x :: y :: k end).
  rewrite Ek in *. case_decide as Hxz; [done|]. constructor; [|done]. rewrite <-Ek, elem_of_Compact.
  intros [->|Hin]%elem_of_cons; [done|]. apply Hxz. apply (anti_symm String.le).
  - by inversion Hx.
  - apply StronglySorted_inv in Hl as [_ Hz]. by eapply Forall_forall in Hz.
Qed.
Lemma Compact_Sort l : NoDup (Compact (Sort l)) ∧ ∀ x, x ∈ Compact (Sort l) ↔ x ∈ l.
Proof.
  split.
  - apply Compact_NoDup, Sorted_StronglySorted; [apply _|]. apply Sort_sorted.
  - intros x. by rewrite elem_of_Compact, Sort_Permutation.
Qed.

Section all_groups.
Context {W : Type} `{Rand W}.
Hypothesis Shuffle_law : ∀ l w w' l', Shuffle l w = (w', Ok l') → l' ≡ₚ l.

(** The group order that a pass works with, the old one if it has the same groups
    and a fresh shuffle otherwise, holds every group of the reboot list exactly once
    and no other, whatever order was kept before. *)
Theorem allGroups_covers rls old current (v v' : W * RebooterState) :
  getAllGroups rls v = (v', Ok current) →
  let allGroups := if isEqualContents old current then old else current in
  NoDup allGroups ∧ ∀ g, g ∈ allGroups ↔ ∃ e, e ∈ rls ∧ rl_Group e = g.
Proof.
  intros [E _]%on_world_inv. apply Shuffle_law in E. destruct (Compact_Sort (map rl_Group rls)) as [Hn Hx].
  assert ((if isEqualContents old current then old else current) ≡ₚ current) as HP.
  { destruct (isEqualContents old current) eqn:Ec; [by apply isEqualContents_spec|done]. }
  cbv zeta. rewrite HP, E. split; [done|]. intros g. rewrite HP, E, Hx, list_elem_of_fmap. naive_solver.
Qed.
End all_groups.

(** ** The turn of a group *)
Lemma find_index_split (l : list string) x :
  x ∈ l → ∃ a b, l = a ++ (x :: b) ∧ (x ∉ a) ∧ Index l x = Z.of_nat (length a).
Proof.
  unfold Index. induction l as [|y l IH]; [by intros ?%not_elem_of_nil|]. intros Hx. simpl.
  case_bool_decide as Hy; [subst; exists [], l; split_and!; [done|set_solver|done]|].
  apply elem_of_cons in Hx as [->|Hx]; [done|]. destruct (IH Hx) as (a & b & -> & Ha & E).
  exists (y :: a), b. split_and!; [done|set_solver|]. revert E.
  destruct (find_index _ _) as [i|]; simpl; lia.
Qed.

(** The order from group [p] on. *)
Definition from (groups : list string) (p : string) : list string :=
  cycleSlices groups (Index groups p).

Lemma from_split groups p :
  p ∈ groups → ∃ a b, groups = a ++ (p :: b) ∧ (p ∉ a) ∧ from groups p = p :: (b ++ a).
Proof.
  intros Hp. destruct (find_index_split _ _ Hp) as (a & b & E & Ha & Ei). exists a, b.
  split_and!; [done..|]. unfold from, cycleSlices. rewrite Ei, E, length_app. simpl.
  rewrite (proj2 (Z.ltb_ge _ _)) by lia. rewrite (proj2 (Nat.eqb_neq _ _)) by lia.
  rewrite (proj2 (Z.leb_gt _ _)) by lia. rewrite Nat2Z.id.
  by rewrite drop_app_length, take_app_length.
Qed.
Lemma from_Permutation groups p : from groups p ≡ₚ groups.
Proof.
  destruct (decide (p ∈ groups)) as [Hp|Hp].
  - destruct (from_split _ _ Hp) as (a & b & -> & _ & ->). by rewrite <-Permutation_middle, Permutation_app_comm.
  - unfold from, Index. assert (find_index (λ y, bool_decide (y = p)) groups = None) as ->; [|done].
    apply find_index_None. intros y Hy. apply bool_decide_eq_false. naive_solver.
Qed.

Lemma split_unique (a b c d : list string) q :
  a ++ (q :: b) = c ++ (q :: d) → q ∉ a → q ∉ c → a = c ∧ b = d.
Proof.
  revert c. induction a as [|x a IH]; intros [|y c] E Ha Hc; simplify_eq/=; set_solver.
Qed.

(** Taking the order from a later group on turns the part before it to the end. *)
Lemma from_later groups p q x y :
  NoDup groups → p ∈ groups → from groups p = p :: x ++ (q :: y) → from groups q = q :: y ++ (p :: x).
Proof.
  intros HN Hp Ef. destruct (from_split _ _ Hp) as (a & b & E & Ha & Ef').
  rewrite Ef' in Ef. injection Ef as Ef.
  assert (∃ c d, groups = c ++ (q :: d) ∧ d ++ c = y ++ (p :: x)) as (c & d & E2 & Ecd).
  { apply app_eq_inv in Ef as [(k & -> & Ek)|(k & -> & Ek)].
    - destruct k as [|z k]; simpl in Ek; simplify_eq.
      + exists [], (y ++ (p :: x)). by rewrite !app_nil_r.
      + exists (a ++ (p :: x)), k. split; [by rewrite <-app_assoc|by rewrite <-app_assoc].
    - exists k, (y ++ (p :: b)). rewrite Ek in E. split; [by rewrite E, <-app_assoc|by rewrite <-app_assoc]. }
  assert (q ∈ groups) as Hq by (rewrite E2; set_solver).
  destruct (from_split _ _ Hq) as (c' & d' & E' & Hc & ->). f_equal. rewrite <-Ecd.
  rewrite E2 in E'. apply split_unique in E' as [-> ->]; [done| |done].
  rewrite E2 in HN. apply NoDup_app in HN as (_ & HN & _). set_solver.
Qed.

Section turns.
Context {W : Type} `{Etcd W} `{Clock W} `{CKEStatus} `{CKE W} `{Rand W} `{Cron}.
Variable rebootTimes : gmap string RebootTime.
Variable timeZone : Location.
Variable groups : list string.
Hypothesis groups_NoDup : NoDup groups.
Implicit Types (p q g : string) (candidate : list string).

(** The group that [moveToNextGroup] returns is the first candidate other than [p]. *)
Lemma move_first fuel candidate p (v v' : W * RebooterState) q :
  moveToNextGroup fuel candidate p v = (v', Ok q) →
  q = p ∧ (∀ c, c ∈ candidate → c = p) ∨
  q ≠ p ∧ ∃ a b, candidate = a ++ (q :: b) ∧ ∀ c, c ∈ a → c = p.
Proof.
  induction candidate as [|c candidate IH]; simpl; intros E; minv; [left; set_solver|].
  case_bool_decide as Hc; simpl in E; minv.
  - destruct (IH E) as [[-> Ha]|(Hq & a & b & -> & Ha)]; [left; set_solver|].
    right. split; [done|]. exists (p :: a), b. set_solver.
  - right. split; [done|]. exists [], candidate. set_solver.
Qed.

(** The candidates come in the order the groups are given. *)
Lemma candidates_sublist entries gs (v v' : W * RebooterState) cs :
  candidates_of rebootTimes timeZone entries gs v = (v', Ok cs) → cs `sublist_of` gs.
Proof.
  revert v v' cs. induction gs as [|g gs IH]; intros v v' cs E; simpl in E; minv; [done|].
  match goal with Hr : candidates_of _ _ _ _ _ = _ |- _ => apply IH in Hr end.
  case_match; by constructor.
Qed.

(** How many groups come before [g] in the order from [p] on. *)
Definition wait p g : Z := Index (from groups p) g.
Lemma wait_split p g a b : from groups p = a ++ (g :: b) → g ∉ a → wait p g = Z.of_nat (length a).
Proof.
  intros E Ha. destruct (find_index_split (from groups p) g) as (a' & b' & E' & Ha' & Ei);
    [rewrite E; set_solver|].
  unfold wait. rewrite Ei. rewrite E in E'. by apply split_unique in E' as [-> _].
Qed.
Lemma wait_bounds p g : g ∈ groups → 0 ≤ wait p g < Z.of_nat (length groups).
Proof.
  intros Hg. destruct (find_index_split (from groups p) g) as (a & b & E & Ha & Ei); [by rewrite from_Permutation|].
  unfold wait. rewrite Ei, <-(Permutation_length (from_Permutation groups p)), E, length_app. simpl. lia.
Qed.

(** A move from [p] that [g] is a candidate for brings the turn of [g] closer. *)
Lemma move_closer fuel candidate p g (v v' : W * RebooterState) q :
  moveToNextGroup fuel candidate p v = (v', Ok q) →
  candidate `sublist_of` from groups p → p ∈ groups → g ∈ candidate → g ≠ p →
  wait q g < wait p g.
Proof.
  intros E Hc Hp Hg Hgp.
  destruct (move_first _ _ _ _ _ _ E) as [[_ Hall]|(Hqp & a & b & -> & Ha)]; [naive_solver|].
  assert (NoDup (from groups p)) as HN by by rewrite from_Permutation.
  destruct (from_split _ _ Hp) as (c & d & _ & _ & Ef).
  assert (q :: b `sublist_of` d ++ c) as Hs.
  { rewrite Ef in Hc. apply sublist_cons_r in Hc as [Hc|(l & El & Hc)].
    - etrans; [apply (sublist_inserts_l a), (reflexivity (q :: b))|done].
    - destruct a as [|z a]; simplify_eq/=. etrans; [apply (sublist_inserts_l a), (reflexivity (q :: b))|done]. }
  apply sublist_cons_l in Hs as (x & y & Er & Hb). rewrite Er in Ef.
  pose proof (from_later _ _ _ _ _ groups_NoDup Hp Ef) as Eq.
  rewrite Ef in HN. apply NoDup_cons in HN as [Hpx HN]. apply NoDup_app in HN as (Hx & Hxy & Hy).
  apply NoDup_cons in Hy as [Hqy Hy].
  destruct (decide (g = q)) as [->|Hgq].
  - rewrite (wait_split q q [] (y ++ (p :: x))) by set_solver.
    rewrite (wait_split p q (p :: x) y) by set_solver. simpl. lia.
  - assert (g ∈ y) as (y1 & y2 & ->)%list_elem_of_split.
    { assert (g ∈ b) by set_solver. by eapply elem_of_sublist. }
    rewrite (wait_split q g (q :: y1) (y2 ++ (p :: x))); [|by rewrite Eq, <-app_assoc|].
    + rewrite (wait_split p g (p :: x ++ (q :: y1)) y2); [|by rewrite Ef; simpl; rewrite <-app_assoc|].
      * simpl. rewrite length_app. simpl. lia.
      * apply NoDup_app in Hy as (_ & Hy & _). set_solver.
    + apply NoDup_app in Hy as (_ & Hy & _). set_solver.
Qed.

End turns.
