(* ===== verification/RebooterWitness.v ===== *)
(** * The neco-rebooter theorems at work

    One pass that moves to the next group, removes a finished entry and registers two
    nodes, and one that finds an entry cancelled while its node is being rebooted. *)
From S2P Require Import Prelude GoStr GoTime Json Types Etcd Worlds Storage StorageWitness Watch Worker.
From S2P Require Import Rebooter RebooterFiling.
From S2P Require Import RebooterSafety RebooterPass RebooterActs RebooterGroups.

Local Open Scope Z_scope.

(** Schedules that fire every half minute, or in an hour. *)
#[local] Instance on_off : Cron := {
  Schedule := bool;
  Location := unit;
  ParseStandard s := if bool_decide (s = "on") then Ok true else if bool_decide (s = "off") then Ok false
                     else Err (ErrMsg "bad schedule");
  LoadLocation _ := Ok ();
  Next s _ t := if s then t + 30 * Second else t + 3600 * Second;
}.
#[local] Instance still : Clock Sim := {
  clock_now := mret (1700000100 * Second);
  clock_after _ := mret true;
}.
#[local] Instance unshuffled : Rand Sim := { Shuffle := mret }.
#[local] Instance cke_status : CKEStatus := {
  RebootStatusRebooting := "rebooting";
  RebootStatusCancelled := "cancelled";
  NewRebootQueueEntry n := {| rq_Index := 0; rq_Node := n; rq_Status := "queued"; rq_DrainBackOffCount := 0 |};
}.
Definition cke_with (q : list RebootQueueEntry) : CKE Sim := {|
  cke_GetRebootsEntries := mret q;
  cke_UpdateRebootsEntry _ := mret ();
  cke_RegisterRebootsEntry _ := mret ();
|}.

Definition times : gmap string RebootTime := {["day" := {| Deny := [false]; Allow := [true] |}]}.
Definition entry (i : Z) (node group status : string) : RebootListEntry :=
  {| rl_Index := i; rl_Node := node; rl_Group := group; rl_RebootTime := "day"; rl_Status := status |}.
Definition listing (es : list RebootListEntry) : Sim :=
  {| sim_log := [[EvPut "leader" "me"]; [EvPut KeyNecoRebooterIsEnabled "true"];
                 [EvPut KeyNecoRebooterProcessingGroup "g0"]] ++
                map (λ e, [EvPut (rebootListEntryKey (rl_Index e)) (text_of e)]) es;
     sim_env := []; sim_fail := [] |}.
Definition idle : RebooterState := {| rs_list := []; rs_queue := []; rs_allGroups := [] |}.

(** CKE is done with [n0]; [n1] and [n2] of the next group wait. *)
Definition three : list RebootListEntry :=
  [entry 0 "n0" "g0" "Queued"; entry 1 "n1" "g1" "Pending"; entry 2 "n2" "g1" "Pending"].

Section idle_queue.
#[local] Instance cke_idle : CKE Sim := cke_with [].

Definition pass1 : RW Sim * outcome unit :=
  runOnce times () "leader" 3 ({| tr_world := listing three; tr_log := [] |}, idle).
Lemma pass1_runs : pass times () "leader" 3 (listing three) idle pass1.1.
Proof. exists (Ok ()). unfold pass1. runs. Qed.
Lemma pass1_reads : pass_reads (listing three) true three [] "g0".
Proof. repeat eexists; vm_compute; reflexivity. Qed.

Lemma runOnce_registers_witness :
  let q := NewRebootQueueEntry "n2" in
  Registered q ∈ log_of pass1.1 ∧ ∃ e t1 t2, e ∈ three ∧ q = NewRebootQueueEntry (rl_Node e) ∧
    rl_Status e = RebootListEntryStatusPending ∧ (∀ rq, rq ∈ [] → rq_Node rq ≠ rl_Node e) ∧
    log_of pass1.1 = t1 ++ Registered q :: t2 ∧ rl_Group e = group_after "g0" t1 ∧
    may_reboot times () t1 e.
Proof.
  assert (Registered (NewRebootQueueEntry "n2") ∈ log_of pass1.1) as Hq
    by (apply list_elem_of_In; vm_compute; tauto).
  split; [exact Hq|].
  apply (runOnce_registers times () "leader" 3 (listing three) idle pass1.1 true three [] "g0" _
           pass1_runs pass1_reads Hq).
Defined.

Lemma runOnce_removes_witness :
  let ops := [OpDelete (rebootListEntryKey 0)] in
  Txn [KeyExists "leader"] ops ∈ log_of pass1.1 ∧
  ∃ e, e ∈ three ∧ rebootListEntryKey 0 = rebootListEntryKey (rl_Index e) ∧
    (rl_Status e = RebootListEntryStatusCancelled ∨
     rl_Status e = RebootListEntryStatusQueued ∧ ∀ rq, rq ∈ [] → rq_Node rq ≠ rl_Node e).
Proof.
  assert (Txn [KeyExists "leader"] [OpDelete (rebootListEntryKey 0)] ∈ log_of pass1.1) as Hx
    by (apply list_elem_of_In; vm_compute; tauto).
  split; [exact Hx|].
  apply (runOnce_removes times () "leader" 3 (listing three) idle pass1.1 true three [] "g0" _ _ _
           pass1_runs pass1_reads Hx). apply list_elem_of_here.
Defined.

Lemma runOnce_moves_witness :
  let cs := [ModRevisionEq KeyNecoRebooterProcessingGroup 4] in
  Txn cs [OpPut KeyNecoRebooterProcessingGroup "g1"] ∈ log_of pass1.1 ∧
  ∃ e, e ∈ three ∧ rl_Group e = "g1" ∧ may_reboot times () (log_of pass1.1) e.
Proof.
  assert (Txn [ModRevisionEq KeyNecoRebooterProcessingGroup 4]
            [OpPut KeyNecoRebooterProcessingGroup "g1"] ∈ log_of pass1.1) as Hx
    by (apply list_elem_of_In; vm_compute; tauto).
  split; [exact Hx|].
  apply (runOnce_moves times () "leader" 3 (listing three) idle pass1.1 true three [] "g0" _ _
           pass1_runs pass1_reads Hx).
Defined.

(** The filing of that pass. *)
Definition filing_state : RW Sim :=
  ({| tr_world := listing three; tr_log := [] |}, {| rs_list := three; rs_queue := []; rs_allGroups := [] |}).
Definition filed1 : EntriesCollection :=
  {| CompletedEntry := [0%nat]; TimedOutEntry := []; NewEntry := [1%nat; 2%nat];
     CancelledEntry := []; QueuedEntry := []; OrphanedEntry := [] |}.
Lemma collectEntries_files_witness :
  let v' := (collectEntries times () "g1" filing_state).1 in
  v'.2 = filing_state.2 ∧ files times () "g1" filing_state.2 (log_of v') filed1.
Proof. cbv zeta. apply collectEntries_files. runs. Defined.

Lemma process_acts_witness :
  let v' := (process "leader" 3 true filed1 filing_state).1 in
  Registered (NewRebootQueueEntry "n2") ∈ log_of v' ∧
  Txn [KeyExists "leader"] [OpDelete (rebootListEntryKey 0)] ∈ log_of v'.
Proof.
  cbv zeta.
  destruct (process_acts "leader" 3 true filed1 filing_state (process "leader" 3 true filed1 filing_state).1)
    as (_ & _ & Hd); [runs|].
  destruct (Hd eq_refl eq_refl) as (Hc & Hn & _). split.
  - apply (Hn 2%nat); [apply list_elem_of_In; vm_compute; tauto|]. apply list_elem_of_here.
  - apply (Hc 0%nat); [apply list_elem_of_here|]. apply list_elem_of_here.
Defined.
End idle_queue.

(** [n1] is being rebooted when its entry is cancelled. *)
Definition rebooting : RebootQueueEntry :=
  {| rq_Index := 7; rq_Node := "n1"; rq_Status := "rebooting"; rq_DrainBackOffCount := 0 |}.
Definition cancelled_one : list RebootListEntry := [entry 1 "n1" "g0" "Cancelled"].
Section busy_queue.
#[local] Instance cke_busy : CKE Sim := cke_with [rebooting].

Definition pass2 : RW Sim * outcome unit :=
  runOnce times () "leader" 3 ({| tr_world := listing cancelled_one; tr_log := [] |}, idle).
Lemma runOnce_spares_rebooting_witness :
  let q := queue_status rebooting RebootStatusCancelled in
  CkeUpdated q ∈ log_of pass2.1 ∧
  ∃ rq, rq ∈ [rebooting] ∧ q = queue_status rq RebootStatusCancelled ∧
    (rq_Status rq = RebootStatusRebooting →
     (∃ e, listed cancelled_one rq RebootListEntryStatusCancelled e) ∨ unclaimed cancelled_one rq).
Proof.
  assert (CkeUpdated (queue_status rebooting RebootStatusCancelled) ∈ log_of pass2.1) as Hx
    by (apply list_elem_of_In; vm_compute; tauto).
  split; [exact Hx|].
  apply (runOnce_spares_rebooting times () "leader" 3 (listing cancelled_one) idle pass2.1
           cancelled_one [rebooting] "g0"); [|repeat eexists; vm_compute; reflexivity|exact Hx].
  exists (Ok ()). unfold pass2. runs.
Defined.
End busy_queue.

(** ** Groups *)
Lemma unshuffled_law l (w w' : Sim) l' : Shuffle l w = (w', Ok l') → l' ≡ₚ l.
Proof. by intros [= _ <-]. Qed.

Lemma allGroups_covers_witness :
  let v := (listing three, idle) in
  (getAllGroups three v).2 = Ok ["g0"; "g1"] ∧
  NoDup ["g1"; "g0"] ∧ ∀ g, g ∈ ["g1"; "g0"] ↔ ∃ e, e ∈ three ∧ rl_Group e = g.
Proof.
  cbv zeta. split; [vm_compute; reflexivity|].
  apply (allGroups_covers (W:=Sim) unshuffled_law three ["g1"; "g0"] ["g0"; "g1"]
           (listing three, idle) (listing three, idle)). vm_compute. reflexivity.
Defined.

(** Two groups that are always ready take turns. *)
Definition two_groups : list RebootListEntry := [entry 0 "n0" "a" "Pending"; entry 1 "n1" "b" "Pending"].
Definition turn2 (n : nat) : string := if Nat.even n then "a" else "b".
Definition candidates2 (n : nat) : list string := if Nat.even n then ["a"; "b"] else ["b"; "a"].
Lemma turn2_S n : turn2 (S n) = if Nat.even n then "b" else "a".
Proof. unfold turn2. rewrite Nat.even_succ, <-Nat.negb_even. by destruct (Nat.even n). Qed.

