(* ===== verification/Updater.v ===== *)
(** * The updater ([updater/])

    The leader decides from a snapshot what to do next ([NextAction]), does it and
    starts over ([runLoop]); while workers update it watches their statuses
    ([waitComplete]); a checker records new releases ([ReleaseChecker]).

    Third-party code is a parameter: hashicorp/go-version, the cron parser and its
    schedules, time zones, the GitHub client, the notifier, etcd's elections and
    the clock. *)
From S2P Require Import Prelude GoStr GoTime Json Types Etcd Worlds Storage Watch Worker.

Local Open Scope Z_scope.

(** ** [action.go] *)
Inductive Action :=
  | ActionError
  | ActionWaitInfo
  | ActionReconfigure
  | ActionNewVersion
  | ActionWaitWorkers
  | ActionStop
  | ActionWaitClear.
#[export] Instance Action_eq_dec : EqDecision Action.
Proof. solve_decision. Defined.

Definition Action_String (a : Action) : string :=
  match a with
  | ActionError => "error"
  | ActionWaitInfo => "wait-for-info"
  | ActionReconfigure => "reconfigure"
  | ActionNewVersion => "request-update"
  | ActionWaitWorkers => "wait-for-workers"
  | ActionStop => "request-stop"
  | ActionWaitClear => "wait-for-user-recovery"
  end.

(** go-version: parsing, [Equal], [Compare] and the text a version was parsed from. *)
Class GoVersion := {
  GVersion : Type;
  NewVersion : string → outcome GVersion;
  Version_Equal : GVersion → GVersion → bool;
  Version_Compare : GVersion → GVersion → Z;
  Version_Original : GVersion → string;
}.

(** The loop of [NextAction] over the statuses. *)
Definition some_aborted (version : string) (statuses : gmap Z UpdateStatus) : bool :=
  existsb (λ '(_, st), bool_decide (st_Version st = version) && (st_Cond st =? CondAbort))
    (map_to_list statuses).

Section action.
Context `{GoVersion}.

(** [now] is the instant [time.Since] reads. *)
Definition NextAction (ss : Snapshot) (timeout : Duration) (now : Time) : outcome Action :=
  if bool_decide (ss_Latest ss = "") then Ok ActionWaitInfo
  else
    latestVer ← NewVersion (ss_Latest ss);
    match ss_Request ss with
    | None => Ok ActionNewVersion
    | Some req =>
        if req_Stop req then Ok ActionWaitClear
        else if some_aborted (req_Version req) (ss_Statuses ss) then Ok ActionStop
        else if negb (UpdateCompleted (req_Version req) (elems (req_Servers req)) (ss_Statuses ss))
        then
          if timeout <? Sub now (req_StartedAt req) then Ok ActionStop else Ok ActionWaitWorkers
        else if negb (bool_decide (req_Servers req = ss_Servers ss)) then Ok ActionReconfigure
        else
          requestVer ← NewVersion (req_Version req);
          if negb (Version_Equal latestVer requestVer) then Ok ActionNewVersion
          else Ok ActionWaitInfo
    end.
End action.

(** ** [release.go] *)
Record necoRelease := { nr_date : Time; nr_version : Z }.

Definition newNecoRelease (tag : string) : outcome necoRelease :=
  match Split "-" tag with
  | [date; id] =>
      match parse_release_date date with
      | None => Err (ErrMsg ("parsing time " +:+ date))
      | Some d => v ← Atoi id; Ok {| nr_date := d; nr_version := v |}
      end
  | _ => Err (ErrMsg ("tag should have YYYY.MM.DD-UNIQUE_ID, but got " +:+ tag))
  end.

Definition isNewerThan (r target : necoRelease) : bool :=
  negb (Before (nr_date r) (nr_date target)) && (nr_version target <? nr_version r).

(** ** [github.go] *)
Definition trimTagName (s : string) : string :=
  match SplitN2 "-" s with
  | (_, Some rest) => rest
  | (_, None) => s
  end.

Record Release := { rel_TagName : option string; rel_Draft : bool }.
Record ReleasePage := { pg_releases : list Release; pg_NextPage : Z }.

Class GitHub (W : Type) := {
  gh_GetLatestRelease : M W Release;
  gh_ListReleases : Z → M W ReleasePage;
}.

Section github.
Context {W : Type} `{GitHub W} `{GoVersion}.

Definition GetLatestReleaseTag : M W string :=
  r ← attempt gh_GetLatestRelease;
  match r with
  | inl _ => fail ErrNoReleases
  | inr release =>
      match rel_TagName release with
      | None => fail (ErrMsg "no tagged release")
      | Some tag => mret (trimTagName tag)
      end
  end.

(** The candidate a release contributes, if it is one. *)
Definition release_version (tagPrefix : string) (r : Release) : option GVersion :=
  match rel_TagName r with
  | None => None
  | Some tag =>
      if rel_Draft r then None
      else if negb (HasPrefix tag tagPrefix) then None
      else match NewVersion (trimTagName tag) with Ok v => Some v | _ => None end
  end.

Definition newer (latest : option GVersion) (v : GVersion) : option GVersion :=
  match latest with
  | None => Some v
  | Some l => if 0 <? Version_Compare v l then Some v else Some l
  end.

Fixpoint scan_releases (tagPrefix : string) (releases : list Release) (latest : option GVersion)
    : option GVersion :=
  match releases with
  | [] => latest
  | r :: releases =>
      scan_releases tagPrefix releases
        (match release_version tagPrefix r with Some v => newer latest v | None => latest end)
  end.

Fixpoint published_loop (fuel : nat) (tagPrefix : string) (page : Z) (latest : option GVersion)
    : M W string :=
  match fuel with
  | O => blocked
  | S fuel =>
      r ← attempt (gh_ListReleases page);
      match r with
      | inl _ => fail ErrNoReleases
      | inr pg =>
          let latest := scan_releases tagPrefix (pg_releases pg) latest in
          if pg_NextPage pg =? 0 then
            match latest with
            | None => fail ErrNoReleases
            | Some v => mret (Version_Original v)
            end
          else published_loop fuel tagPrefix (pg_NextPage pg) latest
      end
  end.
Definition GetLatestPublishedTag (fuel : nat) (tagPrefix : string) : M W string :=
  published_loop fuel tagPrefix 0 None.
End github.

(** ** [release_checker.go] *)

Definition defaultCheckTimes := "* * * * *".
Definition defaultCheckTimeZone := "Asia/Tokyo".

Section checker.
Context {W : Type} `{Etcd W} `{GitHub W} `{Clock W} `{GoVersion} `{Cron}.
Variable leaderKey : string.

Definition is_within_schedule (checkTimes : list Schedule) (zone : Location) (now : Time) : bool :=
  existsb (λ s, Sub (Next s zone now) now <=? Second * 60) checkTimes.

(** [ReleaseChecker.update]; the local state is the field [current]. *)
Definition checker_update (check : M W string) (checkTimes : list Schedule) (zone : Location)
    : M (W * string) unit :=
  now ← on_world clock_now;
  if negb (is_within_schedule checkTimes zone now) then mret ()
  else
    r ← attempt (on_world check);
    match r with
    | inl ErrNoReleases => mret ()
    | inl e => fail e
    | inr latest =>
        current ← get_local;
        if bool_decide (latest = current) then mret ()
        else
          currentRelease ← lift (newNecoRelease current);
          latestRelease ← lift (newNecoRelease latest);
          if negb (isNewerThan latestRelease currentRelease) then mret ()
          else _ ← put_local latest; UpdateNecoRelease latest leaderKey
    end.

Fixpoint checker_loop (fuel : nat) (check : M W string) (checkTimes : list Schedule)
    (zone : Location) (interval : Duration) : M (W * string) unit :=
  match fuel with
  | O => blocked
  | S fuel =>
      _ ← checker_update check checkTimes zone;
      fired ← on_world (clock_after interval);
      if (fired : bool) then checker_loop fuel check checkTimes zone interval else mret ()
  end.

Definition get_or_default (key_read : M W string) (def : string) : M W string :=
  r ← attempt key_read;
  match r with
  | inl ErrNotFound => mret def
  | inl e => fail e
  | inr s => mret s
  end.

Fixpoint parse_all (ts : list string) : outcome (list Schedule) :=
  match ts with
  | [] => Ok []
  | t :: ts => s ← ParseStandard t; ss ← parse_all ts; Ok (s :: ss)
  end.

(** How releases are looked up in each environment. *)
Definition select_check (fuel : nat) (env : string) : outcome (M W string) :=
  if bool_decide (env = NoneEnv) then Ok (fail ErrNoReleases)
  else if bool_decide (env = TestEnv) then Ok (mret "9999.12.31-99999")
  else if bool_decide (env = DevEnv) then Ok (GetLatestPublishedTag fuel "test-")
  else if bool_decide (env = StagingEnv) then Ok (GetLatestPublishedTag fuel "release-")
  else if bool_decide (env = ProdEnv) then Ok GetLatestReleaseTag
  else Err (ErrMsg ("unknown env: " +:+ env)).

Definition newline : ascii := Ascii.ascii_of_nat 10.

Definition ReleaseChecker_Run (fuel : nat) : M W unit :=
  env ← GetEnvConfig;
  rt ← get_or_default GetReleaseTime defaultCheckTimes;
  checkTimes ← lift (parse_all (Split newline rt));
  tz ← get_or_default GetReleaseTimeZone defaultCheckTimeZone;
  zone ← lift (LoadLocation tz);
  check ← lift (select_check fuel env);
  current ← GetNecoRelease;
  interval ← GetCheckUpdateInterval;
  with_local current (checker_loop fuel check checkTimes zone interval).
End checker.

(** ** [server.go] *)
Class Notifier (W : Type) := {
  NotifyInfo : UpdateRequest → string → M W unit;
  NotifySucceeded : UpdateRequest → M W unit;
  NotifyFailure : UpdateRequest → string → M W unit;
}.

Section server.
Context {W : Type} `{Etcd W} `{Clock W} `{Notifier W} `{GoVersion}.

(** [statusHandler.handleStatus]; the local state is the map of statuses. *)
Definition handleStatus_h (req : UpdateRequest) (lrn : Z) (st : UpdateStatus)
    : M (W * gmap Z UpdateStatus) bool :=
  if negb (bool_decide (st_Version st = req_Version req)) then mret false
  else
    statuses ← get_local;
    let statuses := <[lrn := st]> statuses in
    _ ← put_local statuses;
    if st_Cond st =? CondAbort then
      _ ← ignore_error (on_world (NotifyFailure req ("update request was aborted: " +:+ st_Message st)));
      mret true
    else if UpdateCompleted (req_Version req) (elems (req_Servers req)) statuses then
      _ ← ignore_error (on_world (NotifySucceeded req));
      mret true
    else mret false.

(** The watch runs under a context with the deadline [StartedAt + timeout]; when
    it passes, the channel closes with the deadline error.  [duration_text] is
    [timeout.String()]. *)
Definition waitComplete (fuel : nat) (ss : Snapshot) (req : UpdateRequest) (duration_text : string)
    : M W unit :=
  r ← attempt (with_local (ss_Statuses ss)
        (WorkerWatcher_Watch (handleStatus_h req) fuel (ss_Revision ss)));
  match r with
  | inl ErrTimedOut =>
      ignore_error (NotifyFailure req ("workers take too long for update: " +:+ duration_text))
  | inl e => fail e
  | inr _ => mret ()
  end.

Definition stop_request (req : UpdateRequest) : UpdateRequest :=
  {| req_Version := req_Version req; req_Servers := req_Servers req; req_Stop := true;
     req_StartedAt := req_StartedAt req |}.

(** One turn of [runLoop]'s loop. *)
Definition run_turn (fuel : nat) (leaderKey : string) (timeout : Duration) (duration_text : string)
    : M W unit :=
  ss ← NewSnapshot;
  now ← clock_now;
  action ← lift (NextAction ss timeout now);
  match action, ss_Request ss with
  | ActionWaitInfo, _ => WaitInfo (ss_Revision ss)
  | ActionReconfigure, Some cur =>
      now ← clock_now;
      let req := {| req_Version := req_Version cur; req_Servers := ss_Servers ss;
                    req_Stop := false; req_StartedAt := now |} in
      _ ← PutReconfigureRequest req leaderKey;
      ignore_error (NotifyInfo req "start boot servers reconfiguration.")
  | ActionNewVersion, _ =>
      now ← clock_now;
      let req := {| req_Version := ss_Latest ss; req_Servers := ss_Servers ss;
                    req_Stop := false; req_StartedAt := now |} in
      _ ← PutRequest req leaderKey;
      ignore_error (NotifyInfo req "start updating the new release.")
  | ActionWaitWorkers, Some cur => waitComplete fuel ss cur duration_text
  | ActionStop, Some cur => PutRequest (stop_request cur) leaderKey
  | ActionWaitClear, _ => WaitRequestDeletion (ss_Revision ss)
  | ActionError, _ => fail (ErrMsg ("invalid action " +:+ Action_String action +:+ ": 0"))
  | _, None => panic "nil pointer dereference"
  end.

Fixpoint run_turns (fuel : nat) (leaderKey : string) (timeout : Duration) (duration_text : string)
    : M W unit :=
  match fuel with
  | O => blocked
  | S fuel => _ ← run_turn fuel leaderKey timeout duration_text;
              run_turns fuel leaderKey timeout duration_text
  end.

Variable Duration_String : Duration → string.

Definition runLoop (fuel : nat) (leaderKey : string) : M W unit :=
  timeout ← GetWorkerTimeout;
  run_turns fuel leaderKey timeout (Duration_String timeout).
End server.

(** etcd's election and session, and the environment that runs the two goroutines
    of the leader until one of them fails. *)
Class Election (W : Type) := {
  session_done : M W bool;
  Campaign : string → M W unit;
  election_key : M W string;
  Resign : M W unit;
  Hostname : M W string;
  serve : string → M W unit;
}.

Section run.
Context {W : Type} `{Election W}.

Fixpoint serve_loop (fuel : nat) (hostname : string) : M W unit :=
  match fuel with
  | O => blocked
  | S fuel =>
      orphaned ← session_done;
      if (orphaned : bool) then fail (ErrMsg "session has been orphaned")
      else
        _ ← Campaign hostname;
        leaderKey ← election_key;
        r ← attempt (serve leaderKey);
        _ ← Resign;
        match r with
        | inl ErrNoLeader => serve_loop fuel hostname
        | inl e => fail e
        | inr _ => mret ()
        end
  end.
Definition Server_Run (fuel : nat) : M W unit :=
  hostname ← Hostname; serve_loop fuel hostname.
End run.
