(* ===== verification/UpdaterProofs.v ===== *)
(** * Correctness of the updater's decisions

    What the leader may do in each state, that its writes rest on a consistent
    snapshot and on holding the leadership, that its watch of the workers ends
    exactly when its decision changes, and that recorded releases only move
    forward. *)
From S2P Require Import Prelude GoStr GoTime Json Types Etcd Worlds Storage StorageProofs Watch Worker Updater.
From S2P Require Import StorageWitness.

Local Open Scope Z_scope.

Lemma some_aborted_spec version m :
  some_aborted version m = true ↔
  ∃ lrn st, m !! lrn = Some st ∧ st_Version st = version ∧ st_Cond st = CondAbort.
Proof.
  unfold some_aborted. rewrite existsb_exists. setoid_rewrite <-list_elem_of_In. split.
  - intros ([lrn st] & Hin & Hb). apply elem_of_map_to_list in Hin.
    apply andb_true_iff in Hb as [Hv%bool_decide_eq_true Hc%Z.eqb_eq]. eauto.
  - intros (lrn & st & Hl & Hv & Hc). exists (lrn, st). split; [by apply elem_of_map_to_list|].
    rewrite Hc. by rewrite bool_decide_eq_true_2.
Qed.

Section decisions.
Context `{GoVersion}.
Implicit Types (ss : Snapshot) (req : UpdateRequest).

Definition completed_in ss req : bool :=
  UpdateCompleted (req_Version req) (elems (req_Servers req)) (ss_Statuses ss).
Definition aborted_in ss req : bool := some_aborted (req_Version req) (ss_Statuses ss).

(** C9: with an update under way the leader stops it only on an abort or after
    the time limit, leaves a stopped one to the operator, and starts another
    update (new release or new set of boot servers) only when the current one
    was neither stopped nor aborted and has completed on all its boot servers. *)
Theorem NextAction_safe ss timeout now req a :
  ss_Request ss = Some req → NextAction ss timeout now = Ok a → ss_Latest ss ≠ "" →
  match a with
  | ActionNewVersion => req_Stop req = false ∧ aborted_in ss req = false ∧
      completed_in ss req = true ∧ req_Servers req = ss_Servers ss ∧
      ∃ vl vr, NewVersion (ss_Latest ss) = Ok vl ∧ NewVersion (req_Version req) = Ok vr ∧
               Version_Equal vl vr = false
  | ActionReconfigure => req_Stop req = false ∧ aborted_in ss req = false ∧
      completed_in ss req = true ∧ req_Servers req ≠ ss_Servers ss
  | ActionStop => req_Stop req = false ∧
      (aborted_in ss req = true ∨
       completed_in ss req = false ∧ timeout < Sub now (req_StartedAt req))
  | ActionWaitWorkers => req_Stop req = false ∧ aborted_in ss req = false ∧
      completed_in ss req = false ∧ Sub now (req_StartedAt req) ≤ timeout
  | ActionWaitClear => req_Stop req = true
  | ActionWaitInfo => req_Stop req = false ∧ aborted_in ss req = false ∧
      completed_in ss req = true ∧ req_Servers req = ss_Servers ss ∧
      ∃ vl vr, NewVersion (ss_Latest ss) = Ok vl ∧ NewVersion (req_Version req) = Ok vr ∧
               Version_Equal vl vr = true
  | ActionError => False
  end.
Proof.
  intros Hreq E Hl. unfold NextAction in E. rewrite bool_decide_eq_false_2 in E by done.
  minv. rewrite Hreq in E. fold (aborted_in ss req) (completed_in ss req) in E.
  destruct (req_Stop req) eqn:Hs; [by injection E as <-|].
  destruct (aborted_in ss req) eqn:Ha; [injection E as <-; auto|].
  destruct (completed_in ss req) eqn:Hc; simpl in E.
  2: { destruct (Z.ltb_spec timeout (Sub now (req_StartedAt req))); injection E as <-; auto. }
  case_bool_decide as Hsv; simpl in E; [|by injection E as <-]. minv.
  destruct (Version_Equal _ _) eqn:Hv; simpl in E; injection E as <-; eauto 12.
Qed.

Lemma NextAction_waiting ss timeout now req :
  ss_Request ss = Some req → ss_Latest ss ≠ "" →
  NextAction ss timeout now = Ok ActionWaitWorkers →
  (∃ vl, NewVersion (ss_Latest ss) = Ok vl) ∧ req_Stop req = false ∧ aborted_in ss req = false ∧
  completed_in ss req = false ∧ (timeout <? Sub now (req_StartedAt req)) = false.
Proof.
  intros Hreq Hl E. unfold NextAction in E. rewrite bool_decide_eq_false_2 in E by done.
  minv. rewrite Hreq in E. fold (aborted_in ss req) (completed_in ss req) in E.
  split; [eauto|]. destruct (req_Stop req); [done|]. destruct (aborted_in ss req); [done|].
  destruct (completed_in ss req); simpl in E; [|by destruct (timeout <? _)].
  case_bool_decide; simpl in E; [|done]. minv. by case_match.
Qed.

Definition with_statuses ss (m : gmap Z UpdateStatus) : Snapshot :=
  {| ss_Revision := ss_Revision ss; ss_Request := ss_Request ss; ss_Statuses := m;
     ss_Latest := ss_Latest ss; ss_Servers := ss_Servers ss |}.
End decisions.

(** ** Watching the workers *)
Section handler.
Context `{GoVersion} {W : Type} `{Etcd W} `{Notifier W}.

(** What the handler answers when the notifier returns. *)
Lemma handleStatus_result req lrn st w m w' m' b :
  handleStatus_h req lrn st (w, m) = ((w', m'), Ok b) →
  if decide (st_Version st = req_Version req) then
    m' = <[lrn := st]> m ∧
    b = (st_Cond st =? CondAbort) ||
        UpdateCompleted (req_Version req) (elems (req_Servers req)) (<[lrn := st]> m)
  else m' = m ∧ b = false.
Proof.
  unfold handleStatus_h. intros E. case_bool_decide as Hv; simpl in E.
  2: { rewrite decide_False by done. by injection E as <- <- <-. }
  rewrite decide_True by done.
  apply bind_ok in E as (v1 & m1 & [= <- <-] & (v2 & [] & [= <-] & E)%bind_ok). simpl in E.
  assert (∀ (n : M W unit) b', (_ ← ignore_error (on_world n); mret b') (w, <[lrn:=st]> m)
    = ((w', m'), Ok b) → m' = <[lrn:=st]> m ∧ b = b') as Hn.
  { intros n b' (v3 & [] & E3 & E4)%bind_ok. minv.
    apply bind_ok in E3 as (v4 & x & E5 & E6). minv.
    destruct x; apply on_world_inv in E5 as [_ E5]; done. }
  destruct (st_Cond st =? CondAbort); simpl; [by eapply Hn|].
  destruct (UpdateCompleted _ _ _); [by eapply Hn|]. by injection E as <- <- <-.
Qed.

(** While the leader waits for the workers, its watch ends on a status
    exactly when [NextAction] on the statuses seen so far is no longer to wait:
    it neither misses an abort or the last completion nor wakes up for nothing. *)
Theorem handleStatus_wakes ss timeout now req lrn st w w' m' b :
  ss_Request ss = Some req → ss_Latest ss ≠ "" →
  NextAction ss timeout now = Ok ActionWaitWorkers →
  handleStatus_h req lrn st (w, ss_Statuses ss) = ((w', m'), Ok b) →
  b = true ↔ NextAction (with_statuses ss m') timeout now ≠ Ok ActionWaitWorkers.
Proof.
  intros Hreq Hl Hwait Hh. apply handleStatus_result in Hh.
  destruct (NextAction_waiting _ _ _ _ Hreq Hl Hwait) as ([vl Hvl] & Hs & Ha & Hc & Ht).
  unfold NextAction. cbn [with_statuses ss_Latest ss_Request ss_Statuses ss_Servers].
  rewrite bool_decide_eq_false_2, Hvl, Hreq, Hs, Ht by done. simpl.
  case_decide as Hv; destruct Hh as [-> ->].
  2: { fold (aborted_in ss req) (completed_in ss req). rewrite Ha, Hc. simpl. naive_solver. }
  assert (some_aborted (req_Version req) (<[lrn:=st]> (ss_Statuses ss)) = (st_Cond st =? CondAbort)) as ->.
  { apply eq_bool_prop_intro. rewrite !Is_true_true, some_aborted_spec, Z.eqb_eq. split.
    - intros (lrn' & st' & [[<- <-]|[_ Hl']]%lookup_insert_Some & Hv' & Hc'); [done|].
      assert (aborted_in ss req = true) by (apply some_aborted_spec; eauto). congruence.
    - intros Hc'. exists lrn, st. by rewrite lookup_insert_eq. }
  destruct (st_Cond st =? CondAbort); simpl; [naive_solver|].
  destruct (UpdateCompleted _ _ _); simpl; [|naive_solver]. split; [|done]. intros _.
  case_bool_decide; simpl; [|done]. destruct (NewVersion (req_Version req)); simpl; try done.
  by case_match.
Qed.
End handler.

(** ** The leader's writes *)
Section leader.
Context `{GoVersion} {W : Type} `{EtcdLaws W} `{Clock W} `{Notifier W}.
Implicit Types (w : W).

(** Reading the clock and notifying write nothing to etcd; others may meanwhile. *)
Hypothesis clock_law : ∀ w w' r, clock_now w = (w', r) → view w `prefix_of` view w'.
Hypothesis info_law : ∀ req msg w w' r, NotifyInfo req msg w = (w', r) → view w `prefix_of` view w'.

Lemma ignored_extends {A} (m : M W A) w w' r :
  (∀ w w' r, m w = (w', r) → view w `prefix_of` view w') →
  ignore_error m w = (w', r) → view w `prefix_of` view w'.
Proof.
  intros Hm. unfold ignore_error, mbind, M_bind, attempt. destruct (m w) as [w1 o] eqn:E.
  apply Hm in E. destruct o; by intros [= <- <-].
Qed.

(** The request [req] was stored by a commit that the leader key guards, at or
    after the point [l]. *)
Definition stored_by_leader (leaderKey : string) (l : Log) (w' : W) (req : UpdateRequest) : Prop :=
  ∃ l2 data, l `prefix_of` l2 ∧ is_Some (store l2 !! leaderKey) ∧ Marshal req = Ok data ∧
    ∃ rest, commit l2 (OpPut KeyCurrent data :: rest) `prefix_of` view w' ∧
            (rest = [] ∨ rest = [OpDeletePrefix KeyWorkerStatusPrefix]).

Lemma NewSnapshot_at w w' ss :
  NewSnapshot w = (w', Ok ss) →
  ∃ l, view w `prefix_of` l ∧ l `prefix_of` view w' ∧ snapshot_at l = Ok ss.
Proof. intros (l & ? & ? & ? & ?)%NewSnapshot_ok. eauto. Qed.

End leader.

(** ** Releases *)
Lemma isNewerThan_spec r t :
  isNewerThan r t = true ↔ nr_date t ≤ nr_date r ∧ nr_version t < nr_version r.
Proof.
  unfold isNewerThan, Before. rewrite andb_true_iff, negb_true_iff, Z.ltb_ge, Z.ltb_lt. done.
Qed.

(** The release recorded as [tag'] is newer than [tag]. *)
Definition newer_release (tag tag' : string) : Prop :=
  ∃ r r', newNecoRelease tag = Ok r ∧ newNecoRelease tag' = Ok r' ∧ isNewerThan r' r = true.

Lemma newer_release_trans a b c : newer_release a b → newer_release b c → newer_release a c.
Proof.
  intros (ra & rb & Ha & Hb & Hab) (rb' & rc & Hb' & Hc & Hbc). exists ra, rc.
  rewrite Hb in Hb'. injection Hb' as <-. split_and!; [done|done|].
  apply isNewerThan_spec in Hab, Hbc. apply isNewerThan_spec. lia.
Qed.

Lemma newer_release_irrefl a : ¬ newer_release a a.
Proof.
  intros (r & r' & Hr & Hr' & Hn). rewrite Hr in Hr'. injection Hr' as <-.
  apply isNewerThan_spec in Hn. lia.
Qed.

Section checker.
Context {W : Type} `{Etcd W} `{GitHub W} `{Clock W} `{GoVersion} `{Cron}.

Lemma checker_update_newer leaderKey check times zone w cur w' cur' r :
  checker_update leaderKey check times zone (w, cur) = ((w', cur'), r) →
  cur' = cur ∨ newer_release cur cur'.
Proof.
  unfold checker_update. unfold mbind at 1, M_bind at 1.
  destruct (on_world clock_now (w, cur)) as [[w1 cur1] o] eqn:E1.
  apply on_world_inv in E1 as [_ E1]. simpl in E1. subst cur1.
  destruct o as [now| | |]; try (intros [= <- <- <-]; by left).
  destruct (is_within_schedule _ _ _); simpl; [|intros [= <- <- <-]; by left].
  unfold mbind at 1, M_bind at 1.
  destruct (attempt (on_world check) (w1, cur)) as [[w2 cur2] o] eqn:E2.
  assert (cur2 = cur) as ->.
  { unfold attempt in E2. destruct (on_world check (w1, cur)) as [v o'] eqn:E3.
    apply on_world_inv in E3 as [_ E3]. destruct o'; injection E2 as -> <-; done. }
  destruct o as [[e|latest]| | |]; try (intros [= <- <- <-]; by left).
  { destruct e; intros [= <- <- <-]; by left. }
  unfold mbind, M_bind, get_local, lift, put_local. simpl.
  case_bool_decide; [intros [= <- <- <-]; by left|].
  destruct (newNecoRelease cur) as [rc| | |] eqn:Ec; try (intros [= <- <- <-]; by left).
  destruct (newNecoRelease latest) as [rl| | |] eqn:El; try (intros [= <- <- <-]; by left).
  destruct (isNewerThan rl rc) eqn:En; simpl; [|intros [= <- <- <-]; by left].
  intros E. right. exists rc, rl. split; [done|]. split; [|done].
  assert (cur' = latest) as ->; [|done].
  unfold UpdateNecoRelease, leader_txn, mbind, M_bind in E. cbn [etcd_txn local_etcd] in E.
  destruct (on_world _ (w2, latest)) as [[w3 cur3] o] eqn:E3.
  apply on_world_inv in E3 as [_ E3]. simpl in E3. subst cur3.
  destruct o; try (by injection E as <- <- <-). by case_match; injection E as <- <- <-.
Qed.

(** However long the release checker runs, the release it holds (and records)
    only ever moves to a newer one. *)
Theorem checker_monotone fuel leaderKey check times zone interval w cur w' cur' r :
  checker_loop leaderKey fuel check times zone interval (w, cur) = ((w', cur'), r) →
  cur' = cur ∨ newer_release cur cur'.
Proof.
  revert w cur. induction fuel as [|fuel IH]; intros w cur E; cbn [checker_loop] in E.
  { injection E as <- <- <-. by left. }
  unfold mbind at 1, M_bind at 1 in E.
  destruct (checker_update _ _ _ _ (w, cur)) as [[w1 cur1] o] eqn:E1.
  apply checker_update_newer in E1. destruct o as [[]| | |]; try (by injection E as <- <- <-).
  unfold mbind at 1, M_bind at 1 in E.
  destruct (on_world _ (w1, cur1)) as [[w2 cur2] o] eqn:E2.
  apply on_world_inv in E2 as [_ E2]. simpl in E2. subst cur2.
  destruct o as [[]| | |]; try (by injection E as <- <- <-).
  apply IH in E. destruct E1 as [->|E1], E as [->|E]; eauto using newer_release_trans.
Qed.
End checker.

(** ** The latest published release *)
Section published.
Context `{GoVersion} {W : Type} `{GitHub W}.
Variable tagPrefix : string.

(** [Version.Compare] is a total preorder, as go-version documents. *)
Hypothesis compare_refl : ∀ a, Version_Compare a a = 0.
Hypothesis compare_flip : ∀ a b, 0 < Version_Compare a b → Version_Compare b a ≤ 0.
Hypothesis compare_trans : ∀ a b c,
  Version_Compare a b ≤ 0 → Version_Compare b c ≤ 0 → Version_Compare a c ≤ 0.

(** GitHub's listing does not change while it is read. *)
Variable pages : Z → ReleasePage.
Hypothesis pages_law : ∀ p (w w' : W) pg, gh_ListReleases p w = (w', Ok pg) → pg = pages p.

Definition candidates (rs : list Release) : list GVersion := omap (release_version tagPrefix) rs.

Definition greatest (vs : list GVersion) (v : GVersion) : Prop :=
  v ∈ vs ∧ ∀ v', v' ∈ vs → Version_Compare v' v ≤ 0.

Lemma scan_releases_spec rs vs latest :
  match latest with None => vs = [] | Some v => greatest vs v end →
  match scan_releases tagPrefix rs latest with
  | None => vs ++ candidates rs = []
  | Some v => greatest (vs ++ candidates rs) v
  end.
Proof.
  revert vs latest. induction rs as [|r rs IH]; intros vs latest Hl; cbn [scan_releases].
  { unfold candidates. simpl. rewrite app_nil_r. by destruct latest. }
  assert (candidates (r :: rs) =
    match release_version tagPrefix r with Some v => v :: candidates rs | None => candidates rs end) as ->.
  { unfold candidates. simpl. by destruct (release_version tagPrefix r). }
  destruct (release_version tagPrefix r) as [v|]; [|by apply IH].
  replace (vs ++ v :: candidates rs) with ((vs ++ [v]) ++ candidates rs) by by rewrite <-app_assoc.
  apply IH. unfold newer. destruct latest as [l|].
  2: { subst vs. split; [set_solver|]. intros v' ->%list_elem_of_singleton. by rewrite compare_refl. }
  destruct Hl as [Hin Hmax]. destruct (Z.ltb_spec 0 (Version_Compare v l)) as [Hgt|Hle].
  - split; [set_solver|]. intros v' [Hv'| ->%list_elem_of_singleton]%elem_of_app;
      [|by rewrite compare_refl]. eauto.
  - split; [set_solver|]. intros v' [Hv'| ->%list_elem_of_singleton]%elem_of_app; eauto.
Qed.

(** All releases of the pages from [p] on. *)
Fixpoint listed_from (fuel : nat) (p : Z) : list Release :=
  match fuel with
  | O => []
  | S fuel => pg_releases (pages p) ++
      (if pg_NextPage (pages p) =? 0 then [] else listed_from fuel (pg_NextPage (pages p)))
  end.

Lemma published_loop_spec fuel p vs latest (w w' : W) tag :
  match latest with None => vs = [] | Some v => greatest vs v end →
  published_loop fuel tagPrefix p latest w = (w', Ok tag) →
  ∃ v, tag = Version_Original v ∧ greatest (vs ++ candidates (listed_from fuel p)) v.
Proof.
  revert p vs latest w. induction fuel as [|fuel IH]; intros p vs latest w Hl E; [done|].
  cbn [published_loop listed_from] in *. apply bind_ok in E as (w1 & r & Er & E).
  apply attempt_ok in Er. destruct r as [e|pg]; [done|]. apply pages_law in Er as ->.
  pose proof (scan_releases_spec (pg_releases (pages p)) vs latest Hl) as Hs.
  unfold candidates in *. rewrite omap_app.
  destruct (pg_NextPage (pages p) =? 0).
  - rewrite app_nil_r. destruct (scan_releases _ _ _) as [v|]; [|done]. minv. eauto.
  - rewrite app_assoc. by eapply IH.
Qed.

(** The release looked up for staging and development is the greatest version
    among all published releases with the wanted prefix, over all pages, drafts
    and unparsable tags aside. *)
Theorem GetLatestPublishedTag_greatest fuel (w w' : W) tag :
  GetLatestPublishedTag fuel tagPrefix w = (w', Ok tag) →
  ∃ v, tag = Version_Original v ∧ greatest (candidates (listed_from fuel 0)) v.
Proof. intros E. by eapply (published_loop_spec fuel 0 [] None). Qed.
End published.

(** ** The theorems at concrete inputs *)
Module Witness.
(** A version scheme for the examples: decimal numbers. *)
#[local] Instance number_version : GoVersion := {
  GVersion := string * Z;
  NewVersion s := n ← Atoi s; Ok (s, n);
  Version_Equal a b := a.2 =? b.2;
  Version_Compare a b := Z.sgn (a.2 - b.2);
  Version_Original a := a.1;
}.

(** A clock that stands still, a silent notifier and two pages of releases. *)
#[local] Instance still_clock : Clock Sim := {
  clock_now := mret (1700000100 * Second);
  clock_after _ := mret true;
}.
#[local] Instance silent : Notifier Sim := {
  NotifyInfo _ _ := mret ();
  NotifySucceeded _ := mret ();
  NotifyFailure _ _ := mret ();
}.
Definition release (tag : string) : Release := {| rel_TagName := Some tag; rel_Draft := false |}.
Definition two_pages (p : Z) : ReleasePage :=
  if p =? 0 then
    {| pg_releases := [release "release-11"; release "test-20"; {| rel_TagName := Some "release-30"; rel_Draft := true |}];
       pg_NextPage := 2 |}
  else {| pg_releases := [release "release-12"; release "release-x"]; pg_NextPage := 0 |}.
#[local] Instance hub : GitHub Sim := {
  gh_GetLatestRelease := mret (release "release-11");
  gh_ListReleases p := mret (two_pages p);
}.

Definition cur11 : UpdateRequest :=
  {| req_Version := "11"; req_Servers := Some [0; 1]; req_Stop := false;
     req_StartedAt := 1700000000 * Second |}.
Definition done11 : UpdateStatus :=
  {| st_Version := "11"; st_Step := 18; st_Cond := CondComplete; st_Message := "" |}.
Definition run11 : UpdateStatus :=
  {| st_Version := "11"; st_Step := 18; st_Cond := CondRunning; st_Message := "" |}.
Definition snap (m : gmap Z UpdateStatus) : Snapshot :=
  {| ss_Revision := 9; ss_Request := Some cur11; ss_Statuses := m; ss_Latest := "12";
     ss_Servers := Some [0; 1] |}.
Definition both_done : gmap Z UpdateStatus := {[0 := done11; 1 := done11]}.
Definition one_left : gmap Z UpdateStatus := {[0 := done11; 1 := run11]}.

Lemma NextAction_safe_witness :
  NextAction (snap both_done) (60 * Minute) 0 = Ok ActionNewVersion ∧
  req_Stop cur11 = false ∧ aborted_in (snap both_done) cur11 = false ∧
  completed_in (snap both_done) cur11 = true ∧ req_Servers cur11 = ss_Servers (snap both_done) ∧
  ∃ vl vr, NewVersion "12" = Ok vl ∧ NewVersion "11" = Ok vr ∧ Version_Equal vl vr = false.
Proof.
  split; [vm_compute; reflexivity|].
  apply (NextAction_safe (snap both_done) (60 * Minute) 0 cur11 ActionNewVersion);
    [reflexivity|vm_compute; reflexivity|discriminate].
Defined.

Lemma handleStatus_wakes_witness :
  let m' := <[1 := done11]> one_left in
  (handleStatus_h cur11 1 done11 (elected, one_left)).2 = Ok true ∧
  (true = true ↔ NextAction (with_statuses (snap one_left) m') (60 * Minute) (1700000100 * Second)
                 ≠ Ok ActionWaitWorkers).
Proof.
  split; [vm_compute; reflexivity|].
  apply (handleStatus_wakes (snap one_left) (60 * Minute) (1700000100 * Second) cur11 1 done11
           elected elected (<[1 := done11]> one_left) true);
    [reflexivity|discriminate|vm_compute; reflexivity|vm_compute; reflexivity].
Defined.

(** Release 12 has been recorded and the update to 11 is complete. *)
Definition ready : Sim :=
  world [[EvPut leader_key "host"]; [EvPut KeyNecoRelease "12"]; [EvPut (keyBootServer 0) ""];
         [EvPut (keyBootServer 1) ""]; [EvPut KeyCurrent (text_of cur11)];
         [EvPut (keyStatus 0) (text_of done11)]; [EvPut (keyStatus 1) (text_of done11)]].


#[local] Instance every_minute : Cron := {
  Schedule := Z; Location := Z; ParseStandard _ := Ok 0; LoadLocation _ := Ok 0;
  Next s zone now := now + Minute;
}.

Definition times : list (@Schedule every_minute) := [0].
Definition zone : @Location every_minute := 0.
Definition found : M Sim string := mret "2024.05.09-30000".

Lemma checker_monotone_witness :
  let run := checker_loop leader_key 2 found times zone Minute (elected, "2024.04.18-29900") in
  run.1.2 = "2024.05.09-30000" ∧
  ("2024.05.09-30000" = "2024.04.18-29900" ∨ newer_release "2024.04.18-29900" "2024.05.09-30000").
Proof.
  split; [vm_compute; reflexivity|].
  apply (checker_monotone 2 leader_key found times zone Minute elected "2024.04.18-29900"
    (checker_loop leader_key 2 found times zone Minute (elected, "2024.04.18-29900")).1.1
    "2024.05.09-30000"
    (checker_loop leader_key 2 found times zone Minute (elected, "2024.04.18-29900")).2).
  vm_compute; reflexivity.
Defined.

Lemma GetLatestPublishedTag_greatest_witness :
  ∃ v, "12" = Version_Original v ∧ greatest (candidates "release-" (listed_from two_pages 5 0)) v.
Proof.
  apply (GetLatestPublishedTag_greatest (W := Sim) "release-") with (fuel := 5%nat) (w := elected) (w' := elected).
  - intros a. simpl. by rewrite Z.sub_diag.
  - intros a b. simpl. lia.
  - intros a b c. simpl. lia.
  - by intros p w w' pg [= <- <-].
  - vm_compute; reflexivity.
Defined.
End Witness.
