(* ===== verification/StateSetter.v ===== *)
(** * sabakan-state-setter ([pkg/sabakan-state-setter/])

    The controller that watches the machines of the data center and sets their state
    in sabakan: unreachable, unhealthy (after a grace period) or healthy by serf,
    Alertmanager and the hardware monitor, retired once a retiring machine's
    encryption keys are gone.  Its only state is the registry of machines that are
    waiting out their grace period.

    Sabakan, serf, Alertmanager, the metrics exporter and the [neco] command are
    outside: the classes below.  The metrics of the machines are fetched one after
    the other here, in goroutines that share nothing in the code. *)
From S2P Require Import Prelude GoStr GoTime Etcd Worlds.
From Stdlib Require Import Floats.SpecFloat.

Local Open Scope Z_scope.

(** ** Sabakan's machine states *)
Class MachineStates := {
  StateUninitialized : string;
  StateHealthy : string;
  StateUnhealthy : string;
  StateUnreachable : string;
  StateUpdating : string;
  StateRetiring : string;
  StateRetired : string;
  MachineState_IsValid : string → bool;
}.
(** [healthcheck.go]'s own states. *)
Definition doNotChangeState := "".
Definition stateUnhealthyImmediate := "unhealthy_immediate".

(** What the code takes for granted of the constants of the sabakan package. *)
Class MachineStatesLaws `{MachineStates} := {
  states_distinct : NoDup [doNotChangeState; stateUnhealthyImmediate; StateUninitialized;
    StateHealthy; StateUnhealthy; StateUnreachable; StateUpdating; StateRetiring; StateRetired];
  states_valid s : s ∈ [StateUninitialized; StateHealthy; StateUnhealthy; StateUnreachable;
    StateUpdating; StateRetiring; StateRetired] → MachineState_IsValid s = true;
}.

(** ** [sabakan.go] *)
Record machine := { m_Serial : string; m_Type : string; m_IPv4Addr : string; m_State : string }.
#[export] Instance machine_eq_dec : EqDecision machine.
Proof. solve_decision. Defined.

Record label := { lb_Name : string; lb_Value : string }.
Record searchMachine := {
  sm_Serial : string;
  sm_Labels : list label;
  sm_IPv4 : list string;
  sm_State : string;
}.

(** The exchanges with sabakan: [requestGQL] and decoding its answer, and
    sabakan's own client. *)
Class SabakanServer (W : Type) := {
  gql_searchMachines : option (list string) → M W (list searchMachine);
  gql_setMachineState : string → string → M W unit;
  sabakan_CryptsDelete : string → M W unit;
}.

Section sabakan.
Context `{MachineStates} {W : Type} `{SabakanServer W}.

Definition toMachineState (str : string) : string :=
  if bool_decide (str = "UNINITIALIZED") then StateUninitialized
  else if bool_decide (str = "HEALTHY") then StateHealthy
  else if bool_decide (str = "UNHEALTHY") then StateUnhealthy
  else if bool_decide (str = "UNREACHABLE") then StateUnreachable
  else if bool_decide (str = "UPDATING") then StateUpdating
  else if bool_decide (str = "RETIRING") then StateRetiring
  else if bool_decide (str = "RETIRED") then StateRetired
  else "".

Fixpoint findLabelValue (labels : list label) (name : string) : string :=
  match labels with
  | [] => ""
  | l :: labels => if bool_decide (lb_Name l = name) then lb_Value l else findLabelValue labels name
  end.

Definition machineTypeLabelName := "machine-type".

Fixpoint to_machines (ms : list searchMachine) : outcome (list machine) :=
  match ms with
  | [] => Ok []
  | m :: ms =>
      ipv4 ← match sm_IPv4 m with ip :: _ => Ok ip | [] => Panic "index out of range" end;
      rest ← to_machines ms;
      Ok ({| m_Serial := sm_Serial m; m_Type := findLabelValue (sm_Labels m) machineTypeLabelName;
             m_IPv4Addr := ipv4; m_State := toMachineState (sm_State m) |} :: rest)
  end.
Definition getMachines (having : option (list string)) : M W (list machine) :=
  resp ← gql_searchMachines having; lift (to_machines resp).
Definition GetAllMachines : M W (list machine) := getMachines None.
Definition GetRetiredMachines : M W (list machine) := getMachines (Some [StateRetired]).

Definition UpdateSabakanState (serial state : string) : M W unit :=
  if negb (MachineState_IsValid state) then fail (ErrMsg ("invalid state: " +:+ state))
  else gql_setMachineState serial state.
Definition CryptsDelete (serial : string) : M W unit := sabakan_CryptsDelete serial.
End sabakan.

(** ** [serf.go] *)
Record serfMember := { sf_Addr : string; sf_Status : string; sf_Tags : gmap string string }.
Class SerfServer (W : Type) := { serf_Members : M W (list serfMember) }.

Record serfStatus := { ss_Status : string; ss_SystemdUnitsFailed : option string }.
Definition systemdUnitsFailedTag := "systemd-units-failed".

Section serf.
Context {W : Type} `{SerfServer W}.
Definition serf_status_of (m : serfMember) : serfStatus :=
  {| ss_Status := sf_Status m; ss_SystemdUnitsFailed := sf_Tags m !! systemdUnitsFailedTag |}.
Definition serf_statuses (members : list serfMember) : gmap string serfStatus :=
  foldl (λ ret m, <[sf_Addr m := serf_status_of m]> ret) ∅ members.
Definition GetSerfStatus : M W (gmap string serfStatus) :=
  members ← serf_Members; mret (serf_statuses members).
End serf.

(** ** Metrics ([prometheus.go] and the exporter's data) *)
Abbreviation float64 := spec_float.
Record metric := { mt_Label : list (string * string); mt_Gauge : option float64 }.
Abbreviation MetricFamily := (list metric).
Class PromServer (W : Type) := { ConnectMetricsServer : string → M W (gmap string MetricFamily) }.

(** ** [config.go] *)
Record selector := { sl_Labels : gmap string string; sl_LabelPrefix : gmap string string }.
Record targetMetric := {
  tm_Name : string;
  tm_Selector : option selector;
  tm_MinimumHealthyCount : option Z;
}.
Record machineType := {
  mty_Name : string;
  mty_MetricsCheckList : list targetMetric;
  mty_GracePeriod : Duration;
}.
Record triggerAlert := {
  ta_Name : string;
  ta_Labels : gmap string string;
  ta_AddressLabel : string;
  ta_SerialLabel : string;
  ta_State : string;
}.
Record alertMonitor := { al_AlertmanagerEndpoint : string; al_TriggerAlerts : list triggerAlert }.
(** As YAML decodes it: an item of the list of machine types may be [null]. *)
Record config := {
  cf_ShutdownSchedule : string;
  cf_MachineTypes : list (option machineType);
  cf_AlertMonitor : option alertMonitor;
}.

(** The value of the first label with name [k] passes [ok]. *)
Fixpoint label_passes (labels : list (string * string)) (k : string) (ok : string → bool) : bool :=
  match labels with
  | [] => false
  | (name, value) :: labels => if bool_decide (name = k) then ok value else label_passes labels k ok
  end.
(** Go ranges over the selector's maps in an unspecified order; all must pass. *)
Definition isMetricMatchedLabels (s : selector) (m : metric) : bool :=
  forallb (λ '(k, v), label_passes (mt_Label m) k (λ x, bool_decide (x = v))) (map_to_list (sl_Labels s)).
Definition isMetricHasPrefix (s : selector) (m : metric) : bool :=
  forallb (λ '(k, p), label_passes (mt_Label m) k (λ x, HasPrefix x p)) (map_to_list (sl_LabelPrefix s)).
Definition Match (s : option selector) (mf : MetricFamily) : list metric :=
  match s with
  | None => mf
  | Some s => List.filter (λ m, isMetricMatchedLabels s m && isMetricHasPrefix s m) mf
  end.

Section parse.
Context `{MachineStates}.

Definition with_grace (t : machineType) : machineType :=
  if mty_GracePeriod t =? 0 then
    {| mty_Name := mty_Name t; mty_MetricsCheckList := mty_MetricsCheckList t; mty_GracePeriod := Hour |}
  else t.
Fixpoint machine_types (ts : list (option machineType)) (m : gmap string machineType)
    : outcome (gmap string machineType) :=
  match ts with
  | [] => Ok m
  | None :: _ => Panic "nil pointer dereference"
  | Some t :: ts => machine_types ts (<[mty_Name t := with_grace t]> m)
  end.

Fixpoint check_triggers (ts : list triggerAlert) : outcome unit :=
  match ts with
  | [] => Ok ()
  | t :: ts =>
      if Bool.eqb (bool_decide (ta_AddressLabel t = "")) (bool_decide (ta_SerialLabel t = "")) then
        Err (ErrMsg ("exactly one of `address-label` and `serial-label` is required for " +:+
                     dquote +:+ ta_Name t +:+ dquote))
      else if bool_decide (ta_State t = StateUnreachable) then check_triggers ts
      else if bool_decide (ta_State t = StateUnhealthy) then check_triggers ts
      else Err (ErrMsg ("invalid state " +:+ dquote +:+ ta_State t +:+ dquote +:+ " in " +:+
                        dquote +:+ ta_Name t +:+ dquote))
  end.

(** [parseConfig] after the YAML is decoded. *)
Definition parseConfig (cfg : config)
    : outcome (string * gmap string machineType * option alertMonitor) :=
  match cf_MachineTypes cfg with
  | [] => Err (ErrMsg "machine-types are not defined")
  | ts =>
      machineTypes ← machine_types ts ∅;
      _ ← match cf_AlertMonitor cfg with
          | None => Ok ()
          | Some am => check_triggers (al_TriggerAlerts am)
          end;
      Ok (cf_ShutdownSchedule cfg, machineTypes, cf_AlertMonitor cfg)
  end.
End parse.

(** ** [alertmanager.go] *)
Record alertStatus := { as_AlertName : string; as_State : string }.
(** The labels of each alert that is not silenced, and the one that holds its name. *)
Class AlertLabels := { AlertNameLabel : string }.
Class Alertmanager (W : Type) := { GetAlerts : M W (list (gmap string string)) }.

Definition isSubsetAlertLabels (triggerLabels actualLabels : gmap string string) : bool :=
  forallb (λ '(k, v), bool_decide (actualLabels !! k = Some v)) (map_to_list triggerLabels).

Section alerts.
Context `{MachineStates} `{AlertLabels} {W : Type} `{Alertmanager W}.

(** [alerts[name]]: the alerts of that name, in the order they were listed. *)
Definition alerts_named (raw : list (gmap string string)) (name : string) : list (gmap string string) :=
  List.filter (λ a, bool_decide (a !! AlertNameLabel = Some name)) raw.
Definition machinesByAddress (ms : list machine) : gmap string machine :=
  foldl (λ acc m, <[m_IPv4Addr m := m]> acc) ∅ ms.
Definition machinesBySerial (ms : list machine) : gmap string machine :=
  foldl (λ acc m, <[m_Serial m := m]> acc) ∅ ms.

(** The machine an alert is about; [None] leaves the alert out. *)
Definition alert_target (ms : list machine) (t : triggerAlert) (alert : gmap string string)
    : option machine :=
  by_address ← (if bool_decide (ta_AddressLabel t = "") then Some None
                else address ← alert !! ta_AddressLabel t; Some <$> machinesByAddress ms !! address);
  target ← (if bool_decide (ta_SerialLabel t = "") then Some by_address
            else serial ← alert !! ta_SerialLabel t; Some <$> machinesBySerial ms !! serial);
  target.

Definition alert_step (ms : list machine) (t : triggerAlert)
    (statuses : gmap string alertStatus) (alert : gmap string string) : gmap string alertStatus :=
  if negb (isSubsetAlertLabels (ta_Labels t) alert) then statuses
  else
    match alert_target ms t alert with
    | None => statuses
    | Some target =>
        let severe := match statuses !! m_IPv4Addr target with
                      | Some st => bool_decide (as_State st = StateUnreachable)
                      | None => false
                      end in
        if severe then statuses
        else <[m_IPv4Addr target := {| as_AlertName := ta_Name t; as_State := ta_State t |}]> statuses
    end.
Definition alert_statuses (ms : list machine) (triggers : list triggerAlert)
    (raw : list (gmap string string)) : gmap string alertStatus :=
  foldl (λ statuses t, foldl (alert_step ms t) statuses (alerts_named raw (ta_Name t))) ∅ triggers.

(** [ac] is [nil] when no alert monitor is configured. *)
Definition GetAlertStatuses (ac : option (list triggerAlert)) (ms : list machine)
    : M W (gmap string alertStatus) :=
  match ac with
  | None => mret ∅
  | Some triggers => raw ← GetAlerts; mret (alert_statuses ms triggers raw)
  end.
End alerts.

(** ** [healthcheck.go] *)
Definition monitorHWStatusOK : float64 := S754_zero false.

Record machineStateSource := {
  mss_serial : string;
  mss_ipv4 : string;
  mss_serfStatus : option serfStatus;
  mss_alertStatus : option alertStatus;
  mss_machineType : option machineType;
  mss_metrics : option (gmap string MetricFamily);
}.

Definition newMachineStateSource (m : machine) (serfStatuses : gmap string serfStatus)
    (alertStatuses : gmap string alertStatus) (machineTypes : gmap string machineType)
    : machineStateSource :=
  {| mss_serial := m_Serial m; mss_ipv4 := m_IPv4Addr m;
     mss_serfStatus := serfStatuses !! m_IPv4Addr m;
     mss_alertStatus := alertStatuses !! m_IPv4Addr m;
     mss_machineType := machineTypes !! m_Type m; mss_metrics := None |}.

Section healthcheck.
Context `{MachineStates}.

Definition gauge_ok (m : metric) : bool :=
  match mt_Gauge m with Some v => SFeqb v monitorHWStatusOK | None => false end.
Definition healthyCount (matched : list metric) : Z :=
  Z.of_nat (length (List.filter gauge_ok matched)).

Definition checkTarget (mf : MetricFamily) (target : targetMetric) : string :=
  let matched := Match (tm_Selector target) mf in
  match matched with
  | [] => StateUnhealthy
  | _ =>
      match tm_MinimumHealthyCount target with
      | None =>
          if negb (healthyCount matched =? Z.of_nat (length matched)) then StateUnhealthy
          else StateHealthy
      | Some minCount => if healthyCount matched <? minCount then StateUnhealthy else StateHealthy
      end
  end.

Fixpoint check_targets (metrics : gmap string MetricFamily) (ts : list targetMetric) : string :=
  match ts with
  | [] => StateHealthy
  | t :: ts =>
      match metrics !! tm_Name t with
      | None => StateUnhealthy
      | Some mf =>
          let res := checkTarget mf t in
          if negb (bool_decide (res = StateHealthy)) then res else check_targets metrics ts
      end
  end.

Definition decideByMonitorHW (mss : machineStateSource) : string :=
  match mss_machineType mss with
  | None => StateUnhealthy
  | Some mt =>
      match mty_MetricsCheckList mt with
      | [] => StateHealthy
      | ts =>
          match mss_metrics mss with
          | None => StateUnhealthy
          | Some metrics => check_targets metrics ts
          end
      end
  end.

Definition decideMachineStateCandidate (mss : machineStateSource) : string :=
  match mss_serfStatus mss with
  | None => StateUnreachable
  | Some serf =>
      if negb (bool_decide (ss_Status serf = "alive")) then StateUnreachable
      else
        match mss_alertStatus mss with
        | Some alert =>
            if bool_decide (as_State alert = StateUnhealthy) then stateUnhealthyImmediate
            else as_State alert
        | None =>
            if match ss_SystemdUnitsFailed serf with
               | Some failed => negb (bool_decide (failed = ""))
               | None => false
               end then StateUnhealthy
            else
              let state := decideByMonitorHW mss in
              if negb (bool_decide (state = StateHealthy)) then state
              else
                match ss_SystemdUnitsFailed serf with
                | None => doNotChangeState
                | Some _ => StateHealthy
                end
        end
  end.
End healthcheck.

(** ** [controller.go] *)

(** [necocommand.go]: the output, with the error when the command failed. *)
Class NecoCmd (W : Type) := {
  PowerStop : string → M W string;
  PowerStatus : string → M W string;
  TPMClear : string → M W string;
}.

(** The configured part of [Controller]. *)
Record Settings := {
  c_parallelSize : Z;
  c_machineTypes : gmap string machineType;
  c_triggerAlerts : option (list triggerAlert);
}.

Section controller.
Context `{MachineStates} {W : Type} `{SabakanServer W} `{SerfServer W} `{PromServer W}
  `{AlertLabels} `{Alertmanager W} `{NecoCmd W} `{Clock W}.
Variable c : Settings.

(** The registry [unhealthyMachines] is the local state. *)
Abbreviation Registry := (gmap string Time).
Abbreviation MS := (M (W * Registry)).

Definition RegisterUnhealthy (m : machine) (now : Time) : MS bool :=
  unhealthyMachines ← get_local;
  match unhealthyMachines !! m_Serial m with
  | None => _ ← put_local (<[m_Serial m := now]> unhealthyMachines); mret false
  | Some startTime =>
      mret match c_machineTypes c !! m_Type m with
           | None => true
           | Some mt => Before (Add startTime (mty_GracePeriod mt)) now
           end
  end.
Definition ClearUnhealthy (m : machine) : MS unit :=
  unhealthyMachines ← get_local; put_local (delete (m_Serial m) unhealthyMachines).

(** States that are checked. *)
Definition checked (m : machine) : bool :=
  bool_decide (m_State m = StateUninitialized) || bool_decide (m_State m = StateHealthy) ||
  bool_decide (m_State m = StateUnhealthy) || bool_decide (m_State m = StateUnreachable).

Definition has_checks (mss : machineStateSource) : bool :=
  match mss_machineType mss with
  | None => false
  | Some mt => match mty_MetricsCheckList mt with [] => false | _ => true end
  end.
Definition with_metrics (mss : machineStateSource) (mfs : gmap string MetricFamily) : machineStateSource :=
  {| mss_serial := mss_serial mss; mss_ipv4 := mss_ipv4 mss; mss_serfStatus := mss_serfStatus mss;
     mss_alertStatus := mss_alertStatus mss; mss_machineType := mss_machineType mss;
     mss_metrics := Some mfs |}.

(** One goroutine per machine with metrics to check, [parallelSize] at a time: with
    none at a time they would wait for ever. *)
Fixpoint fetch_metrics (sources : list machineStateSource) : MS (list machineStateSource) :=
  match sources with
  | [] => mret []
  | mss :: sources =>
      mss ← (if has_checks mss then
               if c_parallelSize c =? 0 then blocked
               else
                 r ← attempt (on_world (ConnectMetricsServer (mss_ipv4 mss)));
                 mret match r with inr mfs => with_metrics mss mfs | inl _ => mss end
             else mret mss);
      rest ← fetch_metrics sources;
      mret (mss :: rest)
  end.

Definition decide_states (sources : list machineStateSource) : gmap string string :=
  foldl (λ acc mss,
    let newState := decideMachineStateCandidate mss in
    if bool_decide (newState = doNotChangeState) then acc else <[mss_serial mss := newState]> acc)
    ∅ sources.

Definition machineHealthCheck (machines : list machine) (serfStatus : gmap string serfStatus)
    (alertStatuses : gmap string alertStatus) : MS (gmap string string) :=
  let sources := map (λ m, newMachineStateSource m serfStatus alertStatuses (c_machineTypes c))
                   (List.filter checked machines) in
  if c_parallelSize c <? 0 then panic "makechan: size out of range"
  else sources ← fetch_metrics sources; mret (decide_states sources).

Fixpoint machineRetire (machines : list machine) (newStateMap : gmap string string)
    : MS (gmap string string) :=
  match machines with
  | [] => mret newStateMap
  | m :: machines =>
      if negb (bool_decide (m_State m = StateRetiring)) then machineRetire machines newStateMap
      else
        r ← attempt (on_world (CryptsDelete (m_Serial m)));
        match r with
        | inl _ => machineRetire machines newStateMap
        | inr _ =>
            r ← attempt (on_world (TPMClear (m_Serial m)));
            match r with
            | inl _ => machineRetire machines newStateMap
            | inr _ => machineRetire machines (<[m_Serial m := StateRetired]> newStateMap)
            end
        end
  end.

(** The loop over the machines at the end of [runOnce]. *)
Definition set_state (newStateMap : gmap string string) (now : Time) (m : machine) : MS unit :=
  let update (newState : string) : MS unit :=
    ignore_error (on_world (UpdateSabakanState (m_Serial m) newState)) in
  match newStateMap !! m_Serial m with
  | None => ClearUnhealthy m
  | Some newState =>
      if bool_decide (newState = m_State m) ||
         (bool_decide (newState = stateUnhealthyImmediate) && bool_decide (m_State m = StateUnhealthy))
      then ClearUnhealthy m
      else if bool_decide (newState = stateUnhealthyImmediate) then
        _ ← ClearUnhealthy m; update StateUnhealthy
      else if bool_decide (newState = StateUnhealthy) then
        ok ← RegisterUnhealthy m now;
        if (ok : bool) then update newState else mret ()
      else _ ← ClearUnhealthy m; update newState
  end.

Definition runOnce : MS unit :=
  r ← attempt (on_world GetAllMachines);
  match r with
  | inl _ => mret ()
  | inr [] => mret ()
  | inr machines =>
      serfStatus ← on_world GetSerfStatus;
      r ← attempt (on_world (GetAlertStatuses (c_triggerAlerts c) machines));
      let alertStatuses := match r with inr a => a | inl _ => ∅ end in
      healthcheckResult ← machineHealthCheck machines serfStatus alertStatuses;
      retireResult ← machineRetire machines ∅;
      now ← on_world clock_now;
      for_each machines (set_state (retireResult ∪ healthcheckResult) now)
  end.

Fixpoint shutdown_loop (machines : list machine) (errorMachines : list string) : M W (list string) :=
  match machines with
  | [] => mret errorMachines
  | m :: machines =>
      r ← attempt (PowerStatus (m_Serial m));
      match r with
      | inl _ => shutdown_loop machines (errorMachines ++ [m_Serial m])
      | inr cmdOutput =>
          if bool_decide (TrimSpace cmdOutput = "Off") then shutdown_loop machines errorMachines
          else
            r ← attempt (PowerStop (m_Serial m));
            match r with
            | inl _ => shutdown_loop machines (errorMachines ++ [m_Serial m])
            | inr _ => shutdown_loop machines errorMachines
            end
      end
  end.
(** The machines it logs as failed. *)
Definition machineShutdown : M W (list string) :=
  r ← attempt GetRetiredMachines;
  match r with
  | inl _ => mret []
  | inr machines => shutdown_loop machines []
  end.

(** The ticker of [Run]: one pass per tick, until a pass fails. *)
Fixpoint run_ticks (ticks : nat) : MS unit :=
  match ticks with
  | O => blocked
  | S ticks => _ ← runOnce; run_ticks ticks
  end.
End controller.
