(* ===== verification/StateSetterProofs.v ===== *)
(** * How sabakan-state-setter judges a machine

    The severity order of the health check, the alerts, and the configuration. *)
From S2P Require Import Prelude GoStr GoTime Etcd Worlds StateSetter.

Local Open Scope Z_scope.

Lemma forallb_map_to_list {A} (m : gmap string A) (f : string → A → bool) :
  forallb (λ '(k, v), f k v) (map_to_list m) = true ↔ ∀ k v, m !! k = Some v → f k v = true.
Proof.
  rewrite forallb_forall. split.
  - intros Hall k v E. apply (Hall (k, v)). by apply list_elem_of_In, elem_of_map_to_list.
  - intros Hall [k v] Hin%list_elem_of_In%elem_of_map_to_list. by apply Hall.
Qed.

Lemma elem_of_filter_bool {A} (f : A → bool) l x : x ∈ List.filter f l ↔ x ∈ l ∧ f x = true.
Proof. by rewrite !list_elem_of_In, filter_In. Qed.

(** ** The hardware monitor *)
Section hardware.
Context `{MachineStates} `{!MachineStatesLaws}.

(** The metrics in [mf] satisfy [t]: some are selected, and all of them, or at least
    the given number, are zero. *)
Definition satisfied (mf : MetricFamily) (t : targetMetric) : Prop :=
  Match (tm_Selector t) mf ≠ [] ∧
  match tm_MinimumHealthyCount t with
  | None => ∀ m, m ∈ Match (tm_Selector t) mf → gauge_ok m = true
  | Some k => k ≤ healthyCount (Match (tm_Selector t) mf)
  end.
Definition hardware_ok (mss : machineStateSource) : Prop := ∃ mt,
  mss_machineType mss = Some mt ∧
  (mty_MetricsCheckList mt = [] ∨ ∃ metrics, mss_metrics mss = Some metrics ∧
     ∀ t, t ∈ mty_MetricsCheckList mt → ∃ mf, metrics !! tm_Name t = Some mf ∧ satisfied mf t).

Lemma healthy_unhealthy : StateHealthy ≠ StateUnhealthy.
Proof.
  pose proof states_distinct as HN. rewrite !NoDup_cons in HN. intros E. rewrite E in HN. set_solver.
Qed.

Lemma filter_all {A} (f : A → bool) l :
  length (List.filter f l) = length l ↔ ∀ x, x ∈ l → f x = true.
Proof.
  induction l as [|x l IH]; simpl; [split; [intros _ x Hx; by apply not_elem_of_nil in Hx|done]|].
  pose proof (List.filter_length_le f l). destruct (f x) eqn:E; simpl.
  - rewrite Nat.succ_inj_wd, IH. set_solver.
  - split; [lia|]. intros Hall. specialize (Hall x). rewrite E in Hall. set_solver.
Qed.

Lemma checkTarget_spec mf t :
  checkTarget mf t = StateHealthy ∧ satisfied mf t ∨ checkTarget mf t = StateUnhealthy ∧ ¬ satisfied mf t.
Proof.
  unfold checkTarget, satisfied.
  destruct (Match (tm_Selector t) mf) as [|m ms] eqn:E; [right; naive_solver|].
  rewrite <-E. destruct (tm_MinimumHealthyCount t) as [k|].
  - destruct (Z.ltb_spec (healthyCount (Match (tm_Selector t) mf)) k); [right|left].
    + split; [done|]. intros [_ ?]. lia.
    + by rewrite E at 1.
  - destruct (Z.eqb_spec (healthyCount (Match (tm_Selector t) mf)) (Z.of_nat (length (Match (tm_Selector t) mf)))) as [Hc|Hc];
      [left|right]; (split; [done|]); unfold healthyCount in Hc.
    + split; [by rewrite E|]. apply filter_all. lia.
    + intros [_ Hall%filter_all]. lia.
Qed.

Lemma check_targets_spec metrics ts :
  (check_targets metrics ts = StateHealthy ∧
     ∀ t, t ∈ ts → ∃ mf, metrics !! tm_Name t = Some mf ∧ satisfied mf t) ∨
  (check_targets metrics ts = StateUnhealthy ∧
     ∃ t, t ∈ ts ∧ ∀ mf, metrics !! tm_Name t = Some mf → ¬ satisfied mf t).
Proof.
  pose proof healthy_unhealthy. induction ts as [|t ts IH]; simpl.
  { left. split; [done|]. intros t Ht. by apply not_elem_of_nil in Ht. }
  destruct (metrics !! tm_Name t) as [mf|] eqn:E; [|right; split; [done|]; exists t; set_solver].
  destruct (checkTarget_spec mf t) as [[-> Hs]|[-> Hs]].
  - rewrite bool_decide_eq_true_2 by done. simpl. destruct IH as [[-> Hall]|[-> (t' & Ht' & Hn)]]; [left|right].
    + split; [done|]. intros t' [->|Ht']%elem_of_cons; eauto.
    + split; [done|]. exists t'. split; [by apply list_elem_of_further|done].
  - rewrite bool_decide_eq_false_2 by done. right. split; [done|]. exists t. split; [set_solver|naive_solver].
Qed.

Lemma decideByMonitorHW_spec mss :
  decideByMonitorHW mss = StateHealthy ∧ hardware_ok mss ∨
  decideByMonitorHW mss = StateUnhealthy ∧ ¬ hardware_ok mss.
Proof.
  unfold decideByMonitorHW, hardware_ok. destruct (mss_machineType mss) as [mt|]; [|right; naive_solver].
  destruct (mty_MetricsCheckList mt) as [|t ts] eqn:E; [left; eauto|].
  destruct (mss_metrics mss) as [metrics|]; cycle 1.
  { right. split; [done|]. intros (mt' & [= <-] & [?|(? & [=] & _)]). congruence. }
  destruct (check_targets_spec metrics (t :: ts)) as [[-> Hall]|[-> (t' & Ht' & Hn)]]; [left|right];
    (split; [done|]).
  - exists mt. rewrite E. eauto.
  - intros (mt' & [= <-] & [?|(metrics' & [= <-] & Hall)]); [congruence|]. rewrite E in Hall.
    destruct (Hall t' Ht') as (mf & Emf & Hs). by apply (Hn mf).
Qed.
End hardware.

(** ** The candidate state *)
Section candidate.
Context `{MachineStates} `{!MachineStatesLaws}.
Implicit Types (mss : machineStateSource).

Definition alive mss : Prop :=
  ∃ serf, mss_serfStatus mss = Some serf ∧ ss_Status serf = "alive".
Definition failed_units mss : option string := mss_serfStatus mss ≫= ss_SystemdUnitsFailed.

Local Ltac distinct := pose proof states_distinct as HN; rewrite !NoDup_cons in HN;
  unfold doNotChangeState, stateUnhealthyImmediate in *; set_solver.
Lemma five_states :
  StateUnreachable ≠ stateUnhealthyImmediate ∧ StateUnreachable ≠ StateUnhealthy ∧
  StateUnreachable ≠ doNotChangeState ∧ StateUnreachable ≠ StateHealthy ∧
  stateUnhealthyImmediate ≠ StateUnhealthy ∧ stateUnhealthyImmediate ≠ doNotChangeState ∧
  stateUnhealthyImmediate ≠ StateHealthy ∧ StateUnhealthy ≠ doNotChangeState ∧
  StateUnhealthy ≠ StateHealthy ∧ doNotChangeState ≠ StateHealthy.
Proof. split_and!; intros E; distinct. Qed.

(** The candidate by cases, the severest first. *)
Lemma candidate_cases mss :
  let s := decideMachineStateCandidate mss in
  (¬ alive mss ∧ s = StateUnreachable) ∨
  (alive mss ∧ ∃ a, mss_alertStatus mss = Some a ∧
     s = if bool_decide (as_State a = StateUnhealthy) then stateUnhealthyImmediate else as_State a) ∨
  (alive mss ∧ mss_alertStatus mss = None ∧
     (s = StateUnhealthy ∧ ((∃ u, failed_units mss = Some u ∧ u ≠ "") ∨ ¬ hardware_ok mss) ∨
      hardware_ok mss ∧ (s = doNotChangeState ∧ failed_units mss = None ∨
                         s = StateHealthy ∧ failed_units mss = Some ""))).
Proof.
  cbv zeta. unfold decideMachineStateCandidate, alive, failed_units.
  destruct (mss_serfStatus mss) as [serf|]; [|left; naive_solver]. simpl.
  destruct (decide (ss_Status serf = "alive")) as [Ea|Ea];
    [rewrite (bool_decide_eq_true_2 _ Ea)|rewrite (bool_decide_eq_false_2 _ Ea); left; naive_solver].
  simpl. right. destruct (mss_alertStatus mss) as [a|]; [left; eauto 10|right].
  split; [by eauto|]. split; [done|].
  destruct (ss_SystemdUnitsFailed serf) as [u|].
  - case_bool_decide as Hu; simpl; [subst|left; naive_solver].
    destruct (decideByMonitorHW_spec mss) as [[-> Hok]|[-> Hok]].
    + rewrite bool_decide_eq_true_2 by done. simpl. auto.
    + rewrite bool_decide_eq_false_2 by (apply not_eq_sym, healthy_unhealthy). auto.
  - destruct (decideByMonitorHW_spec mss) as [[-> Hok]|[-> Hok]].
    + rewrite bool_decide_eq_true_2 by done. simpl. auto.
    + rewrite bool_decide_eq_false_2 by (apply not_eq_sym, healthy_unhealthy). auto.
Qed.

Lemma alert_Some (a : alertStatus) st : (∃ a', Some a = Some a' ∧ as_State a' = st) ↔ as_State a = st.
Proof. split; [by intros (a' & [= <-] & ?)|eauto]. Qed.
Lemma alert_None st : (∃ a : alertStatus, None = Some a ∧ as_State a = st) ↔ False.
Proof. split; [by intros (a & [=] & _)|done]. Qed.

(** The health check takes a machine for unreachable exactly if serf does not see it
    alive or an alert says so; for unhealthy without a grace period exactly if an
    alert says unhealthy; for unhealthy exactly if, with no alert, a systemd unit
    failed or the hardware monitor does not confirm every check of its machine type;
    for healthy exactly if none of that holds and serf reports that no unit failed;
    and leaves it alone while it starts up, before serf reports on its units. *)
Theorem decideMachineStateCandidate_spec mss :
  (∀ a, mss_alertStatus mss = Some a → as_State a = StateUnreachable ∨ as_State a = StateUnhealthy) →
  let s := decideMachineStateCandidate mss in
  let alert_is st := ∃ a, mss_alertStatus mss = Some a ∧ as_State a = st in
  (s = StateUnreachable ↔ ¬ alive mss ∨ alert_is StateUnreachable) ∧
  (s = stateUnhealthyImmediate ↔ alive mss ∧ alert_is StateUnhealthy) ∧
  (s = StateUnhealthy ↔ alive mss ∧ mss_alertStatus mss = None ∧
     ((∃ u, failed_units mss = Some u ∧ u ≠ "") ∨ ¬ hardware_ok mss)) ∧
  (s = StateHealthy ↔ alive mss ∧ mss_alertStatus mss = None ∧
     failed_units mss = Some "" ∧ hardware_ok mss) ∧
  (s = doNotChangeState ↔ alive mss ∧ mss_alertStatus mss = None ∧
     failed_units mss = None ∧ hardware_ok mss).
Proof.
  intros Ha. destruct five_states as (?&?&?&?&?&?&?&?&?&?). cbv zeta.
  pose proof (candidate_cases mss) as Hc. cbv zeta in Hc.
  destruct Hc as [[Hn ->]|[(Hal & a & Ea & Hs)|(Hal & En & Hc)]].
  - split_and!; intuition congruence.
  - rewrite Ea, !alert_Some. destruct (Ha a Ea) as [E|E]; rewrite E in *.
    + rewrite bool_decide_eq_false_2 in Hs by done. rewrite Hs. split_and!; intuition congruence.
    + rewrite bool_decide_eq_true_2 in Hs by done. rewrite Hs. split_and!; intuition congruence.
  - rewrite En, !alert_None. destruct Hc as [[-> Hc]|[Hok [[-> Hc]|[-> Hc]]]].
    + split_and!; [intuition congruence..| |].
      * split; [intuition congruence|]. intros (_ & _ & Hu & ?). destruct Hc as [(u & Hu' & ?)|?]; [congruence|done].
      * split; [intuition congruence|]. intros (_ & _ & Hu & ?). destruct Hc as [(u & Hu' & ?)|?]; [congruence|done].
    + rewrite Hc. split_and!; [intuition congruence..| | |intuition congruence]; (split; [congruence|]).
      * intros (_ & _ & [(u & [=] & _)|?]); done.
      * intros (_ & _ & [=] & _).
    + rewrite Hc. split_and!; [intuition congruence..| | |]; (split; [try done; congruence|]).
      * intros (_ & _ & [(u & [= <-] & ?)|?]); done.
      * done.
      * intros (_ & _ & [=] & _).
Qed.
End candidate.

(** ** Alerts *)
Section alerts.
Context `{MachineStates} `{!MachineStatesLaws} `{AlertLabels}.
Variable ms : list machine.
Implicit Types (t : triggerAlert) (statuses : gmap string alertStatus).

(** An alert of [raw] that [t] is configured for concerns the machine at [ip]. *)
Definition triggers (raw : list (gmap string string)) t (ip : string) : Prop := ∃ alert target,
  alert ∈ raw ∧ alert !! AlertNameLabel = Some (ta_Name t) ∧ ta_Labels t ⊆ alert ∧
  alert_target ms t alert = Some target ∧ m_IPv4Addr target = ip.

Lemma isSubsetAlertLabels_spec trigger actual : isSubsetAlertLabels trigger actual = true ↔ trigger ⊆ actual.
Proof.
  unfold isSubsetAlertLabels. rewrite (forallb_map_to_list _ (λ k v, bool_decide (actual !! k = Some v))).
  rewrite map_subseteq_spec. by setoid_rewrite bool_decide_eq_true.
Qed.

(** [statuses] is what the trigger alerts that were seen, [seen], come to. *)
Definition reflects (seen : triggerAlert → string → Prop) statuses : Prop := ∀ ip,
  (∀ st, statuses !! ip = Some st → ∃ t, seen t ip ∧ st = {| as_AlertName := ta_Name t; as_State := ta_State t |}) ∧
  (∀ t, seen t ip → ∃ st, statuses !! ip = Some st ∧
     (ta_State t = StateUnreachable → as_State st = StateUnreachable)).

Lemma alert_step_reflects seen t statuses alert :
  reflects seen statuses →
  reflects (λ t' ip, seen t' ip ∨ t' = t ∧ ta_Labels t ⊆ alert ∧
              ∃ target, alert_target ms t alert = Some target ∧ m_IPv4Addr target = ip)
    (alert_step ms t statuses alert).
Proof.
  intros Hr ip. unfold alert_step. destruct (Hr ip) as [Hr1 Hr2].
  destruct (isSubsetAlertLabels (ta_Labels t) alert) eqn:Es; simpl.
  2: { assert (¬ ta_Labels t ⊆ alert) by (rewrite <-isSubsetAlertLabels_spec; congruence).
       split; [naive_solver|]. intros t' [?|(_ & ? & _)]; [auto|done]. }
  apply isSubsetAlertLabels_spec in Es.
  destruct (alert_target ms t alert) as [target|] eqn:Et.
  2: { split; [naive_solver|]. intros t' [?|(_ & _ & ? & [=] & _)]. auto. }
  destruct (match statuses !! m_IPv4Addr target with
            | Some st => bool_decide (as_State st = StateUnreachable) | None => false end) eqn:Hsev.
  { destruct (statuses !! m_IPv4Addr target) as [old|] eqn:Eold; [|done].
    apply bool_decide_eq_true in Hsev. split; [naive_solver|].
    intros t' [?|(-> & _ & target' & [= <-] & <-)]; eauto. }
  assert (∀ t', seen t' (m_IPv4Addr target) → ta_State t' ≠ StateUnreachable) as Hmild.
  { intros t' Ht' Eu. destruct (proj2 (Hr (m_IPv4Addr target)) t' Ht') as (st & E & Hst).
    rewrite E in Hsev. apply bool_decide_eq_false in Hsev. auto. }
  destruct (decide (m_IPv4Addr target = ip)) as [<-|Hne].
  - rewrite lookup_insert_eq. split; [intros st [= <-]; exists t; eauto 10|].
    intros t' Ht'. eexists. split; [done|]. simpl. intros Eu.
    destruct Ht' as [Ht'|(-> & _)]; [by destruct (Hmild t' Ht')|done].
  - rewrite lookup_insert_ne by done. split; [naive_solver|].
    intros t' [?|(_ & _ & target' & [= <-] & ?)]; [auto|done].
Qed.

Lemma reflects_ext seen seen' statuses :
  (∀ t ip, seen t ip ↔ seen' t ip) → reflects seen statuses → reflects seen' statuses.
Proof. intros Heq Hr ip. destruct (Hr ip) as [Hfrom Hto]. split; [naive_solver|]. intros t Ht%Heq. auto. Qed.

Lemma alert_steps_reflects seen t statuses alerts :
  reflects seen statuses →
  reflects (λ t' ip, seen t' ip ∨ t' = t ∧ ∃ alert target, alert ∈ alerts ∧ ta_Labels t ⊆ alert ∧
              alert_target ms t alert = Some target ∧ m_IPv4Addr target = ip)
    (foldl (alert_step ms t) statuses alerts).
Proof.
  revert seen statuses. induction alerts as [|alert alerts IH]; intros seen statuses Hr; simpl.
  - eapply reflects_ext; [|done]. intros t' ip. split; [auto|].
    intros [?|(_ & ? & ? & ?%not_elem_of_nil & _)]; done.
  - eapply reflects_ext; [|apply IH, alert_step_reflects; done]. intros t' ip. simpl.
    setoid_rewrite elem_of_cons. naive_solver.
Qed.

Lemma alert_statuses_reflects ts raw :
  reflects (λ t ip, t ∈ ts ∧ triggers raw t ip) (alert_statuses ms ts raw).
Proof.
  unfold alert_statuses.
  enough (∀ seen statuses, reflects seen statuses → reflects (λ t ip, seen t ip ∨ t ∈ ts ∧ triggers raw t ip)
    (foldl (λ statuses t, foldl (alert_step ms t) statuses (alerts_named raw (ta_Name t))) statuses ts)) as Hall.
  { eapply reflects_ext; [|apply (Hall (λ _ _, False))].
    - intros t ip. simpl. naive_solver.
    - intros ip. split; [intros st; by rewrite lookup_empty|done]. }
  induction ts as [|t ts IH]; intros seen statuses Hr; simpl.
  - eapply reflects_ext; [|done]. intros t ip. split; [auto|]. intros [?|[?%not_elem_of_nil _]]; done.
  - eapply reflects_ext; [|apply IH, alert_steps_reflects; done]. intros t' ip. simpl.
    rewrite elem_of_cons. unfold triggers, alerts_named. setoid_rewrite elem_of_filter_bool.
    setoid_rewrite bool_decide_eq_true. naive_solver.
Qed.

(** A machine has an alert status exactly if some alert that is not silenced
    matches a configured trigger and names the machine; the status is that of such a
    trigger, and it is unreachable whenever one of them says unreachable, in
    whatever order alerts and triggers are listed. *)
Theorem alert_statuses_severest ts raw ip :
  (is_Some (alert_statuses ms ts raw !! ip) ↔ ∃ t, t ∈ ts ∧ triggers raw t ip) ∧
  ∀ st, alert_statuses ms ts raw !! ip = Some st →
    (∃ t, t ∈ ts ∧ triggers raw t ip ∧ as_AlertName st = ta_Name t ∧ as_State st = ta_State t) ∧
    ((∃ t, t ∈ ts ∧ triggers raw t ip ∧ ta_State t = StateUnreachable) →
     as_State st = StateUnreachable).
Proof.
  destruct (alert_statuses_reflects ts raw ip) as [Hfrom Hto]. split.
  - split; [intros [st E]; destruct (Hfrom st E) as (t & ? & _); eauto|].
    intros (t & Ht). destruct (Hto t Ht) as (st & E & _). eauto.
  - intros st E. split; [destruct (Hfrom st E) as (t & [? ?] & ->); eauto|].
    intros (t & ? & ? & Eu). destruct (Hto t) as (st' & E' & Hs); [done|]. rewrite E in E'.
    injection E' as <-. auto.
Qed.
End alerts.

(** ** Configuration *)
Section configuration.
Context `{MachineStates}.

Definition valid_trigger (t : triggerAlert) : Prop :=
  (ta_AddressLabel t = "" ↔ ta_SerialLabel t ≠ "") ∧
  (ta_State t = StateUnreachable ∨ ta_State t = StateUnhealthy).

Lemma check_triggers_spec ts : check_triggers ts = Ok () ↔ Forall valid_trigger ts.
Proof.
  induction ts as [|t ts IH]; simpl; [by split; [constructor|]|].
  rewrite Forall_cons, <-IH. unfold valid_trigger.
  repeat case_bool_decide; simpl; naive_solver.
Qed.

Definition sound_type (name : string) (mt : machineType) : Prop :=
  mty_Name mt = name ∧ mty_GracePeriod mt ≠ 0.
Lemma machine_types_spec ts : ∀ m types,
  machine_types ts m = Ok types → map_Forall sound_type m →
  map_Forall sound_type types ∧ (∀ k, is_Some (m !! k) → is_Some (types !! k)) ∧
  ∀ t, Some t ∈ ts → is_Some (types !! mty_Name t).
Proof.
  induction ts as [|[t|] ts IH]; intros m types E Hm; simpl in E; [|..|done].
  { injection E as <-. split_and!; [done..|]. by intros t ?%not_elem_of_nil. }
  destruct (IH _ _ E) as (Ht & Hk & Hin).
  { apply map_Forall_insert_2; [|done]. unfold with_grace, sound_type.
    destruct (Z.eqb_spec (mty_GracePeriod t) 0); done. }
  split_and!; [done| |].
  - intros k [x Hx]. apply Hk. destruct (decide (mty_Name t = k)) as [<-|];
      [rewrite lookup_insert_eq|rewrite lookup_insert_ne by done]; eauto.
  - intros t' [[= ->]|Ht']%elem_of_cons; [|auto]. apply Hk. rewrite lookup_insert_eq. eauto.
Qed.

(** C30: a configuration that is accepted has a machine type, gives every machine type
    that it names a non-zero grace period, and its trigger alerts say either
    unreachable or unhealthy and name a machine by exactly one label. *)
Theorem parseConfig_valid cfg sched types am :
  parseConfig cfg = Ok (sched, types, am) →
  sched = cf_ShutdownSchedule cfg ∧ am = cf_AlertMonitor cfg ∧ types ≠ ∅ ∧
  (∀ name mt, types !! name = Some mt → mty_Name mt = name ∧ mty_GracePeriod mt ≠ 0) ∧
  (∀ t, Some t ∈ cf_MachineTypes cfg → is_Some (types !! mty_Name t)) ∧
  ∀ a t, am = Some a → t ∈ al_TriggerAlerts a →
    (ta_AddressLabel t = "" ↔ ta_SerialLabel t ≠ "") ∧
    (ta_State t = StateUnreachable ∨ ta_State t = StateUnhealthy).
Proof.
  unfold parseConfig. intros E. destruct (cf_MachineTypes cfg) as [|t0 ts] eqn:Ets; [done|].
  apply bind_pure_ok in E as (types' & Et & E). apply bind_pure_ok in E as (u & Ec & E).
  injection E as <- <- <-. destruct (machine_types_spec _ _ _ Et) as (Hs & _ & Hin); [done|].
  split_and!; [done..| | | |].
  - intros ->. destruct t0 as [t|]; [|done]. destruct (Hin t) as [x Hx]; [set_solver|].
    by rewrite lookup_empty in Hx.
  - intros name mt Hl. by apply (Hs name mt).
  - done.
  - intros a t Ea Ht. rewrite Ea in Ec. destruct u. apply check_triggers_spec in Ec.
    by eapply Forall_forall in Ec.
Qed.
End configuration.
