(* ===== verification/StateSetterRun.v ===== *)
(** * What sabakan-state-setter does to the machines

    A pass changes a machine's state only as its judgement allows, and a machine is
    set to unhealthy only after it was judged so throughout its grace period. *)
From S2P Require Import Prelude GoStr GoTime Etcd Worlds StateSetter StateSetterProofs.
From S2P Require Import StorageWitness.
From Stdlib Require Import Floats.SpecFloat.

Local Open Scope Z_scope.

(** ** The record of a run *)
Inductive StateEffect :=
  | SetState (serial state : string)
  | CryptsGone (serial : string)
  | TPMCleared (serial : string)
  | PowerIs (serial output : string)
  | Stopped (serial : string).

Definition when_ok {A} (x : A → list StateEffect) (r : outcome A) : list StateEffect :=
  match r with Ok a => x a | _ => [] end.

#[export] Instance traced_sabakan {W} `{SabakanServer W} : SabakanServer (Traced StateEffect W) := {
  gql_searchMachines h := traced (λ _, []) (gql_searchMachines h);
  gql_setMachineState s st := traced (λ _, [SetState s st]) (gql_setMachineState s st);
  sabakan_CryptsDelete s := traced (when_ok (λ _, [CryptsGone s])) (sabakan_CryptsDelete s);
}.
#[export] Instance traced_serf {W} `{SerfServer W} : SerfServer (Traced StateEffect W) := {
  serf_Members := traced (λ _, []) serf_Members;
}.
#[export] Instance traced_prom {W} `{PromServer W} : PromServer (Traced StateEffect W) := {
  ConnectMetricsServer a := traced (λ _, []) (ConnectMetricsServer a);
}.
#[export] Instance traced_alerts {W} `{Alertmanager W} : Alertmanager (Traced StateEffect W) := {
  GetAlerts := traced (λ _, []) GetAlerts;
}.
#[export] Instance traced_neco {W} `{NecoCmd W} : NecoCmd (Traced StateEffect W) := {
  PowerStop s := traced (λ _, [Stopped s]) (PowerStop s);
  PowerStatus s := traced (when_ok (λ out, [PowerIs s out])) (PowerStatus s);
  TPMClear s := traced (when_ok (λ _, [TPMCleared s])) (TPMClear s);
}.
#[export] Instance traced_time {W} `{Clock W} : Clock (Traced StateEffect W) := {
  clock_now := traced (λ _, []) clock_now;
  clock_after d := traced (λ _, []) (clock_after d);
}.
Abbreviation SW W := (Traced StateEffect W * gmap string Time)%type.

Section runs.
Context `{MachineStates} `{!MachineStatesLaws} {W : Type} `{SabakanServer W} `{SerfServer W}
  `{PromServer W} `{AlertLabels} `{Alertmanager W} `{NecoCmd W} `{Clock W}.
Variable c : Settings.
Implicit Types (v : SW W) (m : machine) (ns : gmap string string).

(** ** Setting the state of one machine *)

(** [m] is to become unhealthy once its grace period is over. *)
Definition judged ns m : bool :=
  bool_decide (ns !! m_Serial m = Some StateUnhealthy) && negb (bool_decide (m_State m = StateUnhealthy)).
(** It has been waiting longer than that. *)
Definition overdue (reg : gmap string Time) m (now : Time) : Prop := ∃ start,
  reg !! m_Serial m = Some start ∧
  ∀ mt, c_machineTypes c !! m_Type m = Some mt → Add start (mty_GracePeriod mt) < now.
Definition registry_after ns now m (reg : gmap string Time) : gmap string Time :=
  if judged ns m then
    match reg !! m_Serial m with None => <[m_Serial m := now]> reg | Some _ => reg end
  else delete (m_Serial m) reg.

(** [update m st] left from [v]. *)
Definition sent (m : machine) (st : string) v v' : Prop :=
  log_of v' = log_of v ++ (if MachineState_IsValid st then [SetState (m_Serial m) st] else []) ∧ v'.2 = v.2.
Lemma update_sent m st v v' r :
  ignore_error (on_world (UpdateSabakanState (m_Serial m) st)) v = (v', r) → sent m st v v'.
Proof.
  unfold ignore_error, attempt, UpdateSabakanState, sent.
  destruct (MachineState_IsValid st); cbn [negb].
  - unfold mbind, M_bind, on_world. simpl. unfold traced.
    destruct (gql_setMachineState (m_Serial m) st (tr_world v.1)) as [w' r'].
    by destruct r'; intros [= <- <-].
  - intros [= <- <-]. by rewrite app_nil_r.
Qed.

Lemma update_cases m st v v' r :
  ignore_error (on_world (UpdateSabakanState (m_Serial m) st)) v = (v', r) →
  v'.2 = v.2 ∧ (log_of v' = log_of v ∨ log_of v' = log_of v ++ [SetState (m_Serial m) st]).
Proof.
  intros [El Es]%update_sent. split; [done|]. rewrite El.
  destruct (MachineState_IsValid st); [auto|rewrite app_nil_r; auto].
Qed.

(** A machine whose new state takes effect at once, or not at all. *)
Definition prompt ns m (st : string) : Prop :=
  ns !! m_Serial m = Some st ∧ st ≠ StateUnhealthy ∧ st ≠ stateUnhealthyImmediate ∨
  ns !! m_Serial m = Some stateUnhealthyImmediate ∧ st = StateUnhealthy.
Definition set_after ns now m v v' : Prop :=
  v'.2 = registry_after ns now m v.2 ∧
  (log_of v' = log_of v ∨ ∃ st, log_of v' = log_of v ++ [SetState (m_Serial m) st] ∧ st ≠ m_State m ∧
     (prompt ns m st ∨ judged ns m = true ∧ st = StateUnhealthy ∧ overdue v.2 m now)).

Lemma set_cleared ns now m v v' r (k : M (SW W) unit) :
  judged ns m = false → (_ ← ClearUnhealthy m; k) v = (v', r) →
  ∃ v1, k v1 = (v', r) ∧ log_of v1 = log_of v ∧ v1.2 = registry_after ns now m v.2.
Proof.
  unfold registry_after. intros -> E. exists (v.1, delete (m_Serial m) v.2). split; [by destruct v|done].
Qed.
Lemma set_waiting ns now m v v' r :
  judged ns m = true →
  (ok ← RegisterUnhealthy c m now;
   if ok : bool then ignore_error (on_world (UpdateSabakanState (m_Serial m) StateUnhealthy))
   else mret ()) v = (v', r) → set_after ns now m v v'.
Proof.
  intros Hj. unfold RegisterUnhealthy, set_after, registry_after, overdue. rewrite Hj.
  unfold mbind at 1 2, M_bind, get_local. destruct (v.2 !! m_Serial m) as [start|] eqn:Er.
  2: { unfold mbind, M_bind, put_local. intros [= <- <-]. auto. }
  unfold mret, M_ret. simpl.
  destruct (match c_machineTypes c !! m_Type m with Some mt => _ | None => true end) eqn:Ed.
  2: { intros [= <- <-]. auto. }
  intros [Es El]%update_cases. split; [done|]. destruct El as [El|El]; [by left|right].
  exists StateUnhealthy. split; [done|]. unfold judged in Hj.
  apply andb_true_iff in Hj as [_ Hne%negb_true_iff%bool_decide_eq_false]. split; [done|]. right.
  split; [done|]. split; [done|]. exists start. split; [done|]. intros mt Emt. rewrite Emt in Ed.
  by apply Z.ltb_lt.
Qed.

Lemma set_state_spec ns now m v v' r :
  set_state c ns now m v = (v', r) → set_after ns now m v v'.
Proof.
  destruct five_states as (_&_&_&_&Hiu&_&_&_&_&_). unfold set_state.
  destruct (ns !! m_Serial m) as [st|] eqn:E.
  2: { intros Ec. unfold set_after, registry_after, judged. rewrite E, bool_decide_eq_false_2 by done.
       injection Ec as <- <-. auto. }
  assert (st ≠ StateUnhealthy ∨ m_State m = StateUnhealthy → judged ns m = false) as Hnot.
  { unfold judged. rewrite E. intros [?|Hm]; [by rewrite bool_decide_eq_false_2 by congruence|].
    rewrite (bool_decide_eq_true_2 _ Hm). apply andb_false_r. }
  case_bool_decide as Hm; simpl; [|case_bool_decide as Hi; simpl; case_bool_decide as Hu; simpl].
  - intros Ec. destruct (set_cleared ns now m v v' r (mret ())) as (v1 & Ev & El & Es).
    { apply Hnot. destruct (decide (st = StateUnhealthy)); [right; congruence|by left]. }
    { by injection Ec as <- <-. }
    injection Ev as <- <-. split; [done|by left].
  - intros Ec. destruct (set_cleared ns now m v v' r (mret ())) as (v1 & Ev & El & Es).
    { apply Hnot. by right. }
    { by injection Ec as <- <-. }
    injection Ev as <- <-. split; [done|by left].
  - intros Ec. eapply (set_cleared ns now) in Ec as (v1 & Ev & El & Es); [|apply Hnot; left; congruence].
    apply update_cases in Ev as [Es' El']. split; [congruence|]. rewrite El in El'.
    destruct El' as [?|El']; [by left|right]. exists StateUnhealthy. split; [done|]. split; [done|]. left. right.
    by rewrite E, Hi.
  - rewrite Hu. apply set_waiting. unfold judged. rewrite E, Hu, (bool_decide_eq_true_2 (Some _ = _)) by done.
    rewrite bool_decide_eq_false_2 by congruence. done.
  - intros Ec. eapply (set_cleared ns now) in Ec as (v1 & Ev & El & Es); [|apply Hnot; by left].
    apply update_cases in Ev as [Es' El']. split; [congruence|]. rewrite El in El'.
    destruct El' as [?|El']; [by left|right]. exists st. split; [done|]. split; [done|]. left. by left.
Qed.

Lemma retired_distinct : StateRetired ≠ stateUnhealthyImmediate ∧ StateRetired ≠ StateUnhealthy.
Proof. pose proof states_distinct as HN. rewrite !NoDup_cons in HN. set_solver. Qed.

(** ** Passes over the machines *)
Definition pass_loop (p : Time * gmap string string * list machine) : M (SW W) unit :=
  let '(now, ns, ms) := p in for_each ms (set_state c ns now).
Definition serials (ms : list machine) : list string := map m_Serial ms.

Lemma serial_unique ms m m' : NoDup (serials ms) → m ∈ ms → m' ∈ ms → m_Serial m = m_Serial m' → m = m'.
Proof.
  intros HN Hm Hm' Heq. apply list_elem_of_lookup in Hm as [i Hi], Hm' as [j Hj].
  assert (i = j) as ->; [|congruence].
  eapply (NoDup_lookup (serials ms)); [done|..]; unfold serials; rewrite list_lookup_fmap, ?Hi, ?Hj; simpl; [done|].
  by rewrite Heq.
Qed.

Lemma registry_other ns now m reg s : s ≠ m_Serial m → registry_after ns now m reg !! s = reg !! s.
Proof.
  intros Hne. unfold registry_after. destruct (judged ns m); [|by rewrite lookup_delete_ne].
  destruct (reg !! m_Serial m); [done|by rewrite lookup_insert_ne].
Qed.

(** What a pass leaves in the record for a machine, and in the registry if it ends. *)
Lemma loop_spec now ns ms : ∀ v v' r,
  pass_loop (now, ns, ms) v = (v', r) → NoDup (serials ms) →
  ∃ es, log_of v' = log_of v ++ es ∧
    (∀ x, x ∈ es → ∃ m st, m ∈ ms ∧ x = SetState (m_Serial m) st ∧ st ≠ m_State m ∧
       (prompt ns m st ∨ judged ns m = true ∧ st = StateUnhealthy ∧ overdue v.2 m now)) ∧
    (r = Ok () → (∀ m, m ∈ ms → v'.2 !! m_Serial m = registry_after ns now m v.2 !! m_Serial m) ∧
                 (∀ s, s ∉ serials ms → v'.2 !! s = v.2 !! s)).
Proof.
  induction ms as [|m ms IH]; intros v v' r E HN; simpl in E.
  { injection E as <- <-. exists []. rewrite app_nil_r. split; [done|].
    split; [by intros ? ?%not_elem_of_nil|]. intros _. split; [by intros ? ?%not_elem_of_nil|done]. }
  apply NoDup_cons in HN as [Hm HN].
  destruct (set_state c ns now m v) as [v1 r1] eqn:E1. pose proof (set_state_spec _ _ _ _ _ _ E1) as [Hr1 Hl1].
  assert (∃ es1, log_of v1 = log_of v ++ es1 ∧ ∀ x, x ∈ es1 → ∃ st, x = SetState (m_Serial m) st ∧
    st ≠ m_State m ∧ (prompt ns m st ∨ judged ns m = true ∧ st = StateUnhealthy ∧ overdue v.2 m now))
    as (es1 & El1 & Hes1).
  { destruct Hl1 as [->|(st & -> & Hst)]; [exists []; rewrite app_nil_r; by split; [|intros ? ?%not_elem_of_nil]|].
    exists [SetState (m_Serial m) st]. split; [done|]. intros x ->%list_elem_of_singleton. eauto. }
  destruct r1 as [[]|x|x|]; unfold mbind, M_bind in E; rewrite E1 in E.
  2-4: injection E as <- <-; exists es1; split; [done|]; split; [|done];
       intros y Hin; exists m; destruct (Hes1 y Hin) as (st & ?); exists st; split; [apply list_elem_of_here|done].
  destruct (IH _ _ _ E HN) as (es2 & El2 & Hes2 & Hreg). exists (es1 ++ es2).
  split; [by rewrite El2, El1, app_assoc|]. split.
  - intros x [Hin|Hin]%elem_of_app.
    { destruct (Hes1 x Hin) as (st & ?). exists m, st. split; [apply list_elem_of_here|done]. }
    destruct (Hes2 x Hin) as (m' & st & Hm' & Es & Hst & Hc). exists m', st. split; [by apply list_elem_of_further|].
    split_and!; [done..|]. destruct Hc as [?|(Hj & Hu & start & Hs & Hg)]; [by left|right].
    split_and!; [done..|]. exists start. split; [|done].
    rewrite Hr1, registry_other in Hs; [done|]. intros Heq. apply Hm. rewrite <-Heq. by apply list_elem_of_fmap_2.
  - intros ->. destruct (Hreg eq_refl) as [Hin Hout]. split.
    + intros m' [->|Hm']%elem_of_cons; [by rewrite Hout, Hr1|]. rewrite (Hin m' Hm'), Hr1.
      assert (m_Serial m' ≠ m_Serial m) as Hne by (intros Heq; apply Hm; rewrite <-Heq; by apply list_elem_of_fmap_2).
      unfold registry_after at 1 3. rewrite registry_other by done.
      destruct (judged ns m'); [|by rewrite !lookup_delete_eq].
      destruct (v.2 !! m_Serial m'); [by rewrite registry_other|by rewrite !lookup_insert_eq].
    + intros s Hs. apply not_elem_of_cons in Hs as [Hs1 Hs2]. rewrite Hout, Hr1 by done. by apply registry_other.
Qed.

(** ** The grace period *)
Abbreviation Pass := (Time * gmap string string * list machine)%type.
Implicit Types (h : list Pass) (p : Pass).

(** The pass lists serial [s] and judges it unhealthy. *)
Definition lists p (s : string) : Prop := s ∈ serials p.2.
Definition condemns p (s : string) : Prop := ∀ m, m ∈ p.2 → m_Serial m = s → judged p.1.2 m = true.

(** Every registered start is the time of a pass since which all passes that list the
    machine judge it unhealthy. *)
Definition remembers h (reg : gmap string Time) : Prop := ∀ s start,
  reg !! s = Some start → ∃ h1 p h2, h = h1 ++ (p :: h2) ∧ p.1.1 = start ∧ lists p s ∧
    ∀ q, q ∈ p :: h2 → condemns q s.

Lemma condemns_unlisted p s : ¬ lists p s → condemns p s.
Proof. intros Hn m Hm <-. destruct Hn. by apply list_elem_of_fmap_2. Qed.
Lemma condemns_judged p m :
  NoDup (serials p.2) → m ∈ p.2 → judged p.1.2 m = true → condemns p (m_Serial m).
Proof.
  intros HN Hm Hj m' Hm' Heq. by rewrite (serial_unique _ _ _ HN Hm' Hm Heq).
Qed.

Lemma remembers_pass h p v v' :
  pass_loop p v = (v', Ok ()) → NoDup (serials p.2) → remembers h v.2 → remembers (h ++ [p]) v'.2.
Proof.
  destruct p as [[now ns] ms]. intros E HN Hr s start Hs.
  destruct (loop_spec _ _ _ _ _ _ E HN) as (_ & _ & _ & Hreg). destruct (Hreg eq_refl) as [Hin Hout].
  assert (condemns (now, ns, ms) s → v.2 !! s = Some start → ∃ h1 p h2,
    (h ++ [(now, ns, ms)] = h1 ++ (p :: h2)) ∧ p.1.1 = start ∧ lists p s ∧
    ∀ q, q ∈ p :: h2 → condemns q s) as Hold.
  { intros Hc Hv. destruct (Hr s start Hv) as (h1 & p & h2 & -> & Ht & Hl & Hall).
    exists h1, p, (h2 ++ [(now, ns, ms)]). split; [by rewrite <-app_assoc|]. split_and!; [done..|].
    intros q Hq. rewrite app_comm_cons in Hq. apply elem_of_app in Hq as [Hq|Hq%list_elem_of_singleton]; [auto|by subst]. }
  destruct (decide (s ∈ serials ms)) as [Hl|Hl].
  2: { rewrite Hout in Hs by done. by apply Hold; [apply condemns_unlisted|]. }
  pose proof Hl as (m & -> & Hm)%list_elem_of_fmap. rewrite (Hin m Hm) in Hs. unfold registry_after in Hs.
  destruct (judged ns m) eqn:Hj; [|by rewrite lookup_delete_eq in Hs].
  assert (condemns (now, ns, ms) (m_Serial m)) as Hc by by apply condemns_judged.
  destruct (v.2 !! m_Serial m) as [old|] eqn:Ho; [rewrite Ho in Hs; auto|].
  rewrite lookup_insert_eq in Hs. injection Hs as <-. exists h, (now, ns, ms), []. split_and!; [done..|].
  by intros q Hq%list_elem_of_singleton; subst.
Qed.

Lemma remembers_passes h : ∀ h0 v v',
  for_each h pass_loop v = (v', Ok ()) → Forall (λ p, NoDup (serials p.2)) h →
  remembers h0 v.2 → remembers (h0 ++ h) v'.2.
Proof.
  induction h as [|p h IH]; intros h0 v v' E HN Hr; simpl in E.
  { injection E as <-. by rewrite app_nil_r. }
  apply bind_ok in E as (v1 & [] & E1 & E). apply Forall_cons in HN as [HNp HN].
  rewrite cons_middle, app_assoc. eapply IH; [done..|]. by eapply remembers_pass.
Qed.


(** ** A whole pass *)
Lemma decide_states_lookup sources s st :
  decide_states sources !! s = Some st →
  ∃ mss, mss ∈ sources ∧ mss_serial mss = s ∧ st = decideMachineStateCandidate mss ∧ st ≠ doNotChangeState.
Proof.
  unfold decide_states. revert s st. induction sources as [|mss sources IH] using rev_ind; intros s st.
  { simpl. by rewrite lookup_empty. }
  rewrite foldl_app. simpl. case_bool_decide as Hd.
  - intros (mss' & ? & ?)%IH. exists mss'. set_solver.
  - destruct (decide (mss_serial mss = s)) as [<-|Hne].
    + rewrite lookup_insert_eq. intros [= <-]. exists mss. set_solver.
    + rewrite lookup_insert_ne by done. intros (mss' & ? & ?)%IH. exists mss'. set_solver.
Qed.

Section after_machines.
Variable machines : list machine.

(** What a pass over [machines] may do. *)
Definition may (t : list StateEffect) (x : StateEffect) : Prop :=
  match x with
  | SetState s st => ∃ m, m ∈ machines ∧ m_Serial m = s ∧ st ≠ m_State m ∧
      (m_State m = StateRetiring ∧ st = StateRetired ∧ CryptsGone s ∈ t ∧ TPMCleared s ∈ t ∨
       checked m = true ∧ (st = StateUnreachable ∨ st = StateUnhealthy ∨ st = StateHealthy))
  | CryptsGone s => ∃ m, m ∈ machines ∧ m_Serial m = s ∧ m_State m = StateRetiring
  | TPMCleared s => CryptsGone s ∈ t ∧ ∃ m, m ∈ machines ∧ m_Serial m = s ∧ m_State m = StateRetiring
  | PowerIs _ _ | Stopped _ => False
  end.
Definition fair v : Prop := justified may (log_of v).

Lemma fair_silent v v' : logged v [] v' → fair v → fair v'.
Proof. unfold fair. intros [-> _]. by rewrite app_nil_r. Qed.

(** The candidates of the health check. *)
Definition candidate_ok (st : string) : Prop :=
  st = StateUnreachable ∨ st = StateUnhealthy ∨ st = StateHealthy ∨ st = stateUnhealthyImmediate.
Definition valid_alerts (alerts : gmap string alertStatus) : Prop := ∀ ip a,
  alerts !! ip = Some a → as_State a = StateUnreachable ∨ as_State a = StateUnhealthy.
Definition health_ok (health : gmap string string) : Prop := ∀ s st,
  health !! s = Some st → candidate_ok st ∧ ∃ m, m ∈ machines ∧ m_Serial m = s ∧ checked m = true.

(** [b] is [a] with its metrics, or without. *)
Definition fetched (a b : machineStateSource) : Prop := b = a ∨ ∃ mfs, b = with_metrics a mfs.

Lemma wp_fetch sources : ∀ v, fair v →
  wp fair (fetch_metrics c sources) v (λ ss v', fair v' ∧ logged v [] v' ∧ Forall2 fetched sources ss).
Proof.
  induction sources as [|a sources IH]; intros v Hv; simpl.
  { apply wp_ret. split; [done|]. split; [|constructor]. unfold logged. by rewrite app_nil_r. }
  apply wp_bind. eapply (wp_mono _ _ _ (λ b v', fair v' ∧ logged v [] v' ∧ fetched a b)).
  - destruct (has_checks a); [|apply wp_ret; split_and!; [done| |by left]; unfold logged; by rewrite app_nil_r].
    destruct (c_parallelSize c =? 0); [done|]. apply wp_bind.
    eapply wp_quiet; [apply quiet_attempt, quiet_traced|]. intros v' r Hl.
    pose proof (fair_silent _ _ Hl Hv). destruct r as [[e|mfs]|x|x|]; [..|done|done|done]; apply wp_ret;
      (split_and!; [done..|]); [by left|right; eauto].
  - simpl. intros b v1 (Hv1 & Hl1 & Hb). apply wp_bind. eapply wp_mono; [by apply IH|]. simpl.
    intros ss v2 (Hv2 & Hl2 & Hss). apply wp_ret. split; [done|]. split; [|by constructor].
    destruct Hl1 as [El1 Es1], Hl2 as [El2 Es2]. unfold logged. by rewrite El2, El1, app_nil_r, Es2, Es1.
Qed.

Lemma fetched_candidate alerts serf m mss :
  valid_alerts alerts →
  fetched (newMachineStateSource m serf alerts (c_machineTypes c)) mss →
  decideMachineStateCandidate mss ≠ doNotChangeState →
  mss_serial mss = m_Serial m ∧ candidate_ok (decideMachineStateCandidate mss).
Proof.
  intros Ha Hf Hne.
  assert (mss_serial mss = m_Serial m ∧ mss_alertStatus mss = alerts !! m_IPv4Addr m) as [Hs Hal]
    by (destruct Hf as [->|[mfs ->]]; done).
  split; [done|]. unfold candidate_ok. pose proof (candidate_cases mss) as Hc. cbv zeta in Hc.
  destruct Hc as [[_ ->]|[(_ & a & Ea & ->)|(_ & _ & [[-> _]|[_ [[? _]|[-> _]]]])]]; auto; [|done].
  rewrite Hal in Ea. case_bool_decide; [auto|]. destruct (Ha _ _ Ea) as [->|?]; [auto|done].
Qed.

Lemma wp_healthcheck serf alerts v : fair v → valid_alerts alerts →
  wp fair (machineHealthCheck c machines serf alerts) v
    (λ health v', fair v' ∧ logged v [] v' ∧ health_ok health).
Proof.
  intros Hv Ha. unfold machineHealthCheck. destruct (c_parallelSize c <? 0); [done|]. apply wp_bind.
  eapply wp_mono; [by apply wp_fetch|]. simpl. intros ss v' (Hv' & Hl & Hss). apply wp_ret.
  split_and!; [done..|]. intros s st (mss & Hin & Es & -> & Hne)%decide_states_lookup.
  apply list_elem_of_lookup in Hin as [i Hi].
  destruct (Forall2_lookup_r _ _ _ _ _ Hss Hi) as (src & Esrc & Hf).
  rewrite list_lookup_fmap in Esrc. apply fmap_Some in Esrc as (m & Em & ->).
  apply list_elem_of_lookup_2, elem_of_filter_bool in Em as [Hm Hck].
  destruct (fetched_candidate alerts serf m mss Ha Hf Hne) as [Es' Hok].
  split; [done|]. exists m. split_and!; [done| |done]. congruence.
Qed.

Definition retire_ok (retire : gmap string string) (t : list StateEffect) : Prop := ∀ s st,
  retire !! s = Some st → st = StateRetired ∧ CryptsGone s ∈ t ∧ TPMCleared s ∈ t ∧
    ∃ m, m ∈ machines ∧ m_Serial m = s ∧ m_State m = StateRetiring.
Lemma retire_ok_mono retire t t' : t ⊆ t' → retire_ok retire t → retire_ok retire t'.
Proof. intros Ht Hr s st E. destruct (Hr s st E) as (?&?&?&?). auto. Qed.

Lemma wp_retire ms : ms ⊆ machines → ∀ acc v, fair v → retire_ok acc (log_of v) →
  wp fair (machineRetire ms acc) v (λ retire v', fair v' ∧ v'.2 = v.2 ∧ retire_ok retire (log_of v')).
Proof.
  induction ms as [|m ms IH]; intros Hms acc v Hv Hacc; simpl; [by apply wp_ret|].
  assert (m ∈ machines) as Hm by (apply Hms, list_elem_of_here).
  assert (ms ⊆ machines) as Hms' by set_solver. specialize (IH Hms').
  case_bool_decide as Hst; simpl; [|by apply IH].
  apply wp_bind, wp_try. intros v1 r1 Hl1.
  destruct r1 as [[]|e|x|]; simpl in Hl1; try (by eapply fair_silent).
  2: { destruct Hl1 as [El1 Es1]. rewrite <-Es1. apply IH; [by eapply fair_silent|]. rewrite El1, app_nil_r. done. }
  destruct Hl1 as [El1 Es1].
  assert (fair v1) as Hv1 by (unfold fair; rewrite El1; apply justified_snoc; [done|]; by exists m).
  apply wp_bind, wp_try. intros v2 r2 Hl2.
  destruct r2 as [out|e|x|]; simpl in Hl2; try (by eapply fair_silent).
  2: { destruct Hl2 as [El2 Es2]. rewrite <-Es1, <-Es2. apply IH; [by eapply fair_silent|].
       eapply retire_ok_mono; [|done]. rewrite El2, El1. set_solver. }
  destruct Hl2 as [El2 Es2]. rewrite <-Es1, <-Es2. apply IH.
  - unfold fair. rewrite El2. apply justified_snoc; [done|]. rewrite El1. split; [set_solver|by exists m].
  - intros s st. destruct (decide (m_Serial m = s)) as [<-|Hne].
    + rewrite lookup_insert_eq, El2, El1. intros [= <-]. split; [done|]. split; [set_solver|]. split; [set_solver|]. by exists m.
    + rewrite lookup_insert_ne by done. apply (retire_ok_mono acc (log_of v)); [|done]. rewrite El2, El1. set_solver.
Qed.

Lemma wp_set_states retire health now v :
  NoDup (serials machines) → fair v → retire_ok retire (log_of v) → health_ok health →
  wp fair (for_each machines (set_state c (retire ∪ health) now)) v (λ _, fair).
Proof.
  intros HN Hv Hr Hh. unfold wp.
  destruct (for_each machines (set_state c (retire ∪ health) now) v) as [v' r] eqn:E.
  enough (fair v') by by destruct r.
  destruct (loop_spec now (retire ∪ health) machines v v' r E HN) as (es & El & Hes & _).
  unfold fair. rewrite El. apply justified_app; [done|]. intros x t' Hx Ht'.
  destruct (Hes x Hx) as (m & st & Hm & -> & Hne & Hc). exists m. split_and!; [done..|].
  assert (∃ x, (retire ∪ health) !! m_Serial m = Some x ∧
    (st = x ∧ x ≠ stateUnhealthyImmediate ∨ st = StateUnhealthy ∧ (x = stateUnhealthyImmediate ∨ x = StateUnhealthy)))
    as (x & Ex & Hx').
  { destruct Hc as [[(Ex & ? & ?)|[Ex ->]]|(Hj & -> & _)]; [eauto 6..|]. exists StateUnhealthy.
    unfold judged in Hj. apply andb_true_iff in Hj as [Hj%bool_decide_eq_true _]. auto. }
  destruct retired_distinct as [Hri Hru].
  apply lookup_union_Some_raw in Ex as [Ex|[_ Ex]].
  - destruct (Hr _ _ Ex) as (-> & Hcr & Htp & m' & Hm' & Es & Hst). left.
    rewrite (serial_unique _ _ _ HN Hm' Hm Es) in Hst. split; [done|].
    destruct Hx' as [[-> _]|[_ [?|?]]]; [|done..]. auto.
  - destruct (Hh _ _ Ex) as (Hok & m' & Hm' & Es & Hck). right.
    rewrite (serial_unique _ _ _ HN Hm' Hm Es) in Hck. split; [done|].
    destruct Hx' as [[-> ?]|[-> _]]; [|auto]. destruct Hok as [?|[?|[?|?]]]; auto; done.
Qed.
End after_machines.

(** The trigger alerts are as [parseConfig] accepts them. *)
Definition valid_settings : Prop :=
  ∀ ts t, c_triggerAlerts c = Some ts → t ∈ ts → ta_State t = StateUnreachable ∨ ta_State t = StateUnhealthy.

Lemma wp_alerts machines v : fair machines v → valid_settings →
  wp (fair machines) (attempt (on_world (GetAlertStatuses (c_triggerAlerts c) machines))) v
    (λ r v', fair machines v' ∧ logged v [] v' ∧ valid_alerts match r with inr a => a | inl _ => ∅ end).
Proof.
  intros Hv Hs. unfold GetAlertStatuses.
  assert (valid_alerts ∅) as Hempty by (intros ip a; by rewrite lookup_empty).
  destruct (c_triggerAlerts c) as [ts|] eqn:Ec.
  2: { split_and!; [done| |done]. unfold logged. by rewrite app_nil_r. }
  unfold wp, attempt, on_world, mbind, M_bind. simpl. unfold traced.
  destruct (GetAlerts (tr_world v.1)) as [w' r]. set (t1 := {| tr_world := w'; tr_log := _ |} : Traced StateEffect W).
  assert (logged v [] (t1, v.2)) as Hl by done. pose proof (fair_silent _ _ _ Hl Hv) as Hv1.
  destruct r as [raw|e|x|]; simpl; try done. split_and!; [done..|].
  intros ip a Ea. destruct (alert_statuses_reflects machines ts raw ip) as [Hfrom _].
  destruct (Hfrom a Ea) as (t & [Ht _] & ->). simpl. by apply (Hs ts).
Qed.

Lemma wp_after_fetch machines v :
  machines ≠ [] → NoDup (serials machines) → valid_settings → log_of v = [] →
  wp (fair machines)
    (serfStatus ← on_world GetSerfStatus;
     r ← attempt (on_world (GetAlertStatuses (c_triggerAlerts c) machines));
     health ← machineHealthCheck c machines serfStatus match r with inr a => a | inl _ => ∅ end;
     retire ← machineRetire machines ∅;
     now ← on_world clock_now;
     for_each machines (set_state c (retire ∪ health) now)) v (λ _, fair machines).
Proof.
  intros Hne HN Hs Hl. assert (fair machines v) as Hv by (unfold fair; rewrite Hl; constructor).
  apply wp_bind. eapply wp_quiet.
  { apply quiet_world_bind; [apply quiet_traced|]. intros a. apply (quiet_world_const (Ok (serf_statuses a))). }
  intros v1 r Hl1. pose proof (fair_silent _ _ _ Hl1 Hv) as Hv1. destruct r as [serf|e|x|]; try done.
  apply wp_bind. eapply wp_mono; [by apply wp_alerts|]. simpl. intros r v2 (Hv2 & _ & Ha).
  apply wp_bind. eapply wp_mono; [by apply wp_healthcheck|]. simpl. intros health v3 (Hv3 & _ & Hh).
  apply wp_bind. eapply wp_mono; [apply wp_retire; [done|done|]; intros s st; by rewrite lookup_empty|].
  simpl. intros retire v4 (Hv4 & _ & Hr).
  apply wp_bind. eapply wp_quiet; [apply quiet_traced|]. intros v5 r' Hl5.
  pose proof (fair_silent _ _ _ Hl5 Hv4) as Hv5. destruct r' as [now|e|x|]; try done.
  apply wp_set_states; [done..| |done]. destruct Hl5 as [-> _]. by rewrite app_nil_r.
Qed.

Lemma quiet_GetAllMachines :
  quiet (E:=StateEffect) (W:=W) (S:=gmap string Time) (on_world GetAllMachines) GetAllMachines.
Proof. apply quiet_world_bind; [apply quiet_traced|]. intros ms. apply (quiet_world_const (to_machines ms)). Qed.

Lemma runOnce_fair w reg v' r machines w1 :
  runOnce c ({| tr_world := w; tr_log := [] |}, reg) = (v', r) →
  GetAllMachines w = (w1, Ok machines) → NoDup (serials machines) → valid_settings →
  fair machines v'.
Proof.
  intros E Em HN Hs. unfold runOnce in E.
  destruct (quiet_bind_inv _ _ _ _ _ _ (quiet_attempt _ _ quiet_GetAllMachines) E eq_refl)
    as [El|(res & v1 & E1 & L1 & _ & E')]; [unfold fair; rewrite El; constructor|].
  change (attempt GetAllMachines w = (tr_world v1.1, Ok res)) in E1.
  unfold attempt in E1. rewrite Em in E1. injection E1 as Ew <-.
  destruct machines as [|m ms] eqn:Ems; [injection E' as <- <-; unfold fair; rewrite L1; constructor|].
  pose proof (wp_after_fetch (m :: ms) v1 ltac:(done) HN Hs L1) as Hwp. unfold wp in Hwp.
  rewrite E' in Hwp. by destruct r.
Qed.

(** C26: a pass changes the state of a listed machine only as follows: a retiring
    machine becomes retired, after its disk keys were deleted from sabakan and its TPM
    was cleared in the same pass, in that order; a machine that is uninitialized,
    healthy, unhealthy or unreachable becomes one of the last three, and never its
    current one.  Machines that are updating or retired are left alone. *)
Theorem runOnce_sets w reg v' r machines w1 s st :
  runOnce c ({| tr_world := w; tr_log := [] |}, reg) = (v', r) →
  GetAllMachines w = (w1, Ok machines) → NoDup (map m_Serial machines) →
  (∀ ts t, c_triggerAlerts c = Some ts → t ∈ ts →
     ta_State t = StateUnreachable ∨ ta_State t = StateUnhealthy) →
  SetState s st ∈ log_of v' →
  ∃ m, m ∈ machines ∧ m_Serial m = s ∧ st ≠ m_State m ∧
    (m_State m = StateRetiring ∧ st = StateRetired ∧
       (∃ t1 t2, log_of v' = t1 ++ SetState s st :: t2 ∧ CryptsGone s ∈ t1 ∧ TPMCleared s ∈ t1) ∨
     checked m = true ∧ (st = StateUnreachable ∨ st = StateUnhealthy ∨ st = StateHealthy)).
Proof.
  intros E Em HN Hs Hx. pose proof (runOnce_fair _ _ _ _ _ _ E Em HN Hs) as Hf.
  destruct (justified_lookup _ _ _ Hf Hx) as (t1 & t2 & El & m & Hm & Es & Hne & Hc).
  exists m. split_and!; [done..|]. destruct Hc as [(?&?&?&?)|?]; [left|by right]. eauto 10.
Qed.


(** ** Shutting retired machines down *)
Definition seen_on (es : list StateEffect) (s : string) : Prop :=
  ∃ out, PowerIs s out ∈ es ∧ TrimSpace out ≠ "Off".
Definition handled (es : list StateEffect) (errs : list string) (s : string) : Prop :=
  s ∈ errs ∨ (∃ out, PowerIs s out ∈ es ∧ TrimSpace out = "Off") ∨ Stopped s ∈ es.

(** What [shutdown_loop] adds to the record, and its result if it ends. *)
Definition shut (ms : list machine) (errs : list string) (t t' : Traced StateEffect W)
    (r : outcome (list string)) : Prop := ∃ es, tr_log t' = tr_log t ++ es ∧
  (∀ s, Stopped s ∈ es → (∃ m, m ∈ ms ∧ m_Serial m = s) ∧ seen_on es s) ∧
  ∀ errs', r = Ok errs' → errs ⊆ errs' ∧ ∀ m, m ∈ ms → handled es errs' (m_Serial m).

Lemma handled_mono es es' errs s : es ⊆ es' → handled es errs s → handled es' errs s.
Proof. intros Hes [?|[(out & ? & ?)|?]]; unfold handled; eauto 6. Qed.

(** One machine, then the rest. *)
Lemma shut_cons m ms errs errs1 t t1 t' r es1 :
  tr_log t1 = tr_log t ++ es1 → (∀ s, Stopped s ∈ es1 → s = m_Serial m ∧ seen_on es1 s) →
  errs ⊆ errs1 → (∀ errs', errs1 ⊆ errs' → handled es1 errs' (m_Serial m)) →
  shut ms errs1 t1 t' r → shut (m :: ms) errs t t' r.
Proof.
  intros El1 Hs1 He1 Hh1 (es2 & El2 & Hs2 & Hr2). exists (es1 ++ es2).
  split; [by rewrite El2, El1, app_assoc|]. split.
  - intros s [Hin|Hin]%elem_of_app.
    + destruct (Hs1 s Hin) as [-> (out & ? & ?)]. split; [exists m; set_solver|]. exists out. set_solver.
    + destruct (Hs2 s Hin) as [(m' & ? & ?) (out & ? & ?)]. split; [exists m'; set_solver|]. exists out. set_solver.
  - intros errs' ->. destruct (Hr2 errs' eq_refl) as [Hsub Hall]. split; [set_solver|].
    intros m' [->|Hm']%elem_of_cons; [apply (handled_mono es1); [set_solver|auto]|].
    apply (handled_mono es2); [set_solver|auto].
Qed.

Lemma shut_stop m ms errs t t1 (r : outcome (list string)) es1 :
  tr_log t1 = tr_log t ++ es1 → (∀ s, Stopped s ∈ es1 → s = m_Serial m ∧ seen_on es1 s) →
  (∀ errs', r ≠ Ok errs') → shut (m :: ms) errs t t1 r.
Proof.
  intros El Hs Hr. exists es1. split; [done|]. split; [|by intros errs' ?%Hr].
  intros s Hin. destruct (Hs s Hin) as [-> ?]. split; [exists m; set_solver|done].
Qed.

Lemma shutdown_loop_spec ms : ∀ errs t t' r, shutdown_loop ms errs t = (t', r) → shut ms errs t t' r.
Proof.
  induction ms as [|m ms IH]; intros errs t t' r E; simpl in E.
  { injection E as <- <-. exists []. rewrite app_nil_r. split; [done|]. split; [by intros ? ?%not_elem_of_nil|].
    intros errs' [= <-]. split; [done|]. by intros ? ?%not_elem_of_nil. }
  unfold attempt, mbind, M_bind in E. simpl in E. unfold traced in E.
  destruct (PowerStatus (m_Serial m) (tr_world t)) as [w1 r1]. destruct r1 as [out|e|x|]; simpl in E.
  - case_bool_decide as Hoff.
    { eapply shut_cons; [| | | |by apply IH]; [done|set_solver|done|].
      intros errs' _. right; left. exists out. set_solver. }
    simpl in E. destruct (PowerStop (m_Serial m) w1) as [w2 r2].
    assert (∀ s, Stopped s ∈ [PowerIs (m_Serial m) out] ++ [Stopped (m_Serial m)] →
      s = m_Serial m ∧ seen_on ([PowerIs (m_Serial m) out] ++ [Stopped (m_Serial m)]) s) as Hst.
    { intros s Hin. assert (s = m_Serial m) as -> by set_solver. split; [done|]. exists out. set_solver. }
    destruct r2 as [out2|e|x|].
    + eapply shut_cons; [| | | |by apply IH]; [symmetry; apply app_assoc|done|done|].
      intros errs' _. right; right. set_solver.
    + eapply shut_cons; [| | | |by apply IH]; [symmetry; apply app_assoc|done|set_solver|].
      intros errs' Hsub. left. set_solver.
    + injection E as <- <-. eapply shut_stop; [symmetry; apply app_assoc|done|done].
    + injection E as <- <-. eapply shut_stop; [symmetry; apply app_assoc|done|done].
  - eapply shut_cons; [| | | |by apply IH]; [done|set_solver|set_solver|]. intros errs' Hsub. left. set_solver.
  - injection E as <- <-. eapply shut_stop; [done|set_solver|done].
  - injection E as <- <-. eapply shut_stop; [done|set_solver|done].
Qed.

(** The shutdown job powers off only machines that sabakan lists as retired and
    whose power status it read and found not off, and every retired machine is
    powered off, found off, or named in the list of failures that it logs. *)
Theorem machineShutdown_retired w t' r machines w1 :
  machineShutdown {| tr_world := w; tr_log := [] |} = (t', r) →
  GetRetiredMachines w = (w1, Ok machines) →
  (∀ s, Stopped s ∈ tr_log t' →
     (∃ m, m ∈ machines ∧ m_Serial m = s) ∧ ∃ out, PowerIs s out ∈ tr_log t' ∧ TrimSpace out ≠ "Off") ∧
  (∀ errs, r = Ok errs → ∀ m, m ∈ machines →
     m_Serial m ∈ errs ∨ (∃ out, PowerIs (m_Serial m) out ∈ tr_log t' ∧ TrimSpace out = "Off") ∨
     Stopped (m_Serial m) ∈ tr_log t').
Proof.
  intros E Em. unfold machineShutdown, GetRetiredMachines, getMachines, attempt, mbind, M_bind in E.
  simpl in E. unfold traced in E. unfold GetRetiredMachines, getMachines, mbind, M_bind in Em. simpl in E.
  destruct (gql_searchMachines (Some [StateRetired]) w) as [w2 r2]. destruct r2 as [ms|e|x|]; try done.
  unfold lift in Em, E. injection Em as <- Em. rewrite Em in E.
  apply shutdown_loop_spec in E as (es & El & Hs & Hr). simpl in El. rewrite El.
  split; [done|]. intros errs ->. apply (Hr errs eq_refl).
Qed.
End runs.

(** ** The theorems at concrete inputs

    A data center of four machines: one healthy, one whose hardware fails, one that is
    retiring and one that is retired. *)
Module Witness.
#[local] Instance sabakan_states : MachineStates := {
  StateUninitialized := "uninitialized"; StateHealthy := "healthy"; StateUnhealthy := "unhealthy";
  StateUnreachable := "unreachable"; StateUpdating := "updating"; StateRetiring := "retiring";
  StateRetired := "retired";
  MachineState_IsValid s := bool_decide (s ∈ ["uninitialized"; "healthy"; "unhealthy"; "unreachable";
                                              "updating"; "retiring"; "retired"]);
}.
#[local] Instance sabakan_laws : MachineStatesLaws.
Proof.
  split; [apply (bool_decide_unpack _); vm_compute; exact I|]. intros s Hs. by apply bool_decide_eq_true_2.
Qed.
#[local] Instance alert_labels : AlertLabels := { AlertNameLabel := "alertname" }.

(** The world is a clock. *)
Definition listed_machine (serial ip state : string) : searchMachine :=
  {| sm_Serial := serial; sm_Labels := [{| lb_Name := "machine-type"; lb_Value := "boot" |}];
     sm_IPv4 := [ip]; sm_State := state |}.
#[local] Instance dc_sabakan : SabakanServer Time := {
  gql_searchMachines h := mret match h with
    | None => [listed_machine "s1" "10.0.0.1" "HEALTHY"; listed_machine "s2" "10.0.0.2" "HEALTHY";
               listed_machine "s3" "10.0.0.3" "RETIRING"; listed_machine "s4" "10.0.0.4" "RETIRED"]
    | Some _ => [listed_machine "s4" "10.0.0.4" "RETIRED"]
    end;
  gql_setMachineState _ _ := mret ();
  sabakan_CryptsDelete _ := mret ();
}.
Definition member (ip : string) : serfMember :=
  {| sf_Addr := ip; sf_Status := "alive"; sf_Tags := {["systemd-units-failed" := ""]} |}.
#[local] Instance dc_serf : SerfServer Time := {
  serf_Members := mret [member "10.0.0.1"; member "10.0.0.2"];
}.
Definition gauge (v : spec_float) : metric := {| mt_Label := [("dev", "sda")]; mt_Gauge := Some v |}.
Definition fine : gmap string MetricFamily := {["hw_status" := [gauge (S754_zero false)]]}.
Definition broken : gmap string MetricFamily := {["hw_status" := [gauge (S754_finite false 1 0)]]}.
#[local] Instance dc_prom : PromServer Time := {
  ConnectMetricsServer ip := mret (if bool_decide (ip = "10.0.0.2") then broken else fine);
}.
#[local] Instance dc_alerts : Alertmanager Time := {
  GetAlerts := mret [{["alertname" := "DiskLost"; "node" := "10.0.0.1"]}];
}.
#[local] Instance dc_neco : NecoCmd Time := {
  PowerStop _ := mret "ok"; PowerStatus _ := mret "On"; TPMClear _ := mret "cleared";
}.
#[local] Instance dc_clock : Clock Time := { clock_now t := (t, Ok t); clock_after _ := mret true }.

Definition boot_type : machineType :=
  {| mty_Name := "boot"; mty_GracePeriod := Hour;
     mty_MetricsCheckList := [{| tm_Name := "hw_status";
       tm_Selector := Some {| sl_Labels := {["dev" := "sda"]}; sl_LabelPrefix := ∅ |};
       tm_MinimumHealthyCount := None |}] |}.
Definition disk_lost : triggerAlert :=
  {| ta_Name := "DiskLost"; ta_Labels := ∅; ta_AddressLabel := "node"; ta_SerialLabel := "";
     ta_State := "unhealthy" |}.
Definition settings : Settings :=
  {| c_parallelSize := 4; c_machineTypes := {["boot" := boot_type]}; c_triggerAlerts := Some [disk_lost] |}.

Definition pass_at (now : Time) (reg : gmap string Time) : SW Time * outcome unit :=
  runOnce settings ({| tr_world := now; tr_log := [] |}, reg).
(** An hour and a minute after [s2] was first seen broken: [s1] is unhealthy by an alert,
    [s2] by its hardware, [s3] is retired. *)
Example pass_log :
  log_of (pass_at (61 * Minute) {["s2" := 0]}).1 =
  [CryptsGone "s3"; TPMCleared "s3"; SetState "s1" "unhealthy"; SetState "s2" "unhealthy"; SetState "s3" "retired"].
Proof. vm_compute. reflexivity. Qed.
Example early_log :
  log_of (pass_at (59 * Minute) {["s2" := 0]}).1 =
  [CryptsGone "s3"; TPMCleared "s3"; SetState "s1" "unhealthy"; SetState "s3" "retired"].
Proof. vm_compute. reflexivity. Qed.

Definition dc : list machine :=
  [{| m_Serial := "s1"; m_Type := "boot"; m_IPv4Addr := "10.0.0.1"; m_State := "healthy" |};
   {| m_Serial := "s2"; m_Type := "boot"; m_IPv4Addr := "10.0.0.2"; m_State := "healthy" |};
   {| m_Serial := "s3"; m_Type := "boot"; m_IPv4Addr := "10.0.0.3"; m_State := "retiring" |};
   {| m_Serial := "s4"; m_Type := "boot"; m_IPv4Addr := "10.0.0.4"; m_State := "retired" |}].
Definition late := pass_at (61 * Minute) {["s2" := 0]}.
Lemma late_runs : runOnce settings ({| tr_world := 61 * Minute; tr_log := [] |}, {["s2" := 0]}) = (late.1, Ok ()).
Proof. unfold late, pass_at. runs. Qed.
Lemma settings_valid ts t : c_triggerAlerts settings = Some ts → t ∈ ts →
  ta_State t = StateUnreachable ∨ ta_State t = StateUnhealthy.
Proof. intros [= <-] ->%list_elem_of_singleton. by right. Qed.

Lemma runOnce_sets_witness :
  SetState "s3" "retired" ∈ log_of late.1 ∧
  ∃ m, m ∈ dc ∧ m_Serial m = "s3" ∧ "retired" ≠ m_State m ∧
    (m_State m = StateRetiring ∧ "retired" = StateRetired ∧
       (∃ t1 t2, log_of late.1 = t1 ++ SetState "s3" "retired" :: t2 ∧ CryptsGone "s3" ∈ t1 ∧ TPMCleared "s3" ∈ t1) ∨
     checked m = true ∧ ("retired" = StateUnreachable ∨ "retired" = StateUnhealthy ∨ "retired" = StateHealthy)).
Proof.
  assert (SetState "s3" "retired" ∈ log_of late.1) as Hx by (apply list_elem_of_In; vm_compute; tauto).
  split; [exact Hx|].
  apply (runOnce_sets settings (61 * Minute) {["s2" := 0]} late.1 (Ok ()) dc (61 * Minute) "s3" "retired" late_runs);
    [vm_compute; reflexivity|apply (bool_decide_unpack _); vm_compute; exact I|exact settings_valid|exact Hx].
Defined.


Lemma machineShutdown_retired_witness :
  let t' := (machineShutdown {| tr_world := 0; tr_log := [] |} : Traced StateEffect Time * _).1 in
  Stopped "s4" ∈ tr_log t' ∧ ∃ out, PowerIs "s4" out ∈ tr_log t' ∧ TrimSpace out ≠ "Off".
Proof.
  cbv zeta.
  destruct (machineShutdown_retired 0 (machineShutdown {| tr_world := 0; tr_log := [] |} : Traced StateEffect Time * _).1
    (Ok []) [{| m_Serial := "s4"; m_Type := "boot"; m_IPv4Addr := "10.0.0.4"; m_State := "retired" |}] 0) as [Hs _];
    [runs|vm_compute; reflexivity|].
  assert (Stopped "s4" ∈ tr_log (machineShutdown {| tr_world := 0; tr_log := [] |} : Traced StateEffect Time * _).1) as Hx
    by (apply list_elem_of_In; vm_compute; tauto).
  split; [exact Hx|]. apply (Hs "s4" Hx).
Defined.

(** [s2] is judged unhealthy at 0 and half an hour later, and set an hour and a minute later. *)
Definition bad : gmap string string := {["s2" := "unhealthy"]}.
Definition history : list (Time * gmap string string * list machine) := [(0, bad, dc); (30 * Minute, bad, dc)].
Definition start : SW Time := ({| tr_world := 0; tr_log := [] |}, ∅).
Definition before : SW Time := (for_each history (pass_loop settings) start).1.
Definition after : SW Time := (pass_loop settings (61 * Minute, bad, dc) before).1.

Definition source : machineStateSource :=
  {| mss_serial := "s1"; mss_ipv4 := "10.0.0.1"; mss_serfStatus := Some (serf_status_of (member "10.0.0.1"));
     mss_alertStatus := None; mss_machineType := Some boot_type; mss_metrics := Some fine |}.
Lemma decideMachineStateCandidate_spec_witness :
  alive source ∧ failed_units source = Some "" ∧ hardware_ok source.
Proof.
  destruct (decideMachineStateCandidate_spec source) as (_ & _ & _ & [Hh _] & _); [intros a [=]|].
  destruct Hh as (? & _ & ? & ?); [vm_compute; reflexivity|]. auto.
Defined.

Definition cfg : config :=
  {| cf_ShutdownSchedule := ""; cf_MachineTypes := [Some {| mty_Name := "boot"; mty_MetricsCheckList := [];
       mty_GracePeriod := 0 |}];
     cf_AlertMonitor := Some {| al_AlertmanagerEndpoint := "http://am"; al_TriggerAlerts := [disk_lost] |} |}.
Lemma parseConfig_valid_witness :
  ∃ types, parseConfig cfg = Ok ("", types, cf_AlertMonitor cfg) ∧ types ≠ ∅ ∧
    ∀ name mt, types !! name = Some mt → mty_Name mt = name ∧ mty_GracePeriod mt ≠ 0.
Proof.
  eexists. split; [vm_compute; reflexivity|].
  edestruct (parseConfig_valid cfg) as (_ & _ & Hne & Ht & _); [vm_compute; reflexivity|].
  split; [exact Hne|exact Ht].
Defined.
End Witness.
