(* ===== verification/GoNet.v ===== *)
(** * Go's [net] addresses, as far as the sources use them

    [net.IP] is a slice of bytes, 4 or 16 long, or nil (the empty list); an IPv4
    address may have either length.  Parsing follows [net/netip], printing follows
    [IP.String] and [IPNet.String].  Address arithmetic is cybozu-go/netutil, which
    is not part of the sources: a class with its documented behaviour. *)
From S2P Require Import Prelude GoStr.
Local Open Scope Z_scope.

(** ** Addresses *)
Definition IP := list Z.
Definition IPMask := list Z.
Record IPNet := { ipn_IP : IP; ipn_Mask : IPMask }.

#[export] Instance IPNet_eq_dec : EqDecision IPNet.
Proof. solve_decision. Defined.

Definition v4InV6Prefix : list Z := [0;0;0;0;0;0;0;0;0;0;255;255].

Definition To4 (ip : IP) : IP :=
  if (length ip =? 4)%nat then ip
  else if (length ip =? 16)%nat && bool_decide (take 12 ip = v4InV6Prefix) then drop 12 ip
  else [].

(** [ip.Equal(x)]: an IPv4 address equals its 16-byte form. *)
Definition IP_Equal (ip x : IP) : bool :=
  if (length ip =? length x)%nat then bool_decide (ip = x)
  else if (length ip =? 4)%nat && (length x =? 16)%nat then
    bool_decide (take 12 x = v4InV6Prefix) && bool_decide (ip = drop 12 x)
  else if (length ip =? 16)%nat && (length x =? 4)%nat then
    bool_decide (take 12 ip = v4InV6Prefix) && bool_decide (drop 12 ip = x)
  else false.

(** ** Printing *)
Definition hex_byte (b : Z) : string := hex_fixed 2 b "".
Definition hexString (b : list Z) : string := String.concat "" (map hex_byte b).

Definition dotted (b : list Z) : string := String.concat "." (map Itoa b).

(** A 16-bit group without leading zeros. *)
Definition hex_group_text (g : Z) : string :=
  if 4096 <=? g then hex_fixed 4 g ""
  else if 256 <=? g then hex_fixed 3 g ""
  else if 16 <=? g then hex_fixed 2 g ""
  else hex_fixed 1 g "".

Fixpoint groups_of (b : list Z) : list Z :=
  match b with
  | hi :: lo :: b => hi * 256 + lo :: groups_of b
  | _ => []
  end.

Fixpoint zero_run (gs : list Z) : nat :=
  match gs with
  | g :: gs => if g =? 0 then S (zero_run gs) else O
  | [] => O
  end.

(** The first longest run of at least two zero groups, as [(start, end)]. *)
Fixpoint longest_run (i : nat) (gs : list Z) (best : nat * nat) : nat * nat :=
  match gs with
  | [] => best
  | _ :: gs' =>
      let l := zero_run gs in
      longest_run (S i) gs'
        (if ((2 <=? l) && (best.2 - best.1 <? l))%nat then (i, i + l)%nat else best)
  end.

Fixpoint v6_text (i : nat) (gs : list Z) (zero : nat * nat) : string :=
  match gs with
  | [] => ""
  | g :: gs =>
      (if ((zero.1 <=? i) && (i <? zero.2))%nat then (if (i =? zero.1)%nat then "::" else "")
       else (if ((i =? 0) || (i =? zero.2))%nat then "" else ":") +:+ hex_group_text g)
      +:+ v6_text (S i) gs zero
  end.

Definition no_run : nat * nat := (255, 255)%nat.

Definition IP_String (ip : IP) : string :=
  if (length ip =? 0)%nat then "<nil>"
  else if negb ((length ip =? 4)%nat || (length ip =? 16)%nat) then "?" +:+ hexString ip
  else if (length (To4 ip) =? 4)%nat then dotted (To4 ip)
  else v6_text 0 (groups_of ip) (longest_run 0 (groups_of ip) no_run).

(** ** Masks and networks *)
Fixpoint mask_bytes (l : nat) (n : Z) : IPMask :=
  match l with
  | O => []
  | S l => if 8 <=? n then 255 :: mask_bytes l (n - 8)
           else (255 - Z.shiftr 255 n) :: mask_bytes l 0
  end.

Definition CIDRMask (ones bits : Z) : IPMask :=
  if negb ((bits =? 32) || (bits =? 128)) then []
  else if (ones <? 0) || (bits <? ones) then []
  else mask_bytes (Z.to_nat (bits / 8)) ones.

Definition and_bytes (ip : IP) (mask : IPMask) : IP :=
  if (length ip =? length mask)%nat then zip_with Z.land ip mask else [].

Definition Mask (ip : IP) (mask : IPMask) : IP :=
  let mask := if (length mask =? 16)%nat && (length ip =? 4)%nat &&
                 bool_decide (take 12 mask = replicate 12 255) then drop 12 mask else mask in
  let ip := if (length mask =? 4)%nat && (length ip =? 16)%nat &&
               bool_decide (take 12 ip = v4InV6Prefix) then drop 12 ip else ip in
  and_bytes ip mask.

(** Leading ones of a byte, and what follows them. *)
Fixpoint leading_ones (fuel : nat) (v n : Z) : Z * Z :=
  match fuel with
  | O => (n, v)
  | S fuel => if Z.testbit v 7 then leading_ones fuel (Z.land (v * 2) 255) (n + 1) else (n, v)
  end.

Fixpoint simpleMaskLength (mask : IPMask) (n : Z) : Z :=
  match mask with
  | [] => n
  | v :: mask =>
      if v =? 255 then simpleMaskLength mask (n + 8)
      else
        let '(n, v) := leading_ones 8 v n in
        if negb (v =? 0) || existsb (λ b, negb (b =? 0)) mask then -1 else n
  end.

Definition IPMask_String (m : IPMask) : string :=
  if (length m =? 0)%nat then "<nil>" else hexString m.

Definition networkNumberAndMask (n : IPNet) : option (IP * IPMask) :=
  let ip := match To4 (ipn_IP n) with [] => ipn_IP n | ip4 => ip4 end in
  if negb ((length ip =? 4)%nat || (length ip =? 16)%nat) then None
  else if (length (ipn_Mask n) =? 4)%nat then
    if (length ip =? 4)%nat then Some (ip, ipn_Mask n) else None
  else if (length (ipn_Mask n) =? 16)%nat then
    Some (ip, if (length ip =? 4)%nat then drop 12 (ipn_Mask n) else ipn_Mask n)
  else None.

Definition IPNet_String (n : IPNet) : string :=
  match networkNumberAndMask n with
  | None => "<nil>"
  | Some (nn, m) =>
      let l := simpleMaskLength m 0 in
      if l =? -1 then IP_String nn +:+ "/" +:+ IPMask_String m
      else IP_String nn +:+ "/" +:+ Itoa l
  end.

(** ** Parsing *)
Inductive Addr :=
  | Addr4 (b : list Z)
  | Addr6 (b : list Z) (zone : string).

Definition digit_of (c : ascii) : option Z :=
  let n := Z.of_N (Ascii.N_of_ascii c) in
  if (48 <=? n) && (n <=? 57) then Some (n - 48) else None.
Definition hex_of (c : ascii) : option Z :=
  let n := Z.of_N (Ascii.N_of_ascii c) in
  if (48 <=? n) && (n <=? 57) then Some (n - 48)
  else if (97 <=? n) && (n <=? 102) then Some (n - 87)
  else if (65 <=? n) && (n <=? 70) then Some (n - 55)
  else None.

(** [fields] are the octets read, [sep] says that no digit of the current one has
    been read because the text starts or a dot came before. *)
Fixpoint parseIPv4Fields (s : string) (fields : list Z) (val : Z) (digLen : nat) (sep : bool)
    : option (list Z) :=
  match s with
  | EmptyString => if (length fields <? 3)%nat then None else Some (fields ++ [val])
  | String c s =>
      match digit_of c with
      | Some d =>
          if (digLen =? 1)%nat && (val =? 0) then None
          else
            let val := val * 10 + d in
            if 255 <? val then None else parseIPv4Fields s fields val (S digLen) false
      | None =>
          if bool_decide (c = "."%char) then
            if sep || bool_decide (s = "") then None
            else if (length fields =? 3)%nat then None
            else parseIPv4Fields s (fields ++ [val]) 0 0 true
          else None
      end
  end.
Definition parseIPv4 (s : string) : option (list Z) := parseIPv4Fields s [] 0 0 true.

(** The hexadecimal digits at the start of [s]: how many, their value, the rest. *)
Fixpoint hex_group (s : string) (off : nat) (acc : Z) : option (nat * Z * string) :=
  match s with
  | EmptyString => Some (off, acc, "")
  | String c s' =>
      match hex_of c with
      | None => Some (off, acc, s)
      | Some d =>
          let acc := acc * 16 + d in
          if (3 <? off)%nat || (65535 <? acc) then None else hex_group s' (S off) acc
      end
  end.

(** The groups of an IPv6 address; the fuel is the number of groups still missing. *)
Fixpoint v6_groups (fuel : nat) (s : string) (ip : list Z) (ellipsis : option nat)
    : option (string * list Z * option nat) :=
  match fuel with
  | O => Some (s, ip, ellipsis)
  | S fuel =>
      match hex_group s 0 0 with
      | None | Some (O, _, _) => None
      | Some (_, acc, rest) =>
          let ip' := ip ++ [acc / 256; acc mod 256] in
          match rest with
          | EmptyString => Some ("", ip', ellipsis)
          | String c rest =>
              if bool_decide (c = "."%char) then
                if bool_decide (ellipsis = None) && negb (length ip =? 12)%nat then None
                else if (16 <? length ip + 4)%nat then None
                else match parseIPv4 s with
                     | None => None
                     | Some b => Some ("", ip ++ b, ellipsis)
                     end
              else if negb (bool_decide (c = ":"%char)) then None
              else
                match rest with
                | EmptyString => None
                | String c' rest' =>
                    if bool_decide (c' = ":"%char) then
                      match ellipsis with
                      | Some _ => None
                      | None =>
                          if bool_decide (rest' = "") then Some ("", ip', Some (length ip'))
                          else v6_groups fuel rest' ip' (Some (length ip'))
                      end
                    else v6_groups fuel rest ip' ellipsis
                end
          end
      end
  end.

Definition v6_finish (r : option (string * list Z * option nat)) : option (list Z) :=
  match r with
  | Some (EmptyString, ip, ellipsis) =>
      match ellipsis with
      | Some e => if (length ip <? 16)%nat
                  then Some (take e ip ++ replicate (16 - length ip) 0 ++ drop e ip) else None
      | None => if (length ip <? 16)%nat then None else Some ip
      end
  | _ => None
  end.

Definition parseIPv6 (s : string) : option Addr :=
  let '(s, z) := SplitN2 "%" s in
  match z with
  | Some EmptyString => None
  | _ =>
      let zone := default "" z in
      match s with
      | String ":" (String ":" s') =>
          if bool_decide (s' = "") then Some (Addr6 (replicate 16 0) zone)
          else ip ← v6_finish (v6_groups 8 s' [] (Some O)); Some (Addr6 ip zone)
      | _ => ip ← v6_finish (v6_groups 8 s [] None); Some (Addr6 ip zone)
      end
  end.

(** [netip.ParseAddr]: the first dot, colon or percent sign decides. *)
Fixpoint addr_kind (s : string) : option ascii :=
  match s with
  | EmptyString => None
  | String c s =>
      if bool_decide (c = "."%char) || bool_decide (c = ":"%char) || bool_decide (c = "%"%char)
      then Some c else addr_kind s
  end.
Definition ParseAddr (s : string) : option Addr :=
  match addr_kind s with
  | Some c => if bool_decide (c = "."%char) then b ← parseIPv4 s; Some (Addr4 b)
              else if bool_decide (c = ":"%char) then parseIPv6 s else None
  | None => None
  end.

Definition As16 (a : Addr) : IP :=
  match a with Addr4 b => v4InV6Prefix ++ b | Addr6 b _ => b end.
Definition BitLen (a : Addr) : Z := match a with Addr4 _ => 32 | Addr6 _ _ => 128 end.
Definition zoned (a : Addr) : bool :=
  match a with Addr6 _ zone => negb (bool_decide (zone = "")) | Addr4 _ => false end.

(** [net.ParseIP]: nil when the text is no address; always the 16-byte form. *)
Definition ParseIP (s : string) : IP :=
  match ParseAddr s with
  | Some a => if zoned a then [] else As16 a
  | None => []
  end.

(** [dtoi] on a whole text. *)
Fixpoint dtoi (s : string) (n : Z) : option Z :=
  match s with
  | EmptyString => Some n
  | String c s =>
      match digit_of c with
      | Some d => if 16777215 <=? n * 10 + d then None else dtoi s (n * 10 + d)
      | None => None
      end
  end.

Definition ParseCIDR (s : string) : outcome (IP * IPNet) :=
  let bad := Err (ErrMsg ("invalid CIDR address: " +:+ s)) in
  match SplitN2 "/" s with
  | (addr, Some mask) =>
      match ParseAddr addr with
      | None => bad
      | Some a =>
          if zoned a then bad
          else if bool_decide (mask = "") then bad
          else
            match dtoi mask 0 with
            | None => bad
            | Some n =>
                if BitLen a <? n then bad
                else
                  let m := CIDRMask n (BitLen a) in
                  Ok (As16 a, {| ipn_IP := Mask (As16 a) m; ipn_Mask := m |})
            end
      end
  | (_, None) => bad
  end.

(** ** Values of IPv4 addresses *)
Definition v4_bytes (v : Z) : list Z :=
  [v / 2 ^ 24; v / 2 ^ 16 mod 256; v / 2 ^ 8 mod 256; v mod 256].
Definition v4_value (b : list Z) : Z :=
  match b with [a; b; c; d] => ((a * 256 + b) * 256 + c) * 256 + d | _ => 0 end.
Definition is_byte (z : Z) : Prop := 0 <= z < 256.
(** [ip] is the IPv4 address of value [v]. *)
Definition is_v4 (ip : IP) (v : Z) : Prop := 0 <= v < 2 ^ 32 ∧ To4 ip = v4_bytes v.

(** netutil.IPAdd: [ip + val]; an IPv4 address gives an IPv4 address, or nil when the
    sum is not one. *)
Class NetUtil := { IPAdd : IP → Z → IP }.
Class NetUtilLaws `{NetUtil} := {
  IPAdd_v4 ip v val : is_v4 ip v → 0 <= v + val < 2 ^ 32 → is_v4 (IPAdd ip val) (v + val);
  IPAdd_overflow ip v val : is_v4 ip v → ¬ 0 <= v + val < 2 ^ 32 → IPAdd ip val = [];
}.

(** ** Facts *)
Lemma is_byte_elim (P : Z → Prop) :
  Forall P (map Z.of_nat (seq 0 256)) → ∀ b, is_byte b → P b.
Proof.
  intros HP b Hb. rewrite Forall_forall in HP. apply HP.
  apply list_elem_of_fmap. exists (Z.to_nat b). unfold is_byte in Hb.
  split; [lia|]. apply elem_of_seq. lia.
Qed.

(** Reading the decimal digits of a byte. *)
Definition reads_byte (b : Z) : Prop := ∀ rest fields, ∃ n,
  parseIPv4Fields (Itoa b +:+ rest) fields 0 0 true = parseIPv4Fields rest fields b n false.

Lemma reads_bytes b : is_byte b → reads_byte b.
Proof.
  revert b. apply is_byte_elim. vm_compute (map Z.of_nat (seq 0 256)).
  repeat (apply Forall_cons; split;
    [intros rest fields; match goal with |- context [Itoa ?k] =>
       let s := eval vm_compute in (Itoa k) in change (Itoa k) with s end;
     eexists; reflexivity|]).
  apply Forall_nil. done.
Qed.

Lemma byte_text_dotless b : is_byte b → ∀ rest, addr_kind (Itoa b +:+ rest) = addr_kind rest.
Proof.
  revert b. apply (is_byte_elim (λ b, ∀ rest, addr_kind (Itoa b +:+ rest) = addr_kind rest)).
  vm_compute (map Z.of_nat (seq 0 256)).
  repeat (apply Forall_cons; split;
    [intros rest; match goal with |- context [Itoa ?k] =>
       let s := eval vm_compute in (Itoa k) in change (Itoa k) with s end; reflexivity|]).
  apply Forall_nil. done.
Qed.

Lemma byte_text_nonempty b : is_byte b → Itoa b ≠ "".
Proof.
  revert b. apply (is_byte_elim (λ b, Itoa b ≠ EmptyString)).
  vm_compute (map Z.of_nat (seq 0 256)).
  repeat (apply Forall_cons; split; [by vm_compute|]). apply Forall_nil. done.
Qed.
Lemma text_app_nonempty (s t : string) : s ≠ "" → s +:+ t ≠ "".
Proof. by destruct s. Qed.

(** Reading a dot that the text of a byte follows. *)
Ltac dot_step := rewrite string_app_cons, string_app_nil_l; simpl;
  rewrite bool_decide_eq_false_2 by by apply text_app_nonempty, byte_text_nonempty.

Lemma parseIPv4_dotted a b c d :
  is_byte a → is_byte b → is_byte c → is_byte d →
  parseIPv4 (dotted [a; b; c; d]) = Some [a; b; c; d].
Proof.
  intros Ha Hb Hc Hd. unfold parseIPv4, dotted. simpl.
  rewrite <-(string_app_nil_r (Itoa d)).
  edestruct (reads_bytes a Ha) as [n1 ->]. dot_step.
  edestruct (reads_bytes b Hb) as [n2 ->]. dot_step.
  edestruct (reads_bytes c Hc) as [n3 ->]. dot_step.
  edestruct (reads_bytes d Hd) as [n4 ->]. done.
Qed.

Lemma ParseAddr_dotted a b c d :
  is_byte a → is_byte b → is_byte c → is_byte d → ParseAddr (dotted [a; b; c; d]) = Some (Addr4 [a; b; c; d]).
Proof.
  intros Ha Hb Hc Hd. unfold ParseAddr.
  replace (addr_kind (dotted [a; b; c; d])) with (Some "."%char).
  2: { unfold dotted. simpl. by rewrite byte_text_dotless. }
  simpl. by rewrite parseIPv4_dotted.
Qed.
Lemma ParseIP_dotted a b c d :
  is_byte a → is_byte b → is_byte c → is_byte d →
  ParseIP (dotted [a; b; c; d]) = v4InV6Prefix ++ [a; b; c; d].
Proof. intros. unfold ParseIP. by rewrite ParseAddr_dotted. Qed.

(** The text of a network in CIDR notation. *)
Fixpoint slashless (s : string) : bool :=
  match s with
  | EmptyString => true
  | String c s => negb (bool_decide (c = "/"%char)) && slashless s
  end.
Lemma slashless_app s t : slashless (s +:+ t) = slashless s && slashless t.
Proof. induction s as [|c s IH]; [done|]. cbn [slashless String.append]. by rewrite <-andb_assoc, <-IH. Qed.
Lemma SplitN2_slashless s t : slashless s = true → SplitN2 "/" (s +:+ String "/" t) = (s, Some t).
Proof.
  induction s as [|c s IH]; [done|]. simpl. intros [Hc Hs]%andb_true_iff. rewrite IH by done.
  apply negb_true_iff in Hc. by case_bool_decide; case_decide.
Qed.
Lemma byte_slashless b : is_byte b → slashless (Itoa b) = true.
Proof.
  revert b. apply is_byte_elim, Forall_forall. intros b Hb.
  assert (forallb (λ b, slashless (Itoa b)) (map Z.of_nat (seq 0 256)) = true) as H by (vm_compute; reflexivity).
  rewrite forallb_forall in H. by apply H, list_elem_of_In.
Qed.
Lemma byte_text_dtoi b : is_byte b → dtoi (Itoa b) 0 = Some b.
Proof.
  revert b. apply is_byte_elim, Forall_forall. intros b Hb.
  assert (forallb (λ b, bool_decide (dtoi (Itoa b) 0 = Some b)) (map Z.of_nat (seq 0 256)) = true) as H
    by (vm_compute; reflexivity).
  rewrite forallb_forall in H. apply (bool_decide_unpack _), Is_true_true, H. by apply list_elem_of_In.
Qed.

Lemma ParseCIDR_dotted a b c d n :
  is_byte a → is_byte b → is_byte c → is_byte d → 0 <= n <= 32 →
  ParseCIDR (dotted [a; b; c; d] +:+ "/" +:+ Itoa n) =
    Ok (v4InV6Prefix ++ [a; b; c; d],
        {| ipn_IP := Mask (v4InV6Prefix ++ [a; b; c; d]) (CIDRMask n 32); ipn_Mask := CIDRMask n 32 |}).
Proof.
  intros Ha Hb Hc Hd Hn. unfold ParseCIDR.
  change ("/" +:+ Itoa n) with (String "/" (Itoa n)). rewrite SplitN2_slashless.
  2: { unfold dotted. simpl. rewrite !slashless_app, !byte_slashless by done. done. }
  assert (is_byte n) as Hb' by (unfold is_byte; lia).
  rewrite ParseAddr_dotted by done. simpl.
  rewrite bool_decide_eq_false_2 by by apply byte_text_nonempty.
  rewrite byte_text_dtoi by done. destruct (Z.ltb_spec 32 n); [lia|done].
Qed.

(** Bytes and values of IPv4 addresses. *)
Lemma v4_bytes_bytes v : 0 <= v < 2 ^ 32 → Forall is_byte (v4_bytes v).
Proof.
  intros Hv. unfold v4_bytes, is_byte. repeat apply Forall_cons_2; [..|apply Forall_nil_2].
  - split; [apply Z.div_pos; lia|apply Z.div_lt_upper_bound; lia].
  - apply Z.mod_pos_bound. lia.
  - apply Z.mod_pos_bound. lia.
  - apply Z.mod_pos_bound. lia.
Qed.
Lemma v4_value_bytes v : 0 <= v < 2 ^ 32 → v4_value (v4_bytes v) = v.
Proof.
  intros Hv. unfold v4_value, v4_bytes.
  pose proof (Z.div_mod v 256). pose proof (Z.div_mod (v / 2 ^ 8) 256).
  pose proof (Z.div_mod (v / 2 ^ 16) 256).
  rewrite (Z.div_div v (2 ^ 8) 256), (Z.div_div v (2 ^ 16) 256) in * by lia.
  change (2 ^ 8 * 256) with (2 ^ 16) in *. change (2 ^ 16 * 256) with (2 ^ 24) in *.
  change (2 ^ 8) with 256 in *. lia.
Qed.
Lemma v4_bytes_inj u v :
  0 <= u < 2 ^ 32 → 0 <= v < 2 ^ 32 → v4_bytes u = v4_bytes v → u = v.
Proof. intros Hu Hv E. rewrite <-(v4_value_bytes u), <-(v4_value_bytes v), E; done. Qed.
Lemma To4_mapped b : length b = 4%nat → To4 (v4InV6Prefix ++ b) = b.
Proof. intros Hb. destruct b as [|? [|? [|? [|? [|]]]]]; done. Qed.

Lemma is_v4_String ip v : is_v4 ip v → IP_String ip = dotted (v4_bytes v).
Proof.
  intros [Hv E]. unfold IP_String. rewrite E. simpl.
  unfold To4 in E. destruct (length ip =? 4)%nat eqn:E4.
  - apply Nat.eqb_eq in E4. by rewrite E4.
  - destruct (length ip =? 16)%nat eqn:E16; [|done]. apply Nat.eqb_eq in E16. by rewrite E16.
Qed.
Lemma is_v4_fun ip u v : is_v4 ip u → is_v4 ip v → u = v.
Proof. intros [Hu E] [Hv E']. apply v4_bytes_inj; [done..|]. congruence. Qed.

(** Printing an IPv4 address and parsing the text gives the address back. *)
Lemma ParseIP_String ip v : is_v4 ip v → is_v4 (ParseIP (IP_String ip)) v.
Proof.
  intros Hip. rewrite (is_v4_String _ _ Hip). destruct Hip as [Hv _].
  pose proof (v4_bytes_bytes v Hv) as HB. unfold v4_bytes in *. rewrite !Forall_cons in HB.
  rewrite ParseIP_dotted by tauto. split; [done|]. by rewrite To4_mapped.
Qed.
Lemma IP_String_inj ip ip' v v' : is_v4 ip v → is_v4 ip' v' → IP_String ip = IP_String ip' → v = v'.
Proof.
  intros H H' E. apply (is_v4_fun (ParseIP (IP_String ip))); [by apply ParseIP_String|].
  rewrite E. by apply ParseIP_String.
Qed.

(** ** A concrete address arithmetic

    It behaves as netutil's documentation, stated in [NetUtilLaws], says. *)
Module V4.
Definition v4_add (ip : IP) (val : Z) : IP :=
  let v := v4_value (To4 ip) in
  if bool_decide (To4 ip ≠ [] ∧ 0 <= v + val < 2 ^ 32) then v4_bytes (v + val) else [].

#[export] Instance v4_netutil : NetUtil := { IPAdd := v4_add }.
#[export] Instance v4_netutil_laws : NetUtilLaws.
Proof.
  split; intros ip v val [Hr Hip] Hv; simpl; unfold v4_add; rewrite Hip, v4_value_bytes by done.
  - by rewrite bool_decide_eq_true_2.
  - rewrite bool_decide_eq_false_2; [done|]. by intros [_ ?].
Qed.
End V4.
