(* ===== verification/Host.v ===== *)
(** * The host a boot server's programs run on

    Files, commands and time are what the operating system offers: classes, with the
    behaviour of files as laws.  Over them: systemd services ([systemd.go]), docker
    ([docker.go]), package versions ([deb.go]), the identity of the host
    ([identity.go]), the addresses of boot servers ([address_util.go]) and the paths
    of [constants.go]. *)
From S2P Require Import Prelude GoStr GoTime Json Types Etcd Worlds GoNet.

Local Open Scope Z_scope.

(** ** Files *)
Class Files (W : Type) := {
  os_Stat : string → M W unit;
  os_ReadFile : string → M W string;
  (* [os.OpenFile] with O_CREATE and O_TRUNC *)
  os_OpenTrunc : string → Z → M W unit;
  (* on the open file of that name, at its end *)
  file_Write : string → string → M W unit;
  file_Sync : string → M W unit;
  file_Close : string → M W unit;
  os_MkdirAll : string → Z → M W unit;
  os_Remove : string → M W unit;
  os_Rename : string → string → M W unit;
  os_Chown : string → Z → Z → M W unit;
  os_CreateTemp : string → M W string;
}.

Definition IsNotExist (e : error) : bool := match e with ErrNotExist _ => true | _ => false end.

(** What the calls that [replaceFile] makes do to the files, when no other process
    writes them meanwhile.  A failed write may have written a part. *)
Class FilesLaws (W : Type) `{Files W} := {
  files : W → gmap string string;
  ReadFile_law name w w' r : os_ReadFile name w = (w', r) →
    files w' = files w ∧
    match r with
    | Ok data => files w !! name = Some data
    | Err e => IsNotExist e = true → files w !! name = None
    | _ => False
    end;
  OpenTrunc_law name mode w w' r : os_OpenTrunc name mode w = (w', r) →
    match r with
    | Ok _ => files w' = <[name := ""]> (files w)
    | Err _ => files w' = files w
    | _ => False
    end;
  Write_law name data w w' r : file_Write name data w = (w', r) →
    ∀ old, files w !! name = Some old →
    match r with
    | Ok _ => files w' = <[name := old +:+ data]> (files w)
    | Err _ => ∃ part, files w' = <[name := old +:+ part]> (files w)
    | _ => False
    end;
  Sync_law name w w' r : file_Sync name w = (w', r) →
    files w' = files w ∧ match r with Ok _ | Err _ => True | _ => False end;
  Close_law name w w' r : file_Close name w = (w', r) →
    files w' = files w ∧ match r with Ok _ | Err _ => True | _ => False end;
}.

(** [defer d()]: [d] runs when [m] has returned, and its error is dropped. *)
Definition deferred {W A B} (m : M W A) (d : M W B) : M W A :=
  r ← attempt m;
  _ ← ignore_error d;
  match r with inl e => fail e | inr a => mret a end.

(** ** Commands *)
Class Commands (W : Type) := {
  cmd_Run : list string → M W unit;
  (* the output is there also when the command fails *)
  cmd_Output : list string → M W (string * option error);
  cmd_RunInput : list string → string → M W unit;
}.

Section host.
Context {W : Type} `{Files W} `{Commands W} `{Clock W}.

(** File modes, octal in the source. *)
Definition mode_755 : Z := 493.
Definition mode_700 : Z := 448.
Definition mode_644 : Z := 420.
Definition mode_440 : Z := 288.

(** [os.WriteFile]. *)
Definition os_WriteFile (name data : string) (perm : Z) : M W unit :=
  _ ← os_OpenTrunc name perm;
  r ← attempt (file_Write name data);
  r1 ← attempt (file_Close name);
  match r, r1 with
  | inl e, _ => fail e
  | inr _, inl e => fail e
  | inr _, inr _ => mret ()
  end.

(** [filepath.Dir] of a clean path below a directory. *)
Definition Dir (path : string) : string :=
  match SplitN2 "/" (String.rev path) with
  | (_, Some d) => String.rev d
  | (_, None) => "."
  end.

(** [cmd.Output()] where the error decides. *)
Definition checked_Output (argv : list string) : M W string :=
  '(out, err) ← cmd_Output argv;
  match err with Some e => fail e | None => mret out end.

(** [file.go] *)
Definition WriteFile (filename data : string) : M W unit :=
  _ ← os_MkdirAll (Dir filename) mode_755; os_WriteFile filename data mode_644.

(** [sleep.go] *)
Definition SleepContext (d : Duration) : M W unit :=
  fired ← clock_after d;
  if (fired : bool) then mret () else fail ErrCanceled.

(** ** [systemd.go] *)
Definition systemdDir := "/etc/systemd/system".
Definition ServiceFile (name : string) : string := systemdDir +:+ "/" +:+ name +:+ ".service".
Definition TimerFile (name : string) : string := systemdDir +:+ "/" +:+ name +:+ ".timer".

Definition startUnit (name unit : string) : M W () :=
  _ ← cmd_Run ["systemctl"; "daemon-reload"];
  _ ← cmd_Run ["systemctl"; "enable"; name +:+ "." +:+ unit];
  cmd_Run ["systemctl"; "start"; name +:+ "." +:+ unit].
Definition StartService (name : string) : M W unit := startUnit name "service".
Definition StartTimer (name : string) : M W unit := startUnit name "timer".

Definition RestartService (name : string) : M W unit :=
  _ ← cmd_Run ["systemctl"; "daemon-reload"];
  _ ← cmd_Run ["systemctl"; "enable"; name +:+ ".service"];
  cmd_Run ["systemctl"; "restart"; name +:+ ".service"].

(** [i] counts the seconds still to wait. *)
Fixpoint wait_state_loop (name state : string) (i : nat) : M W unit :=
  match i with
  | O => fail (ErrMsg (name +:+ ".service sticks at state: " +:+ state))
  | S i =>
      state ← checked_Output ["systemctl"; "show"; "-p"; "ActiveState"; "--value"; name +:+ ".service"];
      if bool_decide (TrimSpace state = "activating") || bool_decide (TrimSpace state = "deactivating")
      then _ ← SleepContext Second; wait_state_loop name state i
      else mret ()
  end.
Definition waitServiceStateChange (name : string) : M W unit := wait_state_loop name "" 60.

Definition StopService (name : string) : M W unit :=
  _ ← waitServiceStateChange name;
  cmd_Run ["systemctl"; "stop"; name +:+ ".service"].
Definition DisableService (name : string) : M W unit :=
  cmd_Run ["systemctl"; "disable"; name +:+ ".service"].

Definition IsActiveService (name : string) : M W bool :=
  '(output, err) ← cmd_Output ["systemctl"; "is-active"; name +:+ ".service"];
  match err with
  | None => mret true
  | Some e => if bool_decide (TrimSpace output = "inactive") then mret false else fail e
  end.

Definition StopTimer (name : string) : M W unit := cmd_Run ["systemctl"; "stop"; name +:+ ".timer"].
Definition DisableTimer (name : string) : M W unit :=
  cmd_Run ["systemctl"; "disable"; name +:+ ".timer"].

(** ** [deb.go] *)
Definition GetDebianVersion (pkg : string) : M W string :=
  _ ← cmd_Run ["dpkg"; "-s"; pkg];
  data ← checked_Output ["dpkg-query"; "--showformat=${Version}"; "-W"; pkg];
  if bool_decide (data = "") then fail (ErrMsg "dpkg-query returned empty string") else mret data.

(** ** [identity.go] *)
Definition NecoDir := "/etc/neco".
Definition RackFile := NecoDir +:+ "/rack".
Definition ClusterFile := NecoDir +:+ "/cluster".
Definition DCTestFile := NecoDir +:+ "/dctest".

Definition MyLRN : M W Z := data ← os_ReadFile RackFile; lift (Atoi (TrimSpace data)).
Definition MyCluster : M W string := data ← os_ReadFile ClusterFile; mret (TrimSpace data).

Fixpoint find_codename (ls : list string) : outcome string :=
  match ls with
  | [] => Err (ErrMsg "no VERSION_CODENAME in /etc/os-release")
  | l :: ls =>
      if HasPrefix l "VERSION_CODENAME=" then
        match slice_from (String.length "VERSION_CODENAME=") l with
        | Some name => Ok name
        | None => Panic "slice bounds out of range"
        end
      else find_codename ls
  end.
Definition newline : ascii := Ascii.ascii_of_nat 10.
Definition OSCodename : M W string :=
  data ← os_ReadFile "/etc/os-release"; lift (find_codename (Split newline data)).

(** ** [docker.go] *)
Record dockerRuntime := { dcTest : bool }.

Record Bind := { bd_Name : string; bd_Source : string; bd_Dest : string; bd_ReadOnly : bool }.

Definition newDockerRuntime : M W dockerRuntime :=
  r ← attempt (os_Stat DCTestFile);
  mret {| dcTest := match r with inl _ => false | inr _ => true end |}.
Definition GetContainerRuntime (proxy : string) : M W dockerRuntime := newDockerRuntime.

Definition ImageFullName (rt : dockerRuntime) (img : ContainerImage) : string :=
  FullName img (negb (dcTest rt)).

(** [strings.Fields]: the words between runs of white space. *)
Fixpoint fields_of (s word : string) : list string :=
  let push rest := if bool_decide (word = "") then rest else String.rev word :: rest in
  match s with
  | EmptyString => push []
  | String c s => if is_space c then push (fields_of s "") else fields_of s (String c word)
  end.
Definition Fields (s : string) : list string := fields_of s "".

Definition Pull (rt : dockerRuntime) (img : ContainerImage) : M W unit :=
  data ← checked_Output ["docker"; "image"; "ls"; "--format"; "{{ .Repository }}:{{ .Tag }}"];
  let fullname := ImageFullName rt img in
  if bool_decide (fullname ∈ Fields data) then mret ()
  else
    RetryWithSleep (SleepContext Second) (cmd_Run ["docker"; "pull"; "-q"; fullname])
      (λ _, mret ()) 3.

Fixpoint bind_args (binds : list Bind) : list string :=
  match binds with
  | [] => []
  | b :: binds =>
      let a := bd_Source b +:+ ":" +:+ bd_Dest b in
      "-v" :: (if bd_ReadOnly b then a +:+ ":ro" else a) :: bind_args binds
  end.
Definition Run (rt : dockerRuntime) (img : ContainerImage) (binds : list Bind) (args : list string)
    : M W unit :=
  cmd_Run ("docker" :: ["run"; "--pull"; "never"; "--rm"; "-u"; "root:root"; "--entrypoint="] ++
           bind_args binds ++ [ImageFullName rt img] ++ args).

Definition IsRunning (rt : dockerRuntime) (img : ContainerImage) : M W bool :=
  '(out, err) ← cmd_Output ["docker"; "ps"; "--format"; "{{.Image}}"];
  match err with
  | Some e => fail (ErrMsg ("failed to run docker ps: " +:+ error_text e))
  | None => mret (bool_decide (ImageFullName rt img ∈ Fields out))
  end.
End host.

(** ** [address_util.go] *)
Definition baseNode0 := "10.69.0.0".

Section addresses.
Context `{NetUtil}.
Definition BootNode0IP (lrn : Z) : IP := IPAdd (ParseIP baseNode0) (wrap64 (192 * lrn + 3)).
Definition EtcdEndpoints (lrns : list Z) : list string :=
  map (λ lrn, "https://" +:+ IP_String (BootNode0IP lrn) +:+ ":2379") lrns.
End addresses.
