(* ===== verification/Progs.v ===== *)
(** * Configuration and installation of the programs ([progs/])

    The texts of systemd units and configuration files as functions of what is
    substituted in their templates, the installation of tools from container images,
    and the start of etcd.  YAML is written by a library, a class here. *)
From S2P Require Import Prelude GoStr GoTime Json Types Etcd Worlds Storage Watch Worker.
From S2P Require Import Updater GoNet Host.

Local Open Scope Z_scope.

(** sigs.k8s.io/yaml *)
Class Yaml := { yaml_Marshal : json → outcome string }.

(** [strings.Join]. *)
Definition Join (sep : string) (l : list string) : string := String.concat sep l.

(** ** Paths of [constants.go] *)
Definition EtcdDir := "/etc/etcd".
Definition EtcdUID : Z := 10000.
Definition EtcdGID : Z := 10000.
Definition EtcdDataDir := "/var/lib/etcd-container".
Definition EtcdService := "etcd-container".
Definition VaultDir := "/etc/vault".
Definition VaultUID : Z := 10000.
Definition VaultGID : Z := 10000.
Definition VaultService := "vault".
Definition SetupHWService := "setup-hw".
Definition EtcdpasswdDir := "/etc/etcdpasswd".
Definition EtcdpasswdService := "ep-agent".
Definition SabakanDir := "/etc/sabakan".
Definition SabakanService := "sabakan".
Definition SabakanLocalEndpoint := "http://127.0.0.1:10080".
Definition SabakanStateSetterService := "sabakan-state-setter".
Definition SerfService := "serf".
Definition SerfDir := "/etc/serf".
Definition CKEDir := "/etc/cke".
Definition CKEService := "cke".
Definition CKELocalProxyService := "cke-localproxy".
Definition PromtailDir := "/etc/promtail".
Definition PromtailService := "promtail".
Definition BashCompletionDir := "/etc/bash_completion.d".
Definition NecoPrefix := "/neco/".
Definition NecoPackageName := "neco".
Definition GitHubRepoOwner := "cybozu-go".
Definition GitHubRepoName := "neco".
Definition ServerCertFile := NecoDir +:+ "/server.crt".
Definition ServerKeyFile := NecoDir +:+ "/server.key".
Definition EtcdConfFile := EtcdDir +:+ "/etcd.conf.yml".
Definition VaultCertFile := VaultDir +:+ "/etcd.crt".
Definition VaultKeyFile := VaultDir +:+ "/etcd.key".
Definition VaultConfFile := VaultDir +:+ "/config.hcl".
Definition EtcdpasswdCertFile := EtcdpasswdDir +:+ "/etcd.crt".
Definition EtcdpasswdKeyFile := EtcdpasswdDir +:+ "/etcd.key".
Definition EtcdpasswdConfFile := EtcdpasswdDir +:+ "/config.yml".
Definition EtcdpasswdDropIn := "/etc/systemd/system/ep-agent.service.d/10-check-certificate.conf".
Definition SabakanEtcdCertFile := SabakanDir +:+ "/etcd.crt".
Definition SabakanEtcdKeyFile := SabakanDir +:+ "/etcd.key".
Definition SabakanConfFile := SabakanDir +:+ "/config.yml".
Definition SabactlBin := "/usr/local/bin/sabactl".
Definition SabactlBashCompletionFile := BashCompletionDir +:+ "/sabactl".
Definition SerfConfFile := SerfDir +:+ "/serf.json".
Definition CKECertFile := CKEDir +:+ "/etcd.crt".
Definition CKEKeyFile := CKEDir +:+ "/etcd.key".
Definition CKEConfFile := CKEDir +:+ "/config.yml".
Definition NecoCertFile := NecoDir +:+ "/etcd.crt".
Definition NecoKeyFile := NecoDir +:+ "/etcd.key".
Definition NecoConfFile := NecoDir +:+ "/config.yml".
Definition NecoBin := "/usr/bin/neco".
Definition PromtailConfFile := PromtailDir +:+ "/promtail.yaml".
Definition BootImages : list string := ["etcd"; "promtail"; "setup-hw"; "sabakan"; "serf"; "vault"].

(** ** Templates *)
Definition etcd_confTmpl (lrn : Z) (peerURLs clientURLs initialCluster state : string) : string :=
  "# This is the configuration file for the etcd server.

# Human-readable name for this member.
name: 'boot-" +:+ Itoa lrn +:+ "'

# Path to the data directory.
data-dir: '/var/lib/etcd'

# List of comma separated URLs to listen on for peer traffic.
listen-peer-urls: https://0.0.0.0:2380

# List of comma separated URLs to listen on for client traffic.
listen-client-urls: https://0.0.0.0:2379

# List of comma separated URLs to expose prometheus metrics.
listen-metrics-urls: http://0.0.0.0:2381

# List of this member's peer URLs to advertise to the rest of the cluster.
# The URLs needed to be a comma-separated list.
initial-advertise-peer-urls: " +:+ peerURLs +:+ "

# List of this member's client URLs to advertise to the public.
# The URLs needed to be a comma-separated list.
advertise-client-urls: " +:+ clientURLs +:+ "

# Initial cluster configuration for bootstrapping.
initial-cluster: " +:+ initialCluster +:+ "

# Initial cluster token for the etcd cluster during bootstrap.
initial-cluster-token: 'boot-cluster'

# Initial cluster state ('new' or 'existing').
initial-cluster-state: '" +:+ state +:+ "'

# Accept etcd V2 client requests
enable-v2: false

# Enable runtime profiling data via HTTP server
enable-pprof: true

# TLS certificates
client-transport-security:
  cert-file: /etc/neco/server.crt
  key-file: /etc/neco/server.key
  client-cert-auth: true
  trusted-ca-file: /etc/etcd/ca-client.crt

peer-transport-security:
  cert-file: /etc/etcd/peer.crt
  key-file: /etc/etcd/peer.key
  client-cert-auth: true
  trusted-ca-file: /etc/etcd/ca-peer.crt

# Specify 'stdout' or 'stderr' to skip journald logging even when running under systemd.
log-outputs: [stderr]

# auto compaction
auto-compaction-mode: periodic
auto-compaction-retention: " +:+ dquote +:+ "1" +:+ dquote +:+ "

# detect inconsistencies
# etcd 3.5.[0-2] has data inconsistency issue.
# https://groups.google.com/a/kubernetes.io/g/dev/c/B7gJs88XtQc/m/rSgNOzV2BwAJ
experimental-initial-corrupt-check: true

# Enabling data corruption detection
# https://etcd.io/docs/v3.5/op-guide/data_corruption/
experimental-compact-hash-check-enabled: true
# sigs.k8s.io/yaml only accepts integer values, nanoseconds.
# 10800000000000 nanoseconds = 3 hours
experimental-corrupt-check-time: 10800000000000
".

Definition etcd_serviceTmpl (image : string) (uid gid : Z) (confFile : string) : string :=
  "[Unit]
Description=Etcd container
Wants=network-online.target docker.service etcd-backup.timer
After=network-online.target docker.service
StartLimitIntervalSec=600s

[Service]
Type=simple
Restart=always
RestartSec=3s
OOMScoreAdjust=-1000
ExecStartPre=-/usr/bin/docker kill etcd
ExecStartPre=-/usr/bin/docker rm etcd
ExecStart=/usr/bin/docker run --name=etcd --rm \
  --network=host --uts=host \
  --log-driver=journald \
  --pull=never \
  --oom-kill-disable=true \
  --user=" +:+ Itoa uid +:+ ":" +:+ Itoa gid +:+ " \
  --read-only \
  --volume=/etc/neco:/etc/neco:ro \
  --volume=/etc/ssl/certs:/etc/ssl/certs:ro \
  --volume=/etc/etcd:/etc/etcd:ro \
  --volume=/var/lib/etcd-container:/var/lib/etcd \
  " +:+ image +:+ " --config-file=" +:+ confFile +:+ "

[Install]
WantedBy=multi-user.target
".

Definition vault_confTmpl (certFile keyFile apiAddr clusterAddr endpoints etcdCertFile etcdKeyFile : string) : string :=
  "# vault configuration file

listener " +:+ dquote +:+ "tcp" +:+ dquote +:+ " {
  address = " +:+ dquote +:+ "0.0.0.0:8200" +:+ dquote +:+ "
  tls_cert_file = " +:+ dquote +:+ certFile +:+ dquote +:+ "
  tls_key_file = " +:+ dquote +:+ keyFile +:+ dquote +:+ "
  telemetry {
    unauthenticated_metrics_access = true
  }
}

telemetry {
  # Vault retains Prometheus-compatible metrics only for the following periods if the metrics do not change.
  # Some metrics do not change for several tens of minutes or more and such metrics disappear after the period.
  # We set VERY long period (about three years, enough longer than boot server OS upgrade interval) to keep the metrics.
  prometheus_retention_time = " +:+ dquote +:+ "1000d" +:+ dquote +:+ "
  disable_hostname = true
}

api_addr = " +:+ dquote +:+ apiAddr +:+ dquote +:+ "
cluster_addr = " +:+ dquote +:+ clusterAddr +:+ dquote +:+ "

storage " +:+ dquote +:+ "etcd" +:+ dquote +:+ " {
  address = " +:+ dquote +:+ endpoints +:+ dquote +:+ "
  etcd_api = " +:+ dquote +:+ "v3" +:+ dquote +:+ "
  ha_enabled = " +:+ dquote +:+ "true" +:+ dquote +:+ "
  tls_cert_file = " +:+ dquote +:+ etcdCertFile +:+ dquote +:+ "
  tls_key_file = " +:+ dquote +:+ etcdKeyFile +:+ dquote +:+ "
}
".

Definition vault_serviceTmpl (image : string) (uid gid : Z) (confFile necoBin : string) : string :=
  "[Unit]
Description=Vault container
Wants=network-online.target docker.service etcd-container.service
After=network-online.target docker.service etcd-container.service
StartLimitIntervalSec=600s

[Service]
Type=simple
Restart=always
RestartSec=10s
OOMScoreAdjust=-1000
ExecStartPre=-/usr/bin/docker kill vault
ExecStartPre=-/usr/bin/docker rm vault
ExecStart=/usr/bin/docker run --name=vault --rm \
  --network=host --uts=host \
  --log-driver=journald \
  --pull=never \
  --oom-kill-disable=true \
  --user=" +:+ Itoa uid +:+ ":" +:+ Itoa gid +:+ " \
  --ulimit core=0 \
  --ulimit memlock=-1 \
  --read-only \
  --volume=/etc/neco:/etc/neco:ro \
  --volume=/etc/ssl/certs:/etc/ssl/certs:ro \
  --volume=/etc/vault:/etc/vault:ro \
  " +:+ image +:+ " server -config=" +:+ confFile +:+ "
ExecStartPost=" +:+ necoBin +:+ " vault unseal

[Install]
WantedBy=multi-user.target
".

Definition serf_serviceTmpl (image confFile : string) : string :=
  "[Unit]
Description=Serf container
Wants=docker.service time-sync.target
After=docker.service time-sync.target
ConditionPathExists=" +:+ confFile +:+ "
StartLimitIntervalSec=600s

[Service]
Type=simple
Restart=always
RestartSec=10s
StartLimitInterval=10m
ExecStartPre=-/usr/bin/docker kill serf
ExecStartPre=-/usr/bin/docker rm serf
ExecStart=/usr/bin/docker run --name=serf --rm \
  --network=host --uts=host \
  --log-driver=journald \
  --pull=never \
  --read-only \
  --volume=/etc/serf:/etc/serf:ro \
  --memory 50G \
  " +:+ image +:+ " agent -config-file " +:+ confFile +:+ "

[Install]
WantedBy=multi-user.target
".

Definition setuphw_serviceTmpl (image : string) : string :=
  "[Unit]
Description=Setup hardware container
Wants=docker.service
After=docker.service
StartLimitIntervalSec=600s
ConditionPathExists=/etc/neco/bmc-address.json

[Service]
Type=simple
Restart=always
RestartSec=10s
OOMScoreAdjust=-1000
ExecStartPre=/bin/mkdir -p /var/lib/setup-hw
ExecStartPre=-/usr/bin/docker kill setup-hw
ExecStartPre=-/usr/bin/docker rm setup-hw
ExecStart=/usr/bin/docker run --name=setup-hw --rm \
  --network=host --uts=host \
  --log-driver=journald \
  --pull=never \
  --oom-kill-disable=true \
  --privileged \
  --volume=/dev:/dev \
  --volume=/lib/modules:/lib/modules:ro \
  --volume=/etc/neco:/etc/neco:ro \
  --volume=/var/lib/setup-hw:/var/lib/setup-hw \
  " +:+ image +:+ "

[Install]
WantedBy=multi-user.target
".

Definition sabakan_serviceTmpl (image confFile certFile keyFile : string) : string :=
  "[Unit]
Description=Sabakan container
Wants=network-online.target docker.service etcd-container.service
After=network-online.target docker.service etcd-container.service
ConditionPathExists=" +:+ confFile +:+ "
ConditionPathExists=" +:+ certFile +:+ "
ConditionPathExists=" +:+ keyFile +:+ "
StartLimitIntervalSec=600s

[Service]
Type=simple
Restart=always
RestartSec=30s
ExecStartPre=-/usr/bin/docker kill sabakan
ExecStartPre=-/usr/bin/docker rm sabakan
ExecStart=/usr/bin/docker run --name=sabakan --rm \
  --network=host --uts=host \
  --log-driver=journald \
  --pull=never \
  --read-only \
  --cap-add=NET_BIND_SERVICE \
  --volume=/etc/neco:/etc/neco:ro \
  --volume=/etc/ssl/certs:/etc/ssl/certs:ro \
  --volume=/etc/sabakan:/etc/sabakan:ro \
  --volume=/var/lib/sabakan:/var/lib/sabakan \
  " +:+ image +:+ " --config-file=" +:+ confFile +:+ "

[Install]
WantedBy=multi-user.target
".

Definition promtail_serviceTmpl (image confFile : string) : string :=
  "[Unit]
Description=Promtail container
Wants=network-online.target docker.service
After=network-online.target cke-localproxy.service docker.service
StartLimitIntervalSec=600s

[Service]
Type=simple
Restart=always
RestartSec=30s
ExecStartPre=-/usr/bin/docker kill promtail
ExecStartPre=-/usr/bin/docker rm promtail
ExecStart=/usr/bin/docker run --name=promtail --rm \
  --network=host \
  --log-driver=journald \
  --pull=never \
  --read-only \
  --user=root \
  --volume=/etc/promtail:/etc/promtail:ro \
  --volume=/run/promtail:/run/promtail \
  --volume=/var/log/journal:/var/log/journal \
  " +:+ image +:+ " -config.file=" +:+ confFile +:+ "

[Install]
WantedBy=multi-user.target
".

Definition promtail_confTmpl (serverIP : string) : string :=
  "server:
  log_level: info
  http_listen_port: 3101

clients:
  - url: http://distributor.logging.svc:3100/loki/api/v1/push
    tenant_id: fake

positions:
  filename: /run/promtail/positions.yaml

scrape_configs:
  - job_name: journal
    journal:
      json: false
      max_age: 12h
      path: /var/log/journal
      labels:
        job: systemd-journal
        instance: " +:+ serverIP +:+ "
    relabel_configs:
      - source_labels: [" +:+ dquote +:+ "__journal__systemd_unit" +:+ dquote +:+ "]
        target_label: " +:+ dquote +:+ "unit" +:+ dquote +:+ "
      - source_labels: [" +:+ dquote +:+ "__journal_syslog_identifier" +:+ dquote +:+ "]
        target_label: " +:+ dquote +:+ "syslog_identifier" +:+ dquote +:+ "
      - source_labels: [" +:+ dquote +:+ "__journal_container_name" +:+ dquote +:+ "]
        target_label: " +:+ dquote +:+ "container_name" +:+ dquote +:+ "
      - source_labels: [" +:+ dquote +:+ "__journal__hostname" +:+ dquote +:+ "]
        target_label: " +:+ dquote +:+ "hostname" +:+ dquote +:+ "
".

Definition scriptTmpl (version : string) : string :=
  "#!/bin/sh

# list failed unit names
# limit to 300 bytes because whole length of tags must be < 512 bytes.

systemd_units_failed=" +:+ dquote +:+ "$(systemctl list-units --state=failed --no-legend --plain --full | cut -d' ' -f1  | tr '\n' ',' | head --bytes=300)" +:+ dquote +:+ "

/usr/local/bin/serf tags \
       -set uptime=" +:+ dquote +:+ "$(uptime -s)" +:+ dquote +:+ " \
       -set version=" +:+ dquote +:+ version +:+ dquote +:+ " \
       -set systemd-units-failed=" +:+ dquote +:+ "${systemd_units_failed}" +:+ dquote +:+ "
".

Definition teleport_confTmpl (advertiseIP authToken : string) : string :=
  "# General configurations.
teleport:
  data_dir: /var/lib/teleport
  auth_token: " +:+ authToken +:+ "
  advertise_ip: " +:+ advertiseIP +:+ "
  auth_servers: [" +:+ dquote +:+ "teleport-auth.teleport.svc:3025" +:+ dquote +:+ "]
  log:
    output: stderr
    severity: INFO
  storage:
    type: dir

# Node service specific configurations.
ssh_service:
  enabled: yes
  listen_addr: 0.0.0.0:3022
  pam:
    enabled: yes
    service_name: " +:+ dquote +:+ "teleport" +:+ dquote +:+ "
".

(** Constant texts. *)
Definition sshdConf : string := "# SSHD configurations for Neco

AuthorizedKeysFile	.ssh/authorized_keys
PasswordAuthentication no
ForceCommand /usr/bin/neco session-log start
".
Definition sudoers : string := "%sudo   ALL=(ALL:ALL) NOPASSWD: ALL
".
Definition dropin_text (certFile keyFile : string) : string := "
[Unit]
Wants=etcd-container.service
After=etcd-container.service
ConditionPathExists=" +:+ certFile +:+ "
ConditionPathExists=" +:+ keyFile +:+ "
StartLimitIntervalSec=600s

[Service]
RestartSec=30s
".

(** ** JSON indented by two spaces *)
Definition nl : string := String newline "".
Fixpoint print_indent (ind : string) (v : json) {struct v} : string :=
  match v with
  | JArr (x :: l) =>
      let ind' := ind +:+ "  " in
      "[" +:+ nl +:+ ind' +:+ print_indent ind' x +:+
      (fix rest l := match l with
                     | [] => ""
                     | x :: l => "," +:+ nl +:+ ind' +:+ print_indent ind' x +:+ rest l
                     end) l +:+ nl +:+ ind +:+ "]"
  | JObj ((f, x) :: l) =>
      let ind' := ind +:+ "  " in
      "{" +:+ nl +:+ ind' +:+ print_string f ": " +:+ print_indent ind' x +:+
      (fix rest l := match l with
                     | [] => ""
                     | (f, x) :: l =>
                         "," +:+ nl +:+ ind' +:+ print_string f ": " +:+ print_indent ind' x +:+ rest l
                     end) l +:+ nl +:+ ind +:+ "}"
  | v => print v ""
  end.

(** [fmt.Errorf] with the message of an error at its end. *)
Definition wrapping {W A} (msg : string) (m : M W A) : M W A :=
  r ← attempt m;
  match r with inl e => fail (ErrWrap msg e) | inr a => mret a end.

(** The lines a [bufio.Scanner] gives (of at most 64 KiB each). *)
Definition drop_cr (s : string) : string :=
  match String.rev s with
  | String c t => if bool_decide (c = Ascii.ascii_of_nat 13) then String.rev t else s
  | EmptyString => s
  end.
Definition scan_lines (data : string) : list string :=
  let ls := Split newline data in
  map drop_cr (match reverse ls with EmptyString :: rest => reverse rest | _ => ls end).

(** [strings.Trim] of double quotes. *)
Fixpoint trim_quotes (s : string) : string :=
  match s with
  | String c t => if bool_decide (c = Ascii.ascii_of_nat 34) then trim_quotes t else s
  | EmptyString => ""
  end.
Definition Trim_quotes (s : string) : string := String.rev (trim_quotes (String.rev (trim_quotes s))).

(** ** Text of configuration files *)
Section texts.
Context `{NetUtil} `{Yaml}.
(** [neco.CurrentArtifacts], the generated table of [artifacts.go]. *)
Variable CurrentArtifacts : ArtifactSet.
Variable rt : dockerRuntime.

Definition boot_ip (lrn : Z) : string := IP_String (BootNode0IP lrn).
Definition etcd_peer (lrn : Z) : string := "https://" +:+ boot_ip lrn +:+ ":2380".
Definition etcd_client_url (lrn : Z) : string := "https://" +:+ boot_ip lrn +:+ ":2379".

Definition etcd_GenerateConf (mylrn : Z) (lrns : list Z) : outcome string :=
  let initialClusters := map (λ lrn, "boot-" +:+ Itoa lrn +:+ "=" +:+ etcd_peer lrn) lrns in
  Ok (etcd_confTmpl mylrn (etcd_peer mylrn) (etcd_client_url mylrn) (Join "," initialClusters) "new").

(** A member of the etcd cluster. *)
Record Member := { mb_ID : Z; mb_Name : string; mb_PeerURLs : list string }.

Definition GenerateConfForAdd (mylrn : Z) (members : list Member) : outcome string :=
  let initialClusters := concat (map (λ member,
    let name := if bool_decide (mb_Name member = "") then "boot-" +:+ Itoa mylrn else mb_Name member in
    map (λ u, name +:+ "=" +:+ u) (mb_PeerURLs member)) members) in
  Ok (etcd_confTmpl mylrn (etcd_peer mylrn) (etcd_client_url mylrn) (Join "," initialClusters) "existing").

Definition etcd_GenerateService : outcome string :=
  img ← FindContainerImage CurrentArtifacts "etcd";
  Ok (etcd_serviceTmpl (ImageFullName rt img) EtcdUID EtcdGID EtcdConfFile).

Definition vault_GenerateConf (mylrn : Z) (lrns : list Z) : outcome string :=
  let myip := boot_ip mylrn in
  Ok (vault_confTmpl ServerCertFile ServerKeyFile ("https://" +:+ myip +:+ ":8200")
        ("https://" +:+ myip +:+ ":8201") (Join "," (EtcdEndpoints lrns)) VaultCertFile VaultKeyFile).
Definition vault_GenerateService : outcome string :=
  img ← FindContainerImage CurrentArtifacts "vault";
  Ok (vault_serviceTmpl (ImageFullName rt img) VaultUID VaultGID VaultConfFile NecoBin).

Definition protocolVersion : Z := 5.
(** [serfConfig] as JSON. *)
Definition serf_config (endpoints : list string) (osName osVersion serial : string) : json :=
  JObj [("tags", JObj [("os-name", JStr osName); ("os-version", JStr osVersion);
                       ("serial", JStr serial); ("boot-server", JStr "true")]);
        ("interface", JStr "node0"); ("reconnect_interval", JStr "30s");
        ("reconnect_timeout", JStr "24h"); ("tombstone_timeout", JStr "24h");
        ("broadcast_timeout", JStr "1m"); ("retry_join", JArr (map JStr endpoints));
        ("retry_max_attempts", JNum (Itoa 0)); ("retry_interval", JStr "30s");
        ("log_level", JStr "debug"); ("protocol", JNum (Itoa protocolVersion))].
Definition serf_GenerateConf (lrns : list Z) (osName osVersion serial : string) : outcome string :=
  Ok (print_indent "" (serf_config (map boot_ip lrns) osName osVersion serial) +:+ nl).
Definition serf_GenerateService : outcome string :=
  img ← FindContainerImage CurrentArtifacts "serf";
  Ok (serf_serviceTmpl (ImageFullName rt img) SerfConfFile).

Definition setuphw_GenerateService : outcome string :=
  img ← FindContainerImage CurrentArtifacts "setup-hw";
  Ok (setuphw_serviceTmpl (ImageFullName rt img)).

Definition GenerateScript (version : string) : outcome string := Ok (scriptTmpl version).

(** A Go map printed as YAML: its keys in order. *)
Definition etcd_access (endpoints : list string) (certFile keyFile : string) : json :=
  JObj [("endpoints", JArr (map JStr endpoints)); ("tls-cert-file", JStr certFile);
        ("tls-key-file", JStr keyFile)].

Definition sabakan_GenerateConf (mylrn : Z) (lrns : list Z) : outcome string :=
  let myip := boot_ip mylrn in
  yaml_Marshal (JObj [("advertise-url", JStr ("http://" +:+ myip +:+ ":10080"));
    ("advertise-url-https", JStr ("https://" +:+ myip +:+ ":10443"));
    ("dhcp-bind", JStr "0.0.0.0:67");
    ("etcd", etcd_access (map etcd_client_url lrns) SabakanEtcdCertFile SabakanEtcdKeyFile)]).
Definition sabakan_GenerateService : outcome string :=
  img ← FindContainerImage CurrentArtifacts "sabakan";
  Ok (sabakan_serviceTmpl (ImageFullName rt img) SabakanConfFile SabakanEtcdCertFile SabakanEtcdKeyFile).

Definition cke_GenerateConf (lrns : list Z) : outcome string :=
  yaml_Marshal (etcd_access (map etcd_client_url lrns) CKECertFile CKEKeyFile).
Definition etcdpasswd_GenerateConf (lrns : list Z) : outcome string :=
  yaml_Marshal (etcd_access (map etcd_client_url lrns) EtcdpasswdCertFile EtcdpasswdKeyFile).
Definition GenerateSystemdDropIn : outcome string :=
  Ok (dropin_text EtcdpasswdCertFile EtcdpasswdKeyFile).

Definition promtail_GenerateConf (mylrn : Z) : outcome string := Ok (promtail_confTmpl (boot_ip mylrn)).
Definition promtail_GenerateService : outcome string :=
  img ← FindContainerImage CurrentArtifacts "promtail";
  Ok (promtail_serviceTmpl (ImageFullName rt img) PromtailConfFile).

Definition teleport_GenerateConf (mylrn : Z) (authToken : string) : outcome string :=
  Ok (teleport_confTmpl (boot_ip mylrn) authToken).
End texts.

(** ** Installation *)

(** etcd's administration, and etcdutil: a client of the local etcd with the given
    certificate, and the configuration that is stored for clients. *)
Class EtcdAdmin (W : Type) := {
  etcd_NewClient : string → string → M W unit;
  etcd_ClientClose : M W unit;
  etcd_MemberList : M W (list Member);
  etcd_MemberAdd : list string → M W (list Member * Z);
  etcd_MemberRemove : Z → M W unit;
  etcd_Status : M W string;
  etcdutil_Config : string → list string → string → string → json;
}.

Section install.
Context `{NetUtil} `{Yaml} `{GoVersion} {W : Type} `{Files W} `{Commands W} `{Clock W} `{EtcdAdmin W}.
Variable CurrentArtifacts : ArtifactSet.
Variable rt : dockerRuntime.

Definition install_tools (name dest command bind : string) : M W unit :=
  img ← lift (FindContainerImage CurrentArtifacts name);
  Run rt img [{| bd_Name := bind; bd_Source := "/usr/local/bin"; bd_Dest := dest; bd_ReadOnly := false |}]
    [command].
Definition etcd_InstallTools : M W unit :=
  install_tools "etcd" "/host" "/usr/local/etcd/install-tools" "host".
Definition vault_InstallTools : M W unit :=
  install_tools "vault" "/host" "/usr/local/vault/install-tools" "host".
Definition serf_InstallTools : M W unit :=
  install_tools "serf" "/host/usr/local/bin" "/usr/local/serf/install-tools" "host".
Definition sabakan_InstallTools : M W unit :=
  install_tools "sabakan" "/host/usr/local/bin" "/usr/local/sabakan/install-tools" "host-usr-local-bin".
Definition InstallBashCompletion : M W unit :=
  output ← checked_Output [SabactlBin; "completion"];
  os_WriteFile SabactlBashCompletionFile output mode_644.

(** [serf/linux.go] *)
Definition serialPath := "/sys/class/dmi/id/product_serial".
Definition osReleasePath := "/etc/os-release".
Fixpoint os_release_value (key msg : string) (ls : list string) : outcome string :=
  match ls with
  | [] => Err (ErrMsg msg)
  | l :: ls =>
      match Split "=" l with
      | [k; v] => if bool_decide (TrimSpace k = key) then Ok (Trim_quotes v)
                  else os_release_value key msg ls
      | _ => os_release_value key msg ls
      end
  end.
Definition GetOSName : M W string :=
  data ← os_ReadFile osReleasePath;
  lift (os_release_value "NAME" "failed to get os type" (scan_lines data)).
Definition GetOSVersionID : M W string :=
  data ← os_ReadFile osReleasePath;
  lift (os_release_value "VERSION_ID" "failed to get os version" (scan_lines data)).
Definition GetSerial : M W string := serial ← os_ReadFile serialPath; mret (TrimSpace serial).

(** [etcdpasswd/sshd.go], [sudoers.go] *)
Definition sshdConfFile := "/etc/ssh/sshd_config.d/neco.conf".
Definition mode_666 : Z := 438.
Definition InstallSshdConf : M W unit :=
  let tmpFile := sshdConfFile +:+ ".tmp" in
  _ ← wrapping ("failed to create " +:+ tmpFile) (os_OpenTrunc tmpFile mode_666);
  deferred
    (_ ← wrapping ("failed to write to " +:+ tmpFile) (file_Write tmpFile sshdConf);
     _ ← wrapping ("failed to fsync " +:+ tmpFile) (file_Sync tmpFile);
     wrapping ("failed to rename " +:+ tmpFile) (os_Rename tmpFile sshdConfFile))
    (file_Close tmpFile).

Definition InstallSudoers : M W unit :=
  r ← attempt (os_Stat "/etc/sudoers.d/cybozu");
  match r with
  | inr _ => mret ()
  | inl e =>
      if negb (IsNotExist e) then fail e
      else
        let name := "/etc/sudoers.d/.cybozu" in
        _ ← os_OpenTrunc name mode_440;
        deferred
          (_ ← file_Write name sudoers; _ ← file_Sync name; os_Rename name "/etc/sudoers.d/cybozu")
          (file_Close name)
  end.

(** [etcd/install.go] *)
Definition etcdClient : M W unit :=
  r ← attempt (os_Stat NecoCertFile);
  match r with
  | inl e => if IsNotExist e then etcd_NewClient VaultCertFile VaultKeyFile else fail e
  | inr _ => etcd_NewClient NecoCertFile NecoKeyFile
  end.

Definition LessThan (v o : GVersion) : bool := Version_Compare v o <? 0.

(** The client, or nil: the source returns the (nil) error when the version of the
    cluster is too low. *)
Definition tryWait : M W (option unit) :=
  _ ← etcdClient;
  r ← attempt (_ ← etcd_MemberList; v ← etcd_Status; lift (NewVersion v));
  match r with
  | inl e => _ ← ignore_error etcd_ClientClose; fail e
  | inr ver =>
      match NewVersion "3.1.0" with
      | Ok leastClusterVersion =>
          if LessThan ver leastClusterVersion then _ ← ignore_error etcd_ClientClose; mret None
          else mret (Some ())
      | _ => panic "version.Must"
      end
  end.

(** [for] loop: a second of sleep, unless the context ends, before each attempt. *)
Fixpoint WaitEtcdForVault (fuel : nat) : M W (option unit) :=
  match fuel with
  | O => blocked
  | S fuel =>
      _ ← SleepContext Second;
      r ← attempt tryWait;
      match r with
      | inl _ => WaitEtcdForVault fuel
      | inr client => mret client
      end
  end.

Definition etcd_Setup (fuel : nat) (generator : outcome string) : M W (option unit) :=
  _ ← os_OpenTrunc EtcdConfFile mode_644;
  deferred
    (text ← lift generator;
     _ ← file_Write EtcdConfFile text;
     _ ← file_Sync EtcdConfFile;
     _ ← os_MkdirAll EtcdDataDir mode_700;
     _ ← os_Chown EtcdDataDir EtcdUID EtcdGID;
     let service := ServiceFile EtcdService in
     _ ← os_OpenTrunc service mode_644;
     deferred
       (text ← lift (etcd_GenerateService CurrentArtifacts rt);
        _ ← file_Write service text;
        _ ← file_Sync service;
        _ ← StartService EtcdService;
        WaitEtcdForVault fuel)
       (file_Close service))
    (file_Close EtcdConfFile).

(** [etcd/neco.go] *)
Definition UpdateNecoConfig (lrns : list Z) : M W unit :=
  data ← lift (yaml_Marshal (etcdutil_Config NecoPrefix (EtcdEndpoints lrns) NecoCertFile NecoKeyFile));
  os_WriteFile NecoConfFile data mode_644.
End install.
