(* ===== verification/Operator.v ===== *)
(** * The steps of an update ([worker/operator.go] and the files beside it)

    [RunStep] dispatches to one function per step.  A step installs tools from
    container images, replaces configuration files and systemd units, restarts
    services, and, for the steps that one boot server does for all, campaigns for the
    leadership among the workers and records in etcd what came of it.

    The uploaders of contents ([progs/sabakan/upload.go], [progs/cke/upload.go] and
    [resource.go]), sessions of etcd, HTTP and GitHub are classes. *)
From S2P Require Import Prelude GoStr GoTime Json Types Etcd Worlds Storage Watch Worker.
From S2P Require Import Updater GoNet Host Progs.

Local Open Scope Z_scope.

(** etcd/client/v3/concurrency: a campaign returns the key that is held. *)
Class Sessions (W : Type) := {
  Session : Type;
  NewSession : Z → M W Session;
  Session_Close : Session → M W unit;
  Session_Campaign : Session → string → string → M W string;
  Session_Resign : Session → M W unit;
}.

Class Uploads (W : Type) := {
  sabakan_UploadContents : string → M W unit;
  sabakan_UploadDHCPJSON : M W unit;
  cke_UploadContents : string → M W unit;
  cke_SetCKETemplate : M W unit;
  cke_UpdateResources : M W unit;
}.

(** A request with headers: the status code; the body is read afterwards. *)
Class Http (W : Type) := {
  http_Do : string → list (string * string) → M W Z;
  http_Body : M W string;
}.

Record ReleaseAsset := { ra_Name : option string; ra_URL : option string }.
Record RepositoryRelease := { rr_TagName : option string; rr_Assets : list ReleaseAsset }.
Class GitHubAssets (W : Type) := {
  (* owner, repository, page: the releases, and the next page or 0 *)
  gh_ListAssets : string → string → Z → M W (list RepositoryRelease * Z);
}.

(** [os.Exit]. *)
Class Process (W : Type) := { os_Exit : Z → M W unit }.

Definition etcdAddTimeout : Duration := 10 * Minute.
Definition etcdRestartTimeout : Duration := 60 * Second.

(** ** Pure parts *)
Definition isMember (members : list Member) (lrn : Z) : bool :=
  existsb (λ member, bool_decide (mb_Name member = "boot-" +:+ Itoa lrn)) members.

(** Whether [removeEtcdMembers] keeps a member. *)
Definition keeps_member (servers : list Z) (member : Member) : outcome bool :=
  if negb (HasPrefix (mb_Name member) "boot-") then Ok false
  else
    match slice_from 5 (mb_Name member) with
    | None => Panic "slice bounds out of range"
    | Some suffix =>
        match Atoi suffix with
        | Ok lrn => Ok (existsb (λ server, lrn =? server) servers)
        | _ => Ok false
        end
    end.
Fixpoint members_toRemove (servers : list Z) (members : list Member) : outcome (list Member) :=
  match members with
  | [] => Ok []
  | member :: members =>
      keep ← keeps_member servers member;
      toRemove ← members_toRemove servers members;
      Ok (if (keep : bool) then toRemove else member :: toRemove)
  end.

(** A file name that the regular expression of [findDebAsset] matches, for a package
    name without special characters. *)
Definition HasSuffix (s suffix : string) : bool := HasPrefix (String.rev s) (String.rev suffix).
Definition deb_name (name s : string) : bool :=
  HasPrefix s (name +:+ "_") && HasSuffix s ".deb" &&
  (String.length name + 5 <=? String.length s)%nat &&
  negb (bool_decide (newline ∈ String.list_ascii_of_string s)).
Fixpoint findDebAsset (assets : list ReleaseAsset) (name : string) : option ReleaseAsset :=
  match assets with
  | [] => None
  | a :: assets =>
      match ra_Name a with
      | None => findDebAsset assets name
      | Some n => if deb_name name n then Some a else findDebAsset assets name
      end
  end.
Fixpoint find_release (releases : list RepositoryRelease) (tag : string) : option RepositoryRelease :=
  match releases with
  | [] => None
  | r :: releases => if bool_decide (rr_TagName r = Some tag) then Some r else find_release releases tag
  end.

(** Arguments of systemd-run for environment values (the maps that occur have one
    entry, so their order does not show). *)
Fixpoint env_args (env : list (string * string)) : list string :=
  match env with
  | [] => []
  | (k, v) :: env => "-p" :: ("Environment=" +:+ k +:+ "=" +:+ v) :: env_args env
  end.
Definition deb_command (file : string) (background : bool) (envValues : option (list (string * string)))
    : list string :=
  let command := ["sh"; "-c"; "dpkg -i " +:+ file +:+ " && rm " +:+ file] in
  if background then
    match envValues with
    | Some env => ["systemd-run"; "-q"; "--wait"] ++ env_args env ++ command
    | None => command
    end
  else command.

(** [setup_serf_tags.go] *)
Definition setupSerfTags := "setup-serf-tags".
Definition binPath := "/usr/local/bin/" +:+ setupSerfTags.
Definition setupSerfTagsService : string := "
[Unit]
Description=Set serf tags
Requires=serf.service
After=serf.service
PartOf=setup-serf-tags.timer

[Service]
Type=oneshot
ExecStart=" +:+ binPath.
Definition setupSerfTagsTimer : string := "
[Unit]
Description=Set serf tags periodically
Wants=serf.service
After=serf.service

[Timer]
OnCalendar=minutely

[Install]
WantedBy=multi-user.target
".

Section operator.
Context `{NetUtil} `{Yaml} `{GoVersion} {W : Type} `{Etcd W} `{Files W} `{Commands W} `{Clock W}
  `{EtcdAdmin W} `{Sessions W} `{Uploads W} `{Http W} `{GitHubAssets W} `{Process W}.
Variable CurrentArtifacts : ArtifactSet.
(** The fields [mylrn] and [containerRuntime] of the operator. *)
Variable mylrn : Z.
Variable rt : dockerRuntime.

(** ** [replace_file.go] *)
Definition write_file (name data : string) (mode : Z) : M W bool :=
  _ ← os_OpenTrunc name mode;
  deferred (_ ← file_Write name data; _ ← file_Sync name; mret true) (file_Close name).
Definition replaceFile (name data : string) (mode : Z) : M W bool :=
  r ← attempt (os_ReadFile name);
  match r with
  | inl e => if IsNotExist e then write_file name data mode else fail e
  | inr current =>
      if negb (bool_decide (current = data)) then write_file name data mode else mret false
  end.

(** ** [version_cmp.go] *)
Definition needContainerImageUpdate (name : string) : M W bool :=
  r ← attempt (GetContainerTag mylrn name);
  match r with
  | inl ErrNotFound => mret true
  | inl e => fail e
  | inr tag =>
      img ← lift (FindContainerImage CurrentArtifacts name);
      mret (negb (bool_decide (img_Tag img = tag)))
  end.
Definition needDebUpdate (name : string) : M W bool :=
  r ← attempt (GetDebVersion mylrn name);
  match r with
  | inl ErrNotFound => mret true
  | inl e => fail e
  | inr ver =>
      deb ← lift (FindDebianPackage CurrentArtifacts name);
      mret (negb (bool_decide (ver = deb_Release deb)))
  end.

(** ** [operator.go] *)
Definition restoreService (svc : string) : M W unit :=
  r ← attempt (os_Stat (ServiceFile svc));
  match r with inl _ => mret () | inr _ => StartService svc end.
Definition stopService (svc : string) : M W unit :=
  r ← attempt (os_Stat (ServiceFile svc));
  match r with inl _ => mret () | inr _ => StopService svc end.
Definition StartServices : M W unit :=
  _ ← restoreService EtcdService; restoreService VaultService.

(** ** Leadership among the workers

    What every step that needs it starts with: a session, an election under
    [KeyWorkerLeader], a campaign; and what it leaves behind when it returns. *)
Definition as_leader {A} (ttl : Z) (body : string → M W A) : M W A :=
  sess ← NewSession ttl;
  deferred
    (key ← Session_Campaign sess KeyWorkerLeader (Itoa mylrn);
     deferred (body key) (Session_Resign sess))
    (Session_Close sess).

(** A step for contents that one worker uploads for all: skipped or failed according
    to what a preceding worker recorded for the version. *)
Definition contents_status (version : string) (success : bool) : ContentsUpdateStatus :=
  {| cu_Version := version; cu_Success := success |}.
Definition preceding_status (getStatus : M W ContentsUpdateStatus) : M W (option ContentsUpdateStatus) :=
  st ← attempt getStatus;
  match st with
  | inl ErrNotFound => mret None
  | inl e => fail e
  | inr status => mret (Some status)
  end.
Definition contents_step (getStatus : M W ContentsUpdateStatus)
    (putStatus : ContentsUpdateStatus → string → M W unit) (upload : M W unit)
    (failed : string) (version : string) : M W unit :=
  as_leader 600 (λ key,
    status ← preceding_status getStatus;
    if bool_decide (cu_Version <$> status = Some version) then
      if bool_decide (cu_Success <$> status = Some true) then mret () else fail (ErrMsg failed)
    else
      r ← attempt upload;
      r2 ← attempt (putStatus (contents_status version (match r with inl _ => false | inr _ => true end)) key);
      match r, r2 with
      | inl err, _ => fail err
      | inr _, inl err2 => fail err2
      | inr _, inr _ => mret ()
      end).

(** ** [rkt.go]: step 1 *)

(** [well.Environment]: the goroutines, one after the other, and the first error. *)
Fixpoint env_Wait (tasks : list (M W unit)) : M W unit :=
  match tasks with
  | [] => mret ()
  | task :: tasks =>
      r ← attempt task;
      r' ← attempt (env_Wait tasks);
      match r, r' with
      | inl e, _ => fail e
      | inr _, inl e => fail e
      | inr _, inr _ => mret ()
      end
  end.
Fixpoint find_images (names : list string) : outcome (list ContainerImage) :=
  match names with
  | [] => Ok []
  | name :: names =>
      img ← FindContainerImage CurrentArtifacts name; imgs ← find_images names; Ok (img :: imgs)
  end.
(** The images are looked up before the first is pulled; in the source the pulls start
    while the rest is looked up. *)
Definition FetchImages (req : UpdateRequest) : M W unit :=
  r ← attempt GetProxyConfig;
  match r with
  | inl ErrNotFound => mret ""
  | inl e => fail e
  | inr p => mret p
  end ≫= λ p,
  rt' ← GetContainerRuntime p;
  imgs ← lift (find_images BootImages);
  env_Wait (map (Pull rt') imgs).

(** ** [etcd.go]: step 2, and the restart at the end *)
Fixpoint wait_sync_loop (fuel : nat) (deadline : Time) (rev : Z) : M W unit :=
  match fuel with
  | O => blocked
  | S fuel =>
      now ← clock_now;
      if deadline <? now then fail (ErrMsg "etcd does not synchronize")
      else
        r ← attempt (etcd_get "health" opt_key);
        if match r with inr gr => rev <=? resp_revision gr | inl _ => false end then mret ()
        else _ ← SleepContext Second; wait_sync_loop fuel deadline rev
  end.
(** A nil client is dereferenced by the first call. *)
Definition waitEtcdSync (fuel : nat) (ec : option unit) (rev : Z) : M W unit :=
  now ← clock_now;
  match ec with
  | None => panic "nil pointer dereference"
  | Some _ => wait_sync_loop fuel (Add now etcdAddTimeout) rev
  end.

Definition addEtcdMember (fuel : nat) : M W unit :=
  '(members, rev) ← etcd_MemberAdd [etcd_peer mylrn];
  ec ← etcd_Setup CurrentArtifacts rt fuel (GenerateConfForAdd mylrn members);
  deferred (waitEtcdSync fuel ec rev) etcd_ClientClose.

Definition replaceEtcdFiles (lrns : list Z) : M W unit :=
  service ← lift (etcd_GenerateService CurrentArtifacts rt);
  _ ← replaceFile (ServiceFile EtcdService) service mode_644;
  conf ← lift (etcd_GenerateConf mylrn lrns);
  _ ← replaceFile EtcdConfFile conf mode_644;
  mret ().

Definition UpdateEtcd (fuel : nat) (req : UpdateRequest) : M W unit :=
  need ← needContainerImageUpdate "etcd";
  _ ← (if (need : bool) then
         _ ← etcd_InstallTools CurrentArtifacts rt; RecordContainerTag CurrentArtifacts mylrn "etcd"
       else mret ());
  as_leader 10 (λ _,
    members ← etcd_MemberList;
    _ ← (if negb (isMember members mylrn) then _ ← SleepContext (10 * Second); addEtcdMember fuel
         else mret ());
    _ ← replaceEtcdFiles (elems (req_Servers req));
    UpdateNecoConfig (elems (req_Servers req))).

Definition removeEtcdMembers (req : UpdateRequest) : M W unit :=
  members ← etcd_MemberList;
  toRemove ← lift (members_toRemove (elems (req_Servers req)) members);
  for_each toRemove (λ member, etcd_MemberRemove (mb_ID member)).

(** [defer os.Exit(3)]: however the body ends, the process does. *)
Definition exiting {A} (code : Z) (m : M W A) : M W unit := λ w,
  match m w with
  | (w', Running) => (w', Running)
  | (w', _) => (_ ← os_Exit code; blocked) w'
  end.

Definition RestartEtcd (fuel : nat) (index : Z) (req : UpdateRequest) : M W unit :=
  exiting 3
    (_ ← clock_after (wrap64 (wrap64 (etcdRestartTimeout * index) + Second));
     _ ← StopService EtcdService;
     _ ← StartService EtcdService;
     ec ← WaitEtcdForVault fuel;
     deferred
       (match ec with
        | None => panic "nil pointer dereference"
        | Some _ =>
            resp ← etcd_get "/" opt_key;
            _ ← waitEtcdSync fuel ec (resp_revision resp);
            if negb (index =? 0) then mret ()
            else _ ← clock_after (6 * Second); removeEtcdMembers req
        end)
       etcd_ClientClose).

(** ** [vault.go]: steps 3 and 4 *)
Definition StopVault (req : UpdateRequest) : M W unit := stopService VaultService.

Definition replaceVaultFiles (lrns : list Z) : M W bool :=
  service ← lift (vault_GenerateService CurrentArtifacts rt);
  r1 ← replaceFile (ServiceFile VaultService) service mode_644;
  conf ← lift (vault_GenerateConf mylrn lrns);
  r2 ← replaceFile VaultConfFile conf mode_644;
  mret (r1 || r2).

Definition UpdateVault (req : UpdateRequest) : M W unit :=
  need ← needContainerImageUpdate "vault";
  _ ← (if (need : bool) then
         _ ← vault_InstallTools CurrentArtifacts rt; RecordContainerTag CurrentArtifacts mylrn "vault"
       else mret ());
  _ ← replaceVaultFiles (elems (req_Servers req));
  _ ← StartService VaultService;
  SleepContext (10 * Second).

(** ** [setuphw.go]: step 5 *)
Definition replaceSetupHWFiles : M W bool :=
  service ← lift (setuphw_GenerateService CurrentArtifacts rt);
  _ ← os_MkdirAll (Dir (ServiceFile SetupHWService)) mode_755;
  replaceFile (ServiceFile SetupHWService) service mode_644.

Definition UpdateSetupHW (req : UpdateRequest) : M W unit :=
  need ← needContainerImageUpdate "setup-hw";
  _ ← (if (need : bool) then RecordContainerTag CurrentArtifacts mylrn "setup-hw" else mret ());
  replaced ← replaceSetupHWFiles;
  if need || replaced then RestartService SetupHWService else mret ().

(** ** [serf.go]: step 6 *)
Definition replaceSerfFiles (lrns : list Z) : M W bool :=
  service ← lift (serf_GenerateService CurrentArtifacts rt);
  _ ← os_MkdirAll (Dir SerfConfFile) mode_755;
  r1 ← replaceFile (ServiceFile SerfService) service mode_644;
  name ← GetOSName;
  version ← GetOSVersionID;
  serial ← GetSerial;
  conf ← lift (serf_GenerateConf lrns name version serial);
  r2 ← replaceFile SerfConfFile conf mode_644;
  mret (r1 || r2).

Definition UpdateSerf (req : UpdateRequest) : M W unit :=
  need ← needContainerImageUpdate "serf";
  _ ← (if (need : bool) then
         _ ← serf_InstallTools CurrentArtifacts rt; RecordContainerTag CurrentArtifacts mylrn "serf"
       else mret ());
  let otherlrns := filter (λ lrn, lrn ≠ mylrn) (elems (req_Servers req)) in
  replaced ← replaceSerfFiles otherlrns;
  if negb need && negb replaced then mret ()
  else as_leader 10 (λ _, RestartService SerfService).

(** ** [setup_serf_tags.go]: step 7 *)
Definition UpdateSetupSerfTags (req : UpdateRequest) : M W unit :=
  _ ← os_MkdirAll (Dir (ServiceFile setupSerfTags)) mode_755;
  _ ← os_WriteFile (ServiceFile setupSerfTags) setupSerfTagsService mode_644;
  _ ← os_WriteFile (TimerFile setupSerfTags) setupSerfTagsTimer mode_644;
  script ← lift (GenerateScript (req_Version req));
  _ ← replaceFile binPath script mode_755;
  StartTimer setupSerfTags.

(** ** [deb.go] *)
Fixpoint list_releases_loop (fuel : nat) (pkg : DebianPackage) (page : Z)
    (allReleases : list RepositoryRelease) : M W (list RepositoryRelease) :=
  match fuel with
  | O => blocked
  | S fuel =>
      '(releases, nextPage) ← gh_ListAssets (deb_Owner pkg) (deb_Repository pkg) page;
      let allReleases := allReleases ++ releases in
      if nextPage =? 0 then mret allReleases
      else list_releases_loop fuel pkg nextPage allReleases
  end.
Definition listGithubReleases (fuel : nat) (pkg : DebianPackage) : M W (list RepositoryRelease) :=
  list_releases_loop fuel pkg 0 [].

Definition GetGitHubDownloadURL (fuel : nat) (pkg : DebianPackage) : M W string :=
  releases ← listGithubReleases fuel pkg;
  let at_release := deb_Repository pkg +:+ "@" +:+ deb_Release pkg in
  match find_release releases (deb_Release pkg) with
  | None => fail (ErrMsg ("no such release: " +:+ at_release))
  | Some release =>
      match findDebAsset (rr_Assets release) (deb_Name pkg) with
      | None => fail (ErrMsg ("debian package not found: " +:+ at_release))
      | Some asset =>
          match ra_URL asset with
          | None => fail (ErrMsg ("asset url is empty: " +:+ at_release))
          | Some url => mret url
          end
      end
  end.

(** One attempt to download; the data goes to the variable [data] of the caller,
    here the result. *)
Definition download (downloadURL token : string) : M W string :=
  status ← http_Do downloadURL
    (("Accept", "application/octet-stream") ::
     (if bool_decide (token = "") then [] else [("Authorization", "Bearer " +:+ token)]));
  if negb ((200 <=? status) && (status <? 300)) then
    fail (ErrMsg ("status code " +:+ Itoa status +:+ " is not a success"))
  else http_Body.
(** [neco.RetryWithSleep] around it. *)
Fixpoint download_retry (max : nat) (downloadURL token : string) (last : outcome string) : M W string :=
  match max with
  | O => lift last
  | S max =>
      r ← attempt (download downloadURL token);
      match r with
      | inr data => mret data
      | inl err => _ ← SleepContext (10 * Second); download_retry max downloadURL token (Err err)
      end
  end.

Definition InstallDebianPackage (fuel : nat) (token : string) (pkg : DebianPackage) (background : bool)
    (envValues : option (list (string * string))) : M W unit :=
  downloadURL ← GetGitHubDownloadURL fuel pkg;
  data ← download_retry 10 downloadURL token (Ok "");
  f ← os_CreateTemp "";
  deferred (_ ← file_Write f data; cmd_Run (deb_command f background envValues)) (file_Close f).

Definition installLocalPackage (pkg : DebianPackage) (envValues : option (list (string * string)))
    : M W unit :=
  match slice_from (String.length "release-") (deb_Release pkg) with
  | None => panic "slice bounds out of range"
  | Some debVersion =>
      let deb := "/tmp/" +:+ deb_Name pkg +:+ "_" +:+ debVersion +:+ "_amd64.deb" in
      cmd_Run (["systemd-run"; "-q"; "--wait"] ++
               match envValues with Some env => env_args env | None => [] end ++ ["dpkg"; "-i"; deb])
  end.

Definition UpdateNeco (fuel : nat) (req : UpdateRequest) : M W unit :=
  let deb release := {| deb_Name := NecoPackageName; deb_Owner := GitHubRepoOwner;
                        deb_Repository := GitHubRepoName; deb_Release := release |} in
  let env_home := Some [("HOME", "/home/cybozu")] in
  env ← GetEnvConfig;
  if bool_decide (env = TestEnv) then
    installLocalPackage (deb ("release-" +:+ req_Version req)) env_home
  else
    let release := if bool_decide (env = DevEnv) then "test-" +:+ req_Version req
                   else "release-" +:+ req_Version req in
    token ← GetGitHubToken;
    InstallDebianPackage fuel token (deb release) true env_home.

(** ** [etcdpasswd.go]: step 8 *)
Definition replaceEtcdpasswdFiles (lrns : list Z) : M W bool :=
  dropin ← lift GenerateSystemdDropIn;
  _ ← os_MkdirAll (Dir EtcdpasswdDropIn) mode_755;
  r1 ← replaceFile EtcdpasswdDropIn dropin mode_644;
  conf ← lift (etcdpasswd_GenerateConf lrns);
  _ ← os_MkdirAll (Dir EtcdpasswdConfFile) mode_755;
  r2 ← replaceFile EtcdpasswdConfFile conf mode_644;
  mret (r1 || r2).

Definition UpdateEtcdpasswd (fuel : nat) (req : UpdateRequest) : M W unit :=
  _ ← InstallSshdConf;
  _ ← RestartService "ssh";
  _ ← InstallSudoers;
  replaced ← replaceEtcdpasswdFiles (elems (req_Servers req));
  need ← needDebUpdate "etcdpasswd";
  _ ← (if (need : bool) then
         deb ← lift (FindDebianPackage CurrentArtifacts "etcdpasswd");
         token ← GetGitHubToken;
         _ ← InstallDebianPackage fuel token deb false None;
         RecordDebVersion CurrentArtifacts mylrn "etcdpasswd"
       else mret ());
  if replaced && negb need then RestartService EtcdpasswdService else mret ().

(** ** [sabakan.go]: steps 9, 14 and 15 *)
Definition replaceSabakanFiles (lrns : list Z) : M W bool :=
  conf ← lift (sabakan_GenerateConf mylrn lrns);
  _ ← os_MkdirAll (Dir SabakanConfFile) mode_755;
  r1 ← replaceFile SabakanConfFile conf mode_644;
  service ← lift (sabakan_GenerateService CurrentArtifacts rt);
  _ ← os_MkdirAll (Dir (ServiceFile "sabakan")) mode_755;
  r2 ← replaceFile (ServiceFile "sabakan") service mode_644;
  mret (r1 || r2).

(** Until sabakan answers or ten seconds have passed. *)
Fixpoint wait_sabakan (fuel : nat) : M W unit :=
  match fuel with
  | O => blocked
  | S fuel =>
      r ← attempt (http_Do SabakanLocalEndpoint []);
      match r with
      | inr _ => mret ()
      | inl _ =>
          fired ← clock_after Second;
          if (fired : bool) then wait_sabakan fuel else fail ErrDeadlineExceeded
      end
  end.

Definition UpdateSabakan (fuel : nat) (req : UpdateRequest) : M W unit :=
  need ← needContainerImageUpdate "sabakan";
  _ ← (if (need : bool) then
         _ ← sabakan_InstallTools CurrentArtifacts rt;
         _ ← InstallBashCompletion;
         RecordContainerTag CurrentArtifacts mylrn "sabakan"
       else mret ());
  _ ← replaceSabakanFiles (elems (req_Servers req));
  _ ← RestartService SabakanService;
  r ← attempt (os_Stat SabakanEtcdKeyFile);
  match r with
  | inl e => if IsNotExist e then mret () else fail e
  | inr _ => wait_sabakan fuel
  end.

Definition UpdateSabakanContents (req : UpdateRequest) : M W unit :=
  isActive ← IsActiveService SabakanService;
  if negb isActive then mret ()
  else contents_step GetSabakanContentsStatus PutSabakanContentsStatus
         (sabakan_UploadContents (req_Version req))
         "update of Sabakan contents failed by preceding worker" (req_Version req).

Definition UpdateDHCPJSON (req : UpdateRequest) : M W unit :=
  isActive ← IsActiveService SabakanService;
  if negb isActive then mret ()
  else contents_step GetDHCPJSONContentsStatus PutDHCPJSONContentsStatus sabakan_UploadDHCPJSON
         "update of dhcp.json failed by preceding worker" (req_Version req).

(** ** [sabakan_state_setter.go]: step 10 *)
Definition UpdateSabakanStateSetter (req : UpdateRequest) : M W unit :=
  let filename := TimerFile "sabakan-state-setter" in
  r ← attempt (os_Stat filename);
  _ ← match r with
      | inl e => if negb (IsNotExist e) then fail e else mret ()
      | inr _ =>
          _ ← StopTimer "sabakan-state-setter";
          _ ← DisableTimer "sabakan-state-setter";
          os_Remove filename
      end;
  RestartService SabakanStateSetterService.

(** ** [cke.go]: steps 11, 12, 13 and 17 *)
Definition StopCKE (req : UpdateRequest) : M W unit :=
  _ ← stopService CKELocalProxyService; stopService CKEService.

Definition replaceCKEFiles (lrns : list Z) : M W bool :=
  conf ← lift (cke_GenerateConf lrns);
  _ ← os_MkdirAll (Dir CKEConfFile) mode_755;
  replaceFile CKEConfFile conf mode_644.

(** Unlike the other contents, a failed upload of the template is not recorded. *)
Definition UpdateCKETemplate (req : UpdateRequest) : M W unit :=
  r ← attempt (os_Stat CKECertFile);
  match r with
  | inl e => if IsNotExist e then mret () else fail e
  | inr _ =>
      as_leader 600 (λ key,
        status ← preceding_status GetCKETemplateContentsStatus;
        if bool_decide (cu_Version <$> status = Some (req_Version req)) then
          if bool_decide (cu_Success <$> status = Some true) then mret ()
          else fail (ErrMsg "cke: update of cke-template.yml failed by preceding worker")
        else
          _ ← cke_SetCKETemplate;
          PutCKETemplateContentsStatus (contents_status (req_Version req) true) key)
  end.

Definition UpdateCKE (req : UpdateRequest) : M W unit :=
  _ ← replaceCKEFiles (elems (req_Servers req));
  _ ← UpdateCKETemplate req;
  _ ← RestartService CKEService;
  RestartService CKELocalProxyService.

Definition UpdateCKEContents (req : UpdateRequest) : M W unit :=
  isActive ← IsActiveService SabakanService;
  if negb isActive then mret ()
  else contents_step GetCKEContentsStatus PutCKEContentsStatus (cke_UploadContents (req_Version req))
         "cke: update of contents failed by preceding worker" (req_Version req).

Definition UpdateUserResources (req : UpdateRequest) : M W unit :=
  isActive ← IsActiveService CKEService;
  if negb isActive then mret ()
  else contents_step GetUserResourcesContentsStatus PutUserResourcesContentsStatus cke_UpdateResources
         "update of user-defined resources failed by preceding worker" (req_Version req).

(** ** [promtail.go]: step 16 *)
Definition replacePromtailFiles : M W bool :=
  conf ← lift (promtail_GenerateConf mylrn);
  _ ← os_MkdirAll (Dir PromtailConfFile) mode_755;
  r1 ← replaceFile PromtailConfFile conf mode_644;
  service ← lift (promtail_GenerateService CurrentArtifacts rt);
  _ ← os_MkdirAll (Dir (ServiceFile PromtailService)) mode_755;
  r2 ← replaceFile (ServiceFile PromtailService) service mode_644;
  mret (r1 || r2).

Definition UpdatePromtail (req : UpdateRequest) : M W unit :=
  need ← needContainerImageUpdate "promtail";
  _ ← (if (need : bool) then RecordContainerTag CurrentArtifacts mylrn "promtail" else mret ());
  replaced ← replacePromtailFiles;
  if negb need && negb replaced then mret () else RestartService PromtailService.

(** ** The dispatch *)
Definition operator_FinalStep : Z := 18.

Definition RunStep (fuel : nat) (req : UpdateRequest) (step : Z) : M W unit :=
  match step with
  | 1 => FetchImages req
  | 2 => UpdateEtcd fuel req
  | 3 => StopVault req
  | 4 => UpdateVault req
  | 5 => UpdateSetupHW req
  | 6 => UpdateSerf req
  | 7 => UpdateSetupSerfTags req
  | 8 => UpdateEtcdpasswd fuel req
  | 9 => UpdateSabakan fuel req
  | 10 => UpdateSabakanStateSetter req
  | 11 => StopCKE req
  | 12 => UpdateCKE req
  | 13 => UpdateCKEContents req
  | 14 => UpdateSabakanContents req
  | 15 => UpdateDHCPJSON req
  | 16 => UpdatePromtail req
  | 17 => UpdateUserResources req
  | 18 => mret ()
  | _ => fail (ErrMsg ("invalid step: " +:+ Itoa step))
  end.

(** The operator behind the worker's interface. *)
Definition operator_ops (fuel : nat) : Worker.Operator W := {|
  op_UpdateNeco := UpdateNeco fuel;
  op_FinalStep := operator_FinalStep;
  op_RunStep := RunStep fuel;
  op_StartServices := StartServices;
  op_RestartEtcd := RestartEtcd fuel;
|}.
End operator.
