(* ===== verification/OperatorTrace.v ===== *)
(** * The record of a step

    What the steps of an update do to the host and to etcd, and a logic for the records
    of code that may do many things: [emits P m] says that whatever [m] records
    satisfies [P], also when it fails half-way. *)
From S2P Require Import Prelude GoStr GoTime Json Types Etcd Worlds Storage Watch Worker.
From S2P Require Import Updater GoNet Host Progs Operator.

Local Open Scope Z_scope.

Inductive Contents := SabakanContents | DHCPJSON | CKEContents | CKETemplate | UserResources.
#[export] Instance Contents_eq_dec : EqDecision Contents.
Proof. solve_decision. Defined.

Inductive OpEffect :=
  | Ran (argv : list string) (ok : bool)
  | Output (argv : list string) (out : string) (err : option error)
  | Missing (name : string)               (* [os.Stat] failed *)
  | Opened (name : string)                (* truncated for writing *)
  | Uploaded (c : Contents) (ok : bool)
  | EtcdPut (k v : string)
  | EtcdTxn (cs : list Cmp) (ops : list Op)
  | MemberRemoved (id : Z)
  | Exited (code : Z).

Definition is_ok {A} (r : outcome A) : bool := match r with Ok _ => true | _ => false end.

Abbreviation OW W := (Traced OpEffect W).

Section instances.
Context {W : Type}.
#[export] Instance op_files `{Files W} : Files (OW W) := {
  os_Stat n := traced (λ r, match r with Err _ => [Missing n] | _ => [] end) (os_Stat n);
  os_ReadFile n := traced (λ _, []) (os_ReadFile n);
  os_OpenTrunc n m := traced (λ r, if is_ok r then [Opened n] else []) (os_OpenTrunc n m);
  file_Write n d := traced (λ _, []) (file_Write n d);
  file_Sync n := traced (λ _, []) (file_Sync n);
  file_Close n := traced (λ _, []) (file_Close n);
  os_MkdirAll n m := traced (λ _, []) (os_MkdirAll n m);
  os_Remove n := traced (λ _, []) (os_Remove n);
  os_Rename a b := traced (λ _, []) (os_Rename a b);
  os_Chown n u g := traced (λ _, []) (os_Chown n u g);
  os_CreateTemp p := traced (λ _, []) (os_CreateTemp p);
}.
#[export] Instance op_commands `{Commands W} : Commands (OW W) := {
  cmd_Run argv := traced (λ r, [Ran argv (is_ok r)]) (cmd_Run argv);
  cmd_Output argv := traced (λ r, match r with Ok (out, err) => [Output argv out err] | _ => [] end)
                       (cmd_Output argv);
  cmd_RunInput argv input := traced (λ r, [Ran argv (is_ok r)]) (cmd_RunInput argv input);
}.
#[export] Instance op_clock `{Clock W} : Clock (OW W) := {
  clock_now := traced (λ _, []) clock_now;
  clock_after d := traced (λ _, []) (clock_after d);
}.
#[export] Instance op_etcd `{Etcd W} : Etcd (OW W) := {
  etcd_get k o := traced (λ _, []) (etcd_get k o);
  etcd_put k v := traced (λ _, [EtcdPut k v]) (etcd_put k v);
  etcd_delete k := traced (λ _, []) (etcd_delete k);
  etcd_txn cs ops := traced (λ _, [EtcdTxn cs ops]) (etcd_txn cs ops);
  etcd_recv o rev := traced (λ _, []) (etcd_recv o rev);
}.
#[export] Instance op_admin `{EtcdAdmin W} : EtcdAdmin (OW W) := {
  etcd_NewClient c k := traced (λ _, []) (etcd_NewClient c k);
  etcd_ClientClose := traced (λ _, []) etcd_ClientClose;
  etcd_MemberList := traced (λ _, []) etcd_MemberList;
  etcd_MemberAdd u := traced (λ _, []) (etcd_MemberAdd u);
  etcd_MemberRemove i := traced (λ _, [MemberRemoved i]) (etcd_MemberRemove i);
  etcd_Status := traced (λ _, []) etcd_Status;
  etcdutil_Config := etcdutil_Config (W := W);
}.
#[export] Instance op_sessions `{Sessions W} : Sessions (OW W) := {
  Session := Session (W := W);
  NewSession ttl := traced (λ _, []) (NewSession ttl);
  Session_Close s := traced (λ _, []) (Session_Close s);
  Session_Campaign s p v := traced (λ _, []) (Session_Campaign s p v);
  Session_Resign s := traced (λ _, []) (Session_Resign s);
}.
#[export] Instance op_uploads `{Uploads W} : Uploads (OW W) := {
  sabakan_UploadContents v := traced (λ r, [Uploaded SabakanContents (is_ok r)]) (sabakan_UploadContents v);
  sabakan_UploadDHCPJSON := traced (λ r, [Uploaded DHCPJSON (is_ok r)]) sabakan_UploadDHCPJSON;
  cke_UploadContents v := traced (λ r, [Uploaded CKEContents (is_ok r)]) (cke_UploadContents v);
  cke_SetCKETemplate := traced (λ r, [Uploaded CKETemplate (is_ok r)]) cke_SetCKETemplate;
  cke_UpdateResources := traced (λ r, [Uploaded UserResources (is_ok r)]) cke_UpdateResources;
}.
#[export] Instance op_http `{Http W} : Http (OW W) := {
  http_Do u h := traced (λ _, []) (http_Do u h);
  http_Body := traced (λ _, []) http_Body;
}.
#[export] Instance op_github `{GitHubAssets W} : GitHubAssets (OW W) := {
  gh_ListAssets o r p := traced (λ _, []) (gh_ListAssets o r p);
}.
#[export] Instance op_process `{Process W} : Process (OW W) := {
  os_Exit c := traced (λ _, [Exited c]) (os_Exit c);
}.
End instances.

(** Recording changes nothing that the laws of etcd and of files speak of. *)
#[export] Program Instance op_etcd_laws {W} `{EtcdLaws W} : EtcdLaws (OW W) := {
  view t := view (tr_world t)
}.
Solve Obligations with (intros; simpl in *; unfold traced in *;
  match goal with H : (let '(_, _) := ?m in _) = _ |- _ =>
    let E := fresh "E" in destruct m eqn:E; simplify_eq/=;
    first [by apply get_law in E | by apply put_law in E | by apply delete_law in E
          |by apply txn_law in E | by apply recv_law in E] end).

(** ** Records of code *)
Section emits.
Context {W : Type} (P : OpEffect → Prop).
Implicit Types (v : OW W).

Definition emits {A} (m : M (OW W) A) : Prop := ∀ v v' r,
  m v = (v', r) → ∃ es, tr_log v' = tr_log v ++ es ∧ Forall P es.

Lemma emits_traced {A} eff (m : M W A) : (∀ r, Forall P (eff r)) → emits (traced eff m).
Proof.
  intros Heff v v' r. unfold traced. destruct (m (tr_world v)) as [w' r']. intros [= <- <-].
  exists (eff r'). split; [done|apply Heff].
Qed.
Lemma emits_quiet {A} (m : M W A) : emits (traced (λ _, []) m).
Proof. apply emits_traced. intros. apply Forall_nil_2. Qed.
Lemma emits_const {A} (o : outcome A) : emits (λ v, (v, o)).
Proof. intros v v' r [= <- <-]. exists []. rewrite app_nil_r. split; [done|apply Forall_nil_2]. Qed.
Lemma emits_ret {A} (a : A) : emits (mret a).
Proof. apply emits_const. Qed.
Lemma emits_fail {A} e : emits (fail (A := A) e).
Proof. apply emits_const. Qed.
Lemma emits_panic {A} why : emits (panic (A := A) why).
Proof. apply emits_const. Qed.
Lemma emits_blocked {A} : emits (blocked (A := A)).
Proof. apply emits_const. Qed.
Lemma emits_lift {A} (o : outcome A) : emits (lift o).
Proof. apply emits_const. Qed.
Lemma emits_bind {A B} (m : M (OW W) A) (f : A → M (OW W) B) :
  emits m → (∀ a, emits (f a)) → emits (m ≫= f).
Proof.
  intros Hm Hf v v' r. unfold mbind, M_bind. destruct (m v) as [v1 r1] eqn:E.
  apply Hm in E as (es & Hl & Hes). destruct r1; [|intros [= <- <-]; eauto..].
  intros (es' & Hl' & Hes')%Hf. exists (es ++ es'). rewrite Hl', Hl, app_assoc.
  split; [done|]. by apply Forall_app.
Qed.
Lemma emits_attempt {A} (m : M (OW W) A) : emits m → emits (attempt m).
Proof.
  intros Hm v v' r. unfold attempt. destruct (m v) as [v1 r1] eqn:E. apply Hm in E.
  destruct r1; intros [= <- <-]; done.
Qed.
Lemma emits_ignore {A} (m : M (OW W) A) : emits m → emits (ignore_error m).
Proof. intros Hm. apply emits_bind; [by apply emits_attempt|]. intros ?. apply emits_ret. Qed.
Lemma emits_deferred {A B} (m : M (OW W) A) (d : M (OW W) B) :
  emits m → emits d → emits (deferred m d).
Proof.
  intros Hm Hd. apply emits_bind; [by apply emits_attempt|]. intros r.
  apply emits_bind; [by apply emits_ignore|]. intros ?. destruct r; apply emits_const.
Qed.
Lemma emits_for_each {A} (l : list A) (m : A → M (OW W) unit) :
  (∀ x, emits (m x)) → emits (for_each l m).
Proof.
  intros Hm. induction l as [|x l IH]; simpl; [apply emits_ret|]. apply emits_bind; [done|by intros []].
Qed.
End emits.

(** Walk through code: [cmd] proves the goals about commands, [eff] those about other
    recorded calls. *)
Create HintDb emits.
Ltac walk_step cmd eff :=
  match goal with
  | |- ∀ _, emits _ _ => intros ?
  | |- emits _ (mbind _ _) => apply emits_bind; [|intros ?]
  | |- emits _ (mret _) => apply emits_ret
  | |- emits _ (fail _) => apply emits_fail
  | |- emits _ (panic _) => apply emits_panic
  | |- emits _ blocked => apply emits_blocked
  | |- emits _ (lift _) => apply emits_lift
  | |- emits _ (attempt _) => apply emits_attempt
  | |- emits _ (ignore_error _) => apply emits_ignore
  | |- emits _ (deferred _ _) => apply emits_deferred
  | |- emits _ (for_each _ _) => apply emits_for_each; intros ?
  | |- emits _ (cmd_Run _) => cmd
  | |- emits _ (match ?x with _ => _ end) => destruct x
  | |- emits _ ((match ?x with _ => _ end) _) => destruct x
  | |- emits _ ?m => first [solve [eauto with emits] | solve [apply emits_traced; intros []; simpl; eff]]
  end.
Ltac walk cmd eff := repeat (cbv beta iota; walk_step cmd eff).
