(* ===== verification/OperatorProofs.v ===== *)
(** * What the steps of an update do

    Which services each step starts, that the stopping steps stop theirs, that files
    are replaced exactly when they differ, and that contents are uploaded by one worker
    for all. *)
From S2P Require Import Prelude GoStr GoTime Json Types Etcd Worlds Storage StorageProofs Watch Worker.
From S2P Require Import Updater GoNet Host Progs Operator OperatorTrace.

Local Open Scope Z_scope.

(** ** Which services a step starts *)

(** The command starts the unit. *)
Definition starts (unit : string) (argv : list string) : Prop :=
  argv = ["systemctl"; "start"; unit] ∨ argv = ["systemctl"; "restart"; unit].

Definition started_by (step : Z) : list string :=
  match step with
  | 2 => ["etcd-container.service"]
  | 4 => ["vault.service"]
  | 5 => ["setup-hw.service"]
  | 6 => ["serf.service"]
  | 7 => ["setup-serf-tags.timer"]
  | 8 => ["ssh.service"; "ep-agent.service"]
  | 9 => ["sabakan.service"]
  | 10 => ["sabakan-state-setter.service"]
  | 12 => ["cke.service"; "cke-localproxy.service"]
  | 16 => ["promtail.service"]
  | _ => []
  end.

(** An effect that starts no unit but the given ones. *)
Definition starts_only (units : list string) (e : OpEffect) : Prop :=
  match e with Ran argv _ => ∀ unit, starts unit argv → unit ∈ units | _ => True end.

Section only.
Context {W : Type} `{Commands W}.
Variable units : list string.
Abbreviation safe m := (emits (W := W) (starts_only units) m).

Lemma safe_traced {A} eff (m : M W A) : (∀ r, Forall (starts_only units) (eff r)) → safe (traced eff m).
Proof. apply emits_traced. Qed.
Lemma safe_Run argv : (∀ unit, starts unit argv → unit ∈ units) → safe (cmd_Run argv).
Proof. intros Ha. apply emits_traced. intros r. by apply Forall_singleton. Qed.
(** A command whose second word is neither start nor restart. *)
Lemma safe_other_command argv : (∀ unit, ¬ starts unit argv) → safe (cmd_Run argv).
Proof. intros Ha. apply safe_Run. intros unit Hs. by destruct (Ha unit). Qed.
End only.

(** Walk through code that starts nothing but what is allowed. *)
Ltac safe_command :=
  first [ apply safe_other_command; intros ? [?|?]; discriminate
        | apply safe_Run; intros ? [?|?]; simplify_eq/=; set_solver ].
Ltac safe_effect :=
  repeat case_match; repeat first [apply Forall_nil_2|apply Forall_cons_2; [exact I|]].
Ltac safe := walk safe_command safe_effect.

Section safe_code.
Context `{NetUtil} `{Yaml} `{GoVersion} {W : Type} `{Etcd W} `{Files W} `{Commands W} `{Clock W}
  `{EtcdAdmin W} `{Sessions W} `{Uploads W} `{Http W} `{GitHubAssets W} `{Process W}.
Variable CurrentArtifacts : ArtifactSet.
Variable mylrn : Z.
Variable rt : dockerRuntime.
Variable units : list string.
Abbreviation safe m := (emits (W := W) (starts_only units) m).

Lemma safe_sleep d : safe (SleepContext d).
Proof. unfold SleepContext. safe. Qed.
Lemma safe_checked_output argv : safe (checked_Output argv).
Proof. unfold checked_Output. safe. Qed.
Lemma safe_write_file n d m : safe (os_WriteFile n d m).
Proof. unfold os_WriteFile. safe. Qed.
#[local] Hint Resolve safe_sleep safe_checked_output safe_write_file : emits.
Lemma safe_replace n d m : safe (replaceFile n d m).
Proof. unfold replaceFile, write_file. safe. Qed.

#[local] Hint Resolve safe_replace : emits.
Lemma safe_wait_state n s i : safe (wait_state_loop n s i).
Proof. revert s. induction i; intros s; simpl; safe. Qed.
#[local] Hint Resolve safe_wait_state : emits.
Lemma safe_stop n : safe (StopService n).
Proof. unfold StopService, waitServiceStateChange. safe. Qed.
#[local] Hint Resolve safe_stop : emits.
Lemma safe_stop_service n : safe (stopService n).
Proof. unfold stopService. safe. Qed.
Lemma safe_is_active n : safe (IsActiveService n).
Proof. unfold IsActiveService. safe. Qed.
Lemma safe_start_unit n u : n +:+ "." +:+ u ∈ units → safe (startUnit n u).
Proof. intros Hu. unfold startUnit. safe. Qed.
Lemma safe_restart n : n +:+ ".service" ∈ units → safe (RestartService n).
Proof. intros Hu. unfold RestartService. safe. Qed.
#[local] Hint Resolve safe_stop_service safe_is_active : emits.
Lemma safe_retry sleep f log max last :
  safe sleep → safe f → (∀ e, safe (log e)) → safe (retry_loop sleep f log max last).
Proof. intros Hs Hf Hl. revert last. induction max; intros last; simpl; safe. Qed.
Lemma safe_pull r img : safe (Pull r img).
Proof.
  unfold Pull, RetryWithSleep. safe. apply safe_retry; safe.
Qed.
Lemma safe_docker_run r img binds args : safe (Run r img binds args).
Proof. unfold Run. safe. Qed.
#[local] Hint Resolve safe_pull safe_docker_run : emits.
Lemma safe_install_tools n d c b : safe (install_tools CurrentArtifacts rt n d c b).
Proof. unfold install_tools. safe. Qed.
Lemma safe_get key : safe (get key).
Proof. unfold get. safe. Qed.
Lemma safe_get_json {A} `{JsonCodec A} key : safe (get_json (A := A) key).
Proof. unfold get_json. safe. Qed.
Lemma safe_leader_txn key ops : safe (leader_txn key ops).
Proof. unfold leader_txn. safe. Qed.
#[local] Hint Resolve safe_install_tools safe_get safe_get_json safe_leader_txn : emits.
Lemma safe_record n : safe (RecordContainerTag CurrentArtifacts mylrn n).
Proof. unfold RecordContainerTag. safe. Qed.
Lemma safe_need n : safe (needContainerImageUpdate CurrentArtifacts mylrn n).
Proof. unfold needContainerImageUpdate, GetContainerTag. safe. Qed.
Lemma safe_as_leader {A} ttl (body : string → M (OW W) A) :
  (∀ key, safe (body key)) → safe (as_leader mylrn ttl body).
Proof. intros Hb. unfold as_leader. safe. Qed.
#[local] Hint Resolve safe_record safe_need : emits.
Lemma safe_contents_step key upload failed version :
  safe upload →
  safe (contents_step mylrn (getContentsUpdateStatus key) (putContentsUpdateStatus key) upload failed version).
Proof.
  intros Hu. unfold contents_step, preceding_status. apply safe_as_leader. intros lk.
  unfold getContentsUpdateStatus, putContentsUpdateStatus. safe.
Qed.

#[local] Hint Resolve safe_contents_step : emits.
Lemma safe_wait_sync fuel d rev : safe (wait_sync_loop fuel d rev).
Proof. induction fuel; simpl; safe. Qed.
Lemma safe_wait_vault fuel : safe (WaitEtcdForVault fuel).
Proof. induction fuel; simpl; [safe|]. unfold tryWait, etcdClient. safe. Qed.
#[local] Hint Resolve safe_wait_sync safe_wait_vault : emits.
Lemma safe_download max url token last : safe (download_retry max url token last).
Proof. revert last. induction max; intros last; simpl; [safe|]. unfold download. safe. Qed.
Lemma safe_list_releases fuel pkg page all : safe (list_releases_loop fuel pkg page all).
Proof. revert page all. induction fuel; intros page all; simpl; safe. Qed.
#[local] Hint Resolve safe_download safe_list_releases : emits.
Lemma safe_install_deb fuel token pkg bg env : safe (InstallDebianPackage fuel token pkg bg env).
Proof.
  unfold InstallDebianPackage, GetGitHubDownloadURL, listGithubReleases. safe.
  apply safe_other_command. unfold deb_command. intros u Hu.
  destruct bg, env; destruct Hu as [Hu|Hu]; discriminate.
Qed.
Lemma safe_wait_sabakan fuel : safe (wait_sabakan fuel).
Proof. induction fuel; simpl; safe. Qed.
Lemma safe_env_wait tasks : Forall (emits (W := W) (starts_only units)) tasks → safe (env_Wait tasks).
Proof. induction 1; simpl; safe. Qed.

#[local] Hint Resolve safe_install_deb safe_wait_sabakan : emits.

(** Each step, where it may start the units it starts. *)
Ltac unit_in := match goal with Hu : _ ⊆ units |- _ => apply Hu; vm_compute; set_solver end.
Ltac safe_units :=
  repeat (safe; try first
    [ apply safe_restart; unit_in
    | unfold StartService, StartTimer; apply safe_start_unit; unit_in
    | apply safe_as_leader; intros ? ]).

Lemma safe_FetchImages req : safe (FetchImages CurrentArtifacts req).
Proof.
  unfold FetchImages, GetProxyConfig, GetContainerRuntime, newDockerRuntime. safe.
  apply safe_env_wait. apply Forall_forall. intros task (img & -> & _)%list_elem_of_fmap. apply safe_pull.
Qed.
Lemma safe_UpdateEtcd fuel req : started_by 2 ⊆ units → safe (UpdateEtcd CurrentArtifacts mylrn rt fuel req).
Proof.
  intros Hu. unfold UpdateEtcd, etcd_InstallTools, addEtcdMember, etcd_Setup, waitEtcdSync, replaceEtcdFiles,
    UpdateNecoConfig. safe_units.
Qed.
Lemma safe_UpdateVault req : started_by 4 ⊆ units → safe (UpdateVault CurrentArtifacts mylrn rt req).
Proof. intros Hu. unfold UpdateVault, vault_InstallTools, replaceVaultFiles. safe_units. Qed.
Lemma safe_UpdateSetupHW req : started_by 5 ⊆ units → safe (UpdateSetupHW CurrentArtifacts mylrn rt req).
Proof. intros Hu. unfold UpdateSetupHW, replaceSetupHWFiles. safe_units. Qed.
Lemma safe_UpdateSerf req : started_by 6 ⊆ units → safe (UpdateSerf CurrentArtifacts mylrn rt req).
Proof.
  intros Hu. unfold UpdateSerf, serf_InstallTools, replaceSerfFiles, GetOSName, GetOSVersionID, GetSerial.
  safe_units.
Qed.
Lemma safe_UpdateSetupSerfTags req : started_by 7 ⊆ units → safe (UpdateSetupSerfTags req).
Proof. intros Hu. unfold UpdateSetupSerfTags. safe_units. Qed.
Lemma safe_UpdateEtcdpasswd fuel req :
  started_by 8 ⊆ units → safe (UpdateEtcdpasswd CurrentArtifacts mylrn fuel req).
Proof.
  intros Hu. unfold UpdateEtcdpasswd, InstallSshdConf, InstallSudoers, replaceEtcdpasswdFiles, needDebUpdate,
    GetDebVersion, GetGitHubToken, RecordDebVersion, wrapping. safe_units.
Qed.
Lemma safe_UpdateSabakan fuel req :
  started_by 9 ⊆ units → safe (UpdateSabakan CurrentArtifacts mylrn rt fuel req).
Proof.
  intros Hu. unfold UpdateSabakan, sabakan_InstallTools, InstallBashCompletion, replaceSabakanFiles. safe_units.
Qed.
Lemma safe_UpdateSabakanStateSetter req : started_by 10 ⊆ units → safe (UpdateSabakanStateSetter req).
Proof. intros Hu. unfold UpdateSabakanStateSetter, StopTimer, DisableTimer. safe_units. Qed.
Lemma safe_UpdateCKE req : started_by 12 ⊆ units → safe (UpdateCKE mylrn req).
Proof.
  intros Hu. unfold UpdateCKE, replaceCKEFiles, UpdateCKETemplate, preceding_status, GetCKETemplateContentsStatus,
    PutCKETemplateContentsStatus, getContentsUpdateStatus, putContentsUpdateStatus. safe_units.
Qed.
Lemma safe_UpdatePromtail req : started_by 16 ⊆ units → safe (UpdatePromtail CurrentArtifacts mylrn rt req).
Proof. intros Hu. unfold UpdatePromtail, replacePromtailFiles. safe_units. Qed.
Lemma safe_contents req :
  safe (UpdateCKEContents mylrn req) ∧ safe (UpdateSabakanContents mylrn req) ∧
  safe (UpdateDHCPJSON mylrn req) ∧ safe (UpdateUserResources mylrn req).
Proof.
  unfold UpdateCKEContents, UpdateSabakanContents, UpdateDHCPJSON, UpdateUserResources.
  split_and!; safe; apply safe_contents_step; safe.
Qed.
#[local] Hint Resolve safe_FetchImages safe_UpdateEtcd safe_UpdateVault safe_UpdateSetupHW safe_UpdateSerf
  safe_UpdateSetupSerfTags safe_UpdateEtcdpasswd safe_UpdateSabakan safe_UpdateSabakanStateSetter
  safe_UpdateCKE safe_UpdatePromtail : emits.

Lemma safe_RunStep fuel req step :
  started_by step ⊆ units → safe (RunStep CurrentArtifacts mylrn rt fuel req step).
Proof.
  intros Hu. unfold RunStep. pose proof (safe_contents req) as (? & ? & ? & ?).
  repeat match goal with |- emits _ (match ?x with _ => _ end) => destruct x end;
    try apply emits_fail; try (unfold StopVault, StopCKE; safe).
Qed.
End safe_code.

(** ** Stopping services *)
Section stopping.
Context `{NetUtil} `{Yaml} `{GoVersion} {W : Type} `{Etcd W} `{Files W} `{Commands W} `{Clock W}
  `{EtcdAdmin W} `{Sessions W} `{Uploads W} `{Http W} `{GitHubAssets W} `{Process W}.
Variable CurrentArtifacts : ArtifactSet.
Variable mylrn : Z.
Variable rt : dockerRuntime.

Definition stopped_by (step : Z) : list string :=
  match step with
  | 3 => [VaultService]
  | 11 => [CKELocalProxyService; CKEService]
  | _ => []
  end.
(** The service was stopped, or has no unit file. *)
Definition stop_effect (svc : string) (e : OpEffect) : Prop :=
  e = Ran ["systemctl"; "stop"; svc +:+ ".service"] true ∨ e = Missing (ServiceFile svc).

Definition grows (v v' : OW W) (Q : list OpEffect → Prop) : Prop :=
  ∃ es, tr_log v' = tr_log v ++ es ∧ Q es.

Lemma stopService_stops svc v v' :
  stopService svc v = (v', Ok tt) → grows v v' (λ es, ∃ e, e ∈ es ∧ stop_effect svc e).
Proof.
  unfold stopService. intros (v1 & r & E & E')%bind_ok. apply attempt_ok in E. destruct r as [e|[]].
  - apply mret_inv in E' as [-> _]. simpl in E. unfold traced in E.
    destruct (os_Stat _ _) as [w' r']. injection E as <- ->. simpl.
    exists [Missing (ServiceFile svc)]. split; [done|]. eexists. split; [apply list_elem_of_here|by right].
  - simpl in E. unfold traced in E. destruct (os_Stat _ _) as [w1 r1]. injection E as <- ->.
    unfold StopService in E'. apply bind_ok in E' as (v2 & [] & E2 & E3).
    apply (safe_wait_state [] svc "" 60) in E2 as (es & Hl & _). simpl in Hl.
    simpl in E3. unfold traced in E3. destruct (cmd_Run _ _) as [w3 r3]. injection E3 as <- ->. simpl.
    rewrite Hl, app_nil_r. eexists. split; [by rewrite <-app_assoc|].
    eexists. split; [|by left]. set_solver.
Qed.

Lemma grows_trans v v1 v2 (Q Q' : list OpEffect → Prop) :
  grows v v1 Q → grows v1 v2 Q' → (∀ es es', Q es → Q' es' → Q (es ++ es')) → grows v v2 Q.
Proof.
  intros (es & Hl & HQ) (es' & Hl' & HQ') Happ. exists (es ++ es').
  rewrite Hl', Hl, app_assoc. split; [done|]. by apply Happ.
Qed.
Lemma grows_after v v1 v2 (Q Q' : list OpEffect → Prop) :
  grows v v1 Q' → grows v1 v2 Q → (∀ es es', Q' es → Q es' → Q (es ++ es')) → grows v v2 Q.
Proof.
  intros (es & Hl & HQ) (es' & Hl' & HQ') Happ. exists (es ++ es').
  rewrite Hl', Hl, app_assoc. split; [done|]. by apply Happ.
Qed.

Lemma RunStep_stops fuel req step svc v v' :
  RunStep CurrentArtifacts mylrn rt fuel req step v = (v', Ok tt) → svc ∈ stopped_by step →
  grows v v' (λ es, ∃ e, e ∈ es ∧ stop_effect svc e).
Proof.
  intros E Hs. unfold stopped_by in Hs.
  repeat case_match; subst; try by apply not_elem_of_nil in Hs.
  - simpl in E. unfold StopCKE in E. apply bind_ok in E as (v1 & [] & E1 & E2).
    apply stopService_stops in E1, E2.
    apply elem_of_cons in Hs as [Hs|Hs].
    + subst svc. eapply grows_trans; [done|done|]. intros es es' (e & He & ?) _. exists e. set_solver.
    + apply list_elem_of_singleton in Hs. subst svc. eapply grows_after; [done|done|]. intros es es' _ (e & He & ?). exists e. set_solver.
  - apply list_elem_of_singleton in Hs as ->. by apply stopService_stops.
Qed.
End stopping.
