(* ===== verification/OperatorCluster.v ===== *)
(** * The real steps behind the barriers

    The cluster of workers runs the steps of the operator.  A history of the cluster is
    realised by runs of [RunStep] on the boot servers; in the effects of such a
    history, a service that is stopped everywhere before its update is started again
    only after every boot server has stopped it. *)
From S2P Require Import Prelude GoStr GoTime Json Types Etcd Worlds Storage Watch Worker Cluster.
From S2P Require Import ClusterProofs ClusterSafety Updater GoNet Host Progs Operator OperatorTrace OperatorProofs.

Local Open Scope Z_scope.

#[export] Instance operator_final : Final := operator_FinalStep.

Section composed.
Context `{NetUtil} `{Yaml} `{GoVersion} {W : Type} `{Etcd W} `{Files W} `{Commands W} `{Clock W}
  `{EtcdAdmin W} `{Sessions W} `{Uploads W} `{Http W} `{GitHubAssets W} `{Process W}.
Variable CurrentArtifacts : ArtifactSet.
Variable rt : dockerRuntime.
Variable req : UpdateRequest.
Variable base : Log.

(** The effects of a history: each step that was run is a run of [RunStep] from some
    state of its boot server, with that outcome. *)
Inductive realised : list (Z * Z * bool) → list (Z * OpEffect) → Prop :=
  | realised_nil : realised [] []
  | realised_step ran t lrn step fuel (v v' : OW W) r :
      realised ran t → tr_log v = [] →
      RunStep CurrentArtifacts lrn rt fuel req step v = (v', r) →
      realised (ran ++ [(lrn, step, is_ok r)]) (t ++ map (pair lrn) (tr_log v')).

(** A run of a step, and that its effects are [es]. *)
Definition step_run (lrn step : Z) (ok : bool) (es : list OpEffect) : Prop := ∃ fuel (v v' : OW W) r,
  tr_log v = [] ∧ RunStep CurrentArtifacts lrn rt fuel req step v = (v', r) ∧ ok = is_ok r ∧ es = tr_log v'.

Lemma realised_run ran t b i k ok :
  realised ran t → ran !! b = Some (i, k, ok) →
  ∃ es, step_run i k ok es ∧ ∀ e, e ∈ es → (i, e) ∈ t.
Proof.
  induction 1 as [|ran t lrn step fuel v v' r Hr IH Hv E]; [done|].
  intros [Hb|[_ Hb]]%lookup_app_Some.
  - destruct (IH Hb) as (es & Hes & Hin). exists es. split; [done|]. set_solver.
  - apply list_lookup_singleton_Some in Hb as [_ Hb]. injection Hb as -> -> <-.
    exists (tr_log v'). split; [by exists fuel, v, v', r|].
    intros e He. apply elem_of_app. right. apply list_elem_of_fmap. eauto.
Qed.

(** An effect belongs to a step, and the effects of the steps before come before it. *)
Lemma realised_effect ran t p j e :
  realised ran t → t !! p = Some (j, e) →
  ∃ ran1 t1 k ok es, realised ran1 t1 ∧ ran1 `prefix_of` ran ∧ t1 `prefix_of` t ∧ (length t1 ≤ p)%nat ∧
    ran !! length ran1 = Some (j, k, ok) ∧ step_run j k ok es ∧ e ∈ es.
Proof.
  induction 1 as [|ran t lrn step fuel v v' r Hr IH Hv E]; [done|].
  intros [Hp|[Hge Hp]]%lookup_app_Some.
  - destruct (IH Hp) as (ran1 & t1 & k & ok & es & ? & ? & ? & ? & ? & ? & ?).
    exists ran1, t1, k, ok, es. split_and!; try done.
    + by apply prefix_app_r.
    + by apply prefix_app_r.
    + by apply lookup_app_l_Some.
  - apply list_elem_of_lookup_2, list_elem_of_fmap in Hp as (e' & [= -> ->] & He).
    exists ran, t, step, (is_ok r), (tr_log v'). split_and!; [done|by apply prefix_app_r|by apply prefix_app_r|done| |by exists fuel, v, v', r|done].
    by rewrite lookup_app_r, Nat.sub_diag by done.
Qed.

Lemma step_run_starts j k ok es argv b unit :
  step_run j k ok es → Ran argv b ∈ es → starts unit argv → unit ∈ started_by k.
Proof.
  intros (fuel & v & v' & r & Hv & E & _ & ->) Hin Hs.
  apply (safe_RunStep CurrentArtifacts j rt (started_by k) fuel req k) in E as (es & Hl & Hes); [|done].
  rewrite Hv in Hl. simpl in Hl. rewrite Hl in Hin.
  rewrite Forall_forall in Hes. by apply (Hes _ Hin).
Qed.
Lemma step_run_stops i k es svc :
  step_run i k true es → svc ∈ stopped_by k → ∃ e, e ∈ es ∧ stop_effect svc e.
Proof.
  intros (fuel & v & v' & r & Hv & E & Hok & ->) Hs. destruct r as [[]| | |]; try done.
  destruct (RunStep_stops CurrentArtifacts i rt fuel req k svc v v' E Hs) as (es & Hl & He).
  by rewrite Hl, Hv.
Qed.

(** The services that are stopped a step before they are started again. *)
Lemma started_after_stop svc k :
  svc ∈ [VaultService; CKEService; CKELocalProxyService] → svc +:+ ".service" ∈ started_by k →
  2 ≤ k ∧ svc ∈ stopped_by (k - 1).
Proof.
  intros Hsvc Hk. assert (Forall (λ k', svc +:+ ".service" ∈ started_by k' → 2 ≤ k' ∧ svc ∈ stopped_by (k' - 1))
    (map Z.of_nat (seq 1 18))) as Hall.
  { repeat (apply elem_of_cons in Hsvc as [->|Hsvc];
      [repeat apply Forall_cons_2; try apply Forall_nil_2; vm_compute; intros Hin;
       repeat (apply elem_of_cons in Hin as [Hin|Hin]; [discriminate Hin || (split; [discriminate|set_solver])|]);
       by apply not_elem_of_nil in Hin|]). by apply not_elem_of_nil in Hsvc. }
  rewrite Forall_forall in Hall. apply Hall; [|done].
  apply list_elem_of_fmap. exists (Z.to_nat k).
  unfold started_by in Hk. repeat case_match; try by apply not_elem_of_nil in Hk.
  all: subst; split; [done|]; apply elem_of_seq; lia.
Qed.

End composed.
