(* ===== verification/OperatorContents.v ===== *)
(** * Contents that one worker uploads for all

    Steps 13, 14, 15 and 17 upload contents to sabakan or CKE.  Every worker runs them,
    and what a worker recorded under the leadership decides for the workers after it. *)
From S2P Require Import Prelude GoStr GoTime Json Types Etcd Worlds Storage StorageProofs Watch Worker.
From S2P Require Import Updater GoNet Host Progs Operator OperatorTrace.

Local Open Scope Z_scope.

(** What is uploaded by a step, the key of its status, and the service that must run. *)
Definition contents_of (step : Z) : option (Contents * string * string) :=
  match step with
  | 13 => Some (CKEContents, KeyCKEContents, SabakanService)
  | 14 => Some (SabakanContents, KeySabakanContents, SabakanService)
  | 15 => Some (DHCPJSON, KeyDHCPJSONContents, SabakanService)
  | 17 => Some (UserResources, KeyUserResourcesContents, CKEService)
  | _ => None
  end.

(** The status stored under a key. *)
Definition contents_at (key : string) (l : Log) : option ContentsUpdateStatus :=
  ver ← store l !! key;
  match Unmarshal (ver_value ver) with Ok st => Some st | _ => None end.

Section contents.
Context `{NetUtil} `{Yaml} `{GoVersion} {W : Type} `{EtcdLaws W} `{Files W} `{Commands W} `{Clock W}
  `{EtcdAdmin W} `{Sessions W} `{Uploads W} `{Http W} `{GitHubAssets W} `{Process W}.
Variable CurrentArtifacts : ArtifactSet.
Variable mylrn : Z.
Variable rt : dockerRuntime.

(** Other clients may write to etcd during any call, and nothing is ever unwritten. *)
Definition extends {A} (m : M W A) : Prop := ∀ w w' r, m w = (w', r) → view w `prefix_of` view w'.
Class CallsExtend := {
  Output_extends argv : extends (cmd_Output argv);
  NewSession_extends ttl : extends (NewSession ttl);
  Close_extends s : extends (Session_Close s);
  Campaign_extends s p v : extends (Session_Campaign s p v);
  Resign_extends s : extends (Session_Resign s);
  sabakan_contents_extends v : extends (sabakan_UploadContents v);
  dhcp_extends : extends sabakan_UploadDHCPJSON;
  cke_contents_extends v : extends (cke_UploadContents v);
  resources_extend : extends cke_UpdateResources;
}.
Context `{!CallsExtend}.

(** From [v] to [v'] the record grew by [es], and etcd went on. *)
Definition moved (v v' : OW W) (es : list OpEffect) : Prop :=
  tr_log v' = tr_log v ++ es ∧ view v `prefix_of` view v'.

Lemma moved_refl v : moved v v [].
Proof. split; [by rewrite app_nil_r|done]. Qed.
Lemma moved_trans v v1 v2 es1 es2 : moved v v1 es1 → moved v1 v2 es2 → moved v v2 (es1 ++ es2).
Proof. intros [Hl Hp] [Hl' Hp']. split; [by rewrite Hl', Hl, app_assoc|by etrans]. Qed.
Lemma moved_quiet v v1 v2 es : moved v v1 es → moved v1 v2 [] → moved v v2 es.
Proof. intros ? ?. rewrite <-(app_nil_r es). by eapply moved_trans. Qed.
Lemma quiet_moved v v1 v2 es : moved v v1 [] → moved v1 v2 es → moved v v2 es.
Proof. apply moved_trans. Qed.

Lemma traced_moved {A} eff (m : M W A) v v' r :
  extends m → traced eff m v = (v', r) → moved v v' (eff r).
Proof.
  unfold traced. destruct (m (tr_world v)) as [w' r'] eqn:E. intros Hm [= <- <-].
  split; [done|]. by apply Hm in E.
Qed.

Lemma deferred_inv {A B} (m : M (OW W) A) (d : M (OW W) B) v v' r :
  (∀ v v' r, d v = (v', r) → moved v v' []) → deferred m d v = (v', r) →
  ∃ v1 r1, m v = (v1, r1) ∧ moved v1 v' [] ∧ (∀ a, r = Ok a → r1 = Ok a).
Proof.
  intros Hd. unfold deferred, ignore_error. munfold. destruct (m v) as [v1 r1] eqn:E.
  destruct r1; try (destruct (d v1) as [v2 r2] eqn:Ed; apply Hd in Ed; destruct r2);
    intros [= <- <-]; eexists _, _; (split; [done|]); (split; [done || apply moved_refl|]); intros; congruence.
Qed.

Lemma as_leader_inv {A} ttl (body : string → M (OW W) A) v v' r :
  as_leader mylrn ttl body v = (v', r) →
  (moved v v' [] ∧ ∀ a, r ≠ Ok a) ∨
  ∃ key v1 v2 r2, moved v v1 [] ∧ body key v1 = (v2, r2) ∧ moved v2 v' [] ∧ (∀ a, r = Ok a → r2 = Ok a).
Proof.
  unfold as_leader. unfold mbind at 1, M_bind at 1.
  destruct (NewSession ttl v) as [v1 r1] eqn:E1.
  apply traced_moved in E1; [|apply NewSession_extends].
  destruct r1 as [sess|e|y|]; [|intros [= <- <-]; by left..].
  intros (v2 & r2 & E2 & Hm2 & Hr2)%deferred_inv.
  2: { intros ??? E. by apply traced_moved in E; [|apply Close_extends]. }
  revert E2. unfold mbind at 1, M_bind at 1.
  destruct (Session_Campaign sess _ _ v1) as [v3 r3] eqn:E3.
  apply traced_moved in E3; [|apply Campaign_extends].
  destruct r3 as [key|e|y|]; [|intros [= <- <-]; left;
    (split; [eapply moved_quiet; [eapply moved_quiet; [exact E1|exact E3]|done]|intros a Ha; by specialize (Hr2 a Ha)])..].
  intros (v4 & r4 & E4 & Hm4 & Hr4)%deferred_inv.
  2: { intros ??? E. by apply traced_moved in E; [|apply Resign_extends]. }
  right. exists key, v3, v4, r4. split; [by eapply moved_quiet|]. split; [done|].
  split; [by eapply moved_quiet|]. eauto.
Qed.

Lemma get_contents_inv key v v' r :
  getContentsUpdateStatus key v = (v', r) → moved v v' [] ∧
  match r with
  | Ok st => contents_at key (view v') = Some st
  | Err ErrNotFound => contents_at key (view v') = None
  | _ => True
  end.
Proof.
  unfold getContentsUpdateStatus, get_json, mbind, M_bind.
  destruct (etcd_get key opt_key v) as [v1 r1] eqn:E. pose proof E as E'.
  apply traced_moved in E as Hm; [|intros ??? [Hp _]%get_law; done].
  destruct r1 as [resp|e|y|].
  - apply get_kv in E' as (_ & _ & Hk). rewrite Hk. unfold contents_at.
    destruct (store (view v1) !! key) as [ver|] eqn:Hs; simpl in *.
    + unfold lift. intros [= <- <-]. split; [done|]. rewrite Hs. simpl.
      by destruct (Unmarshal _) as [st|[]| |].
    + unfold fail. intros [= <- <-]. by rewrite Hs.
  - intros [= <- <-]. split; [done|]. apply get_law in E' as [_ He]. by destruct e.
  - by intros [= <- <-].
  - by intros [= <- <-].
Qed.

Lemma preceding_inv key v v' r :
  preceding_status (getContentsUpdateStatus key) v = (v', r) → moved v v' [] ∧
  match r with Ok status => contents_at key (view v') = status | _ => True end.
Proof.
  unfold preceding_status. unfold mbind at 1, M_bind at 1, attempt at 1.
  destruct (getContentsUpdateStatus key v) as [v1 r1] eqn:E. apply get_contents_inv in E as [Hm Hst].
  destruct r1 as [st|e|y|]; [|destruct e|..]; unfold mret, M_ret, fail; by intros [= <- <-].
Qed.

Lemma leader_txn_inv lk ops v v' r :
  leader_txn lk ops v = (v', r) → moved v v' [EtcdTxn [KeyExists lk] ops] ∧
  (r = Ok tt → ∃ l, view v `prefix_of` l ∧ is_Some (store l !! lk) ∧ view v' = commit l ops).
Proof.
  intros E. split; [|intros ->; by apply leader_txn_ok in E].
  revert E. unfold leader_txn, mbind, M_bind.
  destruct (etcd_txn [KeyExists lk] ops v) as [v1 r1] eqn:E. apply traced_moved in E; [|intros ??? [Hp _]%txn_law; done].
  destruct r1 as [resp|e|y|]; [|by intros [= <- <-]..].
  destruct (txn_succeeded resp); unfold mret, M_ret, fail; by intros [= <- <-].
Qed.

(** Nothing was uploaded; success means that somebody else's upload is on record. *)
Definition skipped (version key : string) (v v' : OW W) (r : outcome unit) : Prop :=
  moved v v' [] ∧
  (r = Ok tt → ∃ l, view v `prefix_of` l ∧ l `prefix_of` view v' ∧
                    contents_at key l = Some (contents_status version true)).
(** One upload, with no status of the version before it; then at most the one
    transaction that records, under the leadership, what came of it. *)
Definition uploaded (version key : string) (what : Contents) (v v' : OW W) (r : outcome unit) : Prop :=
  ∃ l ok es, view v `prefix_of` l ∧ l `prefix_of` view v' ∧
    (∀ st, contents_at key l = Some st → cu_Version st ≠ version) ∧
    moved v v' (Uploaded what ok :: es) ∧
    (es = [] ∨ ∃ lk data, es = [EtcdTxn [KeyExists lk] [OpPut key data]] ∧
                          Marshal (contents_status version ok) = Ok data) ∧
    (r = Ok tt → ok = true ∧ ∃ lk l2 data, l `prefix_of` l2 ∧ is_Some (store l2 !! lk) ∧
       Marshal (contents_status version true) = Ok data ∧
       commit l2 [OpPut key data] `prefix_of` view v').

(** Recording the result: at most one transaction. *)
Lemma record_inv {B} key st lk (k : error + unit → M (OW W) B) v v' r :
  (∀ x v v' r, k x v = (v', r) → v' = v ∧ match x with inl _ => ∀ b, r ≠ Ok b | inr _ => True end) →
  (attempt (putContentsUpdateStatus key st lk) ≫= k) v = (v', r) →
  ∃ es, moved v v' es ∧
    (es = [] ∨ ∃ data, es = [EtcdTxn [KeyExists lk] [OpPut key data]] ∧ Marshal st = Ok data) ∧
    (∀ b, r = Ok b → ∃ l data, view v `prefix_of` l ∧ is_Some (store l !! lk) ∧ Marshal st = Ok data ∧
       commit l [OpPut key data] = view v').
Proof.
  intros Hk. unfold putContentsUpdateStatus, mbind, M_bind, attempt, lift.
  destruct (Marshal st) as [data|e|y|] eqn:Em.
  - destruct (leader_txn lk [OpPut key data] v) as [v1 r1] eqn:E1. apply leader_txn_inv in E1 as [Hm Hok].
    intros E. exists [EtcdTxn [KeyExists lk] [OpPut key data]].
    assert (v' = v1 ∧ (∀ b, r = Ok b → r1 = Ok tt)) as [-> Hr].
    { destruct r1 as [[]|e|y|]; [apply Hk in E as [-> _]; done|apply Hk in E as [-> Hb]; split; [done|]; intros b ->; by destruct (Hb b)|by injection E as <- <-..]. }
    split; [done|]. split; [right; eauto|]. intros b Hb. destruct (Hok (Hr b Hb)) as (l & ? & ? & ?). eauto 10.
  - intros [-> Hb]%Hk. exists []. split; [apply moved_refl|]. split; [by left|]. intros b ->. by destruct (Hb b).
  - intros [= <- <-]. exists []. split; [apply moved_refl|]. split; [by left|done].
  - intros [= <- <-]. exists []. split; [apply moved_refl|]. split; [by left|done].
Qed.

(** Uploading, and recording the result. *)
Lemma upload_inv key what (upload : M (OW W) unit) version lk v v' r :
  (∀ v v' r, upload v = (v', r) → moved v v' [Uploaded what (is_ok r)]) →
  (r1 ← attempt upload;
   r2 ← attempt (putContentsUpdateStatus key
           (contents_status version (match r1 with inl _ => false | inr _ => true end)) lk);
   match r1, r2 with
   | inl err, _ => fail err
   | inr _, inl err2 => fail err2
   | inr _, inr _ => mret ()
   end) v = (v', r) →
  (∀ st, contents_at key (view v) = Some st → cu_Version st ≠ version) →
  uploaded version key what v v' r.
Proof.
  intros Hup E Hno. revert E. unfold mbind at 1, M_bind at 1, attempt at 1.
  destruct (upload v) as [v1 r1] eqn:E1. apply Hup in E1 as Hm1.
  assert (view v `prefix_of` view v1) as Hp1 by apply Hm1.
  destruct r1 as [[]|e|y|].
  3,4: intros [= <- <-]; exists (view v), false, []; split_and!; try done; by left.
  - intros (es & Hm2 & Hes & Hok)%record_inv.
    2: { intros [] ??? E2; munfold; by injection E2 as <- <-. }
    exists (view v), true, es. split; [done|]. split; [etrans; [exact Hp1|apply Hm2]|]. split; [done|].
    split; [by apply (moved_trans _ _ _ [_] es Hm1)|]. split; [naive_solver|].
    intros ->. split; [done|]. destruct (Hok tt eq_refl) as (l2 & data & Hl2 & Hlk & Hd & Hc).
    exists lk, l2, data. split; [by etrans|]. split; [done|]. split; [done|]. by rewrite Hc.
  - intros E. assert (r ≠ Ok tt) as Hr.
    { intros ->. apply bind_ok in E as (v2 & [] & _ & E); by minv. }
    apply record_inv in E as (es & Hm2 & Hes & _).
    2: { intros x ??? E2. munfold. destruct x; by injection E2 as <- <-. }
    exists (view v), false, es. split; [done|]. split; [etrans; [exact Hp1|apply Hm2]|]. split; [done|].
    split; [by apply (moved_trans _ _ _ [_] es Hm1)|]. split; [naive_solver|done].
Qed.

Lemma contents_step_inv key what (upload : M (OW W) unit) failed version v v' r :
  (∀ v v' r, upload v = (v', r) → moved v v' [Uploaded what (is_ok r)]) →
  contents_step mylrn (getContentsUpdateStatus key) (putContentsUpdateStatus key) upload failed version v
    = (v', r) →
  skipped version key v v' r ∨ uploaded version key what v v' r.
Proof.
  intros Hup. unfold contents_step.
  intros [[Hm Hr]|(lk & v1 & v2 & r2 & Hm1 & E & Hm2 & Hr)]%as_leader_inv; [left; split; naive_solver|].
  revert E. unfold mbind at 1, M_bind at 1.
  destruct (preceding_status _ v1) as [v3 r3] eqn:E3. apply preceding_inv in E3 as [Hm3 Hst].
  assert (moved v v3 []) as Hm13 by by eapply moved_quiet.
  destruct r3 as [status|e|y|].
  2,3,4: intros [= <- <-]; left; split; [by eapply moved_quiet|intros ->; by specialize (Hr tt eq_refl)].
  case_bool_decide as Hv.
  - destruct status as [[ver success]|]; [|done]. simpl in Hv. injection Hv as ->.
    case_bool_decide as Hs; intros E; left.
    + simpl in Hs. injection Hs as ->. apply mret_inv in E as [-> _]. split; [by eapply moved_quiet|].
      intros _. exists (view v3). split; [apply Hm13|]. split; [apply Hm2|done].
    + apply fail_inv in E as [-> ->]. split; [by eapply moved_quiet|]. intros ->. by specialize (Hr tt eq_refl).
  - intros (l & ok & es & Hl & Hl' & Hno & Hm & Hes & Hok)%(upload_inv _ what); [|done|].
    2: { intros st Hc. rewrite Hst in Hc. apply (f_equal (fmap cu_Version)) in Hc. simpl in Hc. intros Heq. rewrite Heq in Hc. done. }
    right. exists l, ok, es. split; [etrans; [apply Hm13|done]|]. split; [etrans; [done|apply Hm2]|].
    split; [done|]. split; [eapply moved_quiet; [|done]; by eapply quiet_moved|]. split; [done|].
    intros ->. destruct (Hok (Hr tt eq_refl)) as (-> & lk' & l2 & data & ? & ? & ? & ?). split; [done|].
    exists lk', l2, data. split_and!; try done. etrans; [done|apply Hm2].
Qed.

(** ** The steps *)
Lemma upload_moved {A} what (m : M W A) v v' r :
  extends m → traced (λ r, [Uploaded what (is_ok r)]) m v = (v', r) → moved v v' [Uploaded what (is_ok r)].
Proof. apply traced_moved. Qed.

(** The service was found inactive. *)
Definition inactive (svc : string) (es : list OpEffect) : Prop := ∃ out err,
  es = [Output ["systemctl"; "is-active"; svc +:+ ".service"] out (Some err)] ∧ TrimSpace out = "inactive".
Definition asked (svc : string) (es : list OpEffect) : Prop := ∃ out,
  es = [Output ["systemctl"; "is-active"; svc +:+ ".service"] out None].

Lemma IsActive_inv svc v v' r :
  IsActiveService svc v = (v', r) →
  ∃ es, moved v v' es ∧
    match r with Ok true => asked svc es | Ok false => inactive svc es
               | _ => es = [] ∨ ∃ out err, es = [Output ["systemctl"; "is-active"; svc +:+ ".service"] out err] end.
Proof.
  unfold IsActiveService, mbind, M_bind.
  destruct (cmd_Output _ v) as [v1 r1] eqn:E. apply traced_moved in E; [|apply Output_extends].
  destruct r1 as [[out err]|e|y|]; [|intros [= <- <-]; eauto..].
  destruct err as [e|]; [case_bool_decide|]; unfold mret, M_ret, fail; intros [= <- <-];
    eexists; (split; [exact E|]); [by exists out, e|by eauto|by exists out].
Qed.

(** A contents step: it asks for its service, and then it skips or uploads. *)
Lemma contents_RunStep_inv fuel req step what key svc v v' r :
  contents_of step = Some (what, key, svc) →
  RunStep CurrentArtifacts mylrn rt fuel req step v = (v', r) →
  (∃ es, moved v v' es ∧ (inactive svc es ∨ r ≠ Ok tt ∧ ∀ ok, Uploaded what ok ∉ es)) ∨
  ∃ v1 es, moved v v1 es ∧ asked svc es ∧
    (skipped (req_Version req) key v1 v' r ∨ uploaded (req_Version req) key what v1 v' r).
Proof.
  intros Hc E.
  assert (∃ upload failed, (∀ v v' r, upload v = (v', r) → moved v v' [Uploaded what (is_ok r)]) ∧
    (isActive ← IsActiveService svc;
     if negb isActive then mret ()
     else contents_step mylrn (getContentsUpdateStatus key) (putContentsUpdateStatus key) upload failed
            (req_Version req)) v = (v', r)) as (upload & failed & Hup & E').
  { unfold contents_of in Hc. repeat case_match; try done; injection Hc as <- <- <-; simpl in E;
      eexists _, _; (split; [|exact E]); intros ??? Eu; eapply upload_moved; try exact Eu;
      first [apply sabakan_contents_extends|apply dhcp_extends|apply cke_contents_extends|apply resources_extend]. }
  clear E. revert E'. unfold mbind, M_bind.
  destruct (IsActiveService svc v) as [v1 r1] eqn:E1. apply IsActive_inv in E1 as (es & Hm & Hes).
  destruct r1 as [[|]|e|y|]; simpl.
  - intros Hi%(contents_step_inv _ what); [|done]. right. eauto.
  - intros [= <- <-]. left. eauto.
  - intros [= <- <-]. left. exists es. split; [done|]. right. split; [done|]. intros ok. destruct Hes as [->|(?&?&->)]; set_solver.
  - intros [= <- <-]. left. exists es. split; [done|]. right. split; [done|]. intros ok. destruct Hes as [->|(?&?&->)]; set_solver.
  - intros [= <- <-]. left. exists es. split; [done|]. right. split; [done|]. intros ok. destruct Hes as [->|(?&?&->)]; set_solver.
Qed.

Lemma contents_at_commit key version data l :
  valid_utf8 version = true → Marshal (contents_status version true) = Ok data →
  contents_at key (commit l [OpPut key data]) = Some (contents_status version true).
Proof.
  intros Hv Hd. unfold contents_at. rewrite store_commit. simpl. rewrite lookup_insert_eq. simpl.
  by rewrite (Unmarshal_Marshal (contents_status version true)).
Qed.

(** C8: a contents step succeeds only if its service is inactive, or if at some
    moment of the step etcd had a record that the contents of this version were
    uploaded, by this worker or by another one. *)
Theorem contents_step_recorded fuel req step what key svc v v' :
  contents_of step = Some (what, key, svc) → valid_utf8 (req_Version req) = true →
  RunStep CurrentArtifacts mylrn rt fuel req step v = (v', Ok tt) →
  (∃ es, moved v v' es ∧ inactive svc es) ∨
  ∃ l, view v `prefix_of` l ∧ l `prefix_of` view v' ∧
       contents_at key l = Some (contents_status (req_Version req) true).
Proof.
  intros Hc Hutf [(es & Hm & [Hi|[? _]])|(v1 & es & Hm & _ & [[_ Hl]|Hu])]%(contents_RunStep_inv _ _ _ what key svc); [|done| | |done].
  - left. eauto.
  - right. destruct (Hl eq_refl) as (l & ? & ? & ?). exists l. split; [|done]. etrans; [apply Hm|done].
  - right. destruct Hu as (l & ok & es' & Hl & _ & _ & _ & _ & Hok).
    destruct (Hok eq_refl) as (_ & lk & l2 & data & ? & ? & Hd & ?).
    exists (commit l2 [OpPut key data]). split; [|split; [done|by apply contents_at_commit]].
    etrans; [apply Hm|]. etrans; [exact Hl|]. etrans; [done|apply commit_prefix].
Qed.

(** Once the contents of a version are on record, no worker uploads them again,
    and if the record is of a failure no worker whose service is active succeeds. *)
Theorem contents_step_decided fuel req step what key svc success v v' r :
  contents_of step = Some (what, key, svc) →
  RunStep CurrentArtifacts mylrn rt fuel req step v = (v', r) →
  (∀ l, view v `prefix_of` l → l `prefix_of` view v' →
        contents_at key l = Some (contents_status (req_Version req) success)) →
  ∃ es, moved v v' es ∧ (∀ ok, Uploaded what ok ∉ es) ∧ (r = Ok tt → success = true ∨ inactive svc es).
Proof.
  intros Hc E Hrec.
  apply (contents_RunStep_inv _ _ _ what key svc) in E as [(es & Hm & Hes)|(v1 & es & Hm & [out ->] & [[Hm1 Hl]|Hu])]; [| | |done].
  - exists es. split; [done|]. destruct Hes as [Hi|[Hr Hno]]; [|split; [done|intros ->; done]].
    split; [|by right]. destruct Hi as (out & err & -> & _). intros ok. set_solver.
  - exists [Output ["systemctl"; "is-active"; svc +:+ ".service"] out None].
    split; [by eapply moved_quiet|]. split; [set_solver|]. intros ->. left.
    destruct (Hl eq_refl) as (l & Hl1 & Hl2 & Hl3). rewrite Hrec in Hl3; [by injection Hl3|etrans; [apply Hm|done]|done].
  - destruct Hu as (l & ok & es' & Hl1 & Hl2 & Hno & _).
    rewrite Hrec in Hno; [|etrans; [apply Hm|done]|done]. by destruct (Hno _ eq_refl).
Qed.
End contents.
