(* ===== verification/OperatorFiles.v ===== *)
(** * Files, restarts and members

    [replaceFile] writes exactly when something changes; services whose restart is
    conditional restart exactly then; the members of etcd that are removed; the client
    that is nil. *)
From S2P Require Import Prelude GoStr GoTime Json Types Etcd Worlds Storage Watch Worker.
From S2P Require Import Updater GoNet Host Progs Operator OperatorTrace.

Local Open Scope Z_scope.

(** ** [replaceFile] *)
Section replace.
Context {W : Type} `{FilesLaws W}.

Lemma write_file_spec name data mode w w' r :
  write_file name data mode w = (w', r) →
  match r with
  | Ok b => b = true ∧ files w' = <[name := data]> (files w)
  | Err _ => delete name (files w') = delete name (files w)
  | _ => False
  end.
Proof.
  unfold write_file, deferred, ignore_error. munfold.
  destruct (os_OpenTrunc name mode w) as [w1 r1] eqn:E1. apply OpenTrunc_law in E1.
  destruct r1 as [[]|e|y|]; [|intros [= <- <-]; by rewrite E1|done|done].
  destruct (file_Write name data w1) as [w2 r2] eqn:E2.
  assert (files w1 !! name = Some "") as Hn by (rewrite E1; apply lookup_insert_eq).
  apply (Write_law _ _ _ _ _ E2) in Hn. clear E2.
  destruct r2 as [[]|e|y|]; [|destruct Hn as [part Hn]|done|done].
  - destruct (file_Sync name w2) as [w3 r3] eqn:E3. apply Sync_law in E3 as [E3 Hr3].
    assert (files w3 = <[name := data]> (files w)) as Hf.
    { rewrite E3, Hn, E1. apply insert_insert_eq. }
    destruct r3 as [[]|e|y|]; [| |done|done];
      destruct (file_Close name w3) as [w4 r4] eqn:E4; apply Close_law in E4 as [E4 Hr4];
      destruct r4; try done; intros [= <- <-]; rewrite E4, Hf; try done; by rewrite delete_insert_eq.
  - destruct (file_Close name w2) as [w4 r4] eqn:E4. apply Close_law in E4 as [E4 Hr4].
    destruct r4; try done; intros [= <- <-]; by rewrite E4, Hn, E1, !delete_insert_eq.
Qed.

(** [replaceFile] reports a change exactly if the file did not have the wanted
    contents; in both cases it has them afterwards and no other file has changed, and
    a failure can only have touched that file. *)
Theorem replaceFile_spec name data mode w w' r :
  replaceFile name data mode w = (w', r) →
  match r with
  | Ok changed => (changed = true ↔ files w !! name ≠ Some data) ∧ files w' = <[name := data]> (files w)
  | Err _ => delete name (files w') = delete name (files w)
  | _ => False
  end.
Proof.
  unfold replaceFile. unfold mbind, M_bind, attempt.
  destruct (os_ReadFile name w) as [w1 r1] eqn:E1. apply ReadFile_law in E1 as [Hf Hr1].
  destruct r1 as [current|e|y|]; [| |done|done].
  - case_bool_decide as Hd; simpl.
    + intros [= <- <-]. subst current. split; [naive_solver|]. rewrite Hf. by rewrite insert_id.
    + intros E%write_file_spec. rewrite Hf in E. destruct r; [|done..].
      destruct E as [-> ->]. split; [|done]. split; [|done]. intros _. rewrite Hr1. congruence.
  - destruct (IsNotExist e).
    + intros E%write_file_spec. rewrite Hf in E. destruct r; [|done..].
      destruct E as [-> ->]. split; [|done]. split; [|done]. intros _. by rewrite (Hr1 eq_refl).
    + intros [= <- <-]. by rewrite Hf.
Qed.
End replace.

(** ** The members of etcd that are removed *)

(** The name of the member of a boot server of the request. *)
Definition server_member (servers : list Z) (name : string) : Prop := ∃ suffix lrn,
  name = "boot-" +:+ suffix ∧ Atoi suffix = Ok lrn ∧ lrn ∈ servers.

Lemma keeps_member_spec servers member :
  ∃ b, keeps_member servers member = Ok b ∧ (b = true ↔ server_member servers (mb_Name member)).
Proof.
  unfold keeps_member, server_member. destruct (HasPrefix (mb_Name member) "boot-") eqn:Hp; cbn [negb].
  - apply HasPrefix_spec in Hp as [s Hs]. rewrite Hs.
    assert (slice_from 5 ("boot-" +:+ s) = Some s) as -> by apply (slice_from_app "boot-" s).
    destruct (Atoi s) as [lrn|e|y|] eqn:Ea; eexists; (split; [done|]).
    + rewrite existsb_exists. split.
      * intros (x & Hx & ->%Z.eqb_eq). exists s, x. split_and!; [done|done|by apply list_elem_of_In].
      * intros (s' & lrn' & Heq & Ha & Hin). apply (inj (String.append "boot-")) in Heq as <-.
        rewrite Ea in Ha. injection Ha as <-. exists lrn. split; [by apply list_elem_of_In|apply Z.eqb_refl].
    + split; [done|]. intros (s' & lrn' & Heq & Ha & _). apply (inj (String.append "boot-")) in Heq as <-. congruence.
    + split; [done|]. intros (s' & lrn' & Heq & Ha & _). apply (inj (String.append "boot-")) in Heq as <-. congruence.
    + split; [done|]. intros (s' & lrn' & Heq & Ha & _). apply (inj (String.append "boot-")) in Heq as <-. congruence.
  - eexists. split; [done|]. split; [done|]. intros (s & lrn & Heq & _). rewrite Heq in Hp.
    by rewrite HasPrefix_app in Hp.
Qed.

Lemma members_toRemove_spec servers members :
  ∃ l, members_toRemove servers members = Ok l ∧ l `sublist_of` members ∧
    ∀ m, m ∈ l ↔ m ∈ members ∧ ¬ server_member servers (mb_Name m).
Proof.
  induction members as [|m ms (l & IH & Hsub & Hl)]; simpl.
  - exists []. split_and!; [done|done|set_solver].
  - destruct (keeps_member_spec servers m) as (b & -> & Hb). simpl. rewrite IH. simpl.
    eexists. split; [done|]. destruct b.
    + split; [by apply sublist_cons|]. intros m'. rewrite Hl, elem_of_cons.
      split; [naive_solver|]. intros [[->|?] Hn]; [|done]. by destruct Hn; apply Hb.
    + split; [by apply sublist_skip|]. intros m'. rewrite !elem_of_cons, Hl.
      split; [|naive_solver]. intros [->|?]; [|naive_solver]. split; [by left|].
      intros Hs%Hb. done.
Qed.

Section members.
Context `{NetUtil} {W : Type} `{EtcdAdmin W}.
Implicit Types (v : OW W).

Lemma remove_all l v v' r :
  for_each l (λ member, etcd_MemberRemove (mb_ID member)) v = (v', r) →
  ∃ l', l' `prefix_of` l ∧ tr_log v' = tr_log v ++ map (λ m, MemberRemoved (mb_ID m)) l' ∧ (r = Ok tt → l' = l).
Proof.
  revert v. induction l as [|m l IH]; intros v; simpl.
  - intros [= <- <-]. exists []. by rewrite app_nil_r.
  - unfold mbind, M_bind. simpl. unfold traced.
    destruct (etcd_MemberRemove (mb_ID m) (tr_world v)) as [w1 r1]. destruct r1 as [[]|e|y|].
    + intros (l' & Hp & Hl & Hr)%IH. exists (m :: l'). simpl in *. rewrite Hl, <-app_assoc.
      split; [by apply prefix_cons|]. split; [done|]. intros ->. by rewrite Hr.
    + intros [= <- <-]. exists [m]. split; [by apply prefix_cons, prefix_nil|done].
    + intros [= <- <-]. exists [m]. split; [by apply prefix_cons, prefix_nil|done].
    + intros [= <- <-]. exists [m]. split; [by apply prefix_cons, prefix_nil|done].
Qed.

(** The members of etcd that belong to boot servers of the request are never
    removed, and if the removal succeeds every other member was removed. *)
Theorem removeEtcdMembers_spec req v v1 v' members r :
  etcd_MemberList v = (v1, Ok members) → removeEtcdMembers req v = (v', r) →
  ∃ es, tr_log v' = tr_log v1 ++ es ∧
    (∀ id, MemberRemoved id ∈ es → ∃ m, m ∈ members ∧ mb_ID m = id ∧
           ¬ server_member (elems (req_Servers req)) (mb_Name m)) ∧
    (r = Ok tt → ∀ m, m ∈ members → server_member (elems (req_Servers req)) (mb_Name m) ∨
                                    MemberRemoved (mb_ID m) ∈ es).
Proof.
  intros Hm. unfold removeEtcdMembers. rewrite (bind_eq _ _ _ _ _ Hm).
  destruct (members_toRemove_spec (elems (req_Servers req)) members) as (l & Hl & _ & Hin).
  rewrite Hl. intros (l' & [rest ->] & Hlog & Hr)%remove_all.
  exists (map (λ m, MemberRemoved (mb_ID m)) l'). split; [done|]. split.
  - intros id (m & [= ->] & Hm')%list_elem_of_fmap. exists m.
    destruct (Hin m) as [[? ?] _]; [set_solver|]. done.
  - intros Hok m Hm'. destruct (keeps_member_spec (elems (req_Servers req)) m) as (b & _ & Hb).
    destruct b; [left; by apply Hb|right]. apply list_elem_of_fmap. exists m. split; [done|].
    rewrite (Hr Hok). apply Hin. split; [done|]. intros Hs%Hb. done.
Qed.
End members.

(** ** Conditional restarts *)

(** What a step changes: the recorded tag of an image, a file. *)
Definition changes (e : OpEffect) : bool :=
  match e with EtcdPut _ _ | Opened _ => true | _ => false end.
Definition restarted (svc : string) (e : OpEffect) : bool :=
  match e with
  | Ran argv ok => ok && bool_decide (argv = ["systemctl"; "restart"; svc +:+ ".service"])
  | _ => false
  end.
Definition neutral (svc : string) (e : OpEffect) : Prop := changes e = false ∧ restarted svc e = false.

Lemma neutral_changes svc es : Forall (neutral svc) es → existsb changes es = false.
Proof. induction 1 as [|e es [H1 H2] _ IH]; [done|]. simpl. by rewrite H1. Qed.
Lemma neutral_restarted svc es : Forall (neutral svc) es → existsb (restarted svc) es = false.
Proof. induction 1 as [|e es [H1 H2] _ IH]; [done|]. simpl. by rewrite H2. Qed.

Section restarts.
Context `{NetUtil} `{Yaml} `{GoVersion} {W : Type} `{Etcd W} `{Files W} `{Commands W} `{Clock W}
  `{EtcdAdmin W} `{Sessions W} `{Uploads W} `{Http W} `{GitHubAssets W} `{Process W}.
Variable CurrentArtifacts : ArtifactSet.
Variable mylrn : Z.
Variable rt : dockerRuntime.
Variable svc : string.
Implicit Types (v : OW W).

(** The record grew by effects that include a change iff [t] and a restart iff [r]. *)
Definition did v v' (t r : bool) : Prop := ∃ es,
  tr_log v' = tr_log v ++ es ∧ existsb changes es = t ∧ existsb (restarted svc) es = r.

Lemma did_trans v v1 v2 t r t' r' : did v v1 t r → did v1 v2 t' r' → did v v2 (t || t') (r || r').
Proof.
  intros (es & Hl & <- & <-) (es' & Hl' & <- & <-). exists (es ++ es').
  by rewrite Hl', Hl, app_assoc, !existsb_app.
Qed.
Lemma did_refl v : did v v false false.
Proof. exists []. by rewrite app_nil_r. Qed.
Lemma did_neutral {A} (m : M (OW W) A) v v' r :
  emits (neutral svc) m → m v = (v', r) → did v v' false false.
Proof.
  intros Hm (es & Hl & Hes)%Hm. exists es. split; [done|].
  eauto using neutral_changes, neutral_restarted.
Qed.

Lemma did_ok_deferred {A B} (m : M (OW W) A) (d : M (OW W) B) v v' a :
  emits (neutral svc) d → deferred m d v = (v', Ok a) → ∃ v1, m v = (v1, Ok a) ∧ did v1 v' false false.
Proof.
  intros Hd. unfold deferred. intros (v1 & x & Ex & (v2 & [] & E2 & E3)%bind_ok)%bind_ok.
  destruct x as [e|a']; minv. exists v1. split; [done|].
  eapply did_neutral; [by apply emits_ignore|done].
Qed.

Ltac calm_command := apply emits_traced; intros ?; apply Forall_cons_2; [|apply Forall_nil_2];
  (split; [done|]); simpl; rewrite bool_decide_eq_false_2 by (intros Hb; discriminate Hb); apply andb_false_r.
Ltac calm_effect := repeat case_match; repeat first [apply Forall_nil_2|apply Forall_cons_2; [by split|]].
Ltac calm := walk calm_command calm_effect.

Lemma did_need name v v' r :
  needContainerImageUpdate CurrentArtifacts mylrn name v = (v', r) → did v v' false false.
Proof. apply did_neutral. unfold needContainerImageUpdate, GetContainerTag, get. calm. Qed.
Lemma tools_neutral n d c b : emits (neutral svc) (install_tools CurrentArtifacts rt n d c b : M (OW W) unit).
Proof. unfold install_tools, Run. calm. Qed.
Lemma did_mkdir n m v v' r : os_MkdirAll n m v = (v', r) → did v v' false false.
Proof. apply did_neutral. calm. Qed.
Lemma did_record name v v' :
  RecordContainerTag CurrentArtifacts mylrn name v = (v', Ok tt) → did v v' true false.
Proof.
  unfold RecordContainerTag. intros (v1 & img & [-> _]%lift_ok & E)%bind_ok. simpl in E. unfold traced in E.
  destruct (etcd_put _ _ _) as [w1 r1]. injection E as <- ->. by eexists [_].
Qed.
Lemma did_replace name data mode v v' b : replaceFile name data mode v = (v', Ok b) → did v v' b false.
Proof.
  assert (∀ v v', write_file name data mode v = (v', Ok b) → b = true ∧ did v v' true false) as Hwrite.
  { clear. intros v v' (v1 & [] & E1 & E2)%bind_ok. split.
    - unfold deferred in E2. apply bind_ok in E2 as (v2 & x & Ex%attempt_ok & (v3 & [] & _ & E3)%bind_ok).
      destruct x as [e|b']; minv; done.
    - assert (did v v1 true false) as Hd.
      { simpl in E1. unfold traced in E1. destruct (os_OpenTrunc _ _ _) as [w1 r1]. injection E1 as <- ->. by eexists [_]. }
      apply (did_trans _ _ _ _ _ false false Hd). eapply did_neutral; [|exact E2]. calm. }
  unfold replaceFile. intros (v1 & x & E1 & E2)%bind_ok.
  assert (did v v1 false false) as Hd by (eapply did_neutral; [|exact E1]; calm).
  destruct x as [e|current].
  - destruct (IsNotExist e); [|minv]. apply Hwrite in E2 as [-> Hw]. by apply (did_trans _ _ _ _ _ _ _ Hd) in Hw.
  - case_bool_decide; simpl in E2; [by minv|].
    apply Hwrite in E2 as [-> Hw]. by apply (did_trans _ _ _ _ _ _ _ Hd) in Hw.
Qed.
Lemma did_restart v v' : RestartService svc v = (v', Ok tt) → did v v' false true.
Proof.
  unfold RestartService. intros (v1 & [] & E1 & (v2 & [] & E2 & E3)%bind_ok)%bind_ok.
  simpl in E1, E2, E3. unfold traced in *.
  destruct (cmd_Run _ (tr_world v)) as [w1 r1]. injection E1 as <- ->.
  destruct (cmd_Run _ _) as [w2 r2]. injection E2 as <- ->.
  destruct (cmd_Run _ _) as [w3 r3]. injection E3 as <- ->.
  eexists [_; _; _]. simpl. rewrite <-!app_assoc. split; [done|]. split; [done|].
  assert (restarted svc (Ran ["systemctl"; "restart"; svc +:+ ".service"] true) = true) as ->
    by (by apply bool_decide_eq_true_2).
  by rewrite !orb_true_r.
Qed.
Lemma did_leader ttl v v' :
  as_leader mylrn ttl (λ _, RestartService svc) v = (v', Ok tt) → did v v' false true.
Proof.
  unfold as_leader. intros (v1 & sess & E1 & E2)%bind_ok.
  apply did_ok_deferred in E2 as (v2 & E2 & Hd2); [|calm].
  apply bind_ok in E2 as (v3 & key & E3 & E4).
  apply did_ok_deferred in E4 as (v4 & E4 & Hd4); [|calm].
  apply did_neutral in E1; [|calm]. apply did_neutral in E3; [|calm]. apply did_restart in E4.
  exact (did_trans _ _ _ _ _ _ _ (did_trans _ _ _ _ _ _ _ E1 E3)
           (did_trans _ _ _ _ _ _ _ E4 (did_trans _ _ _ _ _ _ _ Hd4 Hd2))).
Qed.
Lemma did_need_record (tools : M (OW W) unit) name (need : bool) v v' :
  emits (neutral svc) tools →
  (if need then _ ← tools; RecordContainerTag CurrentArtifacts mylrn name else mret ()) v = (v', Ok tt) →
  did v v' need false.
Proof.
  intros Ht. destruct need; [|intros [-> _]%mret_inv; apply did_refl].
  intros (v1 & [] & E1%(did_neutral _ _ _ _ Ht) & E2%did_record)%bind_ok.
  by apply (did_trans _ _ _ _ _ _ _ E1) in E2.
Qed.
Lemma did_hw_files v v' b :
  replaceSetupHWFiles CurrentArtifacts rt v = (v', Ok b) → did v v' b false.
Proof.
  unfold replaceSetupHWFiles.
  intros (v1 & s & [-> _]%lift_ok & (v2 & [] & E2%did_mkdir & E3%did_replace)%bind_ok)%bind_ok.
  by apply (did_trans _ _ _ _ _ _ _ E2) in E3.
Qed.
Lemma did_serf_files lrns v v' b :
  replaceSerfFiles CurrentArtifacts rt lrns v = (v', Ok b) → did v v' b false.
Proof.
  unfold replaceSerfFiles.
  intros (v1 & s & [-> _]%lift_ok & (v2 & [] & E2%did_mkdir & (v3 & r1 & E3%did_replace & E)%bind_ok)%bind_ok)%bind_ok.
  apply bind_ok in E as (v4 & n & E4 & (v5 & ver & E5 & (v6 & ser & E6 & E)%bind_ok)%bind_ok).
  apply bind_ok in E as (v7 & c & [-> _]%lift_ok & (v8 & r2 & E8%did_replace & [-> [= ->]]%mret_inv)%bind_ok).
  apply did_neutral in E4; [|unfold GetOSName; calm].
  apply did_neutral in E5; [|unfold GetOSVersionID; calm].
  apply did_neutral in E6; [|unfold GetSerial; calm].
  pose proof (did_trans _ _ _ _ _ _ _ (did_trans _ _ _ _ _ _ _ E2 E3) (did_trans _ _ _ _ _ _ _
    (did_trans _ _ _ _ _ _ _ E4 E5) (did_trans _ _ _ _ _ _ _ E6 E8))) as Hd. done.
Qed.
Lemma did_promtail_files v v' b :
  replacePromtailFiles CurrentArtifacts mylrn rt v = (v', Ok b) → did v v' b false.
Proof.
  unfold replacePromtailFiles.
  intros (v1 & s & [-> _]%lift_ok & (v2 & [] & E2%did_mkdir & (v3 & r1 & E3%did_replace & E)%bind_ok)%bind_ok)%bind_ok.
  apply bind_ok in E as (v4 & c & [-> _]%lift_ok & (v5 & [] & E5%did_mkdir & E)%bind_ok).
  apply bind_ok in E as (v6 & r2 & E6%did_replace & [-> [= ->]]%mret_inv).
  exact (did_trans _ _ _ _ _ _ _ (did_trans _ _ _ _ _ _ _ E2 E3) (did_trans _ _ _ _ _ _ _ E5 E6)).
Qed.
End restarts.

(** The services that a step restarts only when something of theirs changed. *)
Definition conditional_service (step : Z) : option string :=
  match step with
  | 5 => Some SetupHWService
  | 6 => Some SerfService
  | 16 => Some PromtailService
  | _ => None
  end.

Section restart_theorem.
Context `{NetUtil} `{Yaml} `{GoVersion} {W : Type} `{Etcd W} `{Files W} `{Commands W} `{Clock W}
  `{EtcdAdmin W} `{Sessions W} `{Uploads W} `{Http W} `{GitHubAssets W} `{Process W}.
Variable CurrentArtifacts : ArtifactSet.
Variable mylrn : Z.
Variable rt : dockerRuntime.
Implicit Types (v : OW W).

(** A step in three parts: record a new tag, replace files, restart if either changed. *)
Lemma did_conditional svc name record (files : M (OW W) bool) (last : bool → bool → M (OW W) unit) v v' :
  (∀ need v v', record need v = (v', Ok tt) → did svc v v' need false) →
  (∀ b v v', files v = (v', Ok b) → did svc v v' b false) →
  (∀ need b v v', last need b v = (v', Ok tt) → did svc v v' false (need || b)) →
  (need ← needContainerImageUpdate CurrentArtifacts mylrn name; _ ← record need;
   replaced ← files; last need replaced) v = (v', Ok tt) →
  ∃ b, did svc v v' b b.
Proof.
  intros Hrec Hfiles Hlast (v1 & need & E1%(did_need _ _ svc) & (v2 & [] & E2%Hrec & E)%bind_ok)%bind_ok.
  apply bind_ok in E as (v3 & b & E3%Hfiles & E4%Hlast). exists (need || b).
  pose proof (did_trans _ _ _ _ _ _ _ _ (did_trans _ _ _ _ _ _ _ _ E1 E2) (did_trans _ _ _ _ _ _ _ _ E3 E4)) as Hd.
  by rewrite orb_false_r in Hd.
Qed.
Lemma did_last svc (need b : bool) (restart : M (OW W) unit) v v' :
  (∀ v v', restart v = (v', Ok tt) → did svc v v' false true) →
  (if need || b then restart else mret ()) v = (v', Ok tt) → did svc v v' false (need || b).
Proof. intros Hr. destruct (need || b); [apply Hr|]. intros [-> _]%mret_inv. apply did_refl. Qed.
Lemma did_record_if svc name v v' (need : bool) :
  (if need then RecordContainerTag CurrentArtifacts mylrn name else mret ()) v = (v', Ok tt) →
  did svc v v' need false.
Proof. destruct need; [apply did_record|]. intros [-> _]%mret_inv. apply did_refl. Qed.

Lemma did_hw req v v' :
  UpdateSetupHW CurrentArtifacts mylrn rt req v = (v', Ok tt) → ∃ b, did SetupHWService v v' b b.
Proof.
  apply (did_conditional SetupHWService "setup-hw" (λ need : bool, _) _ (λ need replaced, _)).
  - intros. by eapply did_record_if.
  - intros. by eapply did_hw_files.
  - intros need b ??. apply did_last, did_restart.
Qed.
Lemma did_serf req v v' :
  UpdateSerf CurrentArtifacts mylrn rt req v = (v', Ok tt) → ∃ b, did SerfService v v' b b.
Proof.
  apply (did_conditional SerfService "serf" (λ need : bool, _) _ (λ need replaced, _)).
  - intros. eapply did_need_record; [|done]. apply tools_neutral.
  - intros. by eapply did_serf_files.
  - intros need b ??. rewrite <-negb_orb, if_negb. apply did_last. intros ??. apply did_leader.
Qed.
Lemma did_promtail req v v' :
  UpdatePromtail CurrentArtifacts mylrn rt req v = (v', Ok tt) → ∃ b, did PromtailService v v' b b.
Proof.
  apply (did_conditional PromtailService "promtail" (λ need : bool, _) _ (λ need replaced, _)).
  - intros. by eapply did_record_if.
  - intros. by eapply did_promtail_files.
  - intros need b ??. rewrite <-negb_orb, if_negb. apply did_last, did_restart.
Qed.

(** C31: a successful step for setup-hw (5), serf (6) or promtail (16) restarts its
    service if and only if it recorded a new tag of the image or rewrote one of its
    files: services are not disturbed for nothing, and never left with an old
    configuration by a step that reports success. *)
Theorem restart_iff_changed fuel req step svc v v' :
  conditional_service step = Some svc →
  RunStep CurrentArtifacts mylrn rt fuel req step v = (v', Ok tt) →
  ∃ es, tr_log v' = tr_log v ++ es ∧ existsb (restarted svc) es = existsb changes es.
Proof.
  intros Hstep Hrun. enough (∃ b, did svc v v' b b) as (b & es & Hl & Hc & Hr) by (exists es; by rewrite Hc, Hr).
  revert Hstep Hrun. unfold conditional_service. repeat case_match; intros [= <-];
    [apply did_hw|apply did_serf|apply did_promtail].
Qed.
End restart_theorem.
