(* ===== verification/OperatorWitness.v ===== *)
(** * The theorems about the steps at work

    A simulated boot server: an etcd, files in a map, and commands that succeed, except
    that systemctl may refuse to restart a service a given number of times. *)
From S2P Require Import Prelude GoStr GoTime Json Types Etcd Worlds Storage StorageProofs Watch Worker Cluster.
From S2P Require Import ClusterProofs ClusterSafety Updater GoNet Host Progs Operator OperatorTrace OperatorProofs.
From S2P Require Import OperatorCluster OperatorContents OperatorFiles.
Import V4.

Local Open Scope Z_scope.

(** Versions are dotted numbers. *)
Fixpoint atois (l : list string) : outcome (list Z) :=
  match l with [] => Ok [] | s :: l => n ← Atoi s; ns ← atois l; Ok (n :: ns) end.
Fixpoint numbers_compare (a b : list Z) : Z :=
  match a, b with
  | [], [] => 0
  | [], _ => -1
  | _, [] => 1
  | x :: a, y :: b => if x =? y then numbers_compare a b else Z.sgn (x - y)
  end.
#[export] Instance dotted_version : GoVersion := {
  GVersion := string * list Z;
  NewVersion s := ns ← atois (Split "." s); Ok (s, ns);
  Version_Equal a b := numbers_compare a.2 b.2 =? 0;
  Version_Compare a b := numbers_compare a.2 b.2;
  Version_Original a := a.1;
}.
(** JSON is YAML. *)
#[export] Instance flow_yaml : Yaml := { yaml_Marshal j := Ok (print j "") }.

Record HostState := {
  ho_files : gmap string string;
  ho_refusals : nat;             (* restarts that systemctl is going to refuse *)
  ho_members : list Member;      (* of the cluster of etcd *)
}.
Definition BootHost : Type := Sim * HostState.

Definition set_files (f : gmap string string) (h : BootHost) : BootHost :=
  (h.1, {| ho_files := f; ho_refusals := ho_refusals h.2; ho_members := ho_members h.2 |}).

#[export] Instance host_files : Files BootHost := {
  os_Stat n h := (h, match ho_files h.2 !! n with Some _ => Ok () | None => Err (ErrNotExist "no such file") end);
  os_ReadFile n h := (h, match ho_files h.2 !! n with Some d => Ok d | None => Err (ErrNotExist "no such file") end);
  os_OpenTrunc n _ h := (set_files (<[n := ""]> (ho_files h.2)) h, Ok ());
  file_Write n d h :=
    (set_files (<[n := default "" (ho_files h.2 !! n) +:+ d]> (ho_files h.2)) h, Ok ());
  file_Sync _ := mret ();
  file_Close _ := mret ();
  os_MkdirAll _ _ := mret ();
  os_Remove n h := (set_files (delete n (ho_files h.2)) h, Ok ());
  os_Rename a b h :=
    (set_files (match ho_files h.2 !! a with Some d => <[b := d]> (delete a (ho_files h.2)) | None => ho_files h.2 end) h, Ok ());
  os_Chown _ _ _ := mret ();
  os_CreateTemp p := mret (p +:+ "1");
}.
#[export] Program Instance host_files_laws : FilesLaws BootHost := { files h := ho_files h.2 }.
Next Obligation.
  intros n h h' r. simpl. intros [= <- <-]. split; [done|]. by destruct (ho_files h.2 !! n).
Qed.
Next Obligation. intros n m h h' r. simpl. by intros [= <- <-]. Qed.
Next Obligation. intros n d h h' r. simpl. intros [= <- <-] old Hold. simpl. by rewrite Hold. Qed.
Next Obligation. intros n h h' r. simpl. by intros [= <- <-]. Qed.
Next Obligation. intros n h h' r. simpl. by intros [= <- <-]. Qed.

#[export] Instance host_commands : Commands BootHost := {
  cmd_Run argv h :=
    match ho_refusals h.2 with
    | S n => if bool_decide ("restart" ∈ argv)
             then ((h.1, {| ho_files := ho_files h.2; ho_refusals := n; ho_members := ho_members h.2 |}),
                   Err (ErrMsg "exit status 1"))
             else (h, Ok ())
    | O => (h, Ok ())
    end;
  cmd_Output _ := mret ("active", None);
  cmd_RunInput _ _ := mret ();
}.
#[export] Instance host_clock : Clock BootHost := {
  clock_now := mret (1700000100 * Second);
  clock_after _ := mret true;
}.
#[export] Instance host_admin : EtcdAdmin BootHost := {
  etcd_NewClient _ _ := mret ();
  etcd_ClientClose := mret ();
  etcd_MemberList h := (h, Ok (ho_members h.2));
  etcd_MemberAdd _ h := (h, Ok (ho_members h.2, 1));
  etcd_MemberRemove _ := mret ();
  etcd_Status := mret "3.0.9";
  etcdutil_Config prefix endpoints cert key := JObj [("prefix", JStr prefix)];
}.
Definition leader_key := KeyWorkerLeader +:+ "1".
#[export] Instance host_sessions : Sessions BootHost := {
  Session := unit;
  NewSession _ := mret ();
  Session_Close _ := mret ();
  Session_Campaign _ _ _ := mret leader_key;
  Session_Resign _ := mret ();
}.
#[export] Instance host_uploads : Uploads BootHost := {
  sabakan_UploadContents _ := mret ();
  sabakan_UploadDHCPJSON := mret ();
  cke_UploadContents _ := mret ();
  cke_SetCKETemplate := mret ();
  cke_UpdateResources := mret ();
}.
#[export] Instance host_http : Http BootHost := { http_Do _ _ := mret 200; http_Body := mret "" }.
#[export] Instance host_github : GitHubAssets BootHost := { gh_ListAssets _ _ _ := mret ([], 0) }.
#[export] Instance host_process : Process BootHost := { os_Exit _ := mret () }.
#[export] Instance host_extends : CallsExtend (W := BootHost).
Proof. split; intros; intros w w' r [= <- <-]; done. Qed.

(** ** Boot servers 0 and 1 in an update *)
Definition image (name : string) : ContainerImage :=
  {| img_Name := name; img_Repository := "ghcr.io/cybozu/" +:+ name; img_Tag := "1.0.1"; img_Private := false |}.
Definition artifacts : ArtifactSet :=
  {| as_Images := map image ["etcd"; "promtail"; "setup-hw"; "sabakan"; "serf"; "vault"]; as_Debs := [];
     as_OSImage := {| os_Channel := "stable"; os_Version := "1" |} |}.
Definition docker : dockerRuntime := {| dcTest := false |}.
Definition upd : UpdateRequest :=
  {| req_Version := "1.0.0"; req_Servers := Some [0; 1]; req_Stop := false; req_StartedAt := 1700000000 * Second |}.
Definition members3 : list Member :=
  map (λ n, {| mb_Name := "boot-" +:+ Itoa n; mb_ID := 100 + n; mb_PeerURLs := [] |}) [0; 1; 2].
Definition host (refusals : nat) : OW BootHost :=
  {| tr_world := ({| sim_log := [[EvPut leader_key "0"]]; sim_env := []; sim_fail := [] |},
                  {| ho_files := {[ServiceFile VaultService := "[Unit]"]}; ho_refusals := refusals; ho_members := members3 |});
     tr_log := [] |}.
Definition run (lrn step : Z) (v : OW BootHost) : OW BootHost * outcome unit :=
  RunStep artifacts lrn docker 10 upd step v.

Definition base : Log := [[EvPut KeyCurrent "request"]].
Definition turn (lrn : Z) : Label := LEvent lrn None [].
(** Both workers run steps 1 to 4. *)
Definition to_step_4 : list Label :=
  [LStart 0 []; LStart 1 []] ++ map turn (concat (repeat [0; 0; 1; 1] 4)).
Definition updating : Cluster := default (initial upd base) (exec_all to_step_4 (initial upd base)).

Lemma updating_reachable : reachable upd base updating.
Proof.
  unfold updating. destruct (exec_all to_step_4 (initial upd base)) as [c|] eqn:E; [|vm_compute in E; discriminate].
  assert (Forall label_ok to_step_4) as Hl by repeat constructor.
  simpl. assert (reachable upd base (initial upd base)) as Hc by apply reach_initial.
  revert Hl Hc E. generalize to_step_4 (initial upd base). intros l. induction l as [|lb l IH]; intros c0 Hl Hc E.
  - by injection E as <-.
  - apply Forall_cons in Hl as [Hlb Hl]. cbn [exec_all] in E. destruct (exec lb c0) as [c1|] eqn:E1; [|done].
    apply (IH c1); [done|by eapply reach_step|done].
Qed.

Definition effects_of (ran : list (Z * Z * bool)) : list (Z * OpEffect) :=
  concat (map (λ '(lrn, step, _), map (pair lrn) (tr_log (run lrn step (host 0)).1)) ran).
Lemma realised_effects ran :
  forallb (λ '(lrn, step, ok), eqb ok (is_ok (run lrn step (host 0)).2)) ran = true →
  realised (W := BootHost) artifacts docker upd ran (effects_of ran).
Proof.
  induction ran as [|[[lrn step] ok] ran IH] using rev_ind; [intros; apply realised_nil|].
  rewrite forallb_app. intros [Hran Hok]%andb_true_iff. simpl in Hok. apply andb_true_iff in Hok as [Hok%eqb_prop _].
  unfold effects_of. rewrite map_app, concat_app. simpl. rewrite app_nil_r.
  rewrite Hok. eapply (realised_step _ _ _ ran _ lrn step 10 (host 0)); [by apply IH|done|].
  apply surjective_pairing.
Qed.


(** Step 13 on boot server 0 uploads and records; then boot server 1 has nothing to do. *)
Lemma contents_step_recorded_witness :
  (run 0 13 (host 0)).2 = Ok tt ∧
  ((∃ es, moved (host 0) (run 0 13 (host 0)).1 es ∧ inactive SabakanService es) ∨
   ∃ l, view (host 0) `prefix_of` l ∧ l `prefix_of` view (run 0 13 (host 0)).1 ∧
        contents_at KeyCKEContents l = Some (contents_status "1.0.0" true)).
Proof.
  split; [vm_compute; reflexivity|].
  apply (contents_step_recorded artifacts 0 docker 10 upd 13 CKEContents KeyCKEContents SabakanService
           (host 0) (run 0 13 (host 0)).1).
  - reflexivity.
  - reflexivity.
  - vm_compute. reflexivity.
Defined.

Definition after_upload : OW BootHost := {| tr_world := tr_world (run 0 13 (host 0)).1; tr_log := [] |}.
Lemma contents_step_decided_witness :
  ∃ es, moved after_upload (run 1 13 after_upload).1 es ∧ (∀ ok, Uploaded CKEContents ok ∉ es) ∧
        ((run 1 13 after_upload).2 = Ok tt → true = true ∨ inactive SabakanService es).
Proof.
  apply (contents_step_decided artifacts 1 docker 10 upd 13 CKEContents KeyCKEContents SabakanService true
           after_upload (run 1 13 after_upload).1).
  - reflexivity.
  - apply surjective_pairing.
  - intros l H1 H2. assert (view after_upload = view (run 1 13 after_upload).1) as E by (vm_compute; reflexivity).
    rewrite <-E in H2. replace l with (view after_upload); [vm_compute; reflexivity|].
    destruct H1 as [k1 ->], H2 as [k2 H2]. rewrite <-app_assoc in H2. apply (f_equal length) in H2.
    rewrite !length_app in H2. destruct k1; [by rewrite app_nil_r|simpl in H2; lia].
Defined.

Lemma replaceFile_spec_witness :
  (replaceFile "/etc/serf.conf" "{}" mode_644 (tr_world (host 0))).2 = Ok true ∧
  files (replaceFile "/etc/serf.conf" "{}" mode_644 (tr_world (host 0))).1 =
    <["/etc/serf.conf" := "{}"]> (files (tr_world (host 0))).
Proof.
  split; [vm_compute; reflexivity|].
  apply (replaceFile_spec "/etc/serf.conf" "{}" mode_644 (tr_world (host 0)) _ (Ok true)).
  rewrite (surjective_pairing (replaceFile _ _ _ _)). f_equal.
Defined.

(** Boot server 2 has left: its member is removed. *)
Lemma removeEtcdMembers_spec_witness :
  ∃ es, tr_log (removeEtcdMembers upd (host 0)).1 = [] ++ es ∧
    (∀ id, MemberRemoved id ∈ es → ∃ m, m ∈ members3 ∧ mb_ID m = id ∧ ¬ server_member [0; 1] (mb_Name m)) ∧
    (Ok tt = Ok tt → ∀ m, m ∈ members3 → server_member [0; 1] (mb_Name m) ∨ MemberRemoved (mb_ID m) ∈ es).
Proof.
  apply (removeEtcdMembers_spec upd (host 0) (host 0) (removeEtcdMembers upd (host 0)).1 members3 (Ok tt)).
  - vm_compute. reflexivity.
  - vm_compute. reflexivity.
Defined.

Lemma restart_iff_changed_witness :
  (run 0 5 (host 0)).2 = Ok tt ∧
  ∃ es, tr_log (run 0 5 (host 0)).1 = [] ++ es ∧ existsb (restarted SetupHWService) es = existsb changes es.
Proof.
  split; [vm_compute; reflexivity|].
  apply (restart_iff_changed artifacts 0 docker 10 upd 5 SetupHWService (host 0)).
  - reflexivity.
  - vm_compute. reflexivity.
Defined.

(** When systemctl refuses the restart in step 5, the step fails; tried again, it
    succeeds without restarting the service, whose file and tag are up to date. *)
Definition refused : OW BootHost := (run 0 5 (host 1)).1.
Lemma restart_forgotten :
  (∃ e, (run 0 5 (host 1)).2 = Err e) ∧ (run 0 5 refused).2 = Ok tt ∧
  tr_log (run 0 5 refused).1 = tr_log refused ∧
  existsb (restarted SetupHWService) (tr_log (run 0 5 refused).1) = false.
Proof. split; [eexists; vm_compute; reflexivity|]. split_and!; vm_compute; reflexivity. Qed.

(** An etcd cluster older than 3.1.0: [tryWait] reports neither a client nor an error,
    so the wait ends with a nil client, which the step that adds a member dereferences. *)
Lemma old_etcd_nil_client :
  (WaitEtcdForVault 1 (tr_world (host 0))).2 = Ok None ∧
  (addEtcdMember artifacts 3 docker 1 (host 0)).2 = Panic "nil pointer dereference".
Proof. split; vm_compute; reflexivity. Qed.

(** Asked to install a package in the background without environment values, the command
    is the one of the foreground. *)
Lemma background_needs_env file : deb_command file true None = deb_command file false None.
Proof. reflexivity. Qed.
