(* ===== verification/BootIP.v ===== *)
(** * boot-ip-setter ([pkg/boot-ip-setter])

    Every boot server runs it.  Once a minute it reads the members of etcd, gives the
    interface the DHCP server address that falls to its rack and the address of active
    boot servers, and takes all others away; a rack that is not a member gets none.

    [NetworkInterface] is the interface of [netif.go] with its contract; the
    implementation runs over netlink, a class with the documented behaviour of the
    kernel as laws. *)
From S2P Require Import Prelude GoStr GoTime Json Types Etcd Worlds Storage Watch Worker.
From S2P Require Import Updater GoNet Host Progs Rebooter.

Local Open Scope Z_scope.

(** ** [constants.go] *)
Definition VirtualIPAddrDHCPServer1 := "10.71.255.1".
Definition VirtualIPAddrDHCPServer2 := "10.71.255.2".
Definition VirtualIPAddrDHCPServer3 := "10.71.255.3".
Definition VirtualIPAddrDHCPServer4 := "10.71.255.4".
Definition VirtualIPAddrDHCPServer5 := "10.71.255.5".
Definition VirtualIPAddrActiveBootServer := "10.71.255.6".
Definition DHCPServerAddressList : list string :=
  [VirtualIPAddrDHCPServer1; VirtualIPAddrDHCPServer2; VirtualIPAddrDHCPServer3;
   VirtualIPAddrDHCPServer4; VirtualIPAddrDHCPServer5].

(** ** Selecting the address *)

(** [strings.CutPrefix]. *)
Definition CutPrefix (s prefix : string) : string * bool :=
  if HasPrefix s prefix then
    match slice_from (String.length prefix) s with Some t => (t, true) | None => (s, false) end
  else (s, false).

(** [slices.Sort] of integers; the result does not depend on the algorithm. *)
Definition SortInts (l : list Z) : list Z := merge_sort Z.le l.

(** [slices.BinarySearch] of integers. *)
Definition BinarySearch (x : list Z) (target : Z) : Z * bool :=
  let i := search_loop (length x) (λ h, negb (nth (Z.to_nat h) x 0 <? target)) 0 (Z.of_nat (length x)) in
  (i, (i <? Z.of_nat (length x)) && (nth (Z.to_nat i) x 0 =? target)).

Definition rack_of (name : string) : outcome Z :=
  match CutPrefix name "boot-" with
  | (_, false) => Err (ErrMsg ("failed to cut rack number from etcd member name: " +:+ name))
  | (s, true) =>
      match Atoi s with
      | Err err => Err (ErrMsg ("failed to convert rack number: name=" +:+ name +:+ ", " +:+ error_text err))
      | o => o
      end
  end.
Fixpoint rack_list (etcdMembers : list string) : outcome (list Z) :=
  match etcdMembers with
  | [] => Ok []
  | name :: etcdMembers => r ← rack_of name; rs ← rack_list etcdMembers; Ok (r :: rs)
  end.

Definition selectDHCPServerAddr (etcdMembers : list string) (rack : Z) : outcome string :=
  if rack <? 0 then Err (ErrMsg ("invalid rack number: " +:+ Itoa rack))
  else
    rackList ← rack_list etcdMembers;
    let '(n, found) := BinarySearch (SortInts rackList) rack in
    if found : bool then
      match DHCPServerAddressList !! Z.to_nat (Z.rem n (Z.of_nat (length DHCPServerAddressList))) with
      | Some addr => Ok addr
      | None => Panic "index out of range"
      end
    else Ok "".

(** ** Operations on the interface *)
Inductive op := opUp | opDown | opAdd (address : string) | opDelete (address : string) | opDeleteAll.
#[export] Instance op_eq_dec : EqDecision op.
Proof. solve_decision. Defined.

Definition op_String (o : op) : string :=
  match o with
  | opUp => "up"
  | opDown => "down"
  | opAdd address => "add:" +:+ address
  | opDelete address => "delete:" +:+ address
  | opDeleteAll => "deleteAll"
  end.

Definition decideOps (currentAddrs nextAddrs : list string) : list op :=
  match nextAddrs with
  | [] => [opDeleteAll; opDown]
  | _ =>
      let currentAddrMap : gset string := list_to_set currentAddrs in
      let nextAddrMap : gset string := list_to_set nextAddrs in
      [opUp] ++ map opAdd (filter (λ a, a ∉ currentAddrMap) nextAddrs)
             ++ map opDelete (filter (λ a, a ∉ nextAddrMap) currentAddrs)
  end.

Class NetworkInterface (W : Type) := {
  nif_Name : string;
  nif_Up : M W unit;
  nif_Down : M W unit;
  nif_ListAddrs : M W (list string);
  nif_AddAddr : string → M W unit;
  nif_DeleteAddr : string → M W unit;
  nif_DeleteAllAddr : M W unit;
}.

Definition wrap32 (z : Z) : Z := (z + 2 ^ 31) mod 2 ^ 32 - 2 ^ 31.

Section setter.
Context {W : Type} `{NetworkInterface W} `{EtcdAdmin W} `{Clock W}.

Definition run_op (o : op) : M W unit :=
  match o with
  | opUp => nif_Up
  | opDown => nif_Down
  | opAdd address => nif_AddAddr address
  | opDelete address => nif_DeleteAddr address
  | opDeleteAll => nif_DeleteAllAddr
  end.
Definition runOps (ops : list op) : M W unit :=
  for_each ops (λ o, wrapping ("failed to run operation " +:+ op_String o) (run_op o)).

(** The counter of errors is shared with the collector of metrics. *)
Definition count_error : M (W * Z) unit := n ← get_local; put_local (wrap32 (n + 1)).

Definition runOnce (rack : Z) : M (W * Z) unit :=
  resp ← on_world (wrapping "failed to get member list" etcd_MemberList);
  let members := map mb_Name resp in
  dhcpAddr ← on_world (wrapping "failed to select dhcp server address" (lift (selectDHCPServerAddr members rack)));
  let nextAddrs :=
    if negb (bool_decide (dhcpAddr = "")) then [dhcpAddr; VirtualIPAddrActiveBootServer] else [] in
  r ← attempt (on_world nif_ListAddrs);
  match r with
  | inl _ => count_error
  | inr currentAddrs =>
      r ← attempt (on_world (runOps (decideOps currentAddrs nextAddrs)));
      match r with
      | inl _ => count_error
      | inr _ => mret ()
      end
  end.

(** The loop ends with an error only; [fuel] bounds the rounds. *)
Fixpoint runIPSetter (fuel : nat) (interval : Duration) (rack : Z) : M (W * Z) unit :=
  match fuel with
  | O => blocked
  | S fuel =>
      _ ← runOnce rack;
      ticked ← on_world (clock_after interval);
      if (ticked : bool) then runIPSetter fuel interval rack else fail ErrCanceled
  end.

(** [errors.Is(err, context.Canceled)] *)
Fixpoint Is_Canceled (err : error) : bool :=
  match err with ErrCanceled => true | ErrWrap _ err => Is_Canceled err | _ => false end.

(** [main] after [subMain] has returned: the exit code. *)
Definition main_exit (subMain : outcome unit) : M W Z :=
  match subMain with
  | Err err =>
      if Is_Canceled err then mret 0
      else _ ← ignore_error nif_DeleteAllAddr; _ ← ignore_error nif_Down; mret 1
  | Ok _ => mret 0
  | Panic why => panic why
  | Running => blocked
  end.

(** ** [metrics.go] *)
Record samples := {
  sm_hostname : string;
  sm_addresses : list (string * string);
  sm_errors : Z;               (* added to the counter of errors *)
}.
Definition Collect (hostname : string) : M (W * Z) samples :=
  r ← attempt (on_world nif_ListAddrs);
  _ ← match r with inl _ => count_error | inr _ => mret () end;
  let addrs := match r with inl _ => [] | inr addrs => addrs end in
  delta ← get_local;
  _ ← put_local 0;
  mret {| sm_hostname := hostname; sm_addresses := map (pair nif_Name) addrs; sm_errors := delta |}.
End setter.

(** ** [netif.go] over netlink *)
Class Netlink (W : Type) := {
  Link : Type;
  LinkByName : string → M W Link;
  LinkSetUp : Link → M W unit;
  LinkSetDown : Link → M W unit;
  AddrList_v4 : Link → M W (list IPNet);
  nl_ParseAddr : string → outcome IPNet;
  AddrAdd : Link → IPNet → M W unit;
  AddrDel : Link → IPNet → M W unit;
}.

Section interface.
Context {W : Type} `{Netlink W}.
Variable linkName : string.

Definition find_link : M W Link := wrapping ("failed to find " +:+ linkName) (LinkByName linkName).
Definition Up : M W unit :=
  link ← find_link; wrapping ("failed to up " +:+ linkName) (LinkSetUp link).
Definition Down : M W unit :=
  link ← find_link; wrapping ("failed to down " +:+ linkName) (LinkSetDown link).
Definition ListAddrs : M W (list string) :=
  link ← find_link;
  addrList ← wrapping ("failed to list addresses on " +:+ linkName) (AddrList_v4 link);
  mret (Sort (map (λ a, IP_String (ipn_IP a)) addrList)).
Definition AddAddr (addr : string) : M W unit :=
  a ← lift (nl_ParseAddr (addr +:+ "/32"));
  link ← find_link;
  wrapping ("failed to add " +:+ IP_String (ipn_IP a) +:+ " to " +:+ linkName) (AddrAdd link a).
Definition delete_addr (link : Link) (a : IPNet) : M W unit :=
  wrapping ("failed to delete " +:+ IP_String (ipn_IP a) +:+ " from " +:+ linkName) (AddrDel link a).
Definition DeleteAddr (addr : string) : M W unit :=
  a ← lift (nl_ParseAddr (addr +:+ "/32")); link ← find_link; delete_addr link a.
Definition DeleteAllAddr : M W unit :=
  link ← LinkByName linkName;
  addrList ← wrapping ("failed to list addresses on " +:+ linkName) (AddrList_v4 link);
  for_each addrList (delete_addr link).

Definition networkInterface : NetworkInterface W := {|
  nif_Name := linkName;
  nif_Up := Up;
  nif_Down := Down;
  nif_ListAddrs := ListAddrs;
  nif_AddAddr := AddAddr;
  nif_DeleteAddr := DeleteAddr;
  nif_DeleteAllAddr := DeleteAllAddr;
|}.
End interface.
