(* ===== verification/BootIPProofs.v ===== *)
(** * boot-ip-setter: which address a boot server gets, and that it gets it *)
From S2P Require Import Prelude GoStr GoTime Json Types Etcd Worlds Storage Watch Worker WorkerProofs.
From S2P Require Import Updater GoNet Host Progs Rebooter RebooterGroups BootIP.

Local Open Scope Z_scope.

(** ** The binary search *)

(** How many racks come before [t]. *)
Definition rank (l : list Z) (t : Z) : nat := length (filter (λ x, x < t) l).

#[export] Instance rank_Proper : Proper ((≡ₚ) ==> eq ==> eq) rank.
Proof. intros l l' Hl t ? <-. unfold rank. by rewrite Hl. Qed.

Lemma rank_app l l' t : rank (l ++ l') t = (rank l t + rank l' t)%nat.
Proof. unfold rank. by rewrite filter_app, length_app. Qed.
Lemma rank_all l t : (∀ x, x ∈ l → x < t) → rank l t = length l.
Proof.
  unfold rank. induction l as [|x l IH]; intros H; [done|].
  rewrite filter_cons_True by (apply H; left). simpl. rewrite IH; [done|]. intros y Hy. apply H. by right.
Qed.
Lemma rank_none l t : (∀ x, x ∈ l → ¬ x < t) → rank l t = 0%nat.
Proof. intros H. unfold rank. by rewrite filter_all_false. Qed.
(** The racks of a duplicate-free list have different ranks. *)
Lemma rank_lt l x y : x ∈ l → x < y → (rank l x < rank l y)%nat.
Proof.
  intros [l1 [l2 ->]]%list_elem_of_split Hxy. rewrite (rank_app l1), (rank_app l1).
  assert (∀ l, rank l x ≤ rank l y)%nat as Hle.
  { clear l1 l2. intros l. unfold rank. induction l as [|z l IH]; [done|].
    rewrite !filter_cons. repeat case_decide; simpl; lia. }
  pose proof (Hle l1). pose proof (Hle l2). unfold rank in *.
  rewrite (filter_cons_False _ x) by lia. rewrite (filter_cons_True _ x) by lia. simpl. lia.
Qed.
Lemma rank_bound l x : x ∈ l → (rank l x < length l)%nat.
Proof.
  intros [l1 [l2 ->]]%list_elem_of_split. unfold rank.
  rewrite filter_app, filter_cons_False by lia. rewrite !length_app. simpl.
  pose proof (length_filter (λ z, z < x) l1). pose proof (length_filter (λ z, z < x) l2). lia.
Qed.

Lemma sorted_le_nth (l : list Z) i j :
  StronglySorted Z.le l → (i ≤ j < length l)%nat → nth i l 0 <= nth j l 0.
Proof.
  intros Hs. revert i j. induction Hs as [|x l Hs IH Hall]; intros i j Hij; simpl in *; [lia|].
  destruct i as [|i], j as [|j]; try lia.
  - rewrite Forall_forall in Hall. apply Hall. apply list_elem_of_In, nth_In. lia.
  - apply IH. lia.
Qed.

Lemma rank_split n l t :
  (n ≤ length l)%nat → (∀ k, (k < n)%nat → nth k l 0 < t) → (∀ k, (n ≤ k < length l)%nat → t <= nth k l 0) →
  rank l t = n.
Proof.
  intros Hn Hlo Hhi. rewrite <-(take_drop n l), rank_app, rank_all, rank_none, length_take; [lia| |].
  - intros x [k Hx]%list_elem_of_lookup. rewrite lookup_drop in Hx. pose proof (lookup_lt_Some _ _ _ Hx).
    apply (nth_lookup_Some _ _ 0) in Hx. specialize (Hhi (n + k)%nat). lia.
  - intros x (k & Hx & Hk)%elem_of_take. apply (nth_lookup_Some _ _ 0) in Hx. specialize (Hlo k). lia.
Qed.

Lemma BinarySearch_sorted l t :
  StronglySorted Z.le l → BinarySearch l t = (Z.of_nat (rank l t), bool_decide (t ∈ l)).
Proof.
  intros Hs. unfold BinarySearch.
  destruct (search_loop_spec (length l) (λ h, negb (nth (Z.to_nat h) l 0 <? t)) 0 (Z.of_nat (length l)))
    as (Hr & Hf & Ht); [lia|lia| |].
  { intros i j Hij Hj Hi%negb_true_iff%Z.ltb_ge. apply negb_true_iff, Z.ltb_ge.
    pose proof (sorted_le_nth l (Z.to_nat i) (Z.to_nat j) Hs). lia. }
  set (r := search_loop _ _ _ _) in *. clearbody r.
  assert (∀ k, (k < Z.to_nat r)%nat → nth k l 0 < t) as Hlo.
  { intros k Hk. specialize (Hf (Z.of_nat k)). rewrite Nat2Z.id in Hf.
    apply Z.ltb_lt, negb_false_iff, Hf. lia. }
  assert (∀ k, (Z.to_nat r ≤ k < length l)%nat → t <= nth k l 0) as Hhi.
  { intros k Hk. specialize (Ht (Z.of_nat k)). rewrite Nat2Z.id in Ht.
    apply Z.ltb_ge, negb_true_iff, Ht. lia. }
  rewrite (rank_split (Z.to_nat r) l t) by (done || lia). f_equal; [lia|].
  apply Bool.eq_iff_eq_true. rewrite bool_decide_eq_true, andb_true_iff, Z.ltb_lt, Z.eqb_eq. split.
  - intros [Hlt <-]. apply list_elem_of_In, nth_In. lia.
  - intros [k Hk]%list_elem_of_lookup. pose proof (lookup_lt_Some _ _ _ Hk) as Hlen.
    apply (nth_lookup_Some _ _ 0) in Hk. destruct (decide (k < Z.to_nat r)%nat) as [Hkr|Hkr].
    + specialize (Hlo k Hkr). lia.
    + pose proof (sorted_le_nth l (Z.to_nat r) k Hs). specialize (Hhi (Z.to_nat r)). lia.
Qed.

(** ** The address of a rack *)
Lemma SortInts_Permutation l : SortInts l ≡ₚ l.
Proof. apply merge_sort_Permutation. Qed.
Lemma SortInts_sorted l : StronglySorted Z.le (SortInts l).
Proof. apply StronglySorted_merge_sort; [intros ???; lia|intros ??; lia]. Qed.

(** What a rack is to get: the DHCP server address of its position among the racks. *)
Definition dhcp_address (racks : list Z) (rack : Z) : string :=
  if bool_decide (rack ∈ racks) then nth (rank racks rack mod 5) DHCPServerAddressList "" else "".

#[export] Instance dhcp_address_Proper : Proper ((≡ₚ) ==> eq ==> eq) dhcp_address.
Proof.
  intros l l' Hl t ? <-. unfold dhcp_address. rewrite (rank_Proper _ _ Hl t t eq_refl).
  erewrite bool_decide_ext; [done|]. by rewrite Hl.
Qed.

Lemma select_rank members racks rack :
  0 <= rack → rack_list members = Ok racks →
  selectDHCPServerAddr members rack = Ok (dhcp_address racks rack).
Proof.
  intros Hrack Hl. unfold selectDHCPServerAddr. rewrite Hl.
  destruct (Z.ltb_spec rack 0); [lia|]. cbn [mbind outcome_bind].
  rewrite (BinarySearch_sorted (SortInts racks)) by apply SortInts_sorted.
  rewrite <-(dhcp_address_Proper _ _ (SortInts_Permutation racks) rack rack eq_refl). unfold dhcp_address. case_bool_decide; [|done].
  rewrite Z.rem_mod_nonneg, <-Nat2Z.inj_mod, Nat2Z.id by (simpl; lia).
  change (length DHCPServerAddressList) with 5%nat.
  pose proof (Nat.mod_upper_bound (rank (SortInts racks) rack) 5).
  destruct (rank (SortInts racks) rack mod 5)%nat as [|[|[|[|[|n]]]]]; try done. lia.
Qed.

Definition member_name (rack : Z) : string := "boot-" +:+ Itoa rack.
Lemma rack_of_name rack : in_int64 rack → rack_of (member_name rack) = Ok rack.
Proof.
  intros Hr. unfold rack_of, CutPrefix, member_name. rewrite HasPrefix_app.
  rewrite (slice_from_app "boot-"), Atoi_Itoa by done. done.
Qed.
Lemma rack_list_names racks : Forall in_int64 racks → rack_list (map member_name racks) = Ok racks.
Proof.
  induction 1 as [|r racks Hr _ IH]; [done|]. cbn [map rack_list]. by rewrite rack_of_name, IH.
Qed.
Lemma rack_list_Permutation members members' racks :
  members ≡ₚ members' → rack_list members = Ok racks → ∃ racks', rack_list members' = Ok racks' ∧ racks ≡ₚ racks'.
Proof.
  intros Hp. revert racks. induction Hp as [|m l l' _ IH|m m' l|l l' l'' _ IH1 _ IH2]; intros racks; cbn [rack_list].
  - intros [= <-]. by exists [].
  - destruct (rack_of m) as [r| | |]; cbn; try done. destruct (rack_list l) as [rs| | |]; cbn; try done.
    intros [= <-]. destruct (IH rs eq_refl) as (rs' & -> & Hrs). exists (r :: rs'). by rewrite Hrs.
  - destruct (rack_of m), (rack_of m'); cbn; try done; destruct (rack_list l); cbn; try done.
    intros [= <-]. eexists. split; [done|]. apply Permutation_swap.
  - intros (rs' & Hrs' & Hp1)%IH1. destruct (IH2 rs' Hrs') as (rs'' & ? & Hp2). exists rs''. split; [done|]. by etrans.
Qed.

(** The binary search over the sorted racks gives each rack the DHCP server address
    of its position among the members, whatever the order the members are listed in,
    and none to a rack that is not a member. *)
Theorem selectDHCPServerAddr_rank members members' racks rack :
  0 <= rack → members ≡ₚ members' → rack_list members = Ok racks →
  selectDHCPServerAddr members' rack =
    Ok (if bool_decide (rack ∈ racks) then nth (rank racks rack mod 5) DHCPServerAddressList "" else "").
Proof.
  intros Hrack Hp Hl. destruct (rack_list_Permutation _ _ _ Hp Hl) as (racks' & Hl' & Hr).
  rewrite (select_rank _ _ _ Hrack Hl'). f_equal. symmetry. by apply (dhcp_address_Proper _ _ Hr).
Qed.

Lemma dhcp_address_inj racks r1 r2 :
  (length racks ≤ 5)%nat → r1 ∈ racks → r2 ∈ racks →
  dhcp_address racks r1 = dhcp_address racks r2 → r1 = r2.
Proof.
  intros Hlen H1 H2. unfold dhcp_address. rewrite !bool_decide_eq_true_2 by done.
  pose proof (rank_bound _ _ H1) as Hb1. pose proof (rank_bound _ _ H2) as Hb2.
  rewrite !Nat.mod_small by lia. intros E.
  assert (rank racks r1 = rank racks r2) as Er.
  { destruct (rank racks r1) as [|[|[|[|[|?]]]]], (rank racks r2) as [|[|[|[|[|?]]]]]; try done; lia. }
  destruct (Z.lt_trichotomy r1 r2) as [Hlt|[->|Hlt]]; [|done|].
  - pose proof (rank_lt racks r1 r2 H1 Hlt). lia.
  - pose proof (rank_lt racks r2 r1 H2 Hlt). lia.
Qed.

(** With at most five boot servers, no two of them take the same DHCP server
    address, and none takes the address of active boot servers for it, even if etcd
    lists the members to them in different orders. *)
Theorem dhcp_addresses_distinct racks members members' r1 r2 addr :
  (length racks ≤ 5)%nat → Forall (λ r, 0 <= r ∧ in_int64 r) racks →
  members ≡ₚ map member_name racks → members' ≡ₚ map member_name racks → r1 ∈ racks → r2 ∈ racks →
  selectDHCPServerAddr members r1 = Ok addr → selectDHCPServerAddr members' r2 = Ok addr →
  r1 = r2 ∧ addr ∈ DHCPServerAddressList ∧ addr ≠ VirtualIPAddrActiveBootServer.
Proof.
  intros Hlen Hracks Hp Hp' H1 H2. rewrite Forall_forall in Hracks.
  assert (∀ ms r, ms ≡ₚ map member_name racks → r ∈ racks →
            selectDHCPServerAddr ms r = Ok (dhcp_address racks r)) as Hsel.
  { intros ms r Hms Hr. destruct (rack_list_Permutation (map member_name racks) ms racks) as (rs & Hrs & Hpr); [done| |].
    { apply rack_list_names, Forall_forall. intros ??. by apply Hracks. }
    rewrite (select_rank ms rs r); [|by apply Hracks|done]. f_equal. symmetry. by apply (dhcp_address_Proper _ _ Hpr). }
  rewrite (Hsel members r1), (Hsel members' r2) by done. intros [= <-] [= E%eq_sym].
  split; [by eapply dhcp_address_inj|]. assert (dhcp_address racks r1 ∈ DHCPServerAddressList) as Hin.
  { unfold dhcp_address. rewrite bool_decide_eq_true_2 by done. apply list_elem_of_In, nth_In.
    by apply (Nat.mod_upper_bound _ 5). }
  split; [done|]. intros Heq. rewrite Heq in Hin.
  repeat (apply elem_of_cons in Hin as [Hin|Hin]; [discriminate Hin|]). by apply not_elem_of_nil in Hin.
Qed.
