(* ===== verification/BootIPRun.v ===== *)
(** * boot-ip-setter: rounds, against the contract of the interface *)
From S2P Require Import Prelude GoStr GoTime Json Types Etcd Worlds Storage Watch Worker.
From S2P Require Import Updater GoNet Host Progs Rebooter RebooterGroups BootIP BootIPProofs.

Local Open Scope Z_scope.

(** The text of an IPv4 address. *)
Definition v4_text (a : string) : Prop := ∃ v, 0 <= v < 2 ^ 32 ∧ a = dotted (v4_bytes v).

(** A call returns, and its results satisfy [Q]; a failed call leaves [E]. *)
Definition returns {A} (r : outcome A) (Q : A → Prop) (E : Prop) : Prop :=
  match r with Ok a => Q a | Err _ => E | _ => False end.

Lemma returns_weaken {A} (r : outcome A) Q E : returns r Q E → returns r (λ _, True) True.
Proof. by destruct r. Qed.
Lemma ignore_eq {W A} (m : M W A) w w' r :
  m w = (w', r) → returns r (λ _, True) True → ignore_error m w = (w', Ok ()).
Proof. intros E Hr. unfold ignore_error. munfold. rewrite E. by destruct r. Qed.

Record Iface := { if_up : bool; if_addrs : gset string }.

(** What the program relies on: [nif_ok] holds of the worlds in which the interface
    works as described, its operations stay in them, and [nif] is its state. *)
Class NetifLaws (W : Type) `{NetworkInterface W} (nif_ok : W → Prop) (nif : W → Iface) : Prop := {
  addrs_v4 w a : nif_ok w → a ∈ if_addrs (nif w) → v4_text a;
  Up_law w w' r : nif_ok w → nif_Up w = (w', r) → nif_ok w' ∧
    returns r (λ _, nif w' = {| if_up := true; if_addrs := if_addrs (nif w) |}) (nif w' = nif w);
  Down_law w w' r : nif_ok w → nif_Down w = (w', r) → nif_ok w' ∧
    returns r (λ _, nif w' = {| if_up := false; if_addrs := if_addrs (nif w) |}) (nif w' = nif w);
  ListAddrs_law w w' r : nif_ok w → nif_ListAddrs w = (w', r) → nif_ok w' ∧ nif w' = nif w ∧
    returns r (λ l, list_to_set l = if_addrs (nif w)) True;
  AddAddr_law a w w' r : nif_ok w → v4_text a → nif_AddAddr a w = (w', r) → nif_ok w' ∧
    returns r (λ _, nif w' = {| if_up := if_up (nif w); if_addrs := {[a]} ∪ if_addrs (nif w) |}) (nif w' = nif w);
  DeleteAddr_law a w w' r : nif_ok w → v4_text a → nif_DeleteAddr a w = (w', r) → nif_ok w' ∧
    returns r (λ _, nif w' = {| if_up := if_up (nif w); if_addrs := if_addrs (nif w) ∖ {[a]} |}) (nif w' = nif w);
  DeleteAllAddr_law w w' r : nif_ok w → nif_DeleteAllAddr w = (w', r) → nif_ok w' ∧
    if_up (nif w') = if_up (nif w) ∧ if_addrs (nif w') ⊆ if_addrs (nif w) ∧
    returns r (λ _, if_addrs (nif w') = ∅) True;
}.

(** What an operation makes of the interface. *)
Definition apply_op (o : op) (i : Iface) : Iface :=
  match o with
  | opUp => {| if_up := true; if_addrs := if_addrs i |}
  | opDown => {| if_up := false; if_addrs := if_addrs i |}
  | opAdd a => {| if_up := if_up i; if_addrs := {[a]} ∪ if_addrs i |}
  | opDelete a => {| if_up := if_up i; if_addrs := if_addrs i ∖ {[a]} |}
  | opDeleteAll => {| if_up := if_up i; if_addrs := ∅ |}
  end.
Definition apply_ops (ops : list op) (i : Iface) : Iface := fold_left (λ i o, apply_op o i) ops i.

Definition op_address (o : op) : option string :=
  match o with opAdd a | opDelete a => Some a | _ => None end.
Definition op_valid (o : op) : Prop := match op_address o with Some a => v4_text a | None => True end.

(** Addresses that an operation can add, and those it leaves alone. *)
Definition adds_within (s : gset string) (o : op) : Prop := match o with opAdd a => a ∈ s | _ => True end.
Definition keeps (s : gset string) (o : op) : Prop :=
  match o with opDelete a => a ∉ s | opDeleteAll => s = ∅ | _ => True end.
(** The addresses after: no others than [s] are new, and none of [s] is lost. *)
Definition bounded (s : gset string) (i i' : Iface) : Prop :=
  if_addrs i' ⊆ if_addrs i ∪ s ∧ if_addrs i ∩ s ⊆ if_addrs i'.

Lemma bounded_refl s i : bounded s i i.
Proof. unfold bounded. set_solver. Qed.
Lemma bounded_trans s i i1 i2 : bounded s i i1 → bounded s i1 i2 → bounded s i i2.
Proof. unfold bounded. set_solver. Qed.

(** ** What [decideOps] decides *)
Definition wanted (next : list string) : Iface :=
  {| if_up := negb (bool_decide (next = [])); if_addrs := list_to_set next |}.

Lemma apply_op_adds l i :
  apply_ops (map opAdd l) i = {| if_up := if_up i; if_addrs := list_to_set l ∪ if_addrs i |}.
Proof.
  revert i. induction l as [|a l IH]; intros i; simpl.
  - destruct i. simpl. f_equal. set_solver.
  - unfold apply_ops in *. simpl. rewrite IH. simpl. f_equal. set_solver.
Qed.
Lemma apply_op_deletes l i :
  apply_ops (map opDelete l) i = {| if_up := if_up i; if_addrs := if_addrs i ∖ list_to_set l |}.
Proof.
  revert i. induction l as [|a l IH]; intros i; simpl.
  - destruct i. simpl. f_equal. set_solver.
  - unfold apply_ops in *. simpl. rewrite IH. simpl. f_equal. set_solver.
Qed.

Lemma decideOps_wanted current next i :
  list_to_set current = if_addrs i → apply_ops (decideOps current next) i = wanted next.
Proof.
  intros Hc. destruct next as [|a next]; [done|]. unfold decideOps.
  set (l := a :: next). change (apply_ops ([opUp] ++ ?x ++ ?y) i) with (apply_ops (x ++ y) (apply_op opUp i)).
  unfold apply_ops. rewrite fold_left_app.
  change (fold_left (λ i o, apply_op o i) ?x ?y) with (apply_ops x y).
  rewrite apply_op_adds, apply_op_deletes. unfold wanted. rewrite bool_decide_eq_false_2 by done.
  cbn [if_up if_addrs apply_op negb]. f_equal. rewrite <-Hc.
  apply set_eq. intros x. rewrite elem_of_difference, elem_of_union, !elem_of_list_to_set, !list_elem_of_filter, !elem_of_list_to_set.
  destruct (decide (x ∈ l)), (decide (x ∈ current)); tauto.
Qed.

Lemma decideOps_Forall (P : op → Prop) current next :
  (next = [] → P opDeleteAll ∧ P opDown) → P opUp → (∀ a, a ∈ next → P (opAdd a)) →
  (∀ a, a ∈ current → a ∉ next → P (opDelete a)) → Forall P (decideOps current next).
Proof.
  intros Hnil Hup Hadd Hdel. destruct next as [|a next].
  { destruct Hnil; [done|]. by repeat constructor. }
  unfold decideOps. apply Forall_cons. split; [done|]. apply Forall_app.
  split; apply Forall_forall; intros o (x & -> & [Hx Hin]%list_elem_of_filter)%list_elem_of_fmap.
  - by apply Hadd.
  - apply Hdel; [done|]. by rewrite elem_of_list_to_set in Hx.
Qed.

Definition next_addrs (addr : string) : list string :=
  if negb (bool_decide (addr = "")) then [addr; VirtualIPAddrActiveBootServer] else [].

Lemma v4_text_const a v : bool_decide (0 <= v < 2 ^ 32 ∧ a = dotted (v4_bytes v)) = true → v4_text a.
Proof. intros H%bool_decide_eq_true. by exists v. Qed.
Lemma select_text members rack addr :
  selectDHCPServerAddr members rack = Ok addr → Forall v4_text (next_addrs addr).
Proof.
  assert (v4_text VirtualIPAddrActiveBootServer) as Hactive by (by apply (v4_text_const _ 172490502)).
  assert (Forall v4_text DHCPServerAddressList) as Hlist.
  { repeat constructor; [apply (v4_text_const _ 172490497)|apply (v4_text_const _ 172490498)
      |apply (v4_text_const _ 172490499)|apply (v4_text_const _ 172490500)|apply (v4_text_const _ 172490501)]; done. }
  unfold selectDHCPServerAddr, next_addrs. destruct (rack <? 0); [done|].
  destruct (rack_list members) as [racks|e|y|]; cbn [mbind outcome_bind]; try done.
  destruct (BinarySearch (SortInts racks) rack) as [i []]; [|by intros [= <-]].
  destruct (DHCPServerAddressList !! _) as [a|] eqn:E; [|done]. intros [= <-].
  apply (Forall_lookup_1 _ _ _ _ Hlist) in E. case_bool_decide; [constructor|by repeat constructor].
Qed.

Section rounds.
Context {W : Type} `{NetworkInterface W} `{EtcdAdmin W} `{Clock W}.
Context (nif_ok : W → Prop) (nif : W → Iface) `{!NetifLaws W nif_ok nif}.

Lemma run_op_spec o w w' r :
  nif_ok w → op_valid o → run_op o w = (w', r) → nif_ok w' ∧
  returns r (λ _, nif w' = apply_op o (nif w)) True ∧
  ∀ s, adds_within s o → keeps s o → bounded s (nif w) (nif w').
Proof.
  intros Hok Hv E. destruct o as [| |a|a|]; simpl in *.
  - apply Up_law in E as [? E]; [|done]. split_and!; [done|by destruct r|].
    intros s _ _. unfold bounded. destruct r; simpl in E; try done; rewrite E; set_solver.
  - apply Down_law in E as [? E]; [|done]. split_and!; [done|by destruct r|].
    intros s _ _. unfold bounded. destruct r; simpl in E; try done; rewrite E; set_solver.
  - apply AddAddr_law in E as [? E]; [|done..]. split_and!; [done|by destruct r|].
    intros s ? _. unfold bounded. destruct r; simpl in E; try done; rewrite E; set_solver.
  - apply DeleteAddr_law in E as [? E]; [|done..]. split_and!; [done|by destruct r|].
    intros s _ ?. unfold bounded. destruct r; simpl in E; try done; rewrite E; set_solver.
  - apply DeleteAllAddr_law in E as (? & Hup & Hsub & E); [|done]. split_and!; [done| |].
    + destruct r; simpl in *; try done. destruct (nif w'); simpl in *. by subst.
    + intros s _ ->. unfold bounded. set_solver.
Qed.

Lemma wrapping_inv {V A} msg (m : M V A) w w' r :
  wrapping msg m w = (w', r) → ∃ r0, m w = (w', r0) ∧
  match r0 with Err e => r = Err (ErrWrap msg e) | _ => r = r0 end.
Proof.
  unfold wrapping. munfold. destruct (m w) as [w1 r0]. intros E. exists r0.
  destruct r0; injection E as <- <-; done.
Qed.

Lemma runOps_spec ops w w' r :
  nif_ok w → Forall op_valid ops → runOps ops w = (w', r) → nif_ok w' ∧
  returns r (λ _, nif w' = apply_ops ops (nif w)) True ∧
  ∀ s, Forall (adds_within s) ops → Forall (keeps s) ops → bounded s (nif w) (nif w').
Proof.
  unfold runOps. revert w. induction ops as [|o ops IH]; intros w Hok Hv; simpl.
  { intros [= <- <-]. split_and!; [done|done|]. intros. apply bounded_refl. }
  apply Forall_cons in Hv as [Ho Hv]. unfold mbind, M_bind.
  destruct (wrapping _ (run_op o) w) as [w1 r1] eqn:E1.
  apply wrapping_inv in E1 as (r0 & E1 & Hr0). apply run_op_spec in E1 as (Hok1 & Hret & Hb); [|done..].
  destruct r0; simpl in Hret; try done; subst r1.
  - intros (Hok' & Hret' & Hb')%IH; [|done..]. split; [done|]. split; [by rewrite <-Hret|].
    intros s [Ha Hs]%Forall_cons [Hk Hks]%Forall_cons. eapply bounded_trans; eauto.
  - intros [= <- <-]. split_and!; [done|done|]. intros s [? _]%Forall_cons [? _]%Forall_cons. eauto.
Qed.

(** ** A round *)
Context (MemberList_law : ∀ w w' r, nif_ok w → etcd_MemberList w = (w', r) → nif_ok w' ∧ nif w' = nif w).

Lemma count_error_inv (w w' : W) n n' r :
  count_error (w, n) = ((w', n'), r) → w' = w ∧ n' = wrap32 (n + 1) ∧ r = Ok tt.
Proof. unfold count_error. munfold. unfold get_local, put_local. simpl. by intros [= <- <- <-]. Qed.

(** The part of a round after the address has been selected. *)
Lemma round_spec (addr : string) w n w' n' r :
  nif_ok w → Forall v4_text (next_addrs addr) →
  (r ← attempt (on_world nif_ListAddrs);
   match r with
   | inl _ => count_error
   | inr currentAddrs =>
       r ← attempt (on_world (runOps (decideOps currentAddrs (next_addrs addr))));
       match r with inl _ => count_error | inr _ => mret () end
   end) (w, n) = ((w', n'), r) →
  nif_ok w' ∧ r = Ok tt ∧ bounded (list_to_set (next_addrs addr)) (nif w) (nif w') ∧
  (n' = wrap32 (n + 1) ∨ n' = n ∧ nif w' = wanted (next_addrs addr)).
Proof.
  intros Hok Hv. unfold mbind at 1, M_bind at 1, attempt at 1, on_world at 1. simpl.
  destruct (nif_ListAddrs w) as [w1 r1] eqn:E1. apply (ListAddrs_law (nif_ok := nif_ok) (nif := nif)) in E1 as (Hok1 & Hn1 & Hr1); [|done].
  destruct r1 as [current|e|y|]; simpl in Hr1; try done.
  2: { intros (-> & -> & ->)%count_error_inv. rewrite Hn1. split_and!; [done|done|apply bounded_refl|by left]. }
  unfold mbind at 1, M_bind at 1, attempt at 1, on_world at 1. simpl.
  destruct (runOps _ w1) as [w2 r2] eqn:E2. apply runOps_spec in E2 as (Hok2 & Hr2 & Hb); [|done|].
  2: { apply decideOps_Forall; [done|done|intros a Ha|intros a Ha _]; simpl.
       - rewrite Forall_forall in Hv. by apply Hv.
       - apply (addrs_v4 w); [done|]. rewrite <-Hr1. by apply elem_of_list_to_set. }
  assert (bounded (list_to_set (next_addrs addr)) (nif w) (nif w2)) as Hb2.
  { rewrite <-Hn1. apply Hb; apply decideOps_Forall; simpl; try done.
    - intros a Ha. by apply elem_of_list_to_set.
    - by intros ->.
    - intros a _ Ha. by rewrite elem_of_list_to_set. }
  destruct r2; simpl in Hr2; try done.
  - intros [= <- <- <-]. split_and!; [done|done|done|]. right. split; [done|].
    rewrite Hr2. apply decideOps_wanted. by rewrite Hn1, Hr1.
  - intros (-> & -> & ->)%count_error_inv. split_and!; [done|done|done|by left].
Qed.

Lemma runOnce_inv rack w n w' n' r :
  nif_ok w → runOnce rack (w, n) = ((w', n'), r) →
  nif_ok w' ∧
  ((∀ a, r ≠ Ok a) ∧ nif w' = nif w ∧ n' = n ∨
   ∃ w1 members addr, etcd_MemberList w = (w1, Ok members) ∧
     selectDHCPServerAddr (map mb_Name members) rack = Ok addr ∧ r = Ok tt ∧
     bounded (list_to_set (next_addrs addr)) (nif w) (nif w') ∧
     (n' = wrap32 (n + 1) ∨ n' = n ∧ nif w' = wanted (next_addrs addr))).
Proof.
  intros Hok. unfold runOnce. unfold mbind at 1, M_bind at 1, on_world at 1. simpl.
  destruct (wrapping _ etcd_MemberList w) as [w1 r1] eqn:E1. apply wrapping_inv in E1 as (r0 & E0 & Hr0).
  destruct (MemberList_law _ _ _ Hok E0) as [Hok1 Hn1].
  destruct r1 as [members|e|y|]; [|intros [= <- <- <-]; split; [done|by left]..].
  destruct r0 as [members'| | |]; try discriminate Hr0. injection Hr0 as <-.
  unfold mbind at 1, M_bind at 1, on_world at 1. simpl.
  destruct (wrapping _ (lift _) w1) as [w2 r2] eqn:E2. apply wrapping_inv in E2 as (r0 & [= <- <-] & Hr0).
  destruct r2 as [addr|e|y|]; [|intros [= <- <- <-]; split; [done|by left]..].
  assert (selectDHCPServerAddr (map mb_Name members) rack = Ok addr) as Hsel.
  { by destruct (selectDHCPServerAddr _ _). }
  intros E. apply (round_spec addr) in E as (Hok' & -> & Hb & Hn); [|done|by eapply select_text].
  split; [done|]. right. exists w1, members, addr. by rewrite <-Hn1.
Qed.

(** A round in which no error is counted leaves the interface up with exactly the
    DHCP server address of this rack and the address of active boot servers, or down
    and without addresses if this rack is not a member of etcd. *)
Theorem runOnce_converges rack w n w' n' :
  nif_ok w → runOnce rack (w, n) = ((w', n'), Ok tt) → n' = n →
  ∃ w1 members addr, etcd_MemberList w = (w1, Ok members) ∧
    selectDHCPServerAddr (map mb_Name members) rack = Ok addr ∧
    nif w' = if bool_decide (addr = "") then {| if_up := false; if_addrs := ∅ |}
             else {| if_up := true; if_addrs := {[addr; VirtualIPAddrActiveBootServer]} |}.
Proof.
  intros Hok E ->. apply runOnce_inv in E as [_ [(Hr & _)|(w1 & ms & addr & ? & ? & _ & _ & Hn)]];
    [by destruct (Hr tt)| |done].
  exists w1, ms, addr. split_and!; [done|done|]. destruct Hn as [Hn|[_ ->]].
  - exfalso. clear -Hn. unfold wrap32 in Hn. Z.to_euclidean_division_equations. lia.
  - unfold wanted, next_addrs. destruct (decide (addr = "")) as [->|Hne]; [done|].
    rewrite (bool_decide_eq_false_2 (addr = "")) by done. simpl. f_equal; set_solver.
Qed.

(** Whatever fails in a round, no address but the two that this rack is to have is
    added to the interface, and neither of them is taken away from it; a round that
    cannot tell which addresses those are changes nothing. *)
Theorem runOnce_bounded rack w n w' n' r :
  nif_ok w → runOnce rack (w, n) = ((w', n'), r) →
  nif_ok w' ∧
  (nif w' = nif w ∨
   ∃ w1 members addr, etcd_MemberList w = (w1, Ok members) ∧
     selectDHCPServerAddr (map mb_Name members) rack = Ok addr ∧
     if_addrs (nif w') ⊆ if_addrs (nif w) ∪ list_to_set (next_addrs addr) ∧
     if_addrs (nif w) ∩ list_to_set (next_addrs addr) ⊆ if_addrs (nif w')).
Proof.
  intros Hok E. apply runOnce_inv in E as [? [(_ & ? & _)|(w1 & ms & addr & ? & ? & _ & [? ?] & _)]]; [| |done].
  - by split; [|left].
  - split; [done|]. right. by exists w1, ms, addr.
Qed.

(** When the program ends abnormally and the kernel does what it is told, the
    interface is left down and without addresses; an ending on request leaves it as
    it is. *)
Theorem main_exit_cleans err w w' code :
  nif_ok w → main_exit (Err err) w = (w', Ok code) →
  nif_ok w' ∧
  (code = 0 ∧ w' = w ∧ Is_Canceled err = true ∨
   code = 1 ∧ Is_Canceled err = false ∧
   ∃ w1 r1 r2, nif_DeleteAllAddr w = (w1, r1) ∧ nif_Down w1 = (w', r2) ∧
     (r1 = Ok tt → r2 = Ok tt → nif w' = {| if_up := false; if_addrs := ∅ |})).
Proof.
  intros Hok. unfold main_exit. destruct (Is_Canceled err); [intros [= <- <-]; by auto|].
  destruct (nif_DeleteAllAddr w) as [w1 r1] eqn:E1.
  destruct (DeleteAllAddr_law (nif_ok := nif_ok) (nif := nif) _ _ _ Hok E1) as (Hok1 & _ & _ & Hr1).
  destruct (nif_Down w1) as [w2 r2] eqn:E2.
  destruct (Down_law (nif_ok := nif_ok) (nif := nif) _ _ _ Hok1 E2) as [Hok2 Hr2].
  rewrite (bind_eq _ _ _ _ _ (ignore_eq _ _ _ _ E1 (returns_weaken _ _ _ Hr1))).
  rewrite (bind_eq _ _ _ _ _ (ignore_eq _ _ _ _ E2 (returns_weaken _ _ _ Hr2))).
  intros [= <- <-]. split; [done|]. right. split_and!; [done|done|]. exists w1, r1, r2. split_and!; [done|done|].
  intros -> ->. simpl in *. by rewrite Hr2, Hr1.
Qed.
End rounds.
