(* ===== verification/BootIPNetlink.v ===== *)
(** * boot-ip-setter: the interface over netlink

    [networkInterface] keeps the contract that the rounds rely on, given what the kernel
    documents of its links; with it the rounds hold of the addresses in the kernel. *)
From S2P Require Import Prelude GoStr GoTime Json Types Etcd Worlds Storage Watch Worker.
From S2P Require Import Updater GoNet Host Progs Rebooter RebooterGroups BootIP BootIPProofs BootIPRun.

Local Open Scope Z_scope.

(** An address in the kernel: its value and the length of its prefix. *)
Definition KAddr : Type := Z * Z.
Record KDev := { kd_up : bool; kd_addrs : gset KAddr }.
Definition denotes (n : IPNet) (k : KAddr) : Prop :=
  is_v4 (ipn_IP n) k.1 ∧ simpleMaskLength (ipn_Mask n) 0 = k.2.

(** The link of the name that the program was given. *)
Class NetlinkLaws (W : Type) `{Netlink W} (linkName : string) (dev : W → KDev) (is_link : Link → Prop) : Prop := {
  LinkByName_law w w' r : LinkByName linkName w = (w', r) → dev w' = dev w ∧ returns r is_link True;
  LinkSetUp_law l w w' r : is_link l → LinkSetUp l w = (w', r) →
    returns r (λ _, dev w' = {| kd_up := true; kd_addrs := kd_addrs (dev w) |}) (dev w' = dev w);
  LinkSetDown_law l w w' r : is_link l → LinkSetDown l w = (w', r) →
    returns r (λ _, dev w' = {| kd_up := false; kd_addrs := kd_addrs (dev w) |}) (dev w' = dev w);
  AddrList_law l w w' r : is_link l → AddrList_v4 l w = (w', r) → dev w' = dev w ∧
    returns r (λ ns, ∃ ks, Forall2 denotes ns ks ∧ list_to_set ks = kd_addrs (dev w)) True;
  nl_ParseAddr_law v : 0 <= v < 2 ^ 32 →
    ∃ n, nl_ParseAddr (dotted (v4_bytes v) +:+ "/32") = Ok n ∧ denotes n (v, 32);
  AddrAdd_law l n k w w' r : is_link l → denotes n k → AddrAdd l n w = (w', r) →
    returns r (λ _, dev w' = {| kd_up := kd_up (dev w); kd_addrs := {[k]} ∪ kd_addrs (dev w) |}) (dev w' = dev w);
  AddrDel_law l n k w w' r : is_link l → denotes n k → AddrDel l n w = (w', r) →
    returns r (λ _, dev w' = {| kd_up := kd_up (dev w); kd_addrs := kd_addrs (dev w) ∖ {[k]} |}) (dev w' = dev w);
}.

Definition addr_text (k : KAddr) : string := dotted (v4_bytes k.1).
Definition host_addr (k : KAddr) : Prop := 0 <= k.1 < 2 ^ 32 ∧ k.2 = 32.

Lemma dotted_inj v v' : 0 <= v < 2 ^ 32 → 0 <= v' < 2 ^ 32 → dotted (v4_bytes v) = dotted (v4_bytes v') → v = v'.
Proof.
  intros Hv Hv' E. assert (is_v4 (v4_bytes v) v) as H1 by done. assert (is_v4 (v4_bytes v') v') as H2 by done.
  apply (IP_String_inj _ _ _ _ H1 H2). by rewrite (is_v4_String _ _ H1), (is_v4_String _ _ H2).
Qed.
Lemma addr_text_inj k k' : host_addr k → host_addr k' → addr_text k = addr_text k' → k = k'.
Proof.
  destruct k as [v p], k' as [v' p']. unfold host_addr, addr_text. simpl.
  intros [Hv ->] [Hv' ->] E%dotted_inj; [|done..]. by rewrite E.
Qed.

Section netlink.
Context {W : Type} `{Netlink W}.
Variable linkName : string.
Context (dev : W → KDev) (is_link : Link → Prop) `{!NetlinkLaws W linkName dev is_link}.

(** Every address of the link is a host address, as those that the program adds are. *)
Definition kernel_ok (w : W) : Prop := ∀ k, k ∈ kd_addrs (dev w) → host_addr k.
Definition iface (w : W) : Iface :=
  {| if_up := kd_up (dev w); if_addrs := set_map addr_text (kd_addrs (dev w)) |}.

Lemma kernel_ok_dev w w' : dev w' = dev w → kernel_ok w → kernel_ok w'.
Proof. unfold kernel_ok. by intros ->. Qed.
Lemma iface_dev w w' : dev w' = dev w → iface w' = iface w.
Proof. unfold iface. by intros ->. Qed.

Lemma find_link_inv w w' r :
  find_link linkName w = (w', r) → dev w' = dev w ∧ returns r is_link True.
Proof.
  intros (r0 & [Hd Hr]%(LinkByName_law (is_link := is_link)) & Hr0)%wrapping_inv. split; [done|].
  destruct r0; simpl in *; by subst.
Qed.

(** An operation that looks for the link and then acts on it. *)
Lemma with_link {A} (f : Link → M W A) (Q : W → A → Prop) w w' r :
  (∀ l w1 w2 r2, is_link l → dev w1 = dev w → f l w1 = (w2, r2) → returns r2 (Q w2) (dev w2 = dev w)) →
  (link ← find_link linkName; f link) w = (w', r) → returns r (Q w') (dev w' = dev w).
Proof.
  intros Hf. unfold mbind, M_bind. destruct (find_link linkName w) as [w1 r1] eqn:E1.
  apply find_link_inv in E1 as [Hd Hr]. destruct r1; simpl in Hr; try done.
  - by apply Hf.
  - by intros [= <- <-].
Qed.
Lemma wrapping_returns {V A} msg (m : M V A) w w' r Q E :
  wrapping msg m w = (w', r) → (∀ r0, m w = (w', r0) → returns r0 Q E) → returns r Q E.
Proof.
  intros (r0 & Hm & Hr0)%wrapping_inv Hret. apply Hret in Hm. destruct r0; simpl in *; subst; done.
Qed.

Lemma set_map_add (k : KAddr) (s : gset KAddr) :
  (set_map addr_text ({[k]} ∪ s) : gset string) = {[addr_text k]} ∪ set_map addr_text s.
Proof. by rewrite set_map_union_L, set_map_singleton_L. Qed.
Lemma set_map_del (k : KAddr) (s : gset KAddr) :
  host_addr k → (∀ k', k' ∈ s → host_addr k') →
  (set_map addr_text (s ∖ {[k]}) : gset string) = set_map addr_text s ∖ {[addr_text k]}.
Proof.
  intros Hk Hs. apply set_eq. intros x. rewrite elem_of_difference, elem_of_singleton, !elem_of_map. split.
  - intros (k' & -> & [Hin Hne]%elem_of_difference). split; [eauto|]. intros E%addr_text_inj; [|by auto..]. set_solver.
  - intros [(k' & -> & Hin) Hne]. exists k'. split; [done|]. set_solver.
Qed.

Lemma up_law w w' r : Up linkName w = (w', r) →
  returns r (λ _, dev w' = {| kd_up := true; kd_addrs := kd_addrs (dev w) |}) (dev w' = dev w).
Proof.
  apply (with_link _ (λ w' _, dev w' = _)). intros l w1 w2 r2 Hl Hd Hw.
  eapply wrapping_returns; [exact Hw|]. rewrite <-Hd. intros r0. by apply LinkSetUp_law.
Qed.
Lemma down_law w w' r : Down linkName w = (w', r) →
  returns r (λ _, dev w' = {| kd_up := false; kd_addrs := kd_addrs (dev w) |}) (dev w' = dev w).
Proof.
  apply (with_link _ (λ w' _, dev w' = _)). intros l w1 w2 r2 Hl Hd Hw.
  eapply wrapping_returns; [exact Hw|]. rewrite <-Hd. intros r0. by apply LinkSetDown_law.
Qed.
Lemma texts_of ns ks :
  Forall2 denotes ns ks → map (λ a, IP_String (ipn_IP a)) ns = map addr_text ks.
Proof.
  induction 1 as [|n k ns ks [Hv _] _ IH]; [done|]. simpl. f_equal; [|done]. by apply is_v4_String.
Qed.
Lemma list_law w w' r : ListAddrs linkName w = (w', r) →
  dev w' = dev w ∧ returns r (λ l, list_to_set l = if_addrs (iface w)) True.
Proof.
  unfold ListAddrs. unfold mbind, M_bind. destruct (find_link linkName w) as [w1 r1] eqn:E1.
  apply find_link_inv in E1 as [Hd Hr]. destruct r1 as [l|e|y|]; simpl in Hr; try done; [|by intros [= <- <-]].
  destruct (wrapping _ (AddrList_v4 l) w1) as [w2 r2] eqn:E2. apply wrapping_inv in E2 as (r0 & E2 & Hr0).
  apply (AddrList_law (linkName := linkName) (dev := dev) (is_link := is_link)) in E2 as [Hd2 Hr2]; [|done].
  destruct r0 as [ns|e|y|]; simpl in Hr2; try done; subst r2; intros [= <- <-]; (split; [congruence|]); [|done].
  destruct Hr2 as (ks & Hks & Hset). unfold returns. rewrite (texts_of _ _ Hks). unfold iface. rewrite <-Hd, <-Hset.
  apply set_eq. intros x. simpl. rewrite elem_of_list_to_set, Sort_Permutation, list_elem_of_fmap, elem_of_map.
  by setoid_rewrite elem_of_list_to_set.
Qed.
Lemma add_law v w w' r : 0 <= v < 2 ^ 32 → AddAddr linkName (dotted (v4_bytes v)) w = (w', r) →
  returns r (λ _, dev w' = {| kd_up := kd_up (dev w); kd_addrs := {[(v, 32)]} ∪ kd_addrs (dev w) |}) (dev w' = dev w).
Proof.
  intros Hv. unfold AddAddr. destruct (nl_ParseAddr_law (linkName := linkName) v Hv) as (n & -> & Hn).
  apply (with_link _ (λ w' _, dev w' = _)). intros l w1 w2 r2 Hl Hd Hw.
  eapply wrapping_returns; [exact Hw|]. rewrite <-Hd. intros r0. by apply AddrAdd_law.
Qed.
Lemma delete_addr_law l n k w w' r : is_link l → denotes n k → delete_addr linkName l n w = (w', r) →
  returns r (λ _, dev w' = {| kd_up := kd_up (dev w); kd_addrs := kd_addrs (dev w) ∖ {[k]} |}) (dev w' = dev w).
Proof. intros Hl Hn Hw. eapply wrapping_returns; [exact Hw|]. intros r0. by apply AddrDel_law. Qed.
Lemma del_law v w w' r : 0 <= v < 2 ^ 32 → DeleteAddr linkName (dotted (v4_bytes v)) w = (w', r) →
  returns r (λ _, dev w' = {| kd_up := kd_up (dev w); kd_addrs := kd_addrs (dev w) ∖ {[(v, 32)]} |}) (dev w' = dev w).
Proof.
  intros Hv. unfold DeleteAddr. destruct (nl_ParseAddr_law (linkName := linkName) v Hv) as (n & -> & Hn).
  apply (with_link _ (λ w' _, dev w' = _)). intros l w1 w2 r2 Hl Hd Hw. rewrite <-Hd. by eapply delete_addr_law.
Qed.
Lemma delete_each_law l ns ks w w' r : is_link l → Forall2 denotes ns ks →
  for_each ns (delete_addr linkName l) w = (w', r) →
  kd_up (dev w') = kd_up (dev w) ∧ kd_addrs (dev w') ⊆ kd_addrs (dev w) ∧
  returns r (λ _, kd_addrs (dev w') = kd_addrs (dev w) ∖ list_to_set ks) True.
Proof.
  intros Hl Hns. revert w. induction Hns as [|n k ns ks Hn _ IH]; intros w; simpl.
  { intros [= <- <-]. split_and!; [done|done|]. simpl. set_solver. }
  unfold mbind, M_bind. destruct (delete_addr linkName l n w) as [w1 r1] eqn:E1.
  apply (delete_addr_law _ _ k) in E1; [|done..]. destruct r1 as [[]|e|y|]; simpl in E1; try done.
  - intros (Hu & Hs & Hr)%IH. rewrite E1 in Hu, Hs, Hr. simpl in *. split_and!; [done|set_solver|].
    destruct r; simpl in *; try done. rewrite Hr. set_solver.
  - intros [= <- <-]. rewrite E1. by split_and!.
Qed.
Lemma delete_all_law w w' r : DeleteAllAddr linkName w = (w', r) →
  kd_up (dev w') = kd_up (dev w) ∧ kd_addrs (dev w') ⊆ kd_addrs (dev w) ∧
  returns r (λ _, kd_addrs (dev w') = ∅) True.
Proof.
  unfold DeleteAllAddr. unfold mbind, M_bind. destruct (LinkByName linkName w) as [w1 r1] eqn:E1.
  apply (LinkByName_law (is_link := is_link)) in E1 as [Hd Hr].
  destruct r1 as [l|e|y|]; simpl in Hr; try done; [|intros [= <- <-]; by rewrite Hd].
  destruct (wrapping _ (AddrList_v4 l) w1) as [w2 r2] eqn:E2. apply wrapping_inv in E2 as (r0 & E2 & Hr0).
  apply (AddrList_law (linkName := linkName) (dev := dev) (is_link := is_link)) in E2 as [Hd2 Hr2]; [|done].
  destruct r0 as [ns|e|y|]; simpl in Hr2; try done; subst r2; [|intros [= <- <-]; by rewrite Hd2, Hd].
  destruct Hr2 as (ks & Hks & Hset). intros (Hu & Hs & Hr')%(delete_each_law _ _ ks); [|done..].
  rewrite Hd2, Hd in Hu, Hs, Hr'. split_and!; [done|done|]. destruct r; simpl in *; try done.
  rewrite Hr', <-Hd, <-Hset. set_solver.
Qed.

Lemma netif_laws : @NetifLaws W (networkInterface linkName) kernel_ok iface.
Proof.
  split; simpl.
  - intros w a Hok (k & -> & Hk)%elem_of_map. destruct (Hok k Hk). by exists k.1.
  - intros w w' r Hok E%up_law. unfold iface, kernel_ok. destruct r; simpl in *; try done; by rewrite E.
  - intros w w' r Hok E%down_law. unfold iface, kernel_ok. destruct r; simpl in *; try done; by rewrite E.
  - intros w w' r Hok [Hd Hr]%list_law. split_and!; [by eapply kernel_ok_dev|by apply iface_dev|done].
  - intros a w w' r Hok (v & Hv & ->) E%add_law; [|done]. unfold kernel_ok, iface.
    destruct r; simpl in *; try done; rewrite E; simpl; [|done]. split.
    + intros k [->%elem_of_singleton|Hk]%elem_of_union; [done|by apply Hok].
    + f_equal. apply (set_map_add (v, 32)).
  - intros a w w' r Hok (v & Hv & ->) E%del_law; [|done]. unfold kernel_ok, iface.
    destruct r; simpl in *; try done; rewrite E; simpl; [|done]. split.
    + intros k [Hk _]%elem_of_difference. by apply Hok.
    + f_equal. by apply (set_map_del (v, 32)).
  - intros w w' r Hok (Hu & Hs & Hr)%delete_all_law. unfold kernel_ok, iface. simpl. split_and!.
    + intros k Hk. apply Hok. set_solver.
    + done.
    + set_solver.
    + destruct r; simpl in *; try done. by rewrite Hr.
Qed.

Lemma iface_addrs w s :
  kernel_ok w → (∀ k, k ∈ s → host_addr k) → if_addrs (iface w) = set_map addr_text s → kd_addrs (dev w) = s.
Proof.
  intros Hok Hs E. apply set_eq. intros k. unfold iface in E. simpl in E. split; intros Hk.
  - assert (addr_text k ∈ (set_map addr_text s : gset string)) as (k' & Ht & Hk')%elem_of_map.
    { rewrite <-E. apply elem_of_map. eauto. }
    by apply addr_text_inj in Ht as ->; [|by auto..].
  - assert (addr_text k ∈ (set_map addr_text (kd_addrs (dev w)) : gset string)) as (k' & Ht & Hk')%elem_of_map.
    { rewrite E. apply elem_of_map. eauto. }
    by apply addr_text_inj in Ht as ->; [|by auto..].
Qed.
End netlink.

Lemma KDev_eq d up addrs : kd_up d = up → kd_addrs d = addrs → d = {| kd_up := up; kd_addrs := addrs |}.
Proof. by destruct d; simpl; intros -> ->. Qed.

Section composed.
Context {W : Type} `{Netlink W} `{EtcdAdmin W}.
Variable linkName : string.
Context (dev : W → KDev) (is_link : Link → Prop) `{!NetlinkLaws W linkName dev is_link}.
Context (MemberList_dev : ∀ w w' r, etcd_MemberList w = (w', r) → dev w' = dev w).

Lemma MemberList_quiet w w' r :
  kernel_ok dev w → etcd_MemberList w = (w', r) → kernel_ok dev w' ∧ iface dev w' = iface dev w.
Proof. intros Hok E%MemberList_dev. split; [by eapply kernel_ok_dev|by apply iface_dev]. Qed.

(** C32: over netlink, on a link that has nothing but host addresses, a round in which
    no error is counted leaves the link of a member up with its DHCP server address and
    the address of active boot servers, both as host addresses, and that of a rack
    which is not a member down and empty. *)
Theorem runOnce_kernel rack w n w' :
  kernel_ok dev w →
  @runOnce W (networkInterface linkName) _ rack (w, n) = ((w', n), Ok tt) →
  ∃ w1 members addr, etcd_MemberList w = (w1, Ok members) ∧
    selectDHCPServerAddr (map mb_Name members) rack = Ok addr ∧
    (addr = "" ∧ dev w' = {| kd_up := false; kd_addrs := ∅ |} ∨
     ∃ v, addr = dotted (v4_bytes v) ∧
       dev w' = {| kd_up := true; kd_addrs := {[(v, 32); (10 * 2 ^ 24 + 71 * 2 ^ 16 + 255 * 2 ^ 8 + 6, 32)]} |}).
Proof.
  intros Hok E.
  pose proof (netif_laws linkName dev is_link) as Hlaws.
  apply (runOnce_inv (H := networkInterface linkName) (kernel_ok dev) (iface dev) MemberList_quiet) in E
    as [Hok' [(Hr & _)|(w1 & ms & addr & Hm & Hsel & _ & _ & Hn)]]; [by destruct (Hr tt)| |done].
  exists w1, ms, addr. split_and!; [done|done|]. destruct Hn as [Hn|[_ Hw]].
  { exfalso. clear -Hn. unfold wrap32 in Hn. Z.to_euclidean_division_equations. lia. }
  pose proof (select_text _ _ _ Hsel) as Htext. pose proof (f_equal if_up Hw) as Hup. apply (f_equal if_addrs) in Hw.
  unfold next_addrs in *. destruct (decide (addr = "")) as [->|Hne].
  - left. split; [done|]. 
    assert (kd_addrs (dev w') = ∅) as Ha by (apply (iface_addrs dev w' ∅); [done|set_solver|by rewrite Hw]).
    by apply KDev_eq.
  - rewrite bool_decide_eq_false_2 in * by done. right.
    apply Forall_cons in Htext as [(v & Hv & ->) _]. exists v. split; [done|].
    assert (kd_addrs (dev w') = {[(v, 32); (172490502, 32)]}) as Ha; [|by apply KDev_eq].
    apply (iface_addrs dev w'); [done| |].
    + intros k [->%elem_of_singleton| ->%elem_of_singleton]%elem_of_union; done.
    + rewrite Hw. simpl. rewrite set_map_union_L, !set_map_singleton_L.
      change (addr_text (172490502, 32)) with VirtualIPAddrActiveBootServer. set_solver.
Qed.
End composed.

(** ** The theorems at concrete inputs

    A simulated kernel. *)
Module Witness.
(** A kernel with one link, named boot, and an etcd with members. *)
Record Kernel := { kn_dev : KDev; kn_members : list Member }.
Definition set_dev (up : bool) (addrs : gset KAddr) (w : Kernel) : Kernel :=
  {| kn_dev := {| kd_up := up; kd_addrs := addrs |}; kn_members := kn_members w |}.
Definition to_net (k : KAddr) : IPNet := {| ipn_IP := v4_bytes k.1; ipn_Mask := CIDRMask k.2 32 |}.
Definition of_net (n : IPNet) : KAddr := (v4_value (To4 (ipn_IP n)), simpleMaskLength (ipn_Mask n) 0).

#[local] Instance kernel_netlink : Netlink Kernel := {
  Link := unit;
  LinkByName name := if bool_decide (name = "boot") then mret () else fail (ErrMsg "Link not found");
  LinkSetUp _ w := (set_dev true (kd_addrs (kn_dev w)) w, Ok ());
  LinkSetDown _ w := (set_dev false (kd_addrs (kn_dev w)) w, Ok ());
  (* only valid addresses are ever in the kernel *)
  AddrList_v4 _ w :=
    if bool_decide (set_Forall host_addr (kd_addrs (kn_dev w)))
    then (w, Ok (map to_net (elements (kd_addrs (kn_dev w))))) else (w, Err (ErrMsg "netlink"));
  nl_ParseAddr s := '(ip, net) ← ParseCIDR s; Ok {| ipn_IP := ip; ipn_Mask := ipn_Mask net |};
  AddrAdd _ n w := (set_dev (kd_up (kn_dev w)) ({[of_net n]} ∪ kd_addrs (kn_dev w)) w, Ok ());
  AddrDel _ n w := (set_dev (kd_up (kn_dev w)) (kd_addrs (kn_dev w) ∖ {[of_net n]}) w, Ok ());
}.
#[local] Instance kernel_admin : EtcdAdmin Kernel := {
  etcd_NewClient _ _ := mret ();
  etcd_ClientClose := mret ();
  etcd_MemberList w := (w, Ok (kn_members w));
  etcd_MemberAdd _ := mret ([], 0);
  etcd_MemberRemove _ := mret ();
  etcd_Status := mret "3.5.0";
  etcdutil_Config _ _ _ _ := JNull;
}.

Lemma of_net_denotes n k : denotes n k → of_net n = k.
Proof. intros [[Hv E] Hm]. unfold of_net. rewrite E, v4_value_bytes, Hm by done. by destruct k. Qed.
Lemma to_net_denotes k : host_addr k → denotes (to_net k) k.
Proof. destruct k as [v p]. intros [Hv Hp]. simpl in Hp. subst p. by split. Qed.

Lemma parse_host v : 0 <= v < 2 ^ 32 →
  ∃ n, (nl_ParseAddr (dotted (v4_bytes v) +:+ "/32") : outcome IPNet) = Ok n ∧ denotes n (v, 32).
Proof.
  intros Hv. pose proof (v4_bytes_bytes v Hv) as HB. unfold v4_bytes in *. rewrite !Forall_cons in HB.
  destruct HB as (Ha & Hb & Hc & Hd & _). cbn [nl_ParseAddr kernel_netlink].
  change "/32" with ("/" +:+ Itoa 32). rewrite ParseCIDR_dotted by done.
  eexists. split; [reflexivity|]. split; [|reflexivity]. by split.
Qed.

#[local] Instance kernel_laws : NetlinkLaws Kernel "boot" kn_dev (λ _, True).
Proof.
  split.
  - intros w w' r [= <- <-]. done.
  - intros l w w' r _ [= <- <-]. done.
  - intros l w w' r _ [= <- <-]. done.
  - intros l w w' r _. simpl. case_bool_decide as Hh; intros [= <- <-]; [|done]. split; [done|].
    exists (elements (kd_addrs (kn_dev w))). split; [|apply list_to_set_elements_L].
    apply Forall2_fmap_l, Forall_Forall2_diag, Forall_forall. intros k Hk%elem_of_elements. apply to_net_denotes, Hh, Hk.
  - apply parse_host.
  - intros l n k w w' r _ Hn [= <- <-]. simpl. by rewrite (of_net_denotes _ _ Hn).
  - intros l n k w w' r _ Hn [= <- <-]. simpl. by rewrite (of_net_denotes _ _ Hn).
Qed.

(** Racks 0, 3 and 10 are members; rack 3 still has a stale address. *)
Definition members_of (racks : list Z) : list Member :=
  map (λ n, {| mb_Name := member_name n; mb_ID := 100 + n; mb_PeerURLs := [] |}) racks.
Definition stale : Kernel :=
  {| kn_dev := {| kd_up := false; kd_addrs := {[(172490501, 32)]} |}; kn_members := members_of [10; 0; 3] |}.
#[local] Instance boot_interface : NetworkInterface Kernel := networkInterface "boot".
#[local] Instance boot_interface_laws : NetifLaws Kernel (kernel_ok kn_dev) (iface kn_dev) :=
  netif_laws "boot" kn_dev (λ _, True).
Definition round3 : (Kernel * Z) * outcome unit := runOnce 3 (stale, 7).

Lemma members_dev (w w' : Kernel) r : etcd_MemberList w = (w', r) → kn_dev w' = kn_dev w.
Proof. by intros [= <- _]. Qed.
Lemma stale_ok : kernel_ok kn_dev stale.
Proof. intros k Hk. change (k ∈ ({[(172490501, 32)]} : gset KAddr)) in Hk. apply elem_of_singleton in Hk as ->. done. Qed.
Lemma round3_eq : round3 = ((round3.1.1, 7), Ok tt).
Proof. vm_compute. reflexivity. Qed.

Lemma selectDHCPServerAddr_rank_witness :
  selectDHCPServerAddr ["boot-0"; "boot-10"; "boot-3"] 10 = Ok "10.71.255.3".
Proof.
  apply (selectDHCPServerAddr_rank ["boot-10"; "boot-0"; "boot-3"] ["boot-0"; "boot-10"; "boot-3"] [10; 0; 3] 10).
  - lia.
  - apply Permutation_swap.
  - vm_compute. reflexivity.
Defined.

Lemma dhcp_addresses_distinct_witness :
  3 = 3 ∧ "10.71.255.2" ∈ DHCPServerAddressList ∧ "10.71.255.2" ≠ VirtualIPAddrActiveBootServer.
Proof.
  apply (dhcp_addresses_distinct [10; 0; 3] (map member_name [10; 0; 3]) (map member_name [10; 0; 3]) 3 3).
  - simpl. lia.
  - repeat constructor; vm_compute; discriminate.
  - reflexivity.
  - reflexivity.
  - right. right. left.
  - right. right. left.
  - vm_compute. reflexivity.
  - vm_compute. reflexivity.
Defined.

Lemma runOnce_converges_witness :
  ∃ w1 members addr, etcd_MemberList stale = (w1, Ok members) ∧
    selectDHCPServerAddr (map mb_Name members) 3 = Ok addr ∧
    iface kn_dev round3.1.1 =
      if bool_decide (addr = "") then {| if_up := false; if_addrs := ∅ |}
      else {| if_up := true; if_addrs := {[addr; VirtualIPAddrActiveBootServer]} |}.
Proof.
  apply (runOnce_converges (kernel_ok kn_dev) (iface kn_dev)
           (MemberList_quiet kn_dev members_dev)
           3 stale 7 round3.1.1 7).
  - exact stale_ok.
  - exact round3_eq.
  - reflexivity.
Defined.

Lemma runOnce_bounded_witness :
  kernel_ok kn_dev round3.1.1 ∧
  (iface kn_dev round3.1.1 = iface kn_dev stale ∨
   ∃ w1 members addr, etcd_MemberList stale = (w1, Ok members) ∧
     selectDHCPServerAddr (map mb_Name members) 3 = Ok addr ∧
     if_addrs (iface kn_dev round3.1.1) ⊆ if_addrs (iface kn_dev stale) ∪ list_to_set (next_addrs addr) ∧
     if_addrs (iface kn_dev stale) ∩ list_to_set (next_addrs addr) ⊆ if_addrs (iface kn_dev round3.1.1)).
Proof.
  apply (runOnce_bounded (kernel_ok kn_dev) (iface kn_dev)
           (MemberList_quiet kn_dev members_dev)
           3 stale 7 round3.1.1 7 (Ok tt)).
  - exact stale_ok.
  - exact round3_eq.
Defined.

Definition failed_end : Kernel * outcome Z := main_exit (Err (ErrMsg "failed to listen")) stale.
Lemma main_exit_cleans_witness :
  kernel_ok kn_dev failed_end.1 ∧
  (1 = 0 ∧ failed_end.1 = stale ∧ Is_Canceled (ErrMsg "failed to listen") = true ∨
   1 = 1 ∧ Is_Canceled (ErrMsg "failed to listen") = false ∧
   ∃ w1 r1 r2, nif_DeleteAllAddr stale = (w1, r1) ∧ nif_Down w1 = (failed_end.1, r2) ∧
     (r1 = Ok tt → r2 = Ok tt → iface kn_dev failed_end.1 = {| if_up := false; if_addrs := ∅ |})).
Proof.
  apply (main_exit_cleans (kernel_ok kn_dev) (iface kn_dev) (ErrMsg "failed to listen") stale failed_end.1 1).
  - exact stale_ok.
  - vm_compute. reflexivity.
Defined.

Lemma runOnce_kernel_witness :
  kn_dev round3.1.1 = {| kd_up := true; kd_addrs := {[(172490498, 32); (172490502, 32)]} |} ∧
  ∃ w1 members addr, etcd_MemberList stale = (w1, Ok members) ∧
    selectDHCPServerAddr (map mb_Name members) 3 = Ok addr ∧
    (addr = "" ∧ kn_dev round3.1.1 = {| kd_up := false; kd_addrs := ∅ |} ∨
     ∃ v, addr = dotted (v4_bytes v) ∧
       kn_dev round3.1.1 =
       {| kd_up := true; kd_addrs := {[(v, 32); (10 * 2 ^ 24 + 71 * 2 ^ 16 + 255 * 2 ^ 8 + 6, 32)]} |}).
Proof.
  split; [vm_compute; reflexivity|].
  apply (runOnce_kernel "boot" kn_dev (λ _, True) members_dev
           3 stale 7 round3.1.1).
  - exact stale_ok.
  - exact round3_eq.
Defined.

(** With a sixth boot server, two of them take the same address. *)
Lemma sixth_server_shares :
  selectDHCPServerAddr (map member_name [0; 1; 2; 3; 4; 5]) 0 =
  selectDHCPServerAddr (map member_name [0; 1; 2; 3; 4; 5]) 5.
Proof. vm_compute. reflexivity. Qed.
End Witness.
