(* ===== verification/Menu.v ===== *)
(** * The menu of a virtual data center ([menu/menu.go], [menu/cluster.go])

    A menu describes the networks, the racks and the nodes of a test environment;
    [NewCluster] plans its addresses.  The ToRs are shared between the racks and the
    list that the loop over the spines walks: [cl_tors] is the store of them, and racks
    hold positions in it.

    The decoding of YAML documents (sigs.k8s.io/yaml), sabakan's IPAM configuration and
    placemat's image specifications are classes; so is SHA-1, which names serials. *)
From S2P Require Import Prelude GoStr GoTime Json Types Etcd Worlds GoNet.

Local Open Scope Z_scope.

(** ** [path/filepath] *)
Definition IsAbs (path : string) : bool := HasPrefix path "/".
Fixpoint clean_components (rooted : bool) (cs stack : list string) : list string :=
  match cs with
  | [] => reverse stack
  | c :: cs =>
      if bool_decide (c = "") || bool_decide (c = ".") then clean_components rooted cs stack
      else if bool_decide (c = "..") then
        match stack with
        | [] => clean_components rooted cs (if rooted then [] else [".."])
        | top :: rest =>
            if bool_decide (top = "..") then clean_components rooted cs (".." :: stack)
            else clean_components rooted cs rest
        end
      else clean_components rooted cs (c :: stack)
  end.
Definition Clean (path : string) : string :=
  let rooted := IsAbs path in
  let text := String.concat "/" (clean_components rooted (Split "/" path) []) in
  if rooted then "/" +:+ text else if bool_decide (text = "") then "." else text.
Definition Join_path (elems : list string) : string :=
  match filter (λ e, e ≠ "") elems with
  | [] => ""
  | elems => Clean (String.concat "/" elems)
  end.

(** ** Documents *)
Record exposed := { ex_Loadbalancer : string; ex_Bastion : string; ex_Egress : string; ex_Global : string }.
Record networkSpec := {
  ns_IpamConfig : string;
  ns_AsnBase : Z;
  ns_Internet : string;
  ns_SpineTor : string;
  ns_CoreSpine : string;
  ns_CoreExternal : string;
  ns_CoreOperation : string;
  ns_Proxy : string;
  ns_Ntp : string;
  ns_Pod : string;
  ns_Exposed : exposed;
}.
Record rackMenu := { rm_Cs : Z; rm_Ss : Z }.
Record inventorySpec := { is_ClusterID : string; is_Spine : Z; is_Rack : list rackMenu }.
Record smpSpec := { smp_CPUs : Z; smp_Cores : Z; smp_Threads : Z; smp_Dies : Z; smp_Sockets : Z }.
Record diskSpec := { dk_DeviceClass : string; dk_Count : Z; dk_Size : string }.
Record nodeSpec := {
  nd_CPU : Z;
  nd_SMP : option smpSpec;
  nd_Memory : string;
  nd_NUMA : Z;                  (* NUMA.Nodes *)
  nd_DiskCount : Z;
  nd_DiskSize : string;
  nd_Disks : list diskSpec;
  nd_Image : string;
  nd_Data : list string;
  nd_UEFI : bool;
  nd_CloudInitTemplate : string;
  nd_TPM : bool;
}.
Definition nodeTypeBoot := "boot".
Definition nodeTypeCS := "cs".
Definition nodeTypeSS := "ss".
Record nodeMenu := { nm_Type : string; nm_Spec : nodeSpec }.

Definition inventory_validate (i : inventorySpec) : outcome unit :=
  if negb (0 <? is_Spine i) then Err (ErrMsg "spine in Inventory must be more than 0") else Ok ().
Definition nodeSpec_validate (n : nodeSpec) : outcome unit :=
  if (0 <? nd_DiskCount n) && negb (bool_decide (nd_Disks n = [])) then
    Err (ErrMsg "DiskCount and Disks are exclusive")
  else Ok ().
Definition nodeMenu_validate (n : nodeMenu) : outcome unit :=
  if (nd_CPU (nm_Spec n) =? 0) && (if nd_SMP (nm_Spec n) is None then true else false) then
    Err (ErrMsg "cpu in Node must be more than 0")
  else nodeSpec_validate (nm_Spec n).

(** ** Addresses *)

(** [net.ParseCIDR] of a network whose host part is 0. *)
Definition parseNetworkCIDR (s : string) : outcome (IP * IPNet) :=
  '(ip, network) ← ParseCIDR s;
  if negb (IP_Equal ip (ipn_IP network)) then
    Err (ErrMsg ("host part of network address must be 0: " +:+ s))
  else Ok (ip, network).
Definition parse_network (s : string) : outcome IPNet := '(_, network) ← parseNetworkCIDR s; Ok network.

Section addresses.
Context `{NetUtil}.
Definition addToIPNet (netAddr : IPNet) (offset : Z) : IPNet :=
  {| ipn_IP := IPAdd (ipn_IP netAddr) offset; ipn_Mask := ipn_Mask netAddr |}.
Definition addToIP (netIP : IP) (offset prefixSize : Z) : IPNet :=
  {| ipn_IP := IPAdd netIP offset; ipn_Mask := CIDRMask prefixSize 32 |}.
(** [1 << rangeSize * nodeIdx] is [(1 << rangeSize) * nodeIdx]. *)
Definition makeNodeNetwork (base : IP) (rangeSize prefixSize nodeIdx : Z) : outcome IPNet :=
  if rangeSize <? 0 then Panic "negative shift amount"
  else
    let offset := wrap64 (wrap64 (Z.shiftl 1 rangeSize) * nodeIdx) in
    Ok {| ipn_IP := IPAdd base offset; ipn_Mask := CIDRMask prefixSize 32 |}.
End addresses.

(** ** The network *)
Record network := {
  nw_ipamConfigFile : string;
  nw_nodeBase : IP;
  nw_nodeRangeSize : Z;
  nw_nodeRangeMask : Z;
  nw_bmc : IPNet;
  nw_asnBase : Z;
  nw_asnCore : Z;
  nw_asnExternal : Z;
  nw_asnSpine : Z;
  nw_internet : IPNet;
  nw_coreSpine : IPNet;
  nw_coreExternal : IPNet;
  nw_coreOperation : IPNet;
  nw_spineTor : IP;
  nw_proxy : IP;                (* nil when there is none *)
  nw_ntp : option IPNet;
  nw_pod : IPNet;
  nw_bastion : IPNet;
  nw_loadBalancer : IPNet;
  nw_egress : IPNet;
  nw_global : IPNet;
}.

(** sabakan's IPAM configuration, the fields that are used; unsigned in the source. *)
Record IPAMConfig := {
  ic_NodeIPv4Pool : string;
  ic_NodeIPv4Offset : string;
  ic_NodeRangeSize : Z;
  ic_NodeRangeMask : Z;
  ic_NodeIPPerNode : Z;
  ic_NodeIndexOffset : Z;
  ic_BMCIPv4Pool : string;
}.
Class IPAMFiles (W : Type) := {
  (* open the file and decode the JSON value in it *)
  read_IPAMConfig : string → M W IPAMConfig;
}.

Definition offsetASNCore : Z := -3.
Definition offsetASNExternal : Z := -2.
Definition offsetASNSpine : Z := -1.

(** [NodeIPv4Offset], an IPv4 address read as an integer. *)
Fixpoint node_offset (text : string) (bl : list string) (nodeOffset : Z) : outcome Z :=
  match bl with
  | [] => Ok nodeOffset
  | b :: bl =>
      match ParseInt b with
      | Ok n => node_offset text bl (wrap64 (wrap64 (Z.shiftl nodeOffset 8) + n))
      | _ => Err (ErrMsg ("invalid node-ipv4-offset: " +:+ text))
      end
  end.

Definition parse_ip (what s : string) : outcome IP :=
  let ip := ParseIP s in
  if bool_decide (ip = []) then Err (ErrMsg ("Invalid IP address of " +:+ what +:+ ": " +:+ s)) else Ok ip.

Section network_menu.
Context `{NetUtil} {W : Type} `{IPAMFiles W}.

Definition newNetworkMenu (spec : networkSpec) (menuFileDir : string) : M W network :=
  let ipamConfigFile :=
    if negb (IsAbs (ns_IpamConfig spec)) then Join_path [menuFileDir; ns_IpamConfig spec]
    else ns_IpamConfig spec in
  ic ← read_IPAMConfig ipamConfigFile;
  if negb (ic_NodeIPPerNode ic =? 3) then fail (ErrMsg "node-ip-per-node in IPAM config must be 3")
  else if negb (ic_NodeIndexOffset ic =? 3) then fail (ErrMsg "node-index-offset in IPAM config must be 3")
  else
    '(nodePool, _) ← lift (parseNetworkCIDR (ic_NodeIPv4Pool ic));
    nodeOffset ← lift (if bool_decide (ic_NodeIPv4Offset ic = "") then Ok 0
                       else node_offset (ic_NodeIPv4Offset ic) (Split "." (ic_NodeIPv4Offset ic)) 0);
    bmc ← lift (parse_network (ic_BMCIPv4Pool ic));
    internet ← lift (parse_network (ns_Internet spec));
    coreOperation ← lift (parse_network (ns_CoreOperation spec));
    coreSpine ← lift (parse_network (ns_CoreSpine spec));
    coreExternal ← lift (parse_network (ns_CoreExternal spec));
    spineTor ← lift (parse_ip "Spine ToR" (ns_SpineTor spec));
    proxy ← lift (if bool_decide (ns_Proxy spec = "") then Ok [] else parse_ip "proxy" (ns_Proxy spec));
    ntp ← lift (if bool_decide (ns_Ntp spec = "") then Ok None else n ← parse_network (ns_Ntp spec); Ok (Some n));
    pod ← lift (parse_network (ns_Pod spec));
    bastion ← lift (parse_network (ex_Bastion (ns_Exposed spec)));
    loadBalancer ← lift (parse_network (ex_Loadbalancer (ns_Exposed spec)));
    egress ← lift (parse_network (ex_Egress (ns_Exposed spec)));
    global ← lift (parse_network (ex_Global (ns_Exposed spec)));
    mret {| nw_ipamConfigFile := ns_IpamConfig spec;
            nw_nodeBase := IPAdd nodePool nodeOffset;
            nw_nodeRangeSize := wrap64 (ic_NodeRangeSize ic);
            nw_nodeRangeMask := wrap64 (ic_NodeRangeMask ic);
            nw_bmc := bmc;
            nw_asnBase := ns_AsnBase spec;
            nw_asnCore := wrap64 (ns_AsnBase spec + offsetASNCore);
            nw_asnExternal := wrap64 (ns_AsnBase spec + offsetASNExternal);
            nw_asnSpine := wrap64 (ns_AsnBase spec + offsetASNSpine);
            nw_internet := internet;
            nw_coreSpine := coreSpine;
            nw_coreExternal := coreExternal;
            nw_coreOperation := coreOperation;
            nw_spineTor := spineTor;
            nw_proxy := proxy;
            nw_ntp := ntp;
            nw_pod := pod;
            nw_bastion := bastion;
            nw_loadBalancer := loadBalancer;
            nw_egress := egress;
            nw_global := global |}.
End network_menu.

(** ** Parsing a menu *)
Class MenuYaml := {
  ImageSpec : Type;
  DeviceClassSpec : Type;
  yaml_kind : string → outcome string;
  yaml_network : string → outcome networkSpec;
  yaml_inventory : string → outcome inventorySpec;
  yaml_node : string → outcome nodeMenu;
  yaml_image : string → outcome ImageSpec;
  yaml_deviceclass : string → outcome DeviceClassSpec;
}.
Record menu `{MenuYaml} := {
  mn_network : option network;
  mn_inventory : option inventorySpec;
  mn_images : list ImageSpec;
  mn_deviceclasses : list DeviceClassSpec;
  mn_nodes : list nodeMenu;
}.

Definition unmarshal {A} (what y : string) (o : outcome A) : outcome A :=
  match o with
  | Err e => Err (ErrWrap ("failed to unmarshal the " +:+ what +:+ "yaml document " +:+ y) e)
  | o => o
  end.

Section parse.
Context `{NetUtil} `{MenuYaml} {W : Type} `{IPAMFiles W}.

Definition parse_doc (menuFileDir : string) (m : menu) (y : string) : M W menu :=
  kind ← lift (unmarshal "" y (yaml_kind y));
  if bool_decide (kind = "Network") then
    n ← lift (unmarshal "Network " y (yaml_network y));
    network ← newNetworkMenu n menuFileDir;
    mret {| mn_network := Some network; mn_inventory := mn_inventory m; mn_images := mn_images m;
            mn_deviceclasses := mn_deviceclasses m; mn_nodes := mn_nodes m |}
  else if bool_decide (kind = "Inventory") then
    i ← lift (unmarshal "Inventory " y (yaml_inventory y));
    _ ← lift (inventory_validate i);
    mret {| mn_network := mn_network m; mn_inventory := Some i; mn_images := mn_images m;
            mn_deviceclasses := mn_deviceclasses m; mn_nodes := mn_nodes m |}
  else if bool_decide (kind = "Node") then
    n ← lift (unmarshal "Node " y (yaml_node y));
    _ ← lift (nodeMenu_validate n);
    mret {| mn_network := mn_network m; mn_inventory := mn_inventory m; mn_images := mn_images m;
            mn_deviceclasses := mn_deviceclasses m; mn_nodes := mn_nodes m ++ [n] |}
  else if bool_decide (kind = "Image") then
    i ← lift (unmarshal "Image " y (yaml_image y));
    mret {| mn_network := mn_network m; mn_inventory := mn_inventory m; mn_images := mn_images m ++ [i];
            mn_deviceclasses := mn_deviceclasses m; mn_nodes := mn_nodes m |}
  else if bool_decide (kind = "DeviceClass") then
    d ← lift (unmarshal "DeviceClass " y (yaml_deviceclass y));
    mret {| mn_network := mn_network m; mn_inventory := mn_inventory m; mn_images := mn_images m;
            mn_deviceclasses := mn_deviceclasses m ++ [d]; mn_nodes := mn_nodes m |}
  else fail (ErrMsg ("unknown resource: " +:+ kind)).

(** What [readSingleYamlDoc] returns until the end of the file; an error other than
    [io.EOF] is not looked at, and gives no text. *)
Fixpoint parse_docs (menuFileDir : string) (m : menu) (docs : list (outcome string)) : M W menu :=
  match docs with
  | [] => mret m
  | d :: docs =>
      m ← parse_doc menuFileDir m (match d with Ok y => y | _ => "" end);
      parse_docs menuFileDir m docs
  end.
Definition Parse (docs : list (outcome string)) (menuFileDir : string) : M W menu :=
  parse_docs menuFileDir {| mn_network := None; mn_inventory := None; mn_images := [];
                            mn_deviceclasses := []; mn_nodes := [] |} docs.
End parse.

(** ** The cluster *)
Definition offsetInternetHost : Z := 1.
Definition offsetInternetCore : Z := 2.
Definition offsetExternalCore : Z := 1.
Definition offsetExternal : Z := 2.
Definition offsetOperationCore : Z := 1.
Definition offsetOperation : Z := 2.
Definition offsetNodenetToR : Z := 1.
Definition offsetNodenetBoot : Z := 3.
Definition offsetNodenetServers : Z := 4.
Definition offsetBMCHost : Z := 1.
Definition offsetNTP1 : Z := 1.
Definition offsetNTP2 : Z := 2.
Definition offsetNTPCore : Z := 3.

Record node := {
  no_name : string;
  no_fullName : string;
  no_spec : option nodeSpec;
  no_serial : string;
  no_node0Address : IPNet;
  no_node1Address : IPNet;
  no_node2Address : IPNet;
  no_tor1Address : IPNet;
  no_tor2Address : IPNet;
}.
Record bootNode := { bn_node : node; bn_bastionAddress : IPNet }.
Record tor := {
  to_name : string;
  to_spineAddresses : list IPNet;
  to_nodeAddress : IPNet;
  to_nodeInterface : string;
}.
Record rack := {
  ra_name : string;
  ra_shortName : string;
  ra_index : Z;
  ra_asn : Z;
  ra_nodeNetworkPrefixSize : Z;
  ra_tor1 : nat;                (* in the store of ToRs *)
  ra_tor2 : nat;
  ra_bootNode : bootNode;
  ra_csList : list node;
  ra_ssList : list node;
  ra_node0Network : IPNet;
  ra_node1Network : IPNet;
  ra_node2Network : IPNet;
}.
Record core := {
  co_internetAddress : IPNet;
  co_spineAddresses : list IPNet;
  co_operationAddress : IPNet;
  co_externalAddress : IPNet;
  co_proxyAddress : IP;
  co_coreNTPAddress : IPNet;
  co_ntpServers : list IPNet;
}.
Record spine := {
  sp_name : string;
  sp_shortName : string;
  sp_coreAddress : IPNet;
  sp_torAddresses : list IPNet;
  sp_bmcAddress : IPNet;
}.
Record Cluster `{MenuYaml} := {
  cl_network : network;
  cl_operation : IPNet;         (* operation.coreAddress *)
  cl_external : IPNet;          (* external.coreAddress *)
  cl_internet : IPNet;          (* internet.address *)
  cl_bmc : IPNet;               (* bmc.address *)
  cl_core : core;
  cl_spines : list spine;
  cl_racks : list rack;
  cl_tors : list tor;           (* the store of ToRs *)
  cl_image : list ImageSpec;
  cl_deviceclasses : list DeviceClassSpec;
}.

Class Sha1 := { sha1_hex : string → string }.

Section new_cluster.
Context `{NetUtil} `{MenuYaml} `{Sha1}.

Definition node_specs (nodes : list nodeMenu) : gmap string nodeSpec :=
  fold_left (λ m n, <[nm_Type n := nm_Spec n]> m) nodes ∅.

Section rack.
Variable network : network.
Variable nodeSpecs : gmap string nodeSpec.
Variable spines : Z.
Variable rackIdx : Z.

Definition new_bootNode (node0Network node1Network node2Network : IPNet) : bootNode :=
  let fullName := "boot-" +:+ Itoa rackIdx in
  {| bn_node :=
       {| no_name := "boot"; no_fullName := fullName; no_spec := nodeSpecs !! nodeTypeBoot;
          no_serial := sha1_hex fullName;
          no_node0Address := addToIP (ipn_IP node0Network) offsetNodenetBoot 32;
          no_node1Address := addToIPNet node1Network offsetNodenetBoot;
          no_node2Address := addToIPNet node2Network offsetNodenetBoot;
          no_tor1Address := addToIPNet node1Network offsetNodenetToR;
          no_tor2Address := addToIPNet node2Network offsetNodenetToR |};
     bn_bastionAddress := addToIP (ipn_IP (nw_bastion network)) rackIdx 32 |}.

(** A server of the rack: [base] is the first offset of its kind, [i] counts them. *)
Definition new_server (kind nodeType : string) (boot : bootNode) (node0Network node1Network node2Network : IPNet)
    (base i : Z) : node :=
  let name := kind +:+ Itoa (i + 1) in
  let fullName := "rack" +:+ Itoa rackIdx +:+ "-" +:+ name in
  {| no_name := name; no_fullName := fullName; no_spec := nodeSpecs !! nodeType;
     no_serial := sha1_hex fullName;
     no_node0Address := addToIP (ipn_IP node0Network) (wrap64 (offsetNodenetServers + i + base)) 32;
     no_node1Address := addToIPNet node1Network (wrap64 (offsetNodenetServers + i + base));
     no_node2Address := addToIPNet node2Network (wrap64 (offsetNodenetServers + i + base));
     no_tor1Address := no_tor1Address (bn_node boot);
     no_tor2Address := no_tor2Address (bn_node boot) |}.

Definition new_tor (nodeNetwork : IPNet) (i : Z) : tor :=
  {| to_name := "rack" +:+ Itoa rackIdx +:+ "-tor" +:+ Itoa i; to_spineAddresses := [];
     to_nodeAddress := addToIPNet nodeNetwork offsetNodenetToR;
     to_nodeInterface := "eth" +:+ Itoa spines |}.

(** [for i := 0; i < n; i++] *)
Definition upto (n : Z) : list Z := map Z.of_nat (seq 0 (Z.to_nat n)).

(** The rack, whose ToRs are appended to the store at [at_]. *)
Definition new_rack (rackMenu : rackMenu) (at_ : nat) : outcome (rack * list tor) :=
  let makeNodeNetwork := makeNodeNetwork (nw_nodeBase network) (nw_nodeRangeSize network) (nw_nodeRangeMask network) in
  node0Network ← makeNodeNetwork (rackIdx * 3 + 0);
  node1Network ← makeNodeNetwork (rackIdx * 3 + 1);
  node2Network ← makeNodeNetwork (rackIdx * 3 + 2);
  let boot := new_bootNode node0Network node1Network node2Network in
  Ok ({| ra_name := "rack" +:+ Itoa rackIdx; ra_shortName := "r" +:+ Itoa rackIdx; ra_index := rackIdx;
         ra_asn := wrap64 (nw_asnBase network + rackIdx);
         ra_nodeNetworkPrefixSize := nw_nodeRangeMask network;
         ra_tor1 := at_; ra_tor2 := S at_; ra_bootNode := boot;
         ra_csList := map (new_server "cs" nodeTypeCS boot node0Network node1Network node2Network 0)
                          (upto (rm_Cs rackMenu));
         ra_ssList := map (new_server "ss" nodeTypeSS boot node0Network node1Network node2Network (rm_Cs rackMenu))
                          (upto (rm_Ss rackMenu));
         ra_node0Network := node0Network; ra_node1Network := node1Network; ra_node2Network := node2Network |},
      [new_tor node1Network 1; new_tor node2Network 2]).
End rack.

Fixpoint rack_loop (network : network) (nodeSpecs : gmap string nodeSpec) (spines : Z)
    (rackMenus : list rackMenu) (rackIdx : Z) (racks : list rack) (tors : list tor)
    : outcome (list rack * list tor) :=
  match rackMenus with
  | [] => Ok (racks, tors)
  | rackMenu :: rackMenus =>
      '(rack, ts) ← new_rack network nodeSpecs spines rackIdx rackMenu (length tors);
      rack_loop network nodeSpecs spines rackMenus (rackIdx + 1) (racks ++ [rack]) (tors ++ ts)
  end.

(** The links of one spine: its address and the ToR's for each ToR of the store. *)
Fixpoint tor_loop (tors : list tor) (spineTorBaseAddr : IPNet) : list tor * list IPNet * IPNet :=
  match tors with
  | [] => ([], [], spineTorBaseAddr)
  | tor :: tors =>
      let torAddr := addToIPNet spineTorBaseAddr 1 in
      let tor := {| to_name := to_name tor; to_spineAddresses := to_spineAddresses tor ++ [torAddr];
                    to_nodeAddress := to_nodeAddress tor; to_nodeInterface := to_nodeInterface tor |} in
      let '(tors, torAddresses, base) := tor_loop tors (addToIPNet torAddr 1) in
      (tor :: tors, spineTorBaseAddr :: torAddresses, base)
  end.

Record SpineLoop := {
  sl_coreSpineBaseAddr : IPNet;
  sl_spineTorBaseAddr : IPNet;
  sl_coreSpineAddresses : list IPNet;    (* core.spineAddresses *)
  sl_tors : list tor;
  sl_spines : list spine;
}.
Definition spine_step (network : network) (s : SpineLoop) (spineIdx : Z) : SpineLoop :=
  let coreAddress := addToIPNet (sl_coreSpineBaseAddr s) 1 in
  let '(tors, torAddresses, base) := tor_loop (sl_tors s) (sl_spineTorBaseAddr s) in
  {| sl_coreSpineBaseAddr := addToIPNet coreAddress 1;
     sl_spineTorBaseAddr := base;
     sl_coreSpineAddresses := sl_coreSpineAddresses s ++ [sl_coreSpineBaseAddr s];
     sl_tors := tors;
     sl_spines := sl_spines s ++
       [{| sp_name := "spine" +:+ Itoa (spineIdx + 1); sp_shortName := "s" +:+ Itoa (spineIdx + 1);
           sp_coreAddress := coreAddress; sp_torAddresses := torAddresses;
           sp_bmcAddress := addToIPNet (nw_bmc network) (spineIdx + 2) |}] |}.
Definition spine_loop (network : network) (spines : Z) (tors : list tor) : SpineLoop :=
  fold_left (spine_step network) (upto spines)
    {| sl_coreSpineBaseAddr := nw_coreSpine network;
       sl_spineTorBaseAddr := {| ipn_IP := nw_spineTor network; ipn_Mask := CIDRMask 31 32 |};
       sl_coreSpineAddresses := []; sl_tors := tors; sl_spines := [] |}.

Definition nil_pointer {A} : outcome A := Panic "nil pointer dereference".

Definition NewCluster (m : menu) : outcome Cluster :=
  match mn_network m, mn_inventory m with
  | Some network, Some inventory =>
      match nw_ntp network with
      | None => nil_pointer
      | Some ntp =>
          '(racks, tors) ← rack_loop network (node_specs (mn_nodes m)) (is_Spine inventory) (is_Rack inventory) 0 [] [];
          let s := spine_loop network (is_Spine inventory) tors in
          Ok {| cl_network := network;
                cl_operation := addToIPNet (nw_coreOperation network) offsetOperation;
                cl_external := addToIPNet (nw_coreExternal network) offsetExternal;
                cl_internet := addToIPNet (nw_internet network) offsetInternetHost;
                cl_bmc := addToIPNet (nw_bmc network) offsetBMCHost;
                cl_core :=
                  {| co_internetAddress := addToIPNet (nw_internet network) offsetInternetCore;
                     co_spineAddresses := sl_coreSpineAddresses s;
                     co_operationAddress := addToIPNet (nw_coreOperation network) offsetOperationCore;
                     co_externalAddress := addToIPNet (nw_coreExternal network) offsetExternalCore;
                     co_proxyAddress := nw_proxy network;
                     co_coreNTPAddress := addToIPNet ntp offsetNTPCore;
                     co_ntpServers := [addToIPNet ntp offsetNTP1; addToIPNet ntp offsetNTP2] |};
                cl_spines := sl_spines s;
                cl_racks := racks;
                cl_tors := sl_tors s;
                cl_image := mn_images m;
                cl_deviceclasses := mn_deviceclasses m |}
      end
  | _, _ => nil_pointer
  end.
End new_cluster.
