(* ===== verification/MenuSpec.v ===== *)
(** * The specification for placemat ([menu/cluster_yaml_generator.go])

    Networks, virtual machines and network namespaces of a planned cluster, as the
    records that are printed to [cluster.yml]. *)
From S2P Require Import Prelude GoStr GoTime Json Types Etcd Worlds Storage Watch Worker.
From S2P Require Import Updater GoNet Host Progs Rebooter BootIP Menu.

Local Open Scope Z_scope.

(** ** placemat's records, the fields that are set

    [Kind] is the same for all records of a type and left out. *)
Record NetworkSpec := {
  nwk_Name : string;
  nwk_Type : string;
  nwk_UseNAT : bool;
  nwk_Address : string;
}.
Record NodeVolumeSpec := {
  nv_Kind : string;
  nv_Name : string;
  nv_Image : string;
  nv_UserData : string;
  nv_NetworkConfig : string;
  nv_Size : string;
  nv_Path : string;
  nv_CopyOnWrite : bool;
  nv_Cache : string;
  nv_Format : string;
  nv_DeviceClass : string;
}.
Record NodeSpec := {
  pn_Name : string;
  pn_Interfaces : list string;
  pn_Volumes : list NodeVolumeSpec;
  pn_IgnitionFile : string;
  pn_CPU : Z;
  pn_SMP : option smpSpec;
  pn_Memory : string;
  pn_NUMANodes : Z;
  pn_NetworkDeviceQueue : Z;
  pn_UEFI : bool;
  pn_TPM : bool;
  pn_Serial : string;           (* SMBIOS.Serial *)
}.
Record NetNSInterfaceSpec := { ni_Network : string; ni_Addresses : list string }.
Record NetNSAppSpec := { na_Name : string; na_Command : list string }.
Record NetNSSpec := {
  nn_Name : string;
  nn_Interfaces : list NetNSInterfaceSpec;
  nn_Apps : list NetNSAppSpec;
  nn_InitScripts : list string;
}.
Record ClusterSpec `{MenuYaml} := {
  cs_Networks : list NetworkSpec;
  cs_NetNSs : list NetNSSpec;
  cs_Nodes : list NodeSpec;
  cs_Images : list ImageSpec;
  cs_DeviceClasses : list DeviceClassSpec;
}.

(** ** Networks *)
Definition internal (name : string) : NetworkSpec :=
  {| nwk_Name := name; nwk_Type := "internal"; nwk_UseNAT := false; nwk_Address := "" |}.
Definition internet_network (address : IPNet) : NetworkSpec :=
  {| nwk_Name := "internet"; nwk_Type := "external"; nwk_UseNAT := true; nwk_Address := IPNet_String address |}.
Definition bmc_network (address : IPNet) : NetworkSpec :=
  {| nwk_Name := "bmc"; nwk_Type := "bmc"; nwk_UseNAT := false; nwk_Address := IPNet_String address |}.

Definition core_link (shortName : string) : string := "core-to-" +:+ shortName.
Definition tor_link (s r : string) (torIdx : Z) : string := s +:+ "-to-" +:+ r +:+ "-" +:+ Itoa torIdx.
Definition rack_net (r : string) (torIdx : Z) : string := r +:+ "-node" +:+ Itoa torIdx.

(** ** Virtual machines *)
Definition image_volume (name image cache : string) : NodeVolumeSpec :=
  {| nv_Kind := "image"; nv_Name := name; nv_Image := image; nv_UserData := ""; nv_NetworkConfig := ""; nv_Size := "";
     nv_Path := ""; nv_CopyOnWrite := true; nv_Cache := cache; nv_Format := ""; nv_DeviceClass := "" |}.
Definition localds_volume (userData : string) : NodeVolumeSpec :=
  {| nv_Kind := "localds"; nv_Name := "seed"; nv_Image := ""; nv_UserData := userData;
     nv_NetworkConfig := "network.yml"; nv_Size := "";
     nv_Path := ""; nv_CopyOnWrite := false; nv_Cache := ""; nv_Format := ""; nv_DeviceClass := "" |}.
Definition raw_volume (name size cache format deviceClass : string) : NodeVolumeSpec :=
  {| nv_Kind := "raw"; nv_Name := name; nv_Image := ""; nv_UserData := ""; nv_NetworkConfig := ""; nv_Size := size;
     nv_Path := ""; nv_CopyOnWrite := false; nv_Cache := cache; nv_Format := format; nv_DeviceClass := deviceClass |}.
Definition hostPath_volume (name path : string) : NodeVolumeSpec :=
  {| nv_Kind := "hostPath"; nv_Name := name; nv_Image := ""; nv_UserData := ""; nv_NetworkConfig := ""; nv_Size := "";
     nv_Path := path; nv_CopyOnWrite := false; nv_Cache := ""; nv_Format := ""; nv_DeviceClass := "" |}.

Definition boot_volumes (name sabakanDir : string) (bootSpec : nodeSpec) : list NodeVolumeSpec :=
  (if negb (bool_decide (nd_Image bootSpec = "")) then
     [image_volume "root" (nd_Image bootSpec) "writeback"] ++
     (if negb (bool_decide (nd_CloudInitTemplate bootSpec = "")) then
        [localds_volume ("seed_" +:+ name +:+ ".yml")] else [])
   else [raw_volume "root" "30G" "" "" ""]) ++
  [hostPath_volume "sabakan" sabakanDir].

Definition boot_node (sabakanDir : string) (rack : rack) : outcome NodeSpec :=
  let boot := bn_node (ra_bootNode rack) in
  match no_spec boot with
  | None => nil_pointer
  | Some bootSpec =>
      Ok {| pn_Name := no_fullName boot;
            pn_Interfaces := [rack_net (ra_shortName rack) 1; rack_net (ra_shortName rack) 2];
            pn_Volumes := boot_volumes (no_fullName boot) sabakanDir bootSpec;
            pn_IgnitionFile := "";
            pn_CPU := nd_CPU bootSpec; pn_SMP := nd_SMP bootSpec; pn_Memory := nd_Memory bootSpec;
            pn_NUMANodes := nd_NUMA bootSpec; pn_NetworkDeviceQueue := 0;
            pn_UEFI := nd_UEFI bootSpec; pn_TPM := nd_TPM bootSpec; pn_Serial := no_serial boot |}
  end.

Definition disk_volumes (diskSize : string) (i : Z) (v : diskSpec) : list NodeVolumeSpec :=
  let diskSizeDC := if negb (bool_decide (dk_Size v = "")) then dk_Size v else diskSize in
  map (λ j, raw_volume ("data" +:+ Itoa (i + 1) +:+ "-" +:+ Itoa (j + 1)) diskSizeDC "none" "raw" (dk_DeviceClass v))
      (upto (dk_Count v)).
Definition worker_volumes (spec : nodeSpec) : list NodeVolumeSpec :=
  let diskSize := if negb (bool_decide (nd_DiskSize spec = "")) then nd_DiskSize spec else "50G" in
  map (λ i, raw_volume ("data" +:+ Itoa (i + 1)) diskSize "none" "raw" "") (upto (nd_DiskCount spec)) ++
  concat (imap (λ i v, disk_volumes diskSize (Z.of_nat i) v) (nd_Disks spec)) ++
  imap (λ i dataImg, image_volume ("extra" +:+ Itoa (Z.of_nat i)) dataImg "") (nd_Data spec).

Definition createWorkerNode (rack : rack) (node : node) (spec : option nodeSpec) : outcome NodeSpec :=
  match spec with
  | None => nil_pointer
  | Some spec =>
      Ok {| pn_Name := ra_name rack +:+ "-" +:+ no_name node;
            pn_Interfaces := [rack_net (ra_shortName rack) 1; rack_net (ra_shortName rack) 2];
            pn_Volumes := worker_volumes spec;
            pn_IgnitionFile := "";
            pn_CPU := nd_CPU spec; pn_SMP := nd_SMP spec; pn_Memory := nd_Memory spec;
            pn_NUMANodes := nd_NUMA spec;
            pn_NetworkDeviceQueue := wrap64 (2 * match nd_SMP spec with Some smp => smp_CPUs smp | None => nd_CPU spec end);
            pn_UEFI := nd_UEFI spec; pn_TPM := nd_TPM spec; pn_Serial := no_serial node |}
  end.
Definition createChronyNode : NodeSpec :=
  {| pn_Name := "chrony"; pn_Interfaces := ["core-ntp"];
     pn_Volumes := [image_volume "root" "flatcar" "writeback"]; pn_IgnitionFile := "chrony.ign";
     pn_CPU := 2; pn_SMP := None; pn_Memory := "4G"; pn_NUMANodes := 0; pn_NetworkDeviceQueue := 0;
     pn_UEFI := false; pn_TPM := false; pn_Serial := "" |}.

Fixpoint outcomes {A B} (f : A → outcome B) (l : list A) : outcome (list B) :=
  match l with [] => Ok [] | x :: l => y ← f x; ys ← outcomes f l; Ok (y :: ys) end.

(** ** Network namespaces *)
Definition iface_spec (network : string) (address : string) : NetNSInterfaceSpec :=
  {| ni_Network := network; ni_Addresses := [address] |}.
Definition bird (name : string) : NetNSAppSpec :=
  {| na_Name := "bird";
     na_Command := ["/usr/sbin/bird"; "-f"; "-c"; "/etc/bird/bird_" +:+ name +:+ ".conf";
                    "-s"; "/var/run/bird/bird_" +:+ name +:+ ".ctl"] |}.

(** A slice indexed out of range panics. *)
Definition index_at {A} (l : list A) (i : nat) : outcome A :=
  match l !! i with Some x => Ok x | None => Panic "index out of range" end.
Definition tor1Address (s : spine) (rackIdx : nat) : outcome IPNet := index_at (sp_torAddresses s) (rackIdx * 2).
Definition tor2Address (s : spine) (rackIdx : nat) : outcome IPNet := index_at (sp_torAddresses s) (rackIdx * 2 + 1).
(** [f] over a list with the index. *)
Fixpoint outcomes_i {A B} (f : nat → A → outcome B) (i : nat) (l : list A) : outcome (list B) :=
  match l with [] => Ok [] | x :: l => y ← f i x; ys ← outcomes_i f (S i) l; Ok (y :: ys) end.

Section generate.
Context `{MenuYaml}.
Variable c : Cluster.

Definition appendNetworks : list NetworkSpec :=
  [internet_network (cl_internet c)] ++
  map (λ s, internal (core_link (sp_shortName s))) (cl_spines c) ++
  [internal "core-to-ext"; internal "core-to-op"] ++
  (if bool_decide (co_proxyAddress (cl_core c) = []) then [] else [internal "core-node0"]) ++
  (* the address of NTP is never nil in a cluster *)
  [internal "core-ntp"] ++
  [bmc_network (cl_bmc c)] ++
  concat (map (λ s, concat (map (λ r,
    [internal (tor_link (sp_shortName s) (ra_shortName r) 1);
     internal (tor_link (sp_shortName s) (ra_shortName r) 2)]) (cl_racks c))) (cl_spines c)) ++
  concat (map (λ r, [internal (rack_net (ra_shortName r) 1); internal (rack_net (ra_shortName r) 2)]) (cl_racks c)).

Definition rack_nodes (sabakanDir : string) (r : rack) : outcome (list NodeSpec) :=
  boot ← boot_node sabakanDir r;
  css ← outcomes (λ n, createWorkerNode r n (no_spec n)) (ra_csList r);
  sss ← outcomes (λ n, createWorkerNode r n (no_spec n)) (ra_ssList r);
  Ok (boot :: css ++ sss).
Definition appendNodes (sabakanDir : string) : outcome (list NodeSpec) :=
  ns ← outcomes (rack_nodes sabakanDir) (cl_racks c); Ok (concat ns ++ [createChronyNode]).

Definition core_netns : NetNSSpec :=
  let co := cl_core c in
  {| nn_Name := "core";
     nn_Interfaces :=
       [iface_spec "internet" (IPNet_String (co_internetAddress co));
        iface_spec "core-to-ext" (IPNet_String (co_externalAddress co));
        iface_spec "core-to-op" (IPNet_String (co_operationAddress co))] ++
       (if bool_decide (co_proxyAddress co = []) then []
        else [iface_spec "core-node0" (IP_String (co_proxyAddress co) +:+ "/32")]) ++
       [iface_spec "core-ntp" (IPNet_String (co_coreNTPAddress co))] ++
       imap (λ i a, iface_spec ("core-to-s" +:+ Itoa (Z.of_nat i + 1)) (IPNet_String a)) (co_spineAddresses co);
     nn_Apps := [bird "core"; {| na_Name := "squid"; na_Command := ["/usr/sbin/squid"; "-N"] |}];
     nn_InitScripts := ["setup-iptables"] |}.

Definition spine_rack_ifaces (s : spine) (i : nat) (r : rack) : outcome (list NetNSInterfaceSpec) :=
  a1 ← tor1Address s i;
  a2 ← tor2Address s i;
  Ok [iface_spec (tor_link (sp_shortName s) (ra_shortName r) 1) (IPNet_String a1);
      iface_spec (tor_link (sp_shortName s) (ra_shortName r) 2) (IPNet_String a2)].
Definition spine_netns (i : nat) (s : spine) : outcome NetNSSpec :=
  links ← outcomes_i (spine_rack_ifaces s) 0 (cl_racks c);
  Ok {| nn_Name := "spine" +:+ Itoa (Z.of_nat i + 1);
        nn_Interfaces :=
          [iface_spec (core_link (sp_shortName s)) (IPNet_String (sp_coreAddress s));
           iface_spec "bmc" (IPNet_String (sp_bmcAddress s))] ++ concat links;
        nn_Apps := [bird (sp_name s)];
        nn_InitScripts := ["setup-iptables-spine"] |}.

Definition dnsmasq (name : string) (nodeAddress : IPNet) : NetNSAppSpec :=
  {| na_Name := "dnsmasq";
     na_Command :=
       ["/usr/sbin/dnsmasq"; "--keep-in-foreground"; "--pid-file=/var/run/dnsmasq_" +:+ name +:+ ".pid";
        "--log-facility=-"] ++
       concat (map (λ ip, ["--dhcp-relay"; IP_String (ipn_IP nodeAddress) +:+ "," +:+ ip]) DHCPServerAddressList) |}.
Definition createToRNetNs (r : rack) (t : tor) (torIdx : Z) : outcome NetNSSpec :=
  let name := ra_name r +:+ "-tor" +:+ Itoa torIdx in
  links ← outcomes_i (λ i s,
    a ← index_at (to_spineAddresses t) i;
    Ok (iface_spec (tor_link (sp_shortName s) (ra_shortName r) torIdx) (IPNet_String a))) 0 (cl_spines c);
  Ok {| nn_Name := name;
        nn_Interfaces := links ++ [iface_spec (rack_net (ra_shortName r) torIdx) (IPNet_String (to_nodeAddress t))];
        nn_Apps := [bird name; dnsmasq name (to_nodeAddress t)];
        nn_InitScripts := [] |}.
(** The ToR that a rack points to. *)
Definition tor_at (p : nat) : outcome tor :=
  match cl_tors c !! p with Some t => Ok t | None => nil_pointer end.
Definition rack_netns (r : rack) : outcome (list NetNSSpec) :=
  t1 ← tor_at (ra_tor1 r); n1 ← createToRNetNs r t1 1;
  t2 ← tor_at (ra_tor2 r); n2 ← createToRNetNs r t2 2;
  Ok [n1; n2].

Definition external_netns : NetNSSpec :=
  {| nn_Name := "external"; nn_Interfaces := [iface_spec "core-to-ext" (IPNet_String (cl_external c))];
     nn_Apps := []; nn_InitScripts := ["setup-default-gateway-external"] |}.
Definition operation_netns : NetNSSpec :=
  {| nn_Name := "operation"; nn_Interfaces := [iface_spec "core-to-op" (IPNet_String (cl_operation c))];
     nn_Apps := []; nn_InitScripts := ["setup-default-gateway-operation"] |}.

Definition appendNetworkNamespaces : outcome (list NetNSSpec) :=
  spines ← outcomes_i spine_netns 0 (cl_spines c);
  tors ← outcomes rack_netns (cl_racks c);
  Ok ([core_netns] ++ spines ++ concat tors ++ [external_netns; operation_netns]).

Definition generateClusterSpec (sabakanDir : string) : outcome ClusterSpec :=
  nodes ← appendNodes sabakanDir;
  netnss ← appendNetworkNamespaces;
  Ok {| cs_Networks := appendNetworks; cs_NetNSs := netnss; cs_Nodes := nodes;
        cs_Images := cl_image c; cs_DeviceClasses := cl_deviceclasses c |}.
End generate.
