(* ===== verification/MenuConf.v ===== *)
(** * Configuration files of a virtual data center ([menu/cluster_conf_generator.go])

    The arguments of the templates, and the files that are written.  The templates of
    [menu/assets] are executed by text/template: [export] is a class, as is the writing
    of YAML documents. *)
From S2P Require Import Prelude GoStr GoTime Json Types Etcd Worlds Storage Watch Worker.
From S2P Require Import Updater GoNet Host Progs Rebooter BootIP Menu MenuSpec.

Local Open Scope Z_scope.

(** ** Arguments of the templates *)
Record SpineArgs := { sa_Name : string; sa_CoreAddress : string; sa_ToR1Address : string; sa_ToR2Address : string }.
Record NodeArgs := { ag_Name : string; ag_BastionAddress : string; ag_Node1Address : string; ag_Node2Address : string }.
Record ToRArgs := { ta_NodeInterface : string; ta_SpineAddresses : list string }.
Record RackArgs := {
  rg_Name : string;
  rg_Index : Z;
  rg_ASN : Z;
  rg_ToR1 : ToRArgs;
  rg_ToR2 : ToRArgs;
  rg_BootNode : NodeArgs;
  rg_CSList : list NodeArgs;
  rg_SSList : list NodeArgs;
}.
Record BirdSpineArgs := {
  bs_SpineIdx : Z;
  bs_ASNCore : Z;
  bs_ASNSpine : Z;
  bs_LoadBalancer : string;
  bs_Bastion : string;
  bs_Egress : string;
  bs_Global : string;
  bs_Bmc : string;
  bs_BmcAddress : string;
  bs_CoreSpineAddress : string;
  bs_Racks : list RackArgs;
}.
(** What a template is executed with. *)
Inductive TemplateArgs :=
  | BirdCoreArgs (Internet : string) (ASNCore ASNSpine : Z) (Spines : list SpineArgs)
  | BirdSpine (args : BirdSpineArgs)
  | BirdRackArgs (ASNSpine : Z) (Spines : list SpineArgs) (Rack : RackArgs)
  | MachinesYamlArgs (Racks : list RackArgs)
  | SeedYamlArgs (Name : string) (Rack : RackArgs)
  | SetupIPTablesArgs (Internet NTP : string)
  | ChronyIgnitionArgs (NTPServers : list string) (Gateway ChronyTag : string)
  | TextArg (text : string).

(** sabakan's machine specification, the fields that are set. *)
Record MachineSpec := {
  ms_Serial : string;
  ms_Labels : gmap string string;
  ms_Rack : Z;
  ms_Role : string;
  ms_BMCType : string;
}.

Class Export (W : Type) := {
  (* an embedded template, the file to write *)
  export : string → string → TemplateArgs → M W unit;
  (* a template file of the user *)
  exportFile : string → string → TemplateArgs → M W unit;
  exportJSON : string → list MachineSpec → M W unit;
  (* an embedded file *)
  copyFile : string → string → M W unit;
  os_Chmod : string → Z → M W unit;
}.

(** Documents of [cluster.yml], one after the other, to the file that was created;
    [filepath.Abs] asks for the working directory. *)
Class SpecWriter `{MenuYaml} (W : Type) := {
  write_network : NetworkSpec → M W unit;
  write_image : ImageSpec → M W unit;
  write_deviceclass : DeviceClassSpec → M W unit;
  write_node : NodeSpec → M W unit;
  write_netns : NetNSSpec → M W unit;
  filepath_Abs : string → M W string;
}.

Section conf.
Context `{NetUtil} `{MenuYaml} {W : Type} `{Files W} `{Export W}.
Variable c : Cluster.

Definition exportExecutableFile (input output : string) (args : TemplateArgs) : M W unit :=
  _ ← export input output args; os_Chmod output mode_755.

Definition ip_text (n : IPNet) : string := IP_String (ipn_IP n).
Definition spine_args (s : spine) (tor1 tor2 : string) : SpineArgs :=
  {| sa_Name := sp_name s; sa_CoreAddress := ip_text (sp_coreAddress s); sa_ToR1Address := tor1; sa_ToR2Address := tor2 |}.
Definition node_args (n : node) : NodeArgs :=
  {| ag_Name := no_name n; ag_BastionAddress := ""; ag_Node1Address := ip_text (no_node1Address n);
     ag_Node2Address := ip_text (no_node2Address n) |}.
Definition tor_args (t : tor) : ToRArgs :=
  {| ta_NodeInterface := to_nodeInterface t; ta_SpineAddresses := map ip_text (to_spineAddresses t) |}.

Definition newRackArgs (r : rack) : outcome RackArgs :=
  t1 ← tor_at c (ra_tor1 r);
  t2 ← tor_at c (ra_tor2 r);
  let boot := bn_node (ra_bootNode r) in
  Ok {| rg_Name := ra_name r; rg_Index := ra_index r; rg_ASN := ra_asn r;
        rg_ToR1 := tor_args t1; rg_ToR2 := tor_args t2;
        rg_BootNode := {| ag_Name := no_fullName boot;
                          ag_BastionAddress := IPNet_String (bn_bastionAddress (ra_bootNode r));
                          ag_Node1Address := ip_text (no_node1Address boot);
                          ag_Node2Address := ip_text (no_node2Address boot) |};
        rg_CSList := map node_args (ra_csList r);
        rg_SSList := map node_args (ra_ssList r) |}.

Definition generateBirdCoreConf (outputDir : string) : M W unit :=
  export "/bird_core.conf" (Join_path [outputDir; "bird_core.conf"])
    (BirdCoreArgs (ip_text (cl_internet c)) (nw_asnCore (cl_network c)) (nw_asnSpine (cl_network c))
       (map (λ s, spine_args s "" "") (cl_spines c))).

Definition bird_spine_args (spineIdx : nat) : outcome BirdSpineArgs :=
  let n := cl_network c in
  coreSpine ← index_at (co_spineAddresses (cl_core c)) spineIdx;
  racks ← outcomes newRackArgs (cl_racks c);
  Ok {| bs_SpineIdx := Z.of_nat spineIdx; bs_ASNCore := nw_asnCore n; bs_ASNSpine := nw_asnSpine n;
        bs_LoadBalancer := IPNet_String (nw_loadBalancer n); bs_Bastion := IPNet_String (nw_bastion n);
        bs_Egress := IPNet_String (nw_egress n); bs_Global := IPNet_String (nw_global n);
        bs_Bmc := IPNet_String (nw_bmc n);
        bs_BmcAddress := ip_text (addToIP (ipn_IP (nw_bmc n)) (Z.of_nat spineIdx + 2) 20);
        bs_CoreSpineAddress := ip_text coreSpine; bs_Racks := racks |}.
Definition generateBirdSpineConf (outputDir : string) : M W unit :=
  for_each (seq 0 (length (cl_spines c))) (λ spineIdx,
    args ← lift (bird_spine_args spineIdx);
    export "/bird_spine.conf" (Join_path [outputDir; "bird_spine" +:+ Itoa (Z.of_nat spineIdx + 1) +:+ ".conf"])
      (BirdSpine args)).

Definition rack_spine_args (rackIdx : nat) (s : spine) : outcome SpineArgs :=
  t1 ← tor1Address s rackIdx; t2 ← tor2Address s rackIdx; Ok (spine_args s (ip_text t1) (ip_text t2)).
(** The racks with their indexes. *)
Definition indexed_racks : list (nat * rack) := imap pair (cl_racks c).
Definition generateBirdRackConf (outputDir : string) : M W unit :=
  for_each indexed_racks (λ '(rackIdx, r),
    rackArgs ← lift (newRackArgs r);
    spines ← lift (outcomes (rack_spine_args rackIdx) (cl_spines c));
    let args := BirdRackArgs (nw_asnSpine (cl_network c)) spines rackArgs in
    let file := "bird_rack" +:+ Itoa (Z.of_nat rackIdx) in
    _ ← export "/bird_rack-tor1.conf" (Join_path [outputDir; file +:+ "-tor1.conf"]) args;
    export "/bird_rack-tor2.conf" (Join_path [outputDir; file +:+ "-tor2.conf"]) args).

(** The seed of a node whose specification names a template. *)
Definition generate_seed (inputDir outputDir name file : string) (spec : option nodeSpec) (rackArgs : RackArgs) : M W unit :=
  match spec with
  | None => lift nil_pointer
  | Some spec =>
      if bool_decide (nd_CloudInitTemplate spec = "") then mret ()
      else exportFile (Join_path [inputDir; nd_CloudInitTemplate spec]) (Join_path [outputDir; file])
             (SeedYamlArgs name rackArgs)
  end.
Definition generateSeedYaml (inputDir outputDir : string) : M W unit :=
  for_each indexed_racks (λ '(rackIdx, r),
    rackArgs ← lift (newRackArgs r);
    _ ← generate_seed inputDir outputDir ("boot-" +:+ Itoa (Z.of_nat rackIdx))
          ("seed_boot-" +:+ Itoa (ra_index r) +:+ ".yml") (no_spec (bn_node (ra_bootNode r))) rackArgs;
    for_each (ra_csList r ++ ra_ssList r) (λ n,
      let name := ra_name r +:+ "-" +:+ no_name n in
      generate_seed inputDir outputDir name ("seed_" +:+ name +:+ ".yml") (no_spec n) rackArgs)).

Definition generateMachinesYaml (outputDir : string) : M W unit :=
  racks ← lift (outcomes newRackArgs (cl_racks c));
  export "/machines.tpl" (Join_path [outputDir; "machines.yml"]) (MachinesYamlArgs racks).

Definition generateNetworkYaml (outputDir : string) : M W unit :=
  let name := Join_path [outputDir; "network.yml"] in
  _ ← os_OpenTrunc name mode_666;
  deferred (file_Write name ("version: 2" +:+ nl +:+ "ethernets: {}" +:+ nl)) (file_Close name).

Definition generateSetupScripts (outputDir : string) : M W unit :=
  match nw_ntp (cl_network c) with
  | None => lift nil_pointer
  | Some ntp =>
      _ ← exportExecutableFile "/setup-iptables.sh" (Join_path [outputDir; "setup-iptables"])
            (SetupIPTablesArgs (IPNet_String (nw_global (cl_network c))) (IPNet_String ntp));
      _ ← exportExecutableFile "/setup-iptables-spine.sh" (Join_path [outputDir; "setup-iptables-spine"])
            (TextArg (IPNet_String (cl_bmc c)));
      _ ← exportExecutableFile "/setup-default-gateway.sh" (Join_path [outputDir; "setup-default-gateway-operation"])
            (TextArg (ip_text (co_operationAddress (cl_core c))));
      exportExecutableFile "/setup-default-gateway.sh" (Join_path [outputDir; "setup-default-gateway-external"])
        (TextArg (ip_text (co_externalAddress (cl_core c))))
  end.

Definition generateChronyIgnition (outputDir chronyTag : string) : M W unit :=
  export "/chrony-ign.yml" (Join_path [outputDir; "chrony-ign.yml"])
    (ChronyIgnitionArgs (map IPNet_String (co_ntpServers (cl_core c))) (ip_text (co_coreNTPAddress (cl_core c))) chronyTag).

Definition generateSquidConf (outputDir : string) : M W unit :=
  copyFile "/squid.conf" (Join_path [outputDir; "/squid.conf"]).

Definition sabakanMachine (serial : string) (rack : Z) (role : string) : MachineSpec :=
  {| ms_Serial := serial;
     ms_Labels := {["product" := "vm"; "machine-type" := "qemu"; "datacenter" := "dc1"]};
     ms_Rack := rack; ms_Role := role; ms_BMCType := "IPMI-2.0" |}.
Definition rack_machines (r : rack) : list MachineSpec :=
  sabakanMachine (no_serial (bn_node (ra_bootNode r))) (ra_index r) "boot" ::
  map (λ n, sabakanMachine (no_serial n) (ra_index r) "cs") (ra_csList r) ++
  map (λ n, sabakanMachine (no_serial n) (ra_index r) "ss") (ra_ssList r).
Definition generateSabakanData (outputDir : string) : M W unit :=
  let dir := Join_path [outputDir; "sabakan"] in
  _ ← os_MkdirAll dir mode_755;
  exportJSON (Join_path [dir; "machines.json"]) (concat (map rack_machines (cl_racks c))).

Definition generateConfFiles (inputDir outputDir chronyTag : string) : M W unit :=
  _ ← generateBirdCoreConf outputDir;
  _ ← generateBirdRackConf outputDir;
  _ ← generateBirdSpineConf outputDir;
  _ ← generateMachinesYaml outputDir;
  _ ← generateNetworkYaml outputDir;
  _ ← generateSeedYaml inputDir outputDir;
  _ ← generateChronyIgnition outputDir chronyTag;
  _ ← generateSquidConf outputDir;
  _ ← generateSetupScripts outputDir;
  generateSabakanData outputDir.

(** ** [Generate] *)
Context `{!SpecWriter W}.

Definition generateClusterYaml (sabakanDir : string) : M W unit :=
  spec ← lift (generateClusterSpec c sabakanDir);
  _ ← for_each (cs_Networks spec) write_network;
  _ ← for_each (cs_Images spec) write_image;
  _ ← for_each (cs_DeviceClasses spec) write_deviceclass;
  _ ← for_each (cs_Nodes spec) write_node;
  for_each (cs_NetNSs spec) write_netns.

Definition Generate (inputDir outputDir chronyTag : string) : M W unit :=
  _ ← os_OpenTrunc (Join_path [outputDir; "cluster.yml"]) mode_666;
  sabakanDir ← filepath_Abs (Join_path [outputDir; "sabakan"]);
  _ ← generateClusterYaml sabakanDir;
  generateConfFiles inputDir outputDir chronyTag.
End conf.
