(* ===== verification/MenuProofs.v ===== *)
(** * The plan of addresses

    Closed forms of the loops of [NewCluster], and the values of the addresses that it
    hands out. *)
From S2P Require Import Prelude GoStr GoTime Json Types Etcd Worlds Storage Watch Worker.
From S2P Require Import Updater GoNet Host Progs Rebooter BootIP Menu MenuSpec.

Local Open Scope Z_scope.

(** ** Values of addresses *)
Definition net_value (n : IPNet) (v : Z) : Prop := is_v4 (ipn_IP n) v.

Section closed.
Context `{NetUtilLaws} `{MenuYaml} `{Sha1}.

Lemma add_value n v off : net_value n v → 0 <= v + off < 2 ^ 32 → net_value (addToIPNet n off) (v + off).
Proof. intros Hn Hv. by apply IPAdd_v4. Qed.
Lemma addToIP_value ip v off p : is_v4 ip v → 0 <= v + off < 2 ^ 32 → net_value (addToIP ip off p) (v + off).
Proof. intros Hn Hv. by apply IPAdd_v4. Qed.

(** ** Racks *)
Section racks.
Variable nw : network.
Variable specs : gmap string nodeSpec.
Variable spines : Z.

Definition node_net (k : Z) : IPNet :=
  {| ipn_IP := IPAdd (nw_nodeBase nw) (wrap64 (wrap64 (Z.shiftl 1 (nw_nodeRangeSize nw)) * k));
     ipn_Mask := CIDRMask (nw_nodeRangeMask nw) 32 |}.
Definition the_boot (idx : Z) : bootNode :=
  new_bootNode nw specs idx (node_net (idx * 3 + 0)) (node_net (idx * 3 + 1)) (node_net (idx * 3 + 2)).
Definition the_server (kind nodeType : string) (idx base i : Z) : node :=
  new_server specs idx kind nodeType (the_boot idx) (node_net (idx * 3 + 0)) (node_net (idx * 3 + 1))
    (node_net (idx * 3 + 2)) base i.
Definition the_rack (idx : Z) (rm : rackMenu) (at_ : nat) : rack :=
  {| ra_name := "rack" +:+ Itoa idx; ra_shortName := "r" +:+ Itoa idx; ra_index := idx;
     ra_asn := wrap64 (nw_asnBase nw + idx); ra_nodeNetworkPrefixSize := nw_nodeRangeMask nw;
     ra_tor1 := at_; ra_tor2 := S at_; ra_bootNode := the_boot idx;
     ra_csList := map (the_server "cs" nodeTypeCS idx 0) (upto (rm_Cs rm));
     ra_ssList := map (the_server "ss" nodeTypeSS idx (rm_Cs rm)) (upto (rm_Ss rm));
     ra_node0Network := node_net (idx * 3 + 0); ra_node1Network := node_net (idx * 3 + 1);
     ra_node2Network := node_net (idx * 3 + 2) |}.
Definition the_tors (idx : Z) : list tor :=
  [new_tor spines idx (node_net (idx * 3 + 1)) 1; new_tor spines idx (node_net (idx * 3 + 2)) 2].

Lemma new_rack_eq idx rm at_ :
  0 <= nw_nodeRangeSize nw → new_rack nw specs spines idx rm at_ = Ok (the_rack idx rm at_, the_tors idx).
Proof.
  intros Hs. unfold new_rack, makeNodeNetwork. destruct (Z.ltb_spec (nw_nodeRangeSize nw) 0); [lia|]. done.
Qed.

Lemma rack_loop_eq menus idx racks tors :
  0 <= nw_nodeRangeSize nw →
  rack_loop nw specs spines menus idx racks tors =
    Ok (racks ++ imap (λ i rm, the_rack (idx + Z.of_nat i) rm (length tors + 2 * i)) menus,
        tors ++ concat (imap (λ i _, the_tors (idx + Z.of_nat i)) menus)).
Proof.
  intros Hs. revert idx racks tors. induction menus as [|rm menus IH]; intros idx racks tors; cbn [rack_loop].
  - by rewrite !app_nil_r.
  - rewrite new_rack_eq by done. cbn [mbind outcome_bind]. rewrite IH, length_app. simpl length.
    rewrite <-!app_assoc. do 3 f_equal.
    + rewrite imap_cons. simpl. f_equal; [by rewrite Z.add_0_r, Nat.add_0_r|].
      apply imap_ext. intros i x _. unfold compose.
      replace (idx + 1 + Z.of_nat i) with (idx + Z.of_nat (S i)) by lia. f_equal. lia.
    + rewrite imap_cons. simpl. rewrite Z.add_0_r. do 3 f_equal.
      apply imap_ext. intros i x _. unfold compose. by replace (idx + 1 + Z.of_nat i) with (idx + Z.of_nat (S i)) by lia.
Qed.
End racks.

(** ** Spines *)
Section spines.
Variable nw : network.
Variable tors : list tor.

(** What stays of a ToR in the loop over the spines. *)
Definition same_tor (k : nat) (t t' : tor) : Prop :=
  to_name t' = to_name t ∧ to_nodeAddress t' = to_nodeAddress t ∧ to_nodeInterface t' = to_nodeInterface t ∧
  length (to_spineAddresses t') = (length (to_spineAddresses t) + k)%nat.

Lemma tor_loop_shape ts base ts' addrs base' :
  tor_loop ts base = (ts', addrs, base') → Forall2 (same_tor 1) ts ts' ∧ length addrs = length ts.
Proof.
  revert base ts' addrs. induction ts as [|t ts IH]; intros base ts' addrs; simpl; [by intros [= <- <- <-]|].
  destruct (tor_loop ts _) as [[ts1 addrs1] base1] eqn:E. intros [= <- <- <-].
  apply IH in E as [Hs Hl]. split; [|simpl; by rewrite Hl].
  constructor; [|done]. split_and!; [done..|]. simpl. rewrite length_app. simpl. lia.
Qed.

(** After [k] rounds. *)
Record shape (k : nat) (s : SpineLoop) : Prop := {
  sh_spines : length (sl_spines s) = k;
  sh_core : length (sl_coreSpineAddresses s) = k;
  sh_tors : Forall2 (same_tor k) tors (sl_tors s);
  sh_spine i sp : sl_spines s !! i = Some sp →
    sp_name sp = "spine" +:+ Itoa (Z.of_nat i + 1) ∧ sp_shortName sp = "s" +:+ Itoa (Z.of_nat i + 1) ∧
    length (sp_torAddresses sp) = length tors;
}.

Lemma same_tor_trans k k' t t1 t2 : same_tor k t t1 → same_tor k' t1 t2 → same_tor (k + k') t t2.
Proof. unfold same_tor. intros (? & ? & ? & Hl) (? & ? & ? & Hl'). split_and!; [congruence..|lia]. Qed.

Lemma same_tors_trans k k' l l1 l2 :
  Forall2 (same_tor k) l l1 → Forall2 (same_tor k') l1 l2 → Forall2 (same_tor (k + k')) l l2.
Proof.
  intros Hl. revert l2. induction Hl as [|t t1 l l1 Ht _ IH]; intros l2 Hl2; inversion Hl2; subst; constructor.
  - by eapply same_tor_trans.
  - by apply IH.
Qed.

Lemma shape_step k s : shape k s → shape (S k) (spine_step nw s (Z.of_nat k)).
Proof.
  intros [Hk Hc Ht Hs]. unfold spine_step.
  destruct (tor_loop (sl_tors s) _) as [[ts addrs] base] eqn:E. apply tor_loop_shape in E as [Ht' Hl]. split; simpl.
  - rewrite length_app. simpl. lia.
  - rewrite length_app. simpl. lia.
  - replace (S k) with (k + 1)%nat by lia. by eapply same_tors_trans.
  - intros i sp [Hi|[Hge Hi]]%lookup_app_Some; [by apply Hs|].
    apply list_lookup_singleton_Some in Hi as [Hi <-]. assert (i = k) as -> by lia. simpl.
    split_and!; [done|done|]. rewrite Hl. symmetry. by eapply Forall2_length.
Qed.

Lemma spine_fold (P : nat → SpineLoop → Prop) s n :
  P O s → (∀ k s, (k < n)%nat → P k s → P (S k) (spine_step nw s (Z.of_nat k))) →
  P n (fold_left (spine_step nw) (map Z.of_nat (seq 0 n)) s).
Proof.
  intros Hzero Hstep. induction n as [|n IH]; [done|].
  rewrite seq_S, map_app, fold_left_app. simpl. apply Hstep; [lia|]. apply IH. intros k s' Hk. apply Hstep. lia.
Qed.

Lemma spine_loop_shape spines : shape (Z.to_nat spines) (spine_loop nw spines tors).
Proof.
  apply (spine_fold shape).
  - split; simpl; [done|done| |done]. induction tors; constructor; [|done]. split_and!; [done..|lia].
  - intros k s _. apply shape_step.
Qed.
End spines.

(** ** The cluster of a menu *)
Record planned (m : menu) (c : Cluster) (nw : network) (inv : inventorySpec) : Prop := {
  pl_network : mn_network m = Some nw;
  pl_inventory : mn_inventory m = Some inv;
  pl_ntp : is_Some (nw_ntp nw);
  pl_cluster : cl_network c = nw;
  pl_size : is_Rack inv = [] ∨ 0 <= nw_nodeRangeSize nw;
  pl_racks : cl_racks c =
    imap (λ i rm, the_rack nw (node_specs (mn_nodes m)) (Z.of_nat i) rm (2 * i)) (is_Rack inv);
  pl_loop : let s := spine_loop nw (is_Spine inv) (concat (imap (λ i _, the_tors nw (is_Spine inv) (Z.of_nat i)) (is_Rack inv))) in
    cl_tors c = sl_tors s ∧ cl_spines c = sl_spines s ∧ co_spineAddresses (cl_core c) = sl_coreSpineAddresses s;
}.

Lemma NewCluster_planned m c : NewCluster m = Ok c → ∃ nw inv, planned m c nw inv.
Proof.
  unfold NewCluster. destruct (mn_network m) as [nw|] eqn:Hn; [|done].
  destruct (mn_inventory m) as [inv|] eqn:Hi; [|done]. destruct (nw_ntp nw) as [ntp|] eqn:Ht; [|done].
  intros E. exists nw, inv.
  assert (is_Rack inv = [] ∨ 0 <= nw_nodeRangeSize nw) as Hs.
  { destruct (is_Rack inv) as [|rm rms]; [by left|right]. destruct (Z.ltb_spec (nw_nodeRangeSize nw) 0); [|done].
    exfalso. revert E. cbn [rack_loop]. unfold new_rack, makeNodeNetwork.
    by rewrite (proj2 (Z.ltb_lt _ _)) by done. }
  assert (rack_loop nw (node_specs (mn_nodes m)) (is_Spine inv) (is_Rack inv) 0 [] [] =
          Ok (imap (λ i rm, the_rack nw (node_specs (mn_nodes m)) (Z.of_nat i) rm (2 * i)) (is_Rack inv),
              concat (imap (λ i _, the_tors nw (is_Spine inv) (Z.of_nat i)) (is_Rack inv)))) as Hr.
  { destruct Hs as [Hs|Hs]; [by rewrite Hs|by apply rack_loop_eq]. }
  rewrite Hr in E. cbn [mbind outcome_bind] in E. injection E as <-. by split; try done; rewrite Ht.
Qed.
End closed.
