(* ===== verification/MenuRefs.v ===== *)
(** * The specification is well formed

    Every network that a machine or a namespace of the specification is attached to is
    declared in it, and the generator returns one whenever the specifications of the
    nodes in the racks are there. *)
From S2P Require Import Prelude GoStr GoTime Json Types Etcd Worlds Storage Watch Worker.
From S2P Require Import Updater GoNet Host Progs Rebooter BootIP Menu MenuSpec MenuProofs.

Local Open Scope Z_scope.

Lemma elem_of_concat {A} (ls : list (list A)) x : x ∈ concat ls ↔ ∃ l, x ∈ l ∧ l ∈ ls.
Proof.
  rewrite list_elem_of_In, in_concat. split; intros (l & ? & ?); exists l; by rewrite ?list_elem_of_In in *.
Qed.

Lemma outcomes_ok {A B} (f : A → outcome B) (P : B → Prop) l :
  (∀ x, x ∈ l → ∃ y, f x = Ok y ∧ P y) → ∃ ys, outcomes f l = Ok ys ∧ Forall P ys.
Proof.
  induction l as [|x l IH]; intros Hl; simpl; [by exists []|].
  destruct (Hl x) as (y & -> & Hy); [apply list_elem_of_here|]. destruct IH as (ys & -> & Hys).
  { intros x' Hx. apply Hl. by apply list_elem_of_further. }
  exists (y :: ys). by split; [|constructor].
Qed.
Lemma outcomes_i_ok {A B} (f : nat → A → outcome B) (P : B → Prop) i l :
  (∀ j x, l !! j = Some x → ∃ y, f (i + j)%nat x = Ok y ∧ P y) → ∃ ys, outcomes_i f i l = Ok ys ∧ Forall P ys.
Proof.
  revert i. induction l as [|x l IH]; intros i Hl; simpl; [by exists []|].
  destruct (Hl O x) as (y & Hy & HP); [done|]. rewrite Nat.add_0_r in Hy. rewrite Hy.
  destruct (IH (S i)) as (ys & -> & Hys).
  { intros j x' Hx. specialize (Hl (S j) x' Hx). by rewrite Nat.add_succ_r in Hl. }
  exists (y :: ys). by split; [|constructor].
Qed.

Section refs.
Context `{NetUtilLaws} `{MenuYaml} `{Sha1}.

(** The networks that a namespace, a machine is attached to are among [names]. *)
Definition netns_refs (names : list string) (n : NetNSSpec) : Prop :=
  Forall (λ i, ni_Network i ∈ names) (nn_Interfaces n).
Definition node_refs (names : list string) (n : NodeSpec) : Prop :=
  Forall (λ i, i ∈ names) (pn_Interfaces n).
Definition declared (spec : ClusterSpec) : list string := map nwk_Name (cs_Networks spec).

(** A specification in which nothing refers to an undeclared network. *)
Definition well_formed (spec : ClusterSpec) : Prop :=
  Forall (node_refs (declared spec)) (cs_Nodes spec) ∧ Forall (netns_refs (declared spec)) (cs_NetNSs spec).

Definition names_of (c : Cluster) : list string := map nwk_Name (appendNetworks c).

Lemma names_fixed c name :
  name ∈ ["internet"; "core-to-ext"; "core-to-op"; "core-ntp"; "bmc"] → name ∈ names_of c.
Proof.
  intros Hn. unfold names_of, appendNetworks. rewrite !map_app, !elem_of_app.
  repeat (apply elem_of_cons in Hn as [->|Hn]; [simpl; set_solver|]). by apply not_elem_of_nil in Hn.
Qed.
Lemma names_proxy c : co_proxyAddress (cl_core c) ≠ [] → "core-node0" ∈ names_of c.
Proof.
  intros Hp. unfold names_of, appendNetworks. rewrite bool_decide_eq_false_2 by done.
  rewrite !map_app, !elem_of_app. simpl. set_solver.
Qed.
Lemma names_core c s : s ∈ cl_spines c → core_link (sp_shortName s) ∈ names_of c.
Proof.
  intros Hs. unfold names_of, appendNetworks. rewrite !map_app, !elem_of_app. right. left.
  rewrite map_map. apply list_elem_of_fmap. eauto.
Qed.
Lemma names_tor c s r i :
  s ∈ cl_spines c → r ∈ cl_racks c → i = 1 ∨ i = 2 → tor_link (sp_shortName s) (ra_shortName r) i ∈ names_of c.
Proof.
  intros Hs Hr Hi. unfold names_of, appendNetworks. rewrite !map_app, !elem_of_app. do 6 right. left.
  apply list_elem_of_fmap. exists (internal (tor_link (sp_shortName s) (ra_shortName r) i)). split; [done|].
  apply elem_of_concat. eexists. split; [|apply list_elem_of_fmap; by eexists s].
  apply elem_of_concat. eexists. split; [|apply list_elem_of_fmap; by eexists r].
  destruct Hi as [-> | ->]; set_solver.
Qed.
Lemma names_rack c r i : r ∈ cl_racks c → i = 1 ∨ i = 2 → rack_net (ra_shortName r) i ∈ names_of c.
Proof.
  intros Hr Hi. unfold names_of, appendNetworks. rewrite !map_app, !elem_of_app. do 7 right.
  apply list_elem_of_fmap. exists (internal (rack_net (ra_shortName r) i)). split; [done|].
  apply elem_of_concat. eexists. split; [|apply list_elem_of_fmap; by eexists r].
  destruct Hi as [-> | ->]; set_solver.
Qed.

(** ** The shape of a cluster that was planned *)
Record wired (c : Cluster) : Prop := {
  wi_rack i r : cl_racks c !! i = Some r →
    ∃ t1 t2, cl_tors c !! ra_tor1 r = Some t1 ∧ cl_tors c !! ra_tor2 r = Some t2 ∧
      length (to_spineAddresses t1) = length (cl_spines c) ∧ length (to_spineAddresses t2) = length (cl_spines c);
  wi_spine i s : cl_spines c !! i = Some s →
    sp_shortName s = "s" +:+ Itoa (Z.of_nat i + 1) ∧ length (sp_torAddresses s) = (2 * length (cl_racks c))%nat;
  wi_core : length (co_spineAddresses (cl_core c)) = length (cl_spines c);
}.

Lemma length_tors nw spines (l : list rackMenu) i0 :
  length (concat (imap (λ i _, the_tors nw spines (i0 + Z.of_nat i)) l)) = (2 * length l)%nat.
Proof.
  revert i0. induction l as [|x l IH]; intros i0; [done|]. rewrite imap_cons. simpl.
  specialize (IH (i0 + 1)). rewrite <-(imap_ext (λ i _, the_tors nw spines (i0 + 1 + Z.of_nat i))); [rewrite IH; lia|].
  intros i y _. unfold compose. by replace (i0 + 1 + Z.of_nat i) with (i0 + Z.of_nat (S i)) by lia.
Qed.
Lemma length_all_tors nw spines (l : list rackMenu) :
  length (concat (imap (λ i _, the_tors nw spines (Z.of_nat i)) l)) = (2 * length l)%nat.
Proof. exact (length_tors nw spines l 0). Qed.
Lemma tors_unwired nw spines (l : list rackMenu) :
  Forall (λ t, to_spineAddresses t = []) (concat (imap (λ i _, the_tors nw spines (Z.of_nat i)) l)).
Proof.
  apply Forall_concat, Forall_forall. intros ts (i & x & -> & _)%elem_of_lookup_imap_1. by repeat constructor.
Qed.

Lemma NewCluster_wired m c : NewCluster m = Ok c → wired c.
Proof.
  intros (nw & inv & P)%NewCluster_planned. destruct P as [_ _ _ _ _ Hr (Ht & Hs & Hc)].
  set (tors := concat _) in *.
  pose proof (length_all_tors nw (is_Spine inv) (is_Rack inv)) as Hlen. change (concat _) with tors in Hlen.
  pose proof (spine_loop_shape nw tors (is_Spine inv)) as [Hn Hcl Htl Hsp].
  pose proof (tors_unwired nw (is_Spine inv) (is_Rack inv)) as Hun. change (concat _) with tors in Hun.
  rewrite <-Ht in Htl. rewrite <-Hs in Hn, Hsp. split.
  - intros i r Hi. rewrite Hr, list_lookup_imap in Hi. destruct (is_Rack inv !! i) as [rm|] eqn:Ei; [|done].
    injection Hi as <-. apply lookup_lt_Some in Ei.
    assert (∀ p, (p < length tors)%nat → ∃ t, cl_tors c !! p = Some t ∧ length (to_spineAddresses t) = length (cl_spines c)) as Hp.
    { intros p Hp. destruct (lookup_lt_is_Some_2 tors p Hp) as [t0 Ht0].
      destruct (Forall2_lookup_l _ _ _ _ _ Htl Ht0) as (t & Hl & _ & _ & _ & Hspl). exists t. split; [done|].
      rewrite Hspl, (Forall_lookup_1 _ _ _ _ Hun Ht0), Hn. done. }
    destruct (Hp (2 * i)%nat) as (t1 & ? & ?); [lia|]. destruct (Hp (S (2 * i))) as (t2 & ? & ?); [lia|].
    exists t1, t2. by split_and!.
  - intros i s Hi. destruct (Hsp i s Hi) as (_ & ? & Hl). split; [done|]. by rewrite Hl, Hlen, Hr, length_imap.
  - rewrite Hc, Hcl. by rewrite Hn.
Qed.

(** The elements of a list, one by one. *)
Ltac each := repeat first [apply Forall_nil_2|apply Forall_cons_2].

(** ** Generation *)
Definition rack_servers (r : rack) : list node := bn_node (ra_bootNode r) :: ra_csList r ++ ra_ssList r.
(** Every node of the racks has a specification. *)
Definition specified (c : Cluster) : Prop :=
  ∀ r n, r ∈ cl_racks c → n ∈ rack_servers r → is_Some (no_spec n).

Section generated.
Variable c : Cluster.
Let names := names_of c.

Lemma rack_refs r : r ∈ cl_racks c →
  Forall (λ i, i ∈ names) [rack_net (ra_shortName r) 1; rack_net (ra_shortName r) 2].
Proof. intros Hr. each; apply names_rack; auto. Qed.

Lemma nodes_ok dir : specified c → ∃ ns, appendNodes c dir = Ok ns ∧ Forall (node_refs names) ns.
Proof.
  intros Hspec.
  assert (∀ r n, r ∈ cl_racks c → n ∈ ra_csList r ++ ra_ssList r →
            ∃ y, createWorkerNode r n (no_spec n) = Ok y ∧ node_refs names y) as Hworker.
  { intros r n Hr Hn. destruct (Hspec r n Hr) as [sp Hsp]; [by right|]. rewrite Hsp. eexists. split; [done|].
    by apply rack_refs. }
  destruct (outcomes_ok (rack_nodes dir) (Forall (node_refs names)) (cl_racks c)) as (ns & Hns & Hall).
  { intros r Hr. unfold rack_nodes.
    destruct (Hspec r (bn_node (ra_bootNode r)) Hr) as [sp Hsp]; [left|].
    destruct (outcomes_ok (λ n, createWorkerNode r n (no_spec n)) (node_refs names) (ra_csList r)) as (css & Hcs & Hcsr).
    { intros n Hn. apply Hworker; [done|]. apply elem_of_app. by left. }
    destruct (outcomes_ok (λ n, createWorkerNode r n (no_spec n)) (node_refs names) (ra_ssList r)) as (sss & Hss & Hssr).
    { intros n Hn. apply Hworker; [done|]. apply elem_of_app. by right. }
    unfold boot_node. rewrite Hsp. cbn [mbind outcome_bind]. rewrite Hcs. cbn [mbind outcome_bind]. rewrite Hss.
    eexists. split; [done|]. constructor; [by apply rack_refs|]. by apply Forall_app. }
  unfold appendNodes. rewrite Hns. eexists. split; [done|]. apply Forall_app. split; [by apply Forall_concat|].
  each. apply names_fixed. set_solver.
Qed.

Lemma index_at_ok {A} (l : list A) i : (i < length l)%nat → ∃ x, index_at l i = Ok x.
Proof. intros [x Hx]%lookup_lt_is_Some_2. unfold index_at. rewrite Hx. by eexists. Qed.

Hypothesis Hwired : wired c.

Lemma core_ok : netns_refs names (core_netns c).
Proof.
  unfold netns_refs, core_netns. cbn [nn_Interfaces]. rewrite !Forall_app. split_and!.
  - each; apply names_fixed; set_solver.
  - case_bool_decide; each. by apply names_proxy.
  - each. apply names_fixed. set_solver.
  - apply Forall_forall. intros x (i & a & -> & Hi)%elem_of_lookup_imap_1. cbn [ni_Network iface_spec].
    apply lookup_lt_Some in Hi. rewrite (wi_core _ Hwired) in Hi. apply lookup_lt_is_Some_2 in Hi as [s Hs].
    destruct (wi_spine _ Hwired _ _ Hs) as [Hn _]. change "core-to-s" with ("core-to-" +:+ "s").
    rewrite string_app_assoc, <-Hn. apply names_core. by eapply list_elem_of_lookup_2.
Qed.

Lemma spines_ok : ∃ ns, outcomes_i (spine_netns c) 0 (cl_spines c) = Ok ns ∧ Forall (netns_refs names) ns.
Proof.
  apply outcomes_i_ok. intros i s Hs. simpl. unfold spine_netns.
  destruct (wi_spine _ Hwired _ _ Hs) as [_ Hl]. apply list_elem_of_lookup_2 in Hs.
  destruct (outcomes_i_ok (spine_rack_ifaces s) (Forall (λ x, ni_Network x ∈ names)) 0 (cl_racks c)) as (links & -> & Hlinks).
  { intros j r Hr. pose proof (lookup_lt_Some _ _ _ Hr) as Hj. apply list_elem_of_lookup_2 in Hr. unfold spine_rack_ifaces, tor1Address, tor2Address.
    destruct (index_at_ok (sp_torAddresses s) (j * 2)) as [a1 Ha1]; [lia|].
    destruct (index_at_ok (sp_torAddresses s) (j * 2 + 1)) as [a2 Ha2]; [lia|].
    simpl. rewrite Ha1. cbn [mbind outcome_bind]. rewrite Ha2. eexists. split; [done|].
    each; apply names_tor; auto. }
  eexists. split; [done|]. unfold netns_refs. cbn [nn_Interfaces]. apply Forall_app. split; [|by apply Forall_concat].
  each; [by apply names_core|apply names_fixed; set_solver].
Qed.

Lemma tor_ok r t i : r ∈ cl_racks c → i = 1 ∨ i = 2 → length (to_spineAddresses t) = length (cl_spines c) →
  ∃ n, createToRNetNs c r t i = Ok n ∧ netns_refs names n.
Proof.
  intros Hr Hi Hl. unfold createToRNetNs.
  destruct (outcomes_i_ok (λ k s, a ← index_at (to_spineAddresses t) k;
      Ok (iface_spec (tor_link (sp_shortName s) (ra_shortName r) i) (IPNet_String a)))
      (λ x, ni_Network x ∈ names) 0 (cl_spines c)) as (links & -> & Hlinks).
  { intros j s Hs. pose proof (lookup_lt_Some _ _ _ Hs) as Hj. apply list_elem_of_lookup_2 in Hs.
    destruct (index_at_ok (to_spineAddresses t) j) as [a Ha]; [lia|]. simpl. rewrite Ha. eexists. split; [done|].
    by apply names_tor. }
  eexists. split; [done|]. unfold netns_refs. cbn [nn_Interfaces]. apply Forall_app. split; [done|].
  each. by apply names_rack.
Qed.
Lemma tors_ok : ∃ ns, outcomes (rack_netns c) (cl_racks c) = Ok ns ∧ Forall (Forall (netns_refs names)) ns.
Proof.
  apply outcomes_ok. intros r Hr. pose proof Hr as [i Hi]%list_elem_of_lookup.
  destruct (wi_rack _ Hwired _ _ Hi) as (t1 & t2 & Ht1 & Ht2 & Hl1 & Hl2).
  destruct (tor_ok r t1 1) as (n1 & Hn1 & Hr1); [auto..|]. destruct (tor_ok r t2 2) as (n2 & Hn2 & Hr2); [auto..|].
  unfold rack_netns, tor_at. rewrite Ht1. cbn [mbind outcome_bind]. rewrite Hn1. cbn [mbind outcome_bind].
  rewrite Ht2. cbn [mbind outcome_bind]. rewrite Hn2. eexists. split; [done|]. by each.
Qed.
End generated.

(** C33: from a menu that [NewCluster] accepts and that specifies its nodes, the
    generator returns a specification without panicking, and every network that a
    machine or a network namespace is attached to is declared in it. *)
Theorem generateClusterSpec_well_formed m c dir :
  NewCluster m = Ok c → specified c → ∃ spec, generateClusterSpec c dir = Ok spec ∧ well_formed spec.
Proof.
  intros Hw%NewCluster_wired Hspec. unfold generateClusterSpec, appendNetworkNamespaces.
  destruct (nodes_ok c dir Hspec) as (ns & -> & Hns). destruct (spines_ok c Hw) as (ss & Hss & Hsr).
  destruct (tors_ok c Hw) as (ts & Hts & Htr). cbn [mbind outcome_bind]. rewrite Hss. cbn [mbind outcome_bind].
  rewrite Hts. eexists. split; [done|]. split; [done|]. cbn [cs_NetNSs]. rewrite !Forall_app.
  split_and!; [|done|by apply Forall_concat|].
  - apply Forall_singleton. by apply core_ok.
  - each; apply names_fixed; set_solver.
Qed.
End refs.
