(* ===== verification/MenuNodes.v ===== *)
(** * The addresses of links and nodes

    No address is planned twice. *)
From S2P Require Import Prelude GoStr GoTime Json Types Etcd Worlds Storage Watch Worker.
From S2P Require Import Updater GoNet Host Progs Rebooter BootIP BootIPProofs BootIPRun BootIPNetlink.
From S2P Require Import Menu MenuSpec MenuConf MenuProofs MenuRefs.

Local Open Scope Z_scope.

(** ** Links of spines *)
Section links.
Context `{NetUtilLaws} `{MenuYaml} `{Sha1}.

Lemma tor_loop_values ts base v ts' addrs base' :
  net_value base v → v + 2 * Z.of_nat (length ts) < 2 ^ 32 → tor_loop ts base = (ts', addrs, base') →
  net_value base' (v + 2 * Z.of_nat (length ts)) ∧
  (∀ j a, addrs !! j = Some a → net_value a (v + 2 * Z.of_nat j)) ∧
  (∀ j t', ts' !! j = Some t' → ∃ t a, ts !! j = Some t ∧
     to_spineAddresses t' = to_spineAddresses t ++ [a] ∧ net_value a (v + 2 * Z.of_nat j + 1)).
Proof.
  revert base v ts' addrs base'. induction ts as [|t ts IH]; intros base v ts' addrs base' Hb Hv; simpl.
  { intros [= <- <- <-]. rewrite Z.add_0_r. done. }
  assert (0 <= v) as Hv0 by apply Hb. simpl length in Hv.
  assert (net_value (addToIPNet base 1) (v + 1)) as Ha1 by (apply add_value; [done|lia]).
  assert (net_value (addToIPNet (addToIPNet base 1) 1) (v + 2)) as Ha2.
  { replace (v + 2) with (v + 1 + 1) by lia. apply add_value; [done|lia]. }
  destruct (tor_loop ts _) as [[ts1 addrs1] base1] eqn:E. intros [= <- <- <-].
  destruct (IH _ _ _ _ _ Ha2 ltac:(lia) E) as (Hb' & Haddrs & Htors). split_and!.
  - by replace (v + 2 * Z.of_nat (S (length ts))) with (v + 2 + 2 * Z.of_nat (length ts)) by lia.
  - intros [|j] a Hj; simpl in Hj; [injection Hj as <-; by rewrite Z.add_0_r|].
    apply Haddrs in Hj. by replace (v + 2 * Z.of_nat (S j)) with (v + 2 + 2 * Z.of_nat j) by lia.
  - intros [|j] t' Hj; simpl in Hj.
    + injection Hj as <-. exists t, (addToIPNet base 1). split_and!; [done|done|].
      by rewrite Z.add_0_r.
    + destruct (Htors _ _ Hj) as (t0 & a & ? & ? & ?). exists t0, a. split_and!; [done|done|].
      by replace (v + 2 * Z.of_nat (S j) + 1) with (v + 2 + 2 * Z.of_nat j + 1) by lia.
Qed.

Section loop.
Variable nw : network.
Variable tors : list tor.
Variables t b : Z.             (* the first addresses for spine-ToR and core-spine links *)
Hypothesis unwired : Forall (λ t, to_spineAddresses t = []) tors.
Abbreviation T := (Z.of_nat (length tors)).

Record values (k : nat) (s : SpineLoop) : Prop := {
  va_core : net_value (sl_coreSpineBaseAddr s) (b + 2 * Z.of_nat k);
  va_base : net_value (sl_spineTorBaseAddr s) (t + 2 * (Z.of_nat k * T));
  va_coreSpine i a : sl_coreSpineAddresses s !! i = Some a → net_value a (b + 2 * Z.of_nat i);
  va_spine i sp : sl_spines s !! i = Some sp → net_value (sp_coreAddress sp) (b + 2 * Z.of_nat i + 1) ∧
    ∀ j a, sp_torAddresses sp !! j = Some a → net_value a (t + 2 * (Z.of_nat i * T + Z.of_nat j));
  va_tor j tr : sl_tors s !! j = Some tr → ∀ i a, to_spineAddresses tr !! i = Some a →
    net_value a (t + 2 * (Z.of_nat i * T + Z.of_nat j) + 1);
}.

Lemma values_step k s :
  shape tors k s → values k s → b + 2 * (Z.of_nat k + 1) < 2 ^ 32 → t + 2 * ((Z.of_nat k + 1) * T) < 2 ^ 32 →
  values (S k) (spine_step nw s (Z.of_nat k)).
Proof.
  intros [Hk Hc Ht _] [Hcore Hbase Hcs Hsp Htor] Hb Ht32. unfold spine_step.
  destruct (tor_loop (sl_tors s) _) as [[ts addrs] base] eqn:E.
  assert (length (sl_tors s) = length tors) as Hlen by (symmetry; by eapply Forall2_length).
  apply (tor_loop_values _ _ _ _ _ _ Hbase) in E as (Hbase' & Haddrs & Htors); [|rewrite Hlen; lia].
  rewrite Hlen in Hbase'. assert (0 <= b + 2 * Z.of_nat k) by apply Hcore.
  assert (net_value (addToIPNet (sl_coreSpineBaseAddr s) 1) (b + 2 * Z.of_nat k + 1)) as Hc1 by (apply add_value; [done|lia]).
  split; cbn [sl_coreSpineBaseAddr sl_spineTorBaseAddr sl_coreSpineAddresses sl_tors sl_spines].
  - replace (b + 2 * Z.of_nat (S k)) with (b + 2 * Z.of_nat k + 1 + 1) by lia. apply add_value; [done|lia].
  - by replace (t + 2 * (Z.of_nat (S k) * T)) with (t + 2 * (Z.of_nat k * T) + 2 * T) by lia.
  - intros i a [Hi|[Hge Hi]]%lookup_app_Some; [by apply Hcs|].
    apply list_lookup_singleton_Some in Hi as [Hi <-]. by replace i with k by lia.
  - intros i sp [Hi|[Hge Hi]]%lookup_app_Some; [by apply Hsp|].
    apply list_lookup_singleton_Some in Hi as [Hi <-]. replace i with k by lia. cbn [sp_coreAddress sp_torAddresses].
    split; [done|]. intros j a Ha%Haddrs.
    by replace (t + 2 * (Z.of_nat k * T + Z.of_nat j)) with (t + 2 * (Z.of_nat k * T) + 2 * Z.of_nat j) by lia.
  - intros j tr Hj. destruct (Htors _ _ Hj) as (t0 & a & Hj0 & -> & Ha). intros i a' [Hi|[Hge Hi]]%lookup_app_Some.
    { by eapply Htor. }
    apply list_lookup_singleton_Some in Hi as [Hi <-].
    destruct (Forall2_lookup_r _ _ _ _ _ Ht Hj0) as (t1 & Hj1 & _ & _ & _ & Hl).
    rewrite (Forall_lookup_1 _ _ _ _ unwired Hj1) in Hl. simpl in Hl. replace i with k by lia.
    by replace (t + 2 * (Z.of_nat k * T + Z.of_nat j) + 1) with (t + 2 * (Z.of_nat k * T) + 2 * Z.of_nat j + 1) by lia.
Qed.

Lemma spine_loop_values spines :
  net_value (nw_coreSpine nw) b → is_v4 (nw_spineTor nw) t →
  b + 2 * Z.max 0 spines < 2 ^ 32 → t + 2 * (Z.max 0 spines * T) < 2 ^ 32 →
  values (Z.to_nat spines) (spine_loop nw spines tors).
Proof.
  intros Hb Ht Hb32 Ht32.
  enough (shape tors (Z.to_nat spines) (spine_loop nw spines tors) ∧ values (Z.to_nat spines) (spine_loop nw spines tors)) by tauto.
  apply (spine_fold nw (λ k s, shape tors k s ∧ values k s)).
  - split; [by apply (spine_loop_shape nw tors 0)|]. split; simpl; [by rewrite Z.add_0_r|unfold net_value; simpl; by rewrite Z.add_0_r|done|done|].
    intros j tr Hj. by rewrite (Forall_lookup_1 _ _ _ _ unwired Hj).
  - intros k s Hk [Hs Hv]. split; [by apply shape_step|]. apply values_step; [done|done|lia|nia].
Qed.
End loop.

(** The two ends of the link between spine [i] and the first or second ToR of rack [r],
    and how many links come before it. *)
Definition spine_end (c : Cluster) (i r : nat) (second : bool) : outcome IPNet :=
  s ← index_at (cl_spines c) i; if second then tor2Address s r else tor1Address s r.
Definition tor_end (c : Cluster) (i r : nat) (second : bool) : outcome IPNet :=
  rk ← index_at (cl_racks c) r;
  t ← tor_at c (if second then ra_tor2 rk else ra_tor1 rk);
  index_at (to_spineAddresses t) i.
Definition link_number (racks i r : nat) (second : bool) : nat :=
  (i * (2 * racks) + (r * 2 + if second then 1 else 0))%nat.

Lemma link_number_inj racks i r s i' r' s' :
  (r < racks)%nat → (r' < racks)%nat → link_number racks i r s = link_number racks i' r' s' →
  i = i' ∧ r = r' ∧ s = s'.
Proof.
  unfold link_number. intros Hr Hr' E.
  assert (i = i') as ->; [destruct s, s'; nia|]. destruct s, s'; split_and!; try done; lia.
Qed.

(** With the first address [t] for the links between spines and ToRs, link number
    [l] has [t + 2l] at the spine and [t + 2l + 1] at the ToR, and no two links have the
    same number: both ends are of one pair (of one /31 if [t] is even), and no address is
    used for two links. *)
Theorem spine_tor_links m c nw inv t b :
  NewCluster m = Ok c → mn_network m = Some nw → mn_inventory m = Some inv →
  is_v4 (nw_spineTor nw) t → net_value (nw_coreSpine nw) b →
  b + 2 * Z.max 0 (is_Spine inv) < 2 ^ 32 →
  t + 4 * (Z.max 0 (is_Spine inv) * Z.of_nat (length (is_Rack inv))) < 2 ^ 32 →
  ∀ i r second, (Z.of_nat i < is_Spine inv) → (r < length (is_Rack inv))%nat →
  let l := Z.of_nat (link_number (length (is_Rack inv)) i r second) in
  (∃ a a', spine_end c i r second = Ok a ∧ tor_end c i r second = Ok a' ∧
     net_value a (t + 2 * l) ∧ net_value a' (t + 2 * l + 1)) ∧
  (∀ i' r' second', (r' < length (is_Rack inv))%nat →
     Z.of_nat (link_number (length (is_Rack inv)) i' r' second') = l → i' = i ∧ r' = r ∧ second' = second).
Proof.
  intros E Hnw Hinv Ht Hb Hb32 Ht32 i r second Hi Hr l. split.
  2: { intros i' r' s' Hr' El. apply (link_number_inj (length (is_Rack inv))); [done|done|]. unfold l in El. lia. }
  pose proof (NewCluster_wired _ _ E) as Hw. apply NewCluster_planned in E as (nw' & inv' & P).
  destruct P as [Hn1 Hi1 _ _ _ Hrk (Hto & Hsp & Hco)].
  rewrite Hnw in Hn1. injection Hn1 as <-. rewrite Hinv in Hi1. injection Hi1 as <-.
  set (tors := concat _) in *.
  pose proof (length_all_tors nw (is_Spine inv) (is_Rack inv)) as Hlen. change (concat _) with tors in Hlen.
  pose proof (tors_unwired nw (is_Spine inv) (is_Rack inv)) as Hun. change (concat _) with tors in Hun.
  pose proof (spine_loop_values nw tors t b Hun (is_Spine inv) Hb Ht Hb32 ltac:(nia)) as Hval.
  pose proof (spine_loop_shape nw tors (is_Spine inv)) as Hsh.
  assert (length (cl_racks c) = length (is_Rack inv)) as Hrl by (by rewrite Hrk, length_imap).
  destruct (lookup_lt_is_Some_2 (cl_spines c) i) as [s Hs]; [rewrite Hsp, (sh_spines _ _ _ Hsh); lia|].
  destruct (lookup_lt_is_Some_2 (cl_racks c) r) as [rk Hrr]; [lia|].
  pose (j := (r * 2 + if second then 1 else 0)%nat).
  assert (cl_tors c !! j = cl_tors c !! (if second then ra_tor2 rk else ra_tor1 rk)) as Hj.
  { rewrite Hrk, list_lookup_imap in Hrr. destruct (is_Rack inv !! r); [|done]. injection Hrr as <-.
    f_equal. unfold j. destruct second; simpl; lia. }
  assert (∃ tr, cl_tors c !! j = Some tr ∧ length (to_spineAddresses tr) = length (cl_spines c)) as (tr & Htr & Htl).
  { rewrite Hj. destruct (wi_rack _ Hw _ _ Hrr) as (t1 & t2 & ? & ? & ? & ?). destruct second; eauto. }
  destruct (wi_spine _ Hw _ _ Hs) as [_ Hsl].
  destruct (lookup_lt_is_Some_2 (sp_torAddresses s) j) as [a Ha]; [unfold j; destruct second; lia|].
  destruct (lookup_lt_is_Some_2 (to_spineAddresses tr) i) as [a' Ha']; [apply lookup_lt_Some in Hs; lia|].
  exists a, a'. assert (l = Z.of_nat i * Z.of_nat (length tors) + Z.of_nat j) as -> by (unfold l, link_number, j; lia).
  split_and!.
  - unfold spine_end, index_at. rewrite Hs. cbn [mbind outcome_bind]. unfold tor1Address, tor2Address, index_at, j in *.
    destruct second; [by rewrite Ha|]. rewrite Nat.add_0_r in Ha. by rewrite Ha.
  - unfold tor_end, index_at, tor_at. rewrite Hrr. cbn [mbind outcome_bind]. rewrite <-Hj, Htr. simpl. by rewrite Ha'.
  - rewrite Hsp in Hs. by apply (va_spine _ _ _ _ _ Hval i s Hs).
  - rewrite Hto in Htr. by apply (va_tor _ _ _ _ _ Hval j tr Htr).
Qed.
End links.

(** ** Nodes *)
(** ** Lists without duplicates *)
Lemma NoDup_concat_map {A B} (f : A → list B) l :
  NoDup l → (∀ x, x ∈ l → NoDup (f x)) → (∀ x x' y, x ∈ l → x' ∈ l → y ∈ f x → y ∈ f x' → x = x') →
  NoDup (concat (map f l)).
Proof.
  induction 1 as [|x l Hx Hl IH]; intros Hf Hdisj; simpl; [constructor|]. apply NoDup_app. split_and!.
  - apply Hf. left.
  - intros y Hy (ys & Hy' & (x' & -> & Hx')%list_elem_of_fmap)%elem_of_concat.
    assert (x = x') as -> by (eapply (Hdisj x x' y); [left|by right|done|done]). done.
  - apply IH; [intros; apply Hf; by right|]. intros x1 x2 y H1 H2. apply Hdisj; by right.
Qed.
Lemma upto_elem n i : i ∈ upto n ↔ 0 <= i < n.
Proof.
  unfold upto. rewrite list_elem_of_fmap. setoid_rewrite elem_of_seq. split.
  - intros (k & -> & Hk). lia.
  - intros Hi. exists (Z.to_nat i). lia.
Qed.
Lemma upto_NoDup n : NoDup (upto n).
Proof. apply NoDup_fmap_2; [apply _|apply NoDup_seq]. Qed.

Section nodes.
Context `{NetUtilLaws} `{MenuYaml} `{Sha1}.

(** The addresses of a rack: its ToRs' towards the nodes, and three of each node. *)
Definition server_addresses (n : node) : list IPNet := [no_node0Address n; no_node1Address n; no_node2Address n].
Definition rack_addresses (r : rack) : list IPNet :=
  let boot := bn_node (ra_bootNode r) in
  [no_tor1Address boot; no_tor2Address boot] ++ concat (map server_addresses (rack_servers r)).

(** Where an address is in the range of its rack: the network and the offset in it. *)
Definition offsets (rm : rackMenu) : list Z :=
  3 :: map (λ i, 4 + i) (upto (rm_Cs rm)) ++ map (λ i, 4 + i + rm_Cs rm) (upto (rm_Ss rm)).
Definition slots (rm : rackMenu) : list (Z * Z) :=
  [(1, 1); (2, 1)] ++ concat (map (λ o, [(0, o); (1, o); (2, o)]) (offsets rm)).

Lemma offsets_bounds rm o : 0 <= rm_Cs rm → o ∈ offsets rm → 3 <= o < 4 + rm_Cs rm + Z.max 0 (rm_Ss rm).
Proof.
  intros Hcs [->|[(i & -> & Hi%upto_elem)%list_elem_of_fmap|(i & -> & Hi%upto_elem)%list_elem_of_fmap]%elem_of_app]%elem_of_cons; lia.
Qed.
Lemma offsets_NoDup rm : 0 <= rm_Cs rm → NoDup (offsets rm).
Proof.
  intros Hcs. constructor.
  - intros [(i & Hi & Hu%upto_elem)%list_elem_of_fmap|(i & Hi & Hu%upto_elem)%list_elem_of_fmap]%elem_of_app; lia.
  - apply NoDup_app. split_and!.
    + apply NoDup_fmap_2; [intros ??; lia|apply upto_NoDup].
    + intros o (i & -> & Hi%upto_elem)%list_elem_of_fmap (j & Hj & Hu%upto_elem)%list_elem_of_fmap. lia.
    + apply NoDup_fmap_2; [intros ??; lia|apply upto_NoDup].
Qed.
Lemma slots_elem rm k o : 0 <= rm_Cs rm → (k, o) ∈ slots rm → 0 <= k <= 2 ∧ 1 <= o < 4 + rm_Cs rm + Z.max 0 (rm_Ss rm).
Proof.
  intros Hcs [Hin|(l & Hl & (x & -> & Hx%offsets_bounds)%list_elem_of_fmap)%elem_of_concat]%elem_of_app; [|set_unfold; naive_solver lia|done].
  set_unfold. naive_solver lia.
Qed.
Lemma slots_NoDup rm : 0 <= rm_Cs rm → NoDup (slots rm).
Proof.
  intros Hcs. apply NoDup_app. split_and!.
  - repeat (constructor; [set_solver|]). constructor.
  - intros [k o] Hko (l & Hl & (x & -> & Hx%offsets_bounds)%list_elem_of_fmap)%elem_of_concat; [|done].
    set_unfold. naive_solver lia.
  - apply NoDup_concat_map; [by apply offsets_NoDup| |].
    + intros o _. repeat (constructor; [set_solver|]). constructor.
    + intros x x' [k o] _ _ H3 H4. set_unfold. naive_solver.
Qed.

(** ** Values *)
Ltac each2 := repeat first [apply List.Forall2_nil|apply List.Forall2_cons].

Section values.
Variable nw : network.
Variable specs : gmap string nodeSpec.
Variable v : Z.
Hypothesis Hbase : is_v4 (nw_nodeBase nw) v.
Hypothesis Hsize : 0 <= nw_nodeRangeSize nw.
Abbreviation size := (2 ^ nw_nodeRangeSize nw).

(** The value of an address at offset [o] of network [k] of rack [r]. *)
Definition slot_value (slot : Z * Z * Z) : Z :=
  let '(r, k, o) := slot in v + size * (r * 3 + k) + o.

Lemma node_net_value k : 0 <= k → v + size * (k + 1) <= 2 ^ 32 → net_value (node_net nw k) (v + size * k).
Proof.
  intros Hk Hv. destruct Hbase as [Hv0 _]. assert (0 < size) by (apply Z.pow_pos_nonneg; lia).
  assert (size <= 2 ^ 32) by nia. assert (0 <= size * k <= 2 ^ 32) by nia.
  unfold node_net, net_value. cbn [ipn_IP]. rewrite Z.shiftl_1_l.
  rewrite (wrap64_id size) by (unfold in_int64, int64_min, int64_max; lia).
  rewrite (wrap64_id (size * k)) by (unfold in_int64, int64_min, int64_max; lia).
  apply IPAdd_v4; [done|nia].
Qed.

Lemma slot_net r k o :
  0 <= r → 0 <= k <= 2 → 0 <= o < size → v + size * (r * 3 + 3) <= 2 ^ 32 →
  net_value (node_net nw (r * 3 + k)) (slot_value (r, k, 0)) ∧ 0 <= slot_value (r, k, 0) + o < 2 ^ 32 ∧
  slot_value (r, k, 0) + o = slot_value (r, k, o).
Proof.
  intros Hr Hk Ho Hv. destruct Hbase as [Hv0 _]. unfold slot_value. split_and!.
  - rewrite Z.add_0_r. apply node_net_value; nia.
  - nia.
  - nia.
  - lia.
Qed.
Lemma slot_addToIPNet r k o :
  0 <= r → 0 <= k <= 2 → 0 <= o < size → v + size * (r * 3 + 3) <= 2 ^ 32 →
  net_value (addToIPNet (node_net nw (r * 3 + k)) o) (slot_value (r, k, o)).
Proof. intros Hr Hk Ho Hv. destruct (slot_net r k o) as (Hn & Hb & <-); [done..|]. by apply add_value. Qed.
Lemma slot_addToIP r k o p :
  0 <= r → 0 <= k <= 2 → 0 <= o < size → v + size * (r * 3 + 3) <= 2 ^ 32 →
  net_value (addToIP (ipn_IP (node_net nw (r * 3 + k))) o p) (slot_value (r, k, o)).
Proof. intros Hr Hk Ho Hv. destruct (slot_net r k o) as (Hn & Hb & <-); [done..|]. by apply addToIP_value. Qed.

Lemma server_values r kind ty base i :
  0 <= r → 0 <= 4 + i + base < size → v + size * (r * 3 + 3) <= 2 ^ 32 →
  Forall2 net_value (server_addresses (the_server nw specs kind ty r base i))
    (map slot_value (map (λ k, (r, k, 4 + i + base)) [0; 1; 2])).
Proof.
  intros Hr Ho Hv. assert (size <= 2 ^ 32) by (destruct Hbase as [? _]; nia).
  assert (wrap64 (offsetNodenetServers + i + base) = 4 + i + base) as Hw.
  { apply wrap64_id. unfold in_int64, int64_min, int64_max, offsetNodenetServers. lia. }
  unfold server_addresses, the_server, new_server. cbn [no_node0Address no_node1Address no_node2Address].
  rewrite Hw. each2; [apply slot_addToIP|apply slot_addToIPNet|apply slot_addToIPNet]; done || lia.
Qed.
Lemma boot_values r :
  0 <= r → 4 <= size → v + size * (r * 3 + 3) <= 2 ^ 32 →
  Forall2 net_value (server_addresses (bn_node (the_boot nw specs r))) (map slot_value (map (λ k, (r, k, 3)) [0; 1; 2])).
Proof.
  intros Hr Ho Hv. each2; [apply slot_addToIP|apply slot_addToIPNet|apply slot_addToIPNet]; done || lia.
Qed.

Lemma Forall2_concat_map {A B C} (R : B → C → Prop) (f : A → list B) (g : A → list C) l :
  (∀ x, x ∈ l → Forall2 R (f x) (g x)) → Forall2 R (concat (map f l)) (concat (map g l)).
Proof.
  induction l as [|x l IH]; intros Hl; simpl; [constructor|]. apply Forall2_app; [apply Hl; left|].
  apply IH. intros y Hy. apply Hl. by right.
Qed.

Lemma rack_values r rm at_ :
  0 <= r → 0 <= rm_Cs rm → 4 + rm_Cs rm + Z.max 0 (rm_Ss rm) <= size → v + size * (r * 3 + 3) <= 2 ^ 32 →
  Forall2 net_value (rack_addresses (the_rack nw specs r rm at_))
    (map slot_value (map (λ '(k, o), (r, k, o)) (slots rm))).
Proof.
  intros Hr Hcs Hfit Hv. unfold rack_addresses, slots, offsets.
  cbn [ra_bootNode the_rack]. rewrite !map_app. apply Forall2_app.
  { each2; apply slot_addToIPNet; done || lia. }
  unfold rack_servers. cbn [map concat ra_bootNode ra_csList ra_ssList the_rack]. rewrite !map_app.
  apply Forall2_app; [apply boot_values; lia|].
  rewrite !concat_app, !map_app, !map_map, !concat_map, !map_map.
  apply Forall2_app; apply Forall2_concat_map; intros i Hi%upto_elem.
  - replace (4 + i) with (4 + i + 0) by lia. apply server_values; lia.
  - apply server_values; lia.
Qed.

Lemma slot_value_inj r k o r' k' o' :
  0 <= k <= 2 → 0 <= o < size → 0 <= k' <= 2 → 0 <= o' < size →
  slot_value (r, k, o) = slot_value (r', k', o') → (r, k, o) = (r', k', o').
Proof.
  unfold slot_value. intros Hk Ho Hk' Ho' E.
  assert (r * 3 + k = r' * 3 + k') as Ek.
  { rewrite (Z.div_unique_pos (size * (r * 3 + k) + o) size (r * 3 + k) o) by lia.
    symmetry. apply (Z.div_unique_pos _ size _ o'); lia. }
  assert (r = r') by lia. assert (k = k') by lia. subst. f_equal. lia.
Qed.

Lemma texts_NoDup ns vs : Forall2 net_value ns vs → NoDup vs → NoDup (map ip_text ns).
Proof.
  induction 1 as [|n w ns vs Hn Hns IH]; intros Hd; simpl; [constructor|].
  apply NoDup_cons in Hd as [Hw Hd]. constructor; [|by apply IH].
  intros (n' & Ht & Hn')%list_elem_of_fmap. apply Hw.
  apply list_elem_of_lookup in Hn' as [i Hi]. destruct (Forall2_lookup_l _ _ _ _ _ Hns Hi) as (w' & Hw' & Hv').
  assert (w = w') as ->; [|by eapply list_elem_of_lookup_2]. exact (IP_String_inj _ _ _ _ Hn Hv' Ht).
Qed.
End values.

(** ** The whole plan *)
Definition indexed (l : list rackMenu) : list (nat * rackMenu) := imap pair l.
Lemma indexed_elem l i rm : (i, rm) ∈ indexed l → l !! i = Some rm.
Proof. by intros (j & x & [= <- <-] & Hx)%elem_of_lookup_imap_1. Qed.
Lemma indexed_NoDup l : NoDup (indexed l).
Proof.
  apply NoDup_alt. intros j j' x. unfold indexed. rewrite !list_lookup_imap.
  destruct (l !! j), (l !! j'); simpl; intros ??; simplify_eq. done.
Qed.
Definition plan (l : list rackMenu) : list (Z * Z * Z) :=
  concat (map (λ '(i, rm), map (λ '(k, o), (Z.of_nat i, k, o)) (slots rm)) (indexed l)).

Lemma plan_elem l r k o : (r, k, o) ∈ plan l → ∃ i rm, r = Z.of_nat i ∧ l !! i = Some rm ∧ (k, o) ∈ slots rm.
Proof.
  intros (ks & Hk & ([i rm] & -> & Hi)%list_elem_of_fmap)%elem_of_concat.
  apply list_elem_of_fmap in Hk as ([k' o'] & [= -> -> ->] & Hs). exists i, rm. split_and!; [done|by apply indexed_elem|done].
Qed.
Lemma plan_NoDup l : Forall (λ rm, 0 <= rm_Cs rm) l → NoDup (plan l).
Proof.
  intros Hl. apply NoDup_concat_map; [apply indexed_NoDup| |].
  - intros [i rm] Hi%indexed_elem. apply NoDup_fmap_2_strong; [|apply slots_NoDup; by eapply (Forall_lookup_1 _ _ _ _ Hl)].
    intros [k o] [k' o'] _ _. by intros [= -> ->].
  - intros [i rm] [i' rm'] y Hi%indexed_elem Hi'%indexed_elem.
    intros ([k o] & -> & _)%list_elem_of_fmap ([k' o'] & [= Ei _ _] & _)%list_elem_of_fmap.
    assert (i = i') as -> by lia. congruence.
Qed.

Lemma plan_values nw specs v l at_ :
  is_v4 (nw_nodeBase nw) v → 0 <= nw_nodeRangeSize nw →
  Forall (λ rm, 0 <= rm_Cs rm ∧ 4 + rm_Cs rm + Z.max 0 (rm_Ss rm) <= 2 ^ nw_nodeRangeSize nw) l →
  v + 2 ^ nw_nodeRangeSize nw * (3 * Z.of_nat (length l)) <= 2 ^ 32 →
  Forall2 net_value (concat (map rack_addresses (imap (λ i rm, the_rack nw specs (Z.of_nat i) rm (at_ i)) l)))
    (map (slot_value nw v) (plan l)).
Proof.
  intros Hv Hs Hl Hfit. unfold plan. rewrite concat_map, map_map.
  replace (imap (λ i rm, the_rack nw specs (Z.of_nat i) rm (at_ i)) l)
    with (map (λ '(i, rm), the_rack nw specs (Z.of_nat i) rm (at_ i)) (indexed l)).
  2: { unfold indexed. rewrite fmap_imap. apply imap_ext. done. }
  rewrite map_map. apply Forall2_concat_map. intros [i rm] Hi%indexed_elem.
  pose proof (lookup_lt_Some _ _ _ Hi). destruct (Forall_lookup_1 _ _ _ _ Hl Hi) as [Hcs Hsz].
  assert (0 < 2 ^ nw_nodeRangeSize nw) by (apply Z.pow_pos_nonneg; lia).
  apply rack_values; [done|done|lia|done|lia|nia].
Qed.


(** A plan whose nodes start at 10.69.0.0 with ranges of 64 addresses gives the
    boot server of a rack the address at which the programs of neco look for it. *)
Theorem boot_node0_address m c nw inv i rk :
  NewCluster m = Ok c → mn_network m = Some nw → mn_inventory m = Some inv →
  is_v4 (nw_nodeBase nw) (10 * 2 ^ 24 + 69 * 2 ^ 16) → nw_nodeRangeSize nw = 6 →
  cl_racks c !! i = Some rk → 10 * 2 ^ 24 + 69 * 2 ^ 16 + 192 * (Z.of_nat i + 1) <= 2 ^ 32 →
  ip_text (no_node0Address (bn_node (ra_bootNode rk))) = IP_String (BootNode0IP (Z.of_nat i)).
Proof.
  intros (nw' & inv' & P)%NewCluster_planned Hn Hi Hv Hs Hrk Hfit. destruct P as [Hn1 Hi1 _ _ _ Hr _].
  rewrite Hn in Hn1. injection Hn1 as <-. rewrite Hi in Hi1. injection Hi1 as <-.
  rewrite Hr, list_lookup_imap in Hrk. destruct (is_Rack inv !! i) as [rm|]; [|done]. injection Hrk as <-.
  assert (net_value (no_node0Address (bn_node (the_boot nw (node_specs (mn_nodes m)) (Z.of_nat i))))
            (10 * 2 ^ 24 + 69 * 2 ^ 16 + (192 * Z.of_nat i + 3))) as Hplan.
  { pose proof (slot_addToIP nw _ Hv ltac:(lia) (Z.of_nat i) 0 3 32) as Hslot. unfold slot_value in Hslot. rewrite Hs in Hslot.
    replace (10 * 2 ^ 24 + 69 * 2 ^ 16 + (192 * Z.of_nat i + 3))
      with (10 * 2 ^ 24 + 69 * 2 ^ 16 + 2 ^ 6 * (Z.of_nat i * 3 + 0) + 3) by lia.
    apply Hslot; lia. }
  assert (is_v4 (BootNode0IP (Z.of_nat i)) (10 * 2 ^ 24 + 69 * 2 ^ 16 + (192 * Z.of_nat i + 3))) as Hneco.
  { unfold BootNode0IP. rewrite wrap64_id by (unfold in_int64, int64_min, int64_max; lia).
    apply IPAdd_v4; [|lia]. split; [lia|]. vm_compute. reflexivity. }
  rewrite (is_v4_String _ _ Hneco). exact (is_v4_String _ _ Hplan).
Qed.
End nodes.
