(* ===== verification/MenuWitness.v ===== *)
(** * The theorems about menus at work, on the example of [menu/example] *)
From S2P Require Import Prelude GoStr GoTime Json Types Etcd Worlds Storage Watch Worker.
From S2P Require Import Updater GoNet Host Progs Rebooter BootIP BootIPProofs BootIPRun BootIPNetlink.
From S2P Require Import Menu MenuSpec MenuConf MenuProofs MenuRefs MenuNodes.
Import V4.

Local Open Scope Z_scope.

#[local] Instance plain_sha1 : Sha1 := { sha1_hex s := s }.

Definition network_doc (ntp : string) : networkSpec :=
  {| ns_IpamConfig := "ipam.json"; ns_AsnBase := 64600; ns_Internet := "10.0.0.0/24"; ns_SpineTor := "10.72.1.0";
     ns_CoreSpine := "10.72.2.0/31"; ns_CoreExternal := "10.72.3.0/24"; ns_CoreOperation := "10.72.4.0/24";
     ns_Proxy := "10.0.49.3"; ns_Ntp := ntp; ns_Pod := "10.64.0.0/14";
     ns_Exposed := {| ex_Loadbalancer := "10.72.32.0/20"; ex_Bastion := "10.72.48.0/24"; ex_Egress := "10.72.49.0/25";
                      ex_Global := "172.19.0.0/24" |} |}.
Definition inventory_doc : inventorySpec :=
  {| is_ClusterID := "dev0"; is_Spine := 2; is_Rack := [{| rm_Cs := 2; rm_Ss := 0 |}; {| rm_Cs := 2; rm_Ss := 2 |}] |}.
Definition node_doc (ty : string) : nodeMenu :=
  {| nm_Type := ty;
     nm_Spec := {| nd_CPU := 2; nd_SMP := None; nd_Memory := "2G"; nd_NUMA := 0; nd_DiskCount := 2; nd_DiskSize := "";
                   nd_Disks := []; nd_Image := ""; nd_Data := []; nd_UEFI := true; nd_CloudInitTemplate := "";
                   nd_TPM := false |} |}.
(** Documents of one line: the kind and what distinguishes it. *)
#[local] Instance line_yaml : MenuYaml := {
  ImageSpec := string;
  DeviceClassSpec := string;
  yaml_kind y := Ok (SplitN2 " " y).1;
  yaml_network y := Ok (network_doc (default "" (SplitN2 " " y).2));
  yaml_inventory _ := Ok inventory_doc;
  yaml_node y := Ok (node_doc (default "" (SplitN2 " " y).2));
  yaml_image y := Ok y;
  yaml_deviceclass y := Ok y;
}.
#[local] Instance ipam_json : IPAMFiles unit := {
  read_IPAMConfig name :=
    if bool_decide (name = "/menu/ipam.json") then
      mret {| ic_NodeIPv4Pool := "10.69.0.0/20"; ic_NodeIPv4Offset := ""; ic_NodeRangeSize := 6; ic_NodeRangeMask := 26;
              ic_NodeIPPerNode := 3; ic_NodeIndexOffset := 3; ic_BMCIPv4Pool := "10.72.16.0/20" |}
    else fail (ErrNotExist "no such file");
}.

Definition docs : list (outcome string) :=
  [Ok "Network 172.16.4.64/29"; Ok "Inventory"; Ok "Image flatcar"; Ok "Node boot"; Ok "Node cs"; Ok "Node ss"].
Definition empty_menu : menu :=
  {| mn_network := None; mn_inventory := None; mn_images := []; mn_deviceclasses := []; mn_nodes := [] |}.
Definition ok_or {A} (d : A) (o : outcome A) : A := match o with Ok a => a | _ => d end.
Definition example_menu : menu := ok_or empty_menu (Parse docs "/menu/" ()).2.
Lemma example_parsed : Parse docs "/menu/" () = ((), Ok example_menu).
Proof. vm_compute. reflexivity. Qed.
Definition example_network : network :=
  Eval vm_compute in
  match mn_network example_menu with Some nw => nw | None => {|
    nw_ipamConfigFile := ""; nw_nodeBase := []; nw_nodeRangeSize := 0; nw_nodeRangeMask := 0;
    nw_bmc := addToIP [] 0 0; nw_asnBase := 0; nw_asnCore := 0; nw_asnExternal := 0; nw_asnSpine := 0;
    nw_internet := addToIP [] 0 0; nw_coreSpine := addToIP [] 0 0; nw_coreExternal := addToIP [] 0 0;
    nw_coreOperation := addToIP [] 0 0; nw_spineTor := []; nw_proxy := []; nw_ntp := None;
    nw_pod := addToIP [] 0 0; nw_bastion := addToIP [] 0 0; nw_loadBalancer := addToIP [] 0 0;
    nw_egress := addToIP [] 0 0; nw_global := addToIP [] 0 0 |} end.
Lemma example_network_eq : mn_network example_menu = Some example_network.
Proof. vm_compute. reflexivity. Qed.
Lemma example_inventory_eq : mn_inventory example_menu = Some inventory_doc.
Proof. vm_compute. reflexivity. Qed.

Lemma example_specified c : NewCluster example_menu = Ok c → specified c.
Proof.
  intros E r n Hr Hn. assert (∃ b, b = true ∧ (b = true → is_Some (no_spec n))) as (b & -> & Hb); [|by apply Hb].
  exists (forallb (λ r, forallb (λ n, if no_spec n is Some _ then true else false) (rack_servers r)) (cl_racks c)). split.
  - assert (match NewCluster example_menu with
            | Ok c => forallb (λ r, forallb (λ n, if no_spec n is Some _ then true else false) (rack_servers r)) (cl_racks c)
            | _ => false
            end = true) as Hall by (vm_compute; reflexivity).
    by rewrite E in Hall.
  - rewrite forallb_forall. intros Hall. specialize (Hall r (proj1 (list_elem_of_In _ _) Hr)).
    rewrite forallb_forall in Hall. specialize (Hall n (proj1 (list_elem_of_In _ _) Hn)).
    by destruct (no_spec n); [eexists|].
Qed.

Lemma generateClusterSpec_well_formed_witness :
  ∃ c, NewCluster example_menu = Ok c ∧ ∃ spec, generateClusterSpec c "/out/sabakan" = Ok spec ∧ well_formed spec.
Proof.
  destruct (NewCluster example_menu) as [c|e|y|] eqn:E; [|vm_compute in E; discriminate..].
  exists c. split; [reflexivity|].
  apply (generateClusterSpec_well_formed example_menu c "/out/sabakan"); [exact E|exact (example_specified c E)].
Defined.

(** 10.72.1.0, 10.72.2.0 and 10.69.0.0 *)
Lemma example_spineTor : is_v4 (nw_spineTor example_network) 172491008.
Proof. split; [lia|]. vm_compute. reflexivity. Qed.
Lemma example_coreSpine : net_value (nw_coreSpine example_network) 172491264.
Proof. split; [lia|]. vm_compute. reflexivity. Qed.
Lemma example_nodeBase : is_v4 (nw_nodeBase example_network) (10 * 2 ^ 24 + 69 * 2 ^ 16).
Proof. split; [lia|]. vm_compute. reflexivity. Qed.

(** The link of the second spine to the second ToR of the second rack: 10.72.1.14/15. *)
Lemma spine_tor_links_witness :
  ∃ c, NewCluster example_menu = Ok c ∧
  (∃ a a', spine_end c 1 1 true = Ok a ∧ tor_end c 1 1 true = Ok a' ∧
     net_value a (172491008 + 2 * 7) ∧ net_value a' (172491008 + 2 * 7 + 1)) ∧
  (∀ i' r' second', (r' < 2)%nat → Z.of_nat (link_number 2 i' r' second') = 7 → i' = 1%nat ∧ r' = 1%nat ∧ second' = true).
Proof.
  destruct (NewCluster example_menu) as [c|e|y|] eqn:E; [|vm_compute in E; discriminate..].
  exists c. split; [reflexivity|].
  apply (spine_tor_links example_menu c example_network inventory_doc 172491008 172491264 E
           example_network_eq example_inventory_eq example_spineTor example_coreSpine).
  - reflexivity.
  - reflexivity.
  - reflexivity.
  - simpl. lia.
Defined.


Lemma boot_node0_address_witness :
  ∃ c rk, NewCluster example_menu = Ok c ∧ cl_racks c !! 1%nat = Some rk ∧
  ip_text (no_node0Address (bn_node (ra_bootNode rk))) = IP_String (BootNode0IP 1).
Proof.
  destruct (NewCluster example_menu) as [c|e|y|] eqn:E; [|vm_compute in E; discriminate..].
  destruct (cl_racks c !! 1%nat) as [rk|] eqn:Hrk.
  2: { exfalso. assert (match NewCluster example_menu with Ok c => length (cl_racks c) | _ => O end = 2%nat) as Hl
         by (vm_compute; reflexivity). rewrite E in Hl. apply lookup_ge_None in Hrk. lia. }
  exists c, rk. split; [reflexivity|]. split; [exact Hrk|].
  apply (boot_node0_address example_menu c example_network inventory_doc 1 rk E
           example_network_eq example_inventory_eq example_nodeBase).
  - reflexivity.
  - exact Hrk.
  - lia.
Defined.

(** A menu may leave out [ntp]; planning its cluster then dereferences a nil network. *)
Definition no_ntp : menu :=
  ok_or empty_menu (Parse [Ok "Network "; Ok "Inventory"; Ok "Node boot"; Ok "Node cs"; Ok "Node ss"] "/menu" ()).2.
Lemma optional_ntp_panics :
  (∃ nw, mn_network no_ntp = Some nw ∧ nw_ntp nw = None) ∧ NewCluster no_ntp = Panic "nil pointer dereference".
Proof. split; [eexists; split|]; vm_compute; reflexivity. Qed.
