(* ===== verification/GoURL.v ===== *)
(** * [url.Parse], [time.ParseDuration] and [Duration.String]

    The standard library's parser of URLs as far as the programs look at its result:
    whether it fails, and the scheme ([IsAbs]). *)
From S2P Require Import Prelude GoStr GoTime GoNet.
From Stdlib Require Import Floats.SpecFloat.

Local Open Scope string_scope.

(** ** Characters *)
Definition in_range (lo hi c : ascii) : bool :=
  (Ascii.nat_of_ascii lo <=? Ascii.nat_of_ascii c)%nat && (Ascii.nat_of_ascii c <=? Ascii.nat_of_ascii hi)%nat.
Definition is_letter (c : ascii) : bool := in_range "a" "z" c || in_range "A" "Z" c.
Definition is_digit (c : ascii) : bool := in_range "0" "9" c.
Definition is_alnum (c : ascii) : bool := is_letter c || is_digit c.
Definition is_hex (c : ascii) : bool := is_digit c || in_range "a" "f" c || in_range "A" "F" c.
Definition is_ascii7 (c : ascii) : bool := (Ascii.nat_of_ascii c <? 128)%nat.
Fixpoint char_in (c : ascii) (s : string) : bool :=
  match s with EmptyString => false | String c' s => bool_decide (c' = c) || char_in c s end.
Fixpoint all_chars (p : ascii → bool) (s : string) : bool :=
  match s with EmptyString => true | String c s => p c && all_chars p s end.
Definition ctl_byte (c : ascii) : bool :=
  (Ascii.nat_of_ascii c <? 32)%nat || (Ascii.nat_of_ascii c =? 127)%nat.

(** [strings.Cut], [strings.Index] and [strings.LastIndex] of one character. *)
Fixpoint index_of (c : ascii) (s : string) : option nat :=
  match s with
  | EmptyString => None
  | String c' s => if bool_decide (c' = c) then Some 0 else S <$> index_of c s
  end.
Fixpoint last_index (c : ascii) (s : string) : option nat :=
  match s with
  | EmptyString => None
  | String c' s =>
      match last_index c s with
      | Some i => Some (S i)
      | None => if bool_decide (c' = c) then Some 0 else None
      end
  end.
Definition str_take (n : nat) (s : string) : string := String.substring 0 n s.
Definition str_drop (n : nat) (s : string) : string := default "" (slice_from n s).
Definition cut (c : ascii) (s : string) : string * string :=
  match index_of c s with
  | Some i => (str_take i s, str_drop (S i) s)
  | None => (s, "")
  end.
Fixpoint count_char (c : ascii) (s : string) : nat :=
  match s with EmptyString => 0 | String c' s => (if bool_decide (c' = c) then 1 else 0) + count_char c s end.

(** ** Escapes *)
Inductive encoding := encodePath | encodeHost | encodeZone | encodeUserPassword | encodeFragment.

Definition dquote_char : ascii := Ascii.ascii_of_nat 34.
(** [shouldEscape] for hosts and zones. *)
Definition shouldEscape_host (c : ascii) : bool :=
  negb (is_alnum c || char_in c "!$&'()*+,;=:[]<>" || bool_decide (c = dquote_char) || char_in c "-_.~").

Definition host_mode (m : encoding) : bool := match m with encodeHost | encodeZone => true | _ => false end.
Definition bad_escape (s : string) : error := ErrMsg ("invalid URL escape " +:+ s).
(** What [unescape] rejects. *)
Definition escape_ok (m : encoding) (a b : ascii) : bool :=
  let is25 := bool_decide (a = "2"%char) && bool_decide (b = "5"%char) in
  let v := (16 * default 0 (hex_of a) + default 0 (hex_of b))%Z in
  match m with
  | encodeHost => negb ((default 0 (hex_of a) <? 8)%Z && negb is25)
  | encodeZone =>
      negb (negb is25 && negb (v =? 32)%Z && shouldEscape_host (Ascii.ascii_of_N (Z.to_N v)))
  | _ => true
  end.
Fixpoint unescape (m : encoding) (s : string) : outcome unit :=
  match s with
  | EmptyString => Ok ()
  | String "%" (String a (String b s)) =>
      if is_hex a && is_hex b && escape_ok m a b then unescape m s else Err (bad_escape s)
  | String "%" s => Err (bad_escape s)
  | String c s =>
      if host_mode m && is_ascii7 c && shouldEscape_host c then Err (ErrMsg "invalid character in host name")
      else unescape m s
  end.

(** ** Schemes *)
Inductive scheme_step := SchemeChar | SchemeEnd | NoScheme.
Definition scheme_char (first : bool) (c : ascii) : scheme_step :=
  if is_letter c then SchemeChar
  else if is_digit c || char_in c "+-." then (if first then NoScheme else SchemeChar)
  else if bool_decide (c = ":"%char) then SchemeEnd
  else NoScheme.
(** The scheme and the rest; no scheme is the empty one. *)
Fixpoint scan_scheme (raw s : string) (i : nat) : outcome (string * string) :=
  match s with
  | EmptyString => Ok ("", raw)
  | String c s =>
      match scheme_char (i =? 0)%nat c with
      | SchemeChar => scan_scheme raw s (S i)
      | SchemeEnd => if (i =? 0)%nat then Err (ErrMsg "missing protocol scheme") else Ok (str_take i raw, s)
      | NoScheme => Ok ("", raw)
      end
  end.
Definition getScheme (raw : string) : outcome (string * string) := scan_scheme raw raw 0.

(** ** Authorities *)
Definition validOptionalPort (port : string) : bool :=
  match port with
  | EmptyString => true
  | String c ds => bool_decide (c = ":"%char) && all_chars is_digit ds
  end.
Definition validUserinfo (s : string) : bool := all_chars (λ c, is_alnum c || char_in c "-._:~!$&'()*+,;=%@") s.

(** [strings.Index] of [%25]. *)
Fixpoint index_25 (s : string) : option nat :=
  match s with
  | EmptyString => None
  | String _ t => if HasPrefix s "%25" then Some 0 else S <$> index_25 t
  end.
Definition port_error (port : string) : error := ErrMsg ("invalid port " +:+ port +:+ " after host").
Definition parseHost (host : string) : outcome unit :=
  if HasPrefix host "[" then
    match last_index "]" host with
    | None => Err (ErrMsg "missing ']' in host")
    | Some i =>
        let colonPort := str_drop (S i) host in
        if negb (validOptionalPort colonPort) then Err (port_error colonPort)
        else
          match index_25 (str_take i host) with
          | Some zone =>
              _ ← unescape encodeHost (str_take zone host);
              _ ← unescape encodeZone (String.substring zone (i - zone) host);
              unescape encodeHost (str_drop i host)
          | None => unescape encodeHost host
          end
    end
  else
    match last_index ":" host with
    | Some i =>
        let colonPort := str_drop i host in
        if negb (validOptionalPort colonPort) then Err (port_error colonPort) else unescape encodeHost host
    | None => unescape encodeHost host
    end.

Definition parseAuthority (authority : string) : outcome unit :=
  match last_index "@" authority with
  | None => parseHost authority
  | Some i =>
      _ ← parseHost (str_drop (S i) authority);
      let userinfo := str_take i authority in
      if negb (validUserinfo userinfo) then Err (ErrMsg "net/url: invalid userinfo")
      else
        let '(username, password) := cut ":" userinfo in
        _ ← unescape encodeUserPassword username;
        unescape encodeUserPassword password
  end.

(** ** URLs: the scheme *)
Definition parse_rest (scheme rest : string) : outcome string :=
  let rest := if HasPrefix (String.rev rest) "?" && (count_char "?" rest =? 1)%nat
              then str_take (String.length rest - 1) rest else fst (cut "?" rest) in
  if negb (HasPrefix rest "/") && negb (bool_decide (scheme = "")) then Ok scheme
  else if negb (HasPrefix rest "/") && char_in ":" (fst (cut "/" rest))
  then Err (ErrMsg "first path segment in URL cannot contain colon")
  else if (negb (bool_decide (scheme = "")) || negb (HasPrefix rest "///")) && HasPrefix rest "//" then
    let authority := str_drop 2 rest in
    match index_of "/" authority with
    | Some i =>
        _ ← parseAuthority (str_take i authority);
        _ ← unescape encodePath (str_drop i authority);
        Ok scheme
    | None => _ ← parseAuthority authority; Ok scheme
    end
  else _ ← unescape encodePath rest; Ok scheme.
Definition parse_url (raw : string) : outcome string :=
  if negb (all_chars (λ c, negb (ctl_byte c)) raw) then Err (ErrMsg "net/url: invalid control character in URL")
  else if bool_decide (raw = "*") then Ok ""
  else '(scheme, rest) ← getScheme raw; parse_rest scheme rest.
Definition url_Parse (raw : string) : outcome string :=
  let '(u, frag) := cut "#" raw in
  scheme ← parse_url u;
  _ ← unescape encodeFragment frag;
  Ok scheme.
(** [u.IsAbs()] *)
Definition IsAbs (scheme : string) : bool := negb (bool_decide (scheme = "")).

Example url_proxy : url_Parse "http://10.0.0.1:3128" = Ok "http".
Proof. reflexivity. Qed.
Example url_relative : url_Parse "10.0.0.1/x" = Ok "".
Proof. reflexivity. Qed.
Example url_no_scheme : url_Parse "10.0.0.1:3128" = Err (ErrMsg "first path segment in URL cannot contain colon").
Proof. reflexivity. Qed.
Example url_bad_port : url_Parse "http://proxy:port/" = Err (port_error ":port").
Proof. reflexivity. Qed.
Example url_v6_zone : url_Parse "http://user:p%40ss@[fe80::1%25eth0]:80/a?b#c" = Ok "http".
Proof. reflexivity. Qed.

(** ** [time.ParseDuration] *)


Local Open Scope Z_scope.

(** ** binary64 numbers, as far as fractions of durations need them *)
Definition f64_of (n : Z) : spec_float := binary_normalize 53 1024 n 0 false.
Definition f64_mul : spec_float → spec_float → spec_float := SFmul 53 1024.
Definition f64_div : spec_float → spec_float → spec_float := SFdiv 53 1024.
(** [uint64(x)] of a number that is not negative. *)
Definition f64_trunc (x : spec_float) : Z :=
  match x with
  | S754_finite false m e => if 0 <=? e then Zpos m * 2 ^ e else Zpos m / 2 ^ (- e)
  | _ => 0
  end.

(** ** Parsing *)
Definition unit_map : list (string * Z) :=
  [("ns", 1); ("us", 1000); ("µs", 1000); ("μs", 1000); ("ms", 1000000); ("s", Second); ("m", Minute); ("h", Hour)].
Definition unit_of (u : string) : option Z :=
  snd <$> List.find (λ p : string * Z, bool_decide (fst p = u)) unit_map.

(** [leadingInt]: the number and the rest, or an overflow. *)
Fixpoint leadingInt (s : string) (x : Z) : option (Z * string) :=
  match s with
  | String c s' =>
      match char_digit c with
      | Some d =>
          if (2 ^ 63) / 10 <? x then None
          else
            let x := x * 10 + d in
            if 2 ^ 63 <? x then None else leadingInt s' x
      | None => Some (x, s)
      end
  | EmptyString => Some (x, s)
  end.
(** [leadingFraction]: the digits as a number, the power of ten, the rest; digits after
    an overflow are read and ignored. *)
Fixpoint leadingFraction (s : string) (x : Z) (scale : spec_float) (overflow : bool)
    : Z * spec_float * string :=
  match s with
  | String c s' =>
      match char_digit c with
      | Some d =>
          if overflow || ((2 ^ 63 - 1) / 10 <? x) then leadingFraction s' x scale true
          else
            let y := x * 10 + d in
            if 2 ^ 63 <? y then leadingFraction s' x scale true
            else leadingFraction s' y (f64_mul scale (f64_of 10)) false
      | None => (x, scale, s)
      end
  | EmptyString => (x, scale, s)
  end.

Definition unit_char (c : ascii) : bool := negb (bool_decide (c = "."%char) || is_digit c).
Fixpoint take_unit (s : string) : string * string :=
  match s with
  | String c s' => if unit_char c then let '(u, rest) := take_unit s' in (String c u, rest) else ("", s)
  | EmptyString => ("", "")
  end.

Definition invalid_duration : error := ErrMsg "time: invalid duration".
(** One number with its unit: nanoseconds, and the rest. *)
Definition duration_item (s : string) : outcome (Z * string) :=
  match s with
  | EmptyString => Err invalid_duration
  | String c _ =>
      if unit_char c then Err invalid_duration
      else
        match leadingInt s 0 with
        | None => Err invalid_duration
        | Some (v, s1) =>
            let pre := negb (String.length s =? String.length s1)%nat in
            let '(f, scale, s2, post) :=
              match take_char "." s1 with
              | Some s1' =>
                  let '(f, scale, s2) := leadingFraction s1' 0 (f64_of 1) false in
                  (f, scale, s2, negb (String.length s1' =? String.length s2)%nat)
              | None => (0, f64_of 1, s1, false)
              end in
            if negb pre && negb post then Err invalid_duration
            else
              let '(u, rest) := take_unit s2 in
              if bool_decide (u = "") then Err (ErrMsg "time: missing unit in duration")
              else
                match unit_of u with
                | None => Err (ErrMsg ("time: unknown unit " +:+ u +:+ " in duration"))
                | Some unit =>
                    if 2 ^ 63 / unit <? v then Err invalid_duration
                    else
                      let v := v * unit in
                      let v := if 0 <? f then v + f64_trunc (f64_mul (f64_of f) (f64_div (f64_of unit) scale)) else v in
                      if (0 <? f) && (2 ^ 63 <? v) then Err invalid_duration else Ok (v, rest)
                end
        end
  end.
(** The loop over the items; each takes at least one character. *)
Fixpoint duration_items (fuel : nat) (s : string) (d : Z) : outcome Z :=
  match s, fuel with
  | EmptyString, _ => Ok d
  | _, O => Running
  | _, S fuel =>
      '(v, rest) ← duration_item s;
      let d := d + v in
      if 2 ^ 63 <? d then Err invalid_duration else duration_items fuel rest d
  end.
Definition ParseDuration (s : string) : outcome Duration :=
  let '(neg, s) :=
    match s with
    | String "-" s => (true, s)
    | String "+" s => (false, s)
    | _ => (false, s)
    end in
  if bool_decide (s = "0") then Ok 0
  else if bool_decide (s = "") then Err invalid_duration
  else
    d ← duration_items (String.length s) s 0;
    if (neg : bool) then Ok (wrap64 (- d))
    else if 2 ^ 63 - 1 <? d then Err invalid_duration else Ok d.

(** ** Printing *)

(** A number with the fraction [frac / 10^prec] behind a point, trailing zeros dropped. *)
Definition fmtFrac (v : Z) (prec : nat) : string :=
  let frac := v `mod` 10 ^ Z.of_nat prec in
  Itoa (v / 10 ^ Z.of_nat prec) +:+ (if frac =? 0 then "" else String "." (frac_digits prec frac "")).
Definition Duration_String (d : Duration) : string :=
  let u := Z.abs d in
  let text :=
    if u <? Second then
      if u =? 0 then "0s"
      else if u <? 1000 then Itoa u +:+ "ns"
      else if u <? 1000000 then fmtFrac u 3 +:+ "µs"
      else fmtFrac u 6 +:+ "ms"
    else
      let secs := u / Second in
      (if 60 <=? secs then
         (if 60 <=? secs / 60 then Itoa (secs / 3600) +:+ "h" else "") +:+ Itoa ((secs / 60) `mod` 60) +:+ "m"
       else "") +:+
      fmtFrac (u `mod` Minute) 9 +:+ "s" in
  if d <? 0 then "-" +:+ text else text.

Example duration_hours : ParseDuration "1.5h" = Ok (90 * Minute).
Proof. vm_compute. reflexivity. Qed.
Example duration_mixed : ParseDuration "-1h2m3.004s" = Ok (- (Hour + 2 * Minute + 3004000000)).
Proof. vm_compute. reflexivity. Qed.
Example duration_unitless : ParseDuration "10" = Err (ErrMsg "time: missing unit in duration").
Proof. vm_compute. reflexivity. Qed.
Example duration_min : ParseDuration "-9223372036854775808ns" = Ok (- 2 ^ 63).
Proof. vm_compute. reflexivity. Qed.
Example duration_text : Duration_String (90 * Minute) = "1h30m0s" ∧ Duration_String (-1500000) = "-1.5ms".
Proof. split; vm_compute; reflexivity. Qed.
