(* ===== verification/Ext.v ===== *)
(** * Clients of the outside ([ext/])

    Which HTTP client a program uses, and the notifications to Slack.  The transport is
    outside.  [format_time] stands for [Format(time.RFC3339)] of a time, whose zone the
    model of times does not keep.

    Sabakan's client library, of which the uploaders and the neco command make calls, is
    a class; what theorems need of it is in classes of laws beside the theorems. *)
From S2P Require Import Prelude GoStr GoTime Json Types Etcd Worlds Storage.
From S2P Require Import Updater GoNet Host Progs GoURL.

Local Open Scope Z_scope.

(** ** [http.go] *)
Inductive HTTPClient :=
  | DefaultClient
  | ProxyClient (proxyURL : string)   (* with the time-outs of the transport and one hour in all *)
  | LocalClient                       (* no proxy, ten minutes *)
  | TokenClient (token : string) (base : HTTPClient).
#[export] Instance HTTPClient_eq_dec : EqDecision HTTPClient.
Proof. solve_decision. Defined.

Section clients.
Context {W : Type} `{Etcd W} `{Files W}.
Definition ProxyHTTPClient : M W HTTPClient :=
  r ← attempt GetProxyConfig;
  match r with
  | inl ErrNotFound => mret DefaultClient
  | inl e => fail e
  | inr proxyURL => _ ← lift (url_Parse proxyURL); mret (ProxyClient proxyURL)
  end.
Definition LocalHTTPClient : HTTPClient := LocalClient.
Definition GitHubHTTPClient : M W HTTPClient :=
  hc ← ProxyHTTPClient;
  r ← attempt GetGitHubToken;
  match r with
  | inl ErrNotFound => mret hc
  | inl e => fail e
  | inr token => mret (TokenClient token hc)
  end.

(** ** [notifier.go] *)
Record SlackClient := { sc_URL : string; sc_HTTP : HTTPClient; sc_Cluster : string }.
(** [None] is [nopNotifier]. *)
Definition NewNotifier : M W (option SlackClient) :=
  r ← attempt GetSlackNotification;
  match r with
  | inl ErrNotFound => mret None
  | inl e => fail e
  | inr slackURL =>
      hc ← ProxyHTTPClient;
      me ← MyCluster;
      mret (Some {| sc_URL := slackURL; sc_HTTP := hc; sc_Cluster := me |})
  end.
End clients.

(** ** [slack.go] *)
Definition ColorInfo := "#439FE0".
Definition ColorGood := "good".
Definition ColorDanger := "danger".

Record AttachmentField := { af_Title : string; af_Value : string; af_Short : bool }.
(** The fields of [Attachment] that are set. *)
Record Attachment := {
  at_Color : string;
  at_AuthorName : string;
  at_Title : string;
  at_Text : string;
  at_Fields : list AttachmentField;
}.
(** [json:"...,omitempty"] *)
Definition omit_string (k v : string) : list (string * json) := if bool_decide (v = "") then [] else [(k, JStr v)].
Definition field_json (f : AttachmentField) : json :=
  JObj (omit_string "title" (af_Title f) ++ omit_string "value" (af_Value f) ++
        (if af_Short f then [("short", JBool true)] else [])).
Definition attachment_json (a : Attachment) : json :=
  JObj (omit_string "color" (at_Color a) ++ omit_string "author_name" (at_AuthorName a) ++
        omit_string "title" (at_Title a) ++ omit_string "text" (at_Text a) ++
        match at_Fields a with [] => [] | fs => [("fields", JArr (map field_json fs))] end).
Definition payload_json (atts : list Attachment) : json := JObj [("attachments", JArr (map attachment_json atts))].

(** [fmt.Sprintf("%v", ints)] *)
Definition ints_text (l : list Z) : string := "[" +:+ String.concat " " (map Itoa l) +:+ "]".

(** A POST of JSON: the response is not looked at. *)
Class WebHook (W : Type) := {
  http_NewRequest : string → outcome unit;
  http_PostJSON : HTTPClient → string → string → M W unit;
}.
Section slack.
Context {W : Type} `{WebHook W} (format_time : Time → string).

Definition PostWebHook (c : SlackClient) (atts : list Attachment) : M W unit :=
  _ ← lift (http_NewRequest (sc_URL c));
  http_PostJSON (sc_HTTP c) (sc_URL c) (print (payload_json atts) "").

Definition update_fields (c : SlackClient) (req : UpdateRequest) : list AttachmentField :=
  [{| af_Title := "Cluster"; af_Value := sc_Cluster c; af_Short := true |};
   {| af_Title := "Version"; af_Value := req_Version req; af_Short := true |};
   {| af_Title := "Servers"; af_Value := ints_text (elems (req_Servers req)); af_Short := true |};
   {| af_Title := "Started at"; af_Value := format_time (req_StartedAt req); af_Short := true |}].
Definition long_field (title message : string) : AttachmentField :=
  {| af_Title := title; af_Value := message; af_Short := false |}.
Definition by_updater (color title text : string) (fields : list AttachmentField) : Attachment :=
  {| at_Color := color; at_AuthorName := "Boot server updater"; at_Title := title; at_Text := text; at_Fields := fields |}.

Definition Slack_NotifyInfo (c : SlackClient) (req : UpdateRequest) (message : string) : M W unit :=
  PostWebHook c [by_updater ColorInfo "Update begins" "neco-worker has started the updating process."
                   (update_fields c req ++ [long_field "Detail" message])].
Definition Slack_NotifySucceeded (c : SlackClient) (req : UpdateRequest) : M W unit :=
  PostWebHook c [by_updater ColorGood "Update completed successfully"
                   "boot servers were updated successfully :tada: :tada: :tada:" (update_fields c req)].
Definition Slack_NotifyFailure (c : SlackClient) (req : UpdateRequest) (message : string) : M W unit :=
  PostWebHook c [by_updater ColorDanger "Update failed"
                   "there were some errors :crying_cat_face:.  Please fix it manually."
                   (update_fields c req ++ [long_field "Reason" message])].

(** What the updater calls. *)
Definition notifier (n : option SlackClient) : Notifier W := {|
  NotifyInfo req message := match n with None => mret () | Some c => Slack_NotifyInfo c req message end;
  NotifySucceeded req := match n with None => mret () | Some c => Slack_NotifySucceeded c req end;
  NotifyFailure req message := match n with None => mret () | Some c => Slack_NotifyFailure c req message end;
|}.
End slack.

(** ** Sabakan's client library *)

(** The part of [sabakan.Machine] that is looked at. *)
Record MachineBMC := { bmc_IPv4 : string; bmc_IPv6 : string; bmc_Type : string }.
Record Machine := {
  mc_Serial : string;
  mc_Labels : gmap string string;
  mc_Role : string;
  mc_IPv4 : list string;
  mc_BMC : MachineBMC;
  mc_State : string;
  mc_InfoBMC : json;
}.

(** The values of the metadata of ignitions, a [map[string]interface{}]. *)
Inductive MetaValue := MetaString (s : string) | MetaStrings (l : list string).
#[export] Instance MetaValue_eq_dec : EqDecision MetaValue.
Proof. solve_decision. Defined.

Class SabaClient (W : Type) := {
  saba_NewClient : string → M W unit;
  (* the identifiers of the images of an operating system, oldest first *)
  saba_ImagesIndex : string → M W (list string);
  (* operating system, version, kernel file and size, initrd file and size *)
  saba_ImagesUpload : string → string → string → Z → string → Z → M W unit;
  saba_AssetsInfo : string → M W unit;
  saba_AssetsUpload : string → string → M W unit;
  saba_IsNotFound : error → bool;
  saba_IgnitionsListIDs : string → M W (list string);
  IgnitionTemplate : Type;
  saba_BuildIgnitionTemplate : string → gmap string MetaValue → M W IgnitionTemplate;
  saba_IgnitionsSet : string → string → IgnitionTemplate → M W unit;
  saba_MachinesGet : list (string * string) → M W (list Machine);
  DHCPConfig : Type;
  saba_DecodeDHCPConfig : string → outcome DHCPConfig;
  saba_DHCPConfigSet : DHCPConfig → M W unit;
}.
