(* ===== verification/Trace.v ===== *)
(** * A logic for the records of programs

    [twp m Q]: from every world, the record of a run of [m] grows by effects [es], and
    [Q es r] holds of them and of what the run came to, a failure or a panic included.
    Unlike the judgement [emits] of the operator's steps, a postcondition may say which
    effects came before which, and what a success implies about them. *)
From S2P Require Import Prelude Worlds Host.

Section twp.
Context {E W : Type}.
Implicit Types (v : Traced E W).

Definition twp {A} (m : M (Traced E W) A) (Q : list E → outcome A → Prop) : Prop := ∀ v v' r,
  m v = (v', r) → ∃ es, tr_log v' = tr_log v ++ es ∧ Q es r.

Lemma twp_traced {A} eff (m : M W A) (Q : list E → outcome A → Prop) :
  (∀ r, Q (eff r) r) → twp (traced eff m) Q.
Proof.
  intros HQ v v' r. unfold traced. destruct (m (tr_world v)) as [w' r']. intros [= <- <-]. eauto.
Qed.
Lemma twp_const {A} (o : outcome A) (Q : list E → outcome A → Prop) : Q [] o → twp (λ v, (v, o)) Q.
Proof. intros HQ v v' r [= <- <-]. exists []. by rewrite app_nil_r. Qed.
Lemma twp_ret {A} (a : A) (Q : list E → outcome A → Prop) : Q [] (Ok a) → twp (mret a) Q.
Proof. apply twp_const. Qed.
Lemma twp_fail {A} e (Q : list E → outcome A → Prop) : Q [] (Err e) → twp (fail e) Q.
Proof. apply twp_const. Qed.
Lemma twp_panic {A} why (Q : list E → outcome A → Prop) : Q [] (Panic why) → twp (panic why) Q.
Proof. apply twp_const. Qed.
Lemma twp_blocked {A} (Q : list E → outcome A → Prop) : Q [] Running → twp blocked Q.
Proof. apply twp_const. Qed.
Lemma twp_lift {A} (o : outcome A) (Q : list E → outcome A → Prop) : Q [] o → twp (lift o) Q.
Proof. apply twp_const. Qed.

Lemma twp_mono {A} (m : M (Traced E W) A) (Q Q' : list E → outcome A → Prop) :
  twp m Q → (∀ es r, Q es r → Q' es r) → twp m Q'.
Proof. intros Hm HQ v v' r (es & ? & ?)%Hm. eauto. Qed.

(** What is known of a run whose first part ended with [r]. *)
Definition after {A B} (f : A → M (Traced E W) B) (Q : list E → outcome B → Prop)
    (es : list E) (r : outcome A) : Prop :=
  match r with
  | Ok a => twp (f a) (λ es', Q (es ++ es'))
  | Err e => Q es (Err e)
  | Panic why => Q es (Panic why)
  | Running => Q es Running
  end.

Lemma twp_bind {A B} (m : M (Traced E W) A) (f : A → M (Traced E W) B) Q :
  twp m (after f Q) → twp (m ≫= f) Q.
Proof.
  intros Hm v v' r. unfold mbind, M_bind. destruct (m v) as [v1 r1] eqn:E1.
  apply Hm in E1 as (es & Hl & Haf). destruct r1 as [a|e|why|]; simpl in Haf.
  - intros (es' & Hl' & HQ)%Haf. exists (es ++ es'). by rewrite Hl', Hl, app_assoc.
  - intros [= <- <-]. eauto.
  - intros [= <- <-]. eauto.
  - intros [= <- <-]. eauto.
Qed.

Lemma twp_attempt {A} (m : M (Traced E W) A) (Q : list E → outcome (error + A) → Prop) :
  twp m (λ es r, Q es (match r with
                       | Ok a => Ok (inr a)
                       | Err e => Ok (inl e)
                       | Panic why => Panic why
                       | Running => Running
                       end)) → twp (attempt m) Q.
Proof.
  intros Hm v v' r. unfold attempt. destruct (m v) as [v1 r1] eqn:E1.
  apply Hm in E1 as (es & ? & ?). destruct r1; intros [= <- <-]; eauto.
Qed.

Lemma twp_ignore {A} (m : M (Traced E W) A) (Q : list E → outcome unit → Prop) :
  twp m (λ es r, Q es (match r with Ok _ | Err _ => Ok () | Panic why => Panic why | Running => Running end)) →
  twp (ignore_error m) Q.
Proof.
  intros Hm. apply twp_bind, twp_attempt. eapply twp_mono; [exact Hm|].
  intros es [] ?; simpl; try done; apply twp_ret; by rewrite app_nil_r.
Qed.

(** A run that is followed by its deferred call when it returns. *)
Lemma twp_deferred {A B} (m : M (Traced E W) A) (d : M (Traced E W) B) (R : list E → outcome B → Prop)
    (Q : list E → outcome A → Prop) :
  twp d R →
  twp m (λ es r, match r with
                 | Ok _ | Err _ => ∀ es' rd, R es' rd →
                     Q (es ++ es') (match rd with Panic why => Panic why | Running => Running | _ => r end)
                 | _ => Q es r
                 end) →
  twp (deferred m d) Q.
Proof.
  intros Hd Hm. apply twp_bind, twp_attempt. eapply twp_mono; [exact Hm|].
  intros es [a|e|why|] HQ; simpl in *; [| |done..].
  - apply twp_bind, twp_ignore. eapply twp_mono; [exact Hd|]. intros es' rd HR.
    specialize (HQ _ _ HR). destruct rd; simpl; try done; apply twp_ret; by rewrite app_nil_r.
  - apply twp_bind, twp_ignore. eapply twp_mono; [exact Hd|]. intros es' rd HR.
    specialize (HQ _ _ HR). destruct rd; simpl; try done; apply twp_fail; by rewrite app_nil_r.
Qed.

(** A loop over a list: [R x es] holds of the effects of each iteration that succeeds,
    and [T es r] of whatever an iteration does. *)
Lemma twp_for_each {A} (l : list A) (m : A → M (Traced E W) unit) (R : A → list E → Prop) (T : list E → Prop) :
  T [] → (∀ es es', T es → T es' → T (es ++ es')) →
  (∀ x es es', R x es → R x (es ++ es')) → (∀ x es es', R x es' → R x (es ++ es')) →
  (∀ x, x ∈ l → twp (m x) (λ es r, T es ∧ (r = Ok tt → R x es))) →
  twp (for_each l m) (λ es r, T es ∧ (r = Ok tt → Forall (λ x, R x es) l)).
Proof.
  intros Hnil Happ Hl Hr. induction l as [|x l IH]; intros Hm; [by apply twp_ret|]. simpl.
  apply twp_bind. eapply twp_mono; [apply Hm, list_elem_of_here|]. intros es r [HT HR].
  destruct r as [[]|e|why|]; simpl; [|done..].
  eapply twp_mono; [apply IH; intros y Hy; apply Hm; by apply list_elem_of_further|].
  intros es' r' [HT' HR']. split; [by apply Happ|]. intros ->. constructor; [by apply Hl, HR|].
  eapply Forall_impl; [by apply HR'|]. intros y ?. by apply Hr.
Qed.
End twp.

(** ** Walking through code

    [twalk] reduces a goal about code to goals about its calls; what is known of a call
    is in the hint database [twp]. *)
Create HintDb twp.

(** Every effect of a run satisfies [P]. *)
Definition all_of {E A} (P : E → Prop) (es : list E) (_ : outcome A) : Prop := Forall P es.

Section all_of.
Context {E W : Type} (P : E → Prop).
Implicit Types (v : Traced E W).
Lemma all_traced {A} eff (m : M W A) : (∀ r, Forall P (eff r)) → twp (traced eff m) (all_of P).
Proof. intros Heff. apply twp_traced. exact Heff. Qed.
Lemma all_const {A} (o : outcome A) : twp (W := W) (λ v, (v, o)) (all_of P).
Proof. apply twp_const. constructor. Qed.
Lemma all_bind {A B} (m : M (Traced E W) A) (f : A → M (Traced E W) B) :
  twp m (all_of P) → (∀ a, twp (f a) (all_of P)) → twp (m ≫= f) (all_of P).
Proof.
  intros Hm Hf. apply twp_bind. eapply twp_mono; [exact Hm|]. intros es [a|e|why|] Hes; simpl; try done.
  eapply twp_mono; [apply Hf|]. intros es' r ?. by apply Forall_app.
Qed.
Lemma all_attempt {A} (m : M (Traced E W) A) : twp m (all_of P) → twp (attempt m) (all_of P).
Proof. intros Hm. by apply twp_attempt. Qed.
Lemma all_ignore {A} (m : M (Traced E W) A) : twp m (all_of P) → twp (ignore_error m) (all_of P).
Proof. intros Hm. by apply twp_ignore. Qed.
Lemma all_deferred {A B} (m : M (Traced E W) A) (d : M (Traced E W) B) :
  twp m (all_of P) → twp d (all_of P) → twp (deferred m d) (all_of P).
Proof.
  intros Hm Hd. eapply twp_deferred; [exact Hd|]. eapply twp_mono; [exact Hm|].
  intros es r Hes. assert (∀ es' (rd : outcome B), all_of P es' rd → all_of (A := A) P (es ++ es') r) as Happ.
  { intros es' rd ?. by apply Forall_app. }
  destruct r; try done; intros es' rd Hd'; by apply Happ in Hd'.
Qed.
Lemma all_for_each {A} (l : list A) (m : A → M (Traced E W) unit) :
  (∀ x, twp (m x) (all_of P)) → twp (for_each l m) (all_of P).
Proof.
  intros Hm. induction l as [|x l IH]; simpl; [apply all_const|]. apply all_bind; [done|by intros []].
Qed.
End all_of.

Ltac all_step eff :=
  match goal with
  | |- ∀ _, twp _ _ => intros ?
  | |- twp (mbind _ _) _ => apply all_bind; [|intros ?]
  | |- twp (mret _) _ => apply all_const
  | |- twp (fail _) _ => apply all_const
  | |- twp (panic _) _ => apply all_const
  | |- twp blocked _ => apply all_const
  | |- twp (lift _) _ => apply all_const
  | |- twp (attempt _) _ => apply all_attempt
  | |- twp (ignore_error _) _ => apply all_ignore
  | |- twp (deferred _ _) _ => apply all_deferred
  | |- twp (for_each _ _) _ => apply all_for_each; intros ?
  | |- twp (match ?x with _ => _ end) _ => destruct x
  | |- twp ((match ?x with _ => _ end) _) _ => destruct x
  | |- twp ?m _ => first [solve [eauto with twp] | solve [apply all_traced; intros []; simpl; eff]]
  end.
Ltac all_walk eff := repeat (cbv beta iota; all_step eff).

(** ** Successful runs *)
Definition on_ok {E A} (R : list E → A → Prop) (es : list E) (r : outcome A) : Prop :=
  ∀ a, r = Ok a → R es a.
(** The record only grows. *)
Abbreviation grows m := (twp m (λ _ _, True)).

Section on_ok.
Context {E W : Type}.
Implicit Types (v : Traced E W).

Lemma twp_and {A} (m : M (Traced E W) A) (Q1 Q2 : list E → outcome A → Prop) :
  twp m Q1 → twp m Q2 → twp m (λ es r, Q1 es r ∧ Q2 es r).
Proof.
  intros H1 H2 v v' r Er. destruct (H1 _ _ _ Er) as (es & Hl & ?), (H2 _ _ _ Er) as (es' & Hl' & ?).
  rewrite Hl in Hl'. apply app_inv_head in Hl' as <-. eauto.
Qed.
Lemma all_grows {A} P (m : M (Traced E W) A) : twp m (all_of P) → grows m.
Proof. intros Hm. by eapply twp_mono. Qed.

Lemma ok_bind {A B} (m : M (Traced E W) A) (f : A → M (Traced E W) B) (R1 : list E → A → Prop) R :
  twp m (on_ok R1) → (∀ es a, R1 es a → twp (f a) (on_ok (λ es', R (es ++ es')))) →
  twp (m ≫= f) (on_ok R).
Proof.
  intros Hm Hf. apply twp_bind. eapply twp_mono; [exact Hm|]. intros es [a|e|why|] HR; simpl; [|done..].
  eapply twp_mono; [by apply Hf, HR|]. done.
Qed.
(** What the first part did is not needed. *)
Lemma ok_skip {A B} (m : M (Traced E W) A) (f : A → M (Traced E W) B) (R : list E → B → Prop) :
  (∀ es es' b, R es' b → R (es ++ es') b) → grows m → (∀ a, twp (f a) (on_ok R)) →
  twp (m ≫= f) (on_ok R).
Proof.
  intros HR Hm Hf. apply (ok_bind _ _ (λ _ _, True)); [by eapply twp_mono|]. intros es a _.
  eapply twp_mono; [apply Hf|]. intros es' r HQ b ->. by apply HR, HQ.
Qed.
Lemma ok_const {A} (o : outcome A) (R : list E → A → Prop) :
  (∀ a, o = Ok a → R [] a) → twp (W := W) (λ v, (v, o)) (on_ok R).
Proof. intros HR. by apply twp_const. Qed.
Lemma ok_deferred {A B} (m : M (Traced E W) A) (d : M (Traced E W) B) (R : list E → A → Prop) :
  (∀ es es' a, R es a → R (es ++ es') a) → twp m (on_ok R) → grows d → twp (deferred m d) (on_ok R).
Proof.
  intros HR Hm Hd. eapply twp_deferred; [exact Hd|]. eapply twp_mono; [exact Hm|].
  intros es [a|e|why|] HQ; try done; intros es' [] _ a' [= <-]; by apply HR, HQ.
Qed.
Lemma ok_for_each {A} (l : list A) (m : A → M (Traced E W) unit) (R : A → list E → Prop) :
  (∀ x es es', R x es → R x (es ++ es')) → (∀ x es es', R x es' → R x (es ++ es')) →
  (∀ x, x ∈ l → twp (m x) (on_ok (λ es _, R x es))) →
  twp (for_each l m) (on_ok (λ es _, Forall (λ x, R x es) l)).
Proof.
  intros Hl Hr Hm. eapply twp_mono; [apply (twp_for_each l m R (λ _, True)); auto|].
  - intros x Hx. eapply twp_mono; [by apply Hm|]. intros es r HQ. split; [done|]. intros ->. by apply (HQ tt).
  - intros es r [_ HQ] [] ->. by apply HQ.
Qed.
End on_ok.

(** ** Guards

    [guarded B G es]: wherever an effect of the kind [B] is in the record, [G] holds of
    what was recorded before it. *)
Definition guarded {E} (B : E → Prop) (G : list E → Prop) (es : list E) : Prop :=
  ∀ es1 x es2, es = es1 ++ x :: es2 → B x → G es1.
Definition none_of {E A} (B : E → Prop) : list E → outcome A → Prop := all_of (λ x, ¬ B x).

Section guarded.
Context {E W : Type} (B : E → Prop) (G : list E → Prop).
Hypothesis G_mono : ∀ es es', G es ∨ G es' → G (es ++ es').
Implicit Types (v : Traced E W).

Lemma guarded_none es : Forall (λ x, ¬ B x) es → guarded B G es.
Proof.
  intros Hn es1 x es2 -> Hx. apply Forall_app in Hn as [_ Hn]. by inversion Hn.
Qed.
Lemma guarded_app es es' : guarded B G es → (G es ∨ guarded B G es') → guarded B G (es ++ es').
Proof.
  intros Hg Hor es1 x es2 Heq Hx. apply app_eq_inv in Heq as [(k & -> & Hk)|(k & -> & Hk)].
  - destruct k as [|y k]; [|injection Hk as <- _; by eapply Hg].
    simpl in Hk. rewrite app_nil_r in *. destruct Hor as [?|Hor]; [done|].
    specialize (Hor [] x es2 (eq_sym Hk) Hx). rewrite <-(app_nil_r es1). by apply G_mono; right.
  - destruct Hor as [Hge|Hor]; apply G_mono; [by left|right]. by eapply Hor.
Qed.

Lemma gd_none {A} (m : M (Traced E W) A) : twp m (none_of B) → twp m (λ es _, guarded B G es).
Proof. intros Hm. eapply twp_mono; [exact Hm|]. intros es r. apply guarded_none. Qed.
Lemma gd_bind {A C} (m : M (Traced E W) A) (f : A → M (Traced E W) C) :
  twp m (λ es _, guarded B G es) → (∀ a, twp (f a) (λ es _, guarded B G es)) →
  twp (m ≫= f) (λ es _, guarded B G es).
Proof.
  intros Hm Hf. apply twp_bind. eapply twp_mono; [exact Hm|]. intros es [a|e|why|] Hg; simpl; try done.
  eapply twp_mono; [apply Hf|]. intros es' r Hg'. apply guarded_app; auto.
Qed.
(** What comes after code whose success establishes the guard is guarded. *)
Lemma gd_barrier {A C} (m : M (Traced E W) A) (f : A → M (Traced E W) C) :
  twp m (none_of B) → twp m (on_ok (λ es _, G es)) → (∀ a, grows (f a)) →
  twp (m ≫= f) (λ es _, guarded B G es).
Proof.
  intros Hn Hm Hf. apply twp_bind. eapply twp_mono; [apply twp_and; [exact Hn|exact Hm]|].
  intros es [a|e|why|] [Hno Hg]; simpl; try by apply guarded_none.
  eapply twp_mono; [apply Hf|]. intros es' r _. apply guarded_app; [by apply guarded_none|]. left. by apply (Hg a).
Qed.
Lemma gd_deferred {A C} (m : M (Traced E W) A) (d : M (Traced E W) C) :
  twp m (λ es _, guarded B G es) → twp d (none_of B) → twp (deferred m d) (λ es _, guarded B G es).
Proof.
  intros Hm Hd. eapply twp_deferred; [exact Hd|]. eapply twp_mono; [exact Hm|].
  intros es r Hg. destruct r; try done; intros es' rd Hn; apply guarded_app; auto using guarded_none.
Qed.
End guarded.
