(* ===== verification/Upload.v ===== *)
(** * Uploaders of sabakan's contents

    [progs/sabakan/upload.go] and [image.go]: what the steps of an update, and
    [neco init-data], put into sabakan: images of the operating system, container images
    as assets, ignitions and dhcp.json.  Goroutines of a [well.Environment] run one after
    the other here ([env_Wait]); those of the uploaders write different objects. *)
From S2P Require Import Prelude GoStr GoTime Json Types Etcd Worlds Storage.
From S2P Require Import Updater GoNet Host Progs Operator Ext.

Local Open Scope Z_scope.

(** ** [constants.go] *)
Definition SabakanImages : list string :=
  ["bird"; "chrony"; "coil"; "serf"; "setup-hw"; "squid"; "squid-exporter"; "cilium";
   "cilium-operator-generic"; "hubble-relay"; "cilium-certgen"].
Definition NecoDataDir := "/usr/share/neco".
Definition WorkerAssetsPath := "/usr/libexec/neco".
Definition ServerCAFile := "/usr/local/share/ca-certificates/neco.crt".
Definition SabakanDHCPJSONFile := NecoDataDir +:+ "/dhcp.json".
Definition CKECLIBin := "/usr/bin/ckecli".
Definition CKETemplateFile := NecoDataDir +:+ "/cke-template.yml".
Definition CKEUserResourceFiles : list string :=
  map (λ f, NecoDataDir +:+ "/" +:+ f)
    ["namespaces.yml"; "cilium.yaml"; "coil.yaml"; "unbound.yaml"; "squid.yaml"].
Definition CKEUserResourceFilesPre : list string :=
  map (λ f, NecoDataDir +:+ "/" +:+ f)
    ["namespaces.yml"; "cilium-pre.yaml"; "coil-pre.yaml"; "unbound-pre.yaml"; "squid-pre.yaml"].
Definition CKEUserResourceFilesDCTest : list string :=
  map (λ f, NecoDataDir +:+ "/" +:+ f)
    ["namespaces.yml"; "cilium-dctest.yaml"; "coil-pre.yaml"; "unbound-pre.yaml"; "squid-pre.yaml"].
Definition IgnitionDirectory := NecoDataDir +:+ "/ignitions".

Definition imageOS := "coreos".
Definition retryCount : nat := 40.

(** [strings.ReplaceAll] of one character. *)
Fixpoint replace_char (old new : ascii) (s : string) : string :=
  match s with
  | EmptyString => EmptyString
  | String c s => String (if bool_decide (c = old) then new else c) (replace_char old new s)
  end.

Definition imageAssetName (img : ContainerImage) : string :=
  "cybozu-" +:+ img_Name img +:+ "-" +:+ replace_char "/" "-" (img_Repository img) +:+ "-" +:+
  img_Tag img +:+ ".img".

(** ** The outside *)

(** Temporary files, directories and globs. *)
Class MoreFiles (W : Type) := {
  file_Truncate : string → Z → M W unit;
  file_Seek : string → M W unit;
  (* names, and whether they are directories *)
  os_ReadDir : string → M W (list (string * bool));
  filepath_Glob : string → M W (list string);
}.
(** A GET: the content length of the response, and then its body into a file. *)
Class Download (W : Type) := {
  http_Get : string → M W Z;
  http_CopyTo : string → M W Z;
}.
(** go-containerregistry. *)
Class Registry (W : Type) := {
  reg_ParseReference : string → M W unit;
  reg_Image : string → M W unit;
  reg_WriteTarball : string → string → M W unit;
}.
(** ** [image.go] *)
Record ImageFetcher := { if_env : string }.
Definition NewImageFetcher (env : string) : outcome ImageFetcher :=
  if bool_decide (env = "") then Err (ErrMsg "env has no value set") else Ok {| if_env := env |}.

Section image.
Context {W : Type} `{Registry W}.
Definition fetched_name (f : ImageFetcher) (img : ContainerImage) : string :=
  FullName img (bool_decide (if_env f = DevEnv) || bool_decide (if_env f = StagingEnv)
                || bool_decide (if_env f = ProdEnv)).
Definition GetTarball (f : ImageFetcher) (img : ContainerImage) (file : string) : M W unit :=
  let ref := fetched_name f img in
  _ ← reg_ParseReference ref;
  _ ← wrapping ("failed to create remote image for " +:+ img_Name img) (reg_Image ref);
  reg_WriteTarball ref file.
End image.

Section retry_value.
Context {W A : Type} (sleep : M W unit) (f : M W A).
(** [RetryWithSleep] around a closure that assigns its result to a variable. *)
Fixpoint retry_value (max : nat) (last : outcome A) : M W A :=
  match max with
  | O => lift last
  | S max =>
      r ← attempt f;
      match r with
      | inr a => mret a
      | inl err => _ ← sleep; retry_value max (Err err)
      end
  end.
(** The same, where the caller ignores the result of [RetryWithSleep] and returns the
    error that the closure assigned last. *)
Fixpoint retry_last (max : nat) (last : outcome A) : M W A :=
  match max with
  | O => lift last
  | S max =>
      r ← attempt f;
      match r with
      | inr a => mret a
      | inl err =>
          s ← attempt sleep;
          match s with
          | inl _ => fail err
          | inr _ => retry_last max (Err err)
          end
      end
  end.
End retry_value.

Section sabakan.
Context `{NetUtil} {W : Type} `{Etcd W} `{Files W} `{Commands W} `{Clock W} `{SabaClient W}
  `{MoreFiles W} `{Download W} `{Registry W}.
Variable CurrentArtifacts : ArtifactSet.

(** [defer func() { f.Close(); os.Remove(f.Name()) }()] *)
Definition with_temp {A} (pattern : string) (body : string → M W A) : M W A :=
  f ← os_CreateTemp pattern;
  deferred (body f) (_ ← ignore_error (file_Close f); os_Remove f).

(** ** Images of the operating system *)
Definition downloadFile (url w : string) : M W Z :=
  contentLength ← http_Get url;
  if contentLength <=? 0 then fail (ErrMsg "unknown content-length") else http_CopyTo w.

Definition fetch_to (url f : string) : M W Z :=
  retry_value (SleepContext (10 * Second))
    (_ ← file_Truncate f 0; _ ← file_Seek f; downloadFile url f) retryCount (Ok 0).

Definition uploadOSImages : M W unit :=
  index ← saba_ImagesIndex imageOS;
  let version := os_Version (as_OSImage CurrentArtifacts) in
  if bool_decide (last index = Some version) then mret ()
  else
    let '(kernelURL, initrdURL) := URLs (as_OSImage CurrentArtifacts) in
    with_temp "kernel" (λ kernelFile,
    with_temp "initrd" (λ initrdFile,
      r1 ← attempt (fetch_to kernelURL kernelFile);
      r2 ← attempt (fetch_to initrdURL initrdFile);
      match r1, r2 with
      | inl e, _ => fail e
      | inr _, inl e => fail e
      | inr kernelSize, inr initrdSize =>
          _ ← file_Seek kernelFile;
          _ ← file_Seek initrdFile;
          saba_ImagesUpload imageOS version kernelFile kernelSize initrdFile initrdSize
      end)).

(** ** Assets *)
Definition needAssetUpload (name : string) : M W bool :=
  r ← attempt (saba_AssetsInfo name);
  match r with
  | inr _ => mret false
  | inl err => if saba_IsNotFound err then mret true else fail err
  end.

Definition assetsUploadWithRetry (name filename : string) : M W unit :=
  retry_last (SleepContext (10 * Second)) (saba_AssetsUpload name filename) retryCount (Ok ()).

Definition UploadImageAssets (img : ContainerImage) (fetcher : ImageFetcher) : M W unit :=
  let name := imageAssetName img in
  need ← needAssetUpload name;
  if negb need then mret ()
  else with_temp "neco-" (λ f, _ ← GetTarball fetcher img f; assetsUploadWithRetry name f).

Definition uploadAssets (fetcher : ImageFetcher) : M W unit :=
  imgs ← lift (find_images CurrentArtifacts SabakanImages);
  _ ← env_Wait (map (λ img : ContainerImage, UploadImageAssets img fetcher) imgs);
  files ← os_ReadDir WorkerAssetsPath;
  for_each files (λ file : string * bool,
    if snd file then mret ()
    else assetsUploadWithRetry (fst file) (WorkerAssetsPath +:+ "/" +:+ fst file)).

(** ** Ignitions *)
Definition needIgnitionUpdate (role id : string) : M W bool :=
  ids ← saba_IgnitionsListIDs role;
  mret (negb (bool_decide (last ids = Some id))).

Definition getInstalledRoles : M W (list string) :=
  paths ← filepath_Glob (IgnitionDirectory +:+ "/roles/*/site.yml");
  mret (map (λ path, Base (Dir path)) paths).

Definition fileExists (path : string) : M W bool :=
  r ← attempt (os_Stat path);
  match r with
  | inr _ => mret true
  | inl e => if IsNotExist e then mret false else fail e
  end.

Definition image_metadata (rt : dockerRuntime) (prefix : string) (imgs : list ContainerImage)
    (metadata : gmap string MetaValue) : gmap string MetaValue :=
  foldl (λ metadata img,
    <[prefix +:+ img_Name img +:+ ".ref" := MetaString (ImageFullName rt img)]>
      (<[prefix +:+ img_Name img +:+ ".img" := MetaString (imageAssetName img)]> metadata))
    metadata imgs.

(** The images that [ckecli images] lists ([GetCKEImages] of [progs/cke/upload.go]). *)
Fixpoint parse_images (ls : list string) : outcome (list ContainerImage) :=
  match ls with
  | [] => Ok []
  | l :: ls => img ← ParseContainerImageName l; imgs ← parse_images ls; Ok (img :: imgs)
  end.
Definition GetCKEImages : M W (list ContainerImage) :=
  output ← checked_Output [CKECLIBin; "images"]; lift (parse_images (scan_lines output)).
Definition setCKEMetadata (metadata : gmap string MetaValue) (rt : dockerRuntime)
    : M W (gmap string MetaValue) :=
  imgs ← GetCKEImages; mret (image_metadata rt "cke:" imgs metadata).

(** [switch err]: a value that was never set is left out or empty. *)
Definition optional (m : M W string) : M W (option string) :=
  r ← attempt m;
  match r with
  | inl ErrNotFound => mret None
  | inl e => fail e
  | inr v => mret (Some v)
  end.

Fixpoint boot_addresses (lrns : list Z) : M W (list string) :=
  match lrns with
  | [] => mret []
  | lrn :: lrns =>
      r ← attempt (saba_MachinesGet [("rack", Itoa lrn); ("role", "boot")]);
      match r with
      | inl e => fail (ErrMsg ("failed to find boot server in rack " +:+ Itoa lrn +:+ ": " +:+ error_text e))
      | inr [mc] =>
          match mc_IPv4 mc with
          | [] => panic "index out of range"
          | ip :: _ => ips ← boot_addresses lrns; mret (ip :: ips)
          end
      | inr _ => fail (ErrMsg ("boot server in rack " +:+ Itoa lrn +:+ " not found"))
      end
  end.

Definition ignition_metadata : M W (gmap string MetaValue) :=
  bootProxy ← GetProxyConfig;
  rt ← GetContainerRuntime bootProxy;
  metadata ← setCKEMetadata (image_metadata rt "" (as_Images CurrentArtifacts) ∅) rt;
  pubkey ← optional GetSSHPubkey;
  let metadata := match pubkey with
                  | Some k => <["authorized_key" := MetaString k]> metadata
                  | None => metadata
                  end in
  proxy ← optional GetNodeProxy;
  let metadata := <["proxy_url" := MetaString (default "" proxy)]> metadata in
  ipBlock ← optional GetExternalIPAddressBlock;
  let metadata := <["external_ip_address_block" := MetaString (default "" ipBlock)]> metadata in
  req ← GetRequest;
  bootServers ← boot_addresses (elems (req_Servers req));
  mret (<["version" := MetaString (req_Version req)]> (<["boot_servers" := MetaStrings bootServers]> metadata)).

Definition upload_ignition (metadata : gmap string MetaValue) (id role : string) : M W unit :=
  clusterName ← MyCluster;
  let dir := IgnitionDirectory +:+ "/roles/" +:+ role in
  let path := dir +:+ "/site-" +:+ clusterName +:+ ".yml" in
  exist ← fileExists path;
  tmpl ← saba_BuildIgnitionTemplate (if (exist : bool) then path else dir +:+ "/site.yml") metadata;
  need ← needIgnitionUpdate role id;
  if negb need then mret () else saba_IgnitionsSet role id tmpl.

Definition uploadIgnitions (id : string) : M W unit :=
  roles ← getInstalledRoles;
  metadata ← ignition_metadata;
  for_each roles (upload_ignition metadata id).

Definition UploadIgnitions (id : string) : M W unit :=
  _ ← saba_NewClient SabakanLocalEndpoint; uploadIgnitions id.

Definition UploadContents (fetcher : ImageFetcher) (version : string) : M W unit :=
  _ ← saba_NewClient SabakanLocalEndpoint;
  _ ← env_Wait [uploadOSImages; uploadAssets fetcher];
  uploadIgnitions version.

Definition UploadDHCPJSON : M W unit :=
  _ ← saba_NewClient SabakanLocalEndpoint;
  data ← os_ReadFile SabakanDHCPJSONFile;
  conf ← lift (saba_DecodeDHCPConfig data);
  saba_DHCPConfigSet conf.

Definition UploadCACert : M W unit :=
  _ ← saba_NewClient SabakanLocalEndpoint;
  saba_AssetsUpload "sabakan-tls-ca.crt" ServerCAFile.
End sabakan.
