(* ===== verification/TraceLoops.v ===== *)
(** * Records of retries and of goroutines

    What the logic of records says about [RetryWithSleep], wrapped errors and the
    goroutines of a [well.Environment]. *)
From S2P Require Import Prelude Worlds Host Progs Operator Trace Upload.

(** ** Loops *)
Section loops.
Context {E W A : Type} (P : E → Prop).
Lemma all_retry_value sleep (f : M (Traced E W) A) max last :
  twp sleep (all_of P) → twp f (all_of P) → twp (retry_value sleep f max last) (all_of P).
Proof.
  intros Hs Hf. revert last. induction max as [|max IH]; intros last; simpl; all_walk idtac; auto.
Qed.
Lemma all_retry_last sleep (f : M (Traced E W) A) max last :
  twp sleep (all_of P) → twp f (all_of P) → twp (retry_last sleep f max last) (all_of P).
Proof.
  intros Hs Hf. revert last. induction max as [|max IH]; intros last; simpl; all_walk idtac; auto.
Qed.
Lemma all_env_Wait (tasks : list (M (Traced E W) unit)) :
  Forall (λ t, twp t (all_of P)) tasks → twp (env_Wait tasks) (all_of P).
Proof.
  induction 1 as [|t ts Ht Hts IH]; simpl; all_walk idtac; auto.
Qed.
Lemma all_wrapping msg (m : M (Traced E W) A) : twp m (all_of P) → twp (wrapping msg m) (all_of P).
Proof. intros Hm. unfold wrapping. all_walk idtac; auto. Qed.

(** A retried call that succeeds has succeeded once, with what it gives. *)
Lemma ok_retry_last sleep (f : M (Traced E W) A) max e (R : list E → A → Prop) :
  (∀ es es' a, R es' a → R (es ++ es') a) → grows sleep → twp f (on_ok R) →
  twp (retry_last sleep f max (Err e)) (on_ok R).
Proof.
  intros HR Hs Hf. revert e. induction max as [|max IH]; intros e; simpl; [by apply twp_lift|].
  apply twp_bind, twp_attempt. eapply twp_mono; [exact Hf|]. intros es [a|err|why|] Hok; simpl; [| |done..].
  - apply twp_ret. rewrite app_nil_r. intros a' [= <-]. by apply Hok.
  - apply twp_bind, twp_attempt. eapply twp_mono; [exact Hs|]. intros es' [[]|e'|why|] _; simpl; try done; [|by apply twp_fail].
    eapply twp_mono; [apply IH|]. intros es'' r Hr a ->. by apply HR, HR, Hr.
Qed.
(** All tasks of an environment that ends well have ended well. *)
Lemma ok_env_Wait {B} (l : list B) (m : B → M (Traced E W) unit) (R : B → list E → Prop) :
  (∀ x es es', R x es → R x (es ++ es')) → (∀ x es es', R x es' → R x (es ++ es')) →
  (∀ x, x ∈ l → twp (m x) (on_ok (λ es _, R x es))) →
  twp (env_Wait (map m l)) (on_ok (λ es _, Forall (λ x, R x es) l)).
Proof.
  intros Hl Hr. induction l as [|x l IH]; intros Hm; [by apply twp_ret; intros [] _|]. simpl.
  apply twp_bind, twp_attempt. eapply twp_mono; [apply Hm, list_elem_of_here|]. intros es r Hok.
  assert (twp (env_Wait (map m l)) (on_ok (λ es _, Forall (λ x, R x es) l))) as Hrest.
  { apply IH. intros y Hy. by apply Hm, list_elem_of_further. }
  destruct r as [[]|e|why|]; simpl; [| |done..]; apply twp_bind, twp_attempt;
    (eapply twp_mono; [exact Hrest|]); intros es' [[]|e'|why'|] Hok'; simpl; try done;
    try (by apply twp_fail).
  apply twp_ret. rewrite !app_nil_r. intros [] _. constructor; [by apply Hl, (Hok tt)|].
  eapply Forall_impl; [by apply (Hok' tt)|]. intros y ?. by apply Hr.
Qed.
End loops.

(** ** Sequences *)
Section sequences.
Context {E W : Type}.
Lemma twp_assoc {A B C} (m : M (Traced E W) A) (f : A → M (Traced E W) B) (g : B → M (Traced E W) C) Q :
  twp ((m ≫= f) ≫= g) Q → twp (m ≫= λ a, f a ≫= g) Q.
Proof.
  intros Ht v v' r Hr. apply Ht. rewrite <-Hr. unfold mbind, M_bind. by destruct (m v) as [v1 [a|e|why|]].
Qed.
Lemma guarded_and (B : E → Prop) (G1 G2 : list E → Prop) es :
  guarded B G1 es → guarded B G2 es → guarded B (λ es, G1 es ∧ G2 es) es.
Proof. intros H1 H2 es1 x es2 Heq Hx. split; [by eapply H1|by eapply H2]. Qed.
(** Facts about records that hold once they hold of a part. *)
Definition lasting (R : list E → Prop) : Prop := ∀ es es', R es ∨ R es' → R (es ++ es').
Lemma ok_later {A} (R : list E → Prop) es (m : M (Traced E W) A) : lasting R →
  twp m (on_ok (λ es _, R es)) → twp m (on_ok (λ es' _, R (es ++ es'))).
Proof. intros HR Hm. eapply twp_mono; [exact Hm|]. intros es' r Hr a ->. apply HR. right. by apply (Hr a). Qed.
(** The same where the fact depends on the value. *)
Lemma ok_later_if {A} (R : list E → Prop) (c : A → Prop) es (m : M (Traced E W) A) : lasting R →
  twp m (on_ok (λ es a, c a → R es)) → twp m (on_ok (λ es' a, c a → R (es ++ es'))).
Proof.
  intros HR Hm. eapply twp_mono; [exact Hm|]. intros es' r Hr a -> Hc. apply HR. right. by apply (Hr a).
Qed.
Lemma ok_next_if {A B} (R : list E → Prop) (c : B → Prop) (m : M (Traced E W) A) (f : A → M (Traced E W) B) : lasting R →
  grows m → (∀ a, twp (f a) (on_ok (λ es b, c b → R es))) → twp (m ≫= f) (on_ok (λ es b, c b → R es)).
Proof. intros HR Hm Hf. apply ok_skip; [|done..]. intros es es' b Hb Hc. apply HR. right. auto. Qed.
Lemma ok_next {A B} (R : list E → Prop) (m : M (Traced E W) A) (f : A → M (Traced E W) B) : lasting R →
  grows m → (∀ a, twp (f a) (on_ok (λ es _, R es))) → twp (m ≫= f) (on_ok (λ es _, R es)).
Proof. intros HR Hm Hf. apply ok_skip; [|done..]. intros. apply HR. by right. Qed.
Lemma ok_here {A} (R : list E → Prop) es (m : M (Traced E W) A) : lasting R →
  R es → grows m → twp m (on_ok (λ es' _, R (es ++ es'))).
Proof. intros HR He Hm. eapply twp_mono; [exact Hm|]. intros es' r _ a ->. apply HR. by left. Qed.
Lemma ok_first {A B} (R : list E → Prop) (m : M (Traced E W) A) (f : A → M (Traced E W) B) : lasting R →
  twp m (on_ok (λ es _, R es)) → (∀ a, grows (f a)) → twp (m ≫= f) (on_ok (λ es _, R es)).
Proof.
  intros HR Hm Hf. apply (ok_bind _ _ (λ es _, R es)); [done|]. intros es a He. by apply ok_here.
Qed.
(** Goroutines that are guarded, and one fact for every parameter. *)
Lemma gd_attempt {A} (B : E → Prop) (G : list E → Prop) (m : M (Traced E W) A) :
  twp m (λ es _, guarded B G es) → twp (attempt m) (λ es _, guarded B G es).
Proof. intros Hm. by apply twp_attempt. Qed.
Lemma gd_env_Wait (B : E → Prop) (G : list E → Prop) (tasks : list (M (Traced E W) unit)) : lasting G →
  Forall (λ t, twp t (λ es _, guarded B G es)) tasks → twp (env_Wait tasks) (λ es _, guarded B G es).
Proof.
  intros HG. induction 1 as [|t ts Ht Hts IH]; simpl; [apply gd_none, all_const|].
  apply gd_bind; [done|by apply gd_attempt|intros r]. apply gd_bind; [done|by apply gd_attempt|intros r'].
  destruct r, r'; apply gd_none, all_const.
Qed.
Lemma twp_forall {A X} `{!Inhabited X} (m : M (Traced E W) A) (Q : X → list E → outcome A → Prop) :
  (∀ x, twp m (Q x)) → twp m (λ es r, ∀ x, Q x es r).
Proof.
  intros Hm v v' r Er. destruct (Hm inhabitant _ _ _ Er) as (es & Hl & _). exists es. split; [done|].
  intros x. destruct (Hm x _ _ _ Er) as (es' & Hl' & HQ). rewrite Hl in Hl'. by apply app_inv_head in Hl' as <-.
Qed.
(** What the first part's result tells guards the second part. *)
Lemma gd_use {A C} (B : E → Prop) (G : list E → Prop) (m : M (Traced E W) A) (f : A → M (Traced E W) C)
    (R : list E → A → Prop) : lasting G →
  twp m (none_of B) → twp m (on_ok R) → (∀ es a, R es a → twp (f a) (all_of (λ x, B x → G es))) →
  twp (m ≫= f) (λ es _, guarded B G es).
Proof.
  intros HG Hn Hm Hf. apply twp_bind. eapply twp_mono; [apply twp_and; [exact Hn|exact Hm]|].
  intros es [a|e|why|] [Hno HR]; simpl; try by apply guarded_none.
  eapply twp_mono; [by apply Hf, HR|]. intros es' r Hall es1 x es2 Heq Hx.
  apply app_eq_inv in Heq as [(k & -> & Hk)|(k & -> & ->)].
  - destruct k as [|y k].
    + rewrite app_nil_r in *. simpl in Hk. subst. inversion Hall as [|? ? Hg]. by apply Hg.
    + injection Hk as <- _. apply Forall_app in Hno as [_ Hno]. by inversion Hno.
  - apply HG. left. apply Forall_app in Hall as [_ Hall]. inversion Hall as [|? ? Hg]. by apply Hg.
Qed.
(** A test of a call's result that decides whether to go on. *)
Lemma ok_attempt {A B} (m : M (Traced E W) A) (f : error + A → M (Traced E W) B) (R : list E → A → Prop)
    (Q : list E → outcome B → Prop) :
  twp m (on_ok R) → grows m →
  (∀ es a, R es a → twp (f (inr a)) (λ es', Q (es ++ es'))) →
  (∀ es e, twp (f (inl e)) (λ es', Q (es ++ es'))) →
  (∀ es why, Q es (Panic why)) → (∀ es, Q es Running) → twp (attempt m ≫= f) Q.
Proof.
  intros Hm _ Hok Herr Hp Hr. apply twp_bind, twp_attempt. eapply twp_mono; [exact Hm|].
  intros es [a|e|why|] HR; simpl; auto.
Qed.
End sequences.
