(* ===== verification/UploadProofs.v ===== *)
(** * What the uploader of sabakan's contents does, and in which order

    Machines boot with an ignition, which refers to assets and runs on an image of the
    operating system: an ignition may be published only when all of them are there. *)
From S2P Require Import Prelude GoStr GoTime Json Types Etcd Worlds Storage.
From S2P Require Import Updater GoNet Host Progs Operator Trace Ext Upload TraceLoops.

Local Open Scope Z_scope.

(** ** The record of an upload *)
Inductive UpEffect :=
  | ImageIndex (ids : list string)
  | ImageUpload (version : string) (ok : bool)
  | AssetFound (name : string)
  | AssetMissing (name : string)
  | AssetUpload (name : string) (ok : bool)
  | Roles (paths : list string)
  | IgnitionIDs (role : string) (ids : list string)
  | IgnitionPut (role id : string) (ok : bool)
  | TempFile (name : string)
  | Removed (name : string).
#[export] Instance UpEffect_eq_dec : EqDecision UpEffect.
Proof. solve_decision. Defined.

Abbreviation UW W := (Traced UpEffect W).
Definition okay {A} (r : outcome A) : bool := match r with Ok _ => true | _ => false end.

Section instances.
Context {W : Type}.
#[export] Instance up_files `{Files W} : Files (UW W) := {
  os_Stat n := traced (λ _, []) (os_Stat n);
  os_ReadFile n := traced (λ _, []) (os_ReadFile n);
  os_OpenTrunc n m := traced (λ _, []) (os_OpenTrunc n m);
  file_Write n d := traced (λ _, []) (file_Write n d);
  file_Sync n := traced (λ _, []) (file_Sync n);
  file_Close n := traced (λ _, []) (file_Close n);
  os_MkdirAll n m := traced (λ _, []) (os_MkdirAll n m);
  os_Remove n := traced (λ _, [Removed n]) (os_Remove n);
  os_Rename a b := traced (λ _, []) (os_Rename a b);
  os_Chown n u g := traced (λ _, []) (os_Chown n u g);
  os_CreateTemp p := traced (λ r, match r with Ok f => [TempFile f] | _ => [] end) (os_CreateTemp p);
}.
#[export] Instance up_commands `{Commands W} : Commands (UW W) := {
  cmd_Run argv := traced (λ _, []) (cmd_Run argv);
  cmd_Output argv := traced (λ _, []) (cmd_Output argv);
  cmd_RunInput argv input := traced (λ _, []) (cmd_RunInput argv input);
}.
#[export] Instance up_clock `{Clock W} : Clock (UW W) := {
  clock_now := traced (λ _, []) clock_now;
  clock_after d := traced (λ _, []) (clock_after d);
}.
#[export] Instance up_etcd `{Etcd W} : Etcd (UW W) := {
  etcd_get k o := traced (λ _, []) (etcd_get k o);
  etcd_put k v := traced (λ _, []) (etcd_put k v);
  etcd_delete k := traced (λ _, []) (etcd_delete k);
  etcd_txn cs ops := traced (λ _, []) (etcd_txn cs ops);
  etcd_recv o rev := traced (λ _, []) (etcd_recv o rev);
}.
#[export] Instance up_more `{MoreFiles W} : MoreFiles (UW W) := {
  file_Truncate f n := traced (λ _, []) (file_Truncate f n);
  file_Seek f := traced (λ _, []) (file_Seek f);
  os_ReadDir d := traced (λ _, []) (os_ReadDir d);
  filepath_Glob p := traced (λ r, match r with Ok paths => [Roles paths] | _ => [] end) (filepath_Glob p);
}.
#[export] Instance up_download `{Download W} : Download (UW W) := {
  http_Get u := traced (λ _, []) (http_Get u);
  http_CopyTo f := traced (λ _, []) (http_CopyTo f);
}.
#[export] Instance up_registry `{Registry W} : Registry (UW W) := {
  reg_ParseReference n := traced (λ _, []) (reg_ParseReference n);
  reg_Image n := traced (λ _, []) (reg_Image n);
  reg_WriteTarball n f := traced (λ _, []) (reg_WriteTarball n f);
}.
#[export] Instance up_saba `{SabaClient W} : SabaClient (UW W) := {
  saba_NewClient u := traced (λ _, []) (saba_NewClient u);
  saba_ImagesIndex o := traced (λ r, match r with Ok ids => [ImageIndex ids] | _ => [] end) (saba_ImagesIndex o);
  saba_ImagesUpload o v k ks i is_ := traced (λ r, [ImageUpload v (okay r)]) (saba_ImagesUpload o v k ks i is_);
  saba_AssetsInfo n := traced (λ r, match r with
                                    | Ok _ => [AssetFound n]
                                    | Err e => if saba_IsNotFound (W := W) e then [AssetMissing n] else []
                                    | _ => []
                                    end) (saba_AssetsInfo n);
  saba_AssetsUpload n f := traced (λ r, [AssetUpload n (okay r)]) (saba_AssetsUpload n f);
  saba_IsNotFound := saba_IsNotFound (W := W);
  saba_IgnitionsListIDs role := traced (λ r, match r with Ok ids => [IgnitionIDs role ids] | _ => [] end)
                                  (saba_IgnitionsListIDs role);
  IgnitionTemplate := IgnitionTemplate (W := W);
  saba_BuildIgnitionTemplate p m := traced (λ _, []) (saba_BuildIgnitionTemplate p m);
  saba_IgnitionsSet role id t := traced (λ r, [IgnitionPut role id (okay r)]) (saba_IgnitionsSet role id t);
  saba_MachinesGet ps := traced (λ _, []) (saba_MachinesGet ps);
  DHCPConfig := DHCPConfig (W := W);
  saba_DecodeDHCPConfig := saba_DecodeDHCPConfig (W := W);
  saba_DHCPConfigSet c := traced (λ _, []) (saba_DHCPConfigSet c);
}.
End instances.

Section proofs.
Context `{NetUtil} {W : Type} `{Etcd W} `{Files W} `{Commands W} `{Clock W} `{SabaClient W}
  `{MoreFiles W} `{Download W} `{Registry W}.
Variable CurrentArtifacts : ArtifactSet.

Definition not_ignition (e : UpEffect) : Prop := match e with IgnitionPut _ _ _ => False | _ => True end.
Definition is_ignition (e : UpEffect) : Prop := match e with IgnitionPut _ _ _ => True | _ => False end.
(** Ignitions are put under one identifier only. *)
Definition ignition_of (version : string) (e : UpEffect) : Prop :=
  match e with IgnitionPut _ id _ => id = version | _ => True end.

Ltac up_eff := repeat constructor; simpl; try done; try case_match; repeat constructor; done.

(** ** Assets *)
Lemma sleep_grows d P : twp (W := W) (SleepContext d) (all_of P).
Proof. unfold SleepContext. all_walk ltac:(up_eff). Qed.
Hint Resolve sleep_grows : twp.

Lemma all_GetTarball P fetcher img f : twp (W := W) (GetTarball fetcher img f) (all_of P).
Proof.
  unfold GetTarball. all_walk ltac:(up_eff). apply all_wrapping. all_walk ltac:(up_eff).
Qed.
Hint Resolve all_GetTarball : twp.

Lemma all_upload_retry P n f : (∀ ok, P (AssetUpload n ok)) → twp (W := W) (assetsUploadWithRetry n f) (all_of P).
Proof. intros HP. apply all_retry_last; all_walk ltac:(repeat constructor; auto). Qed.

Lemma with_temp_all {A} P pattern (body : string → M (UW W) A) :
  (∀ f, P (TempFile f)) → (∀ f, P (Removed f)) →
  (∀ f, twp (body f) (all_of P)) → twp (with_temp pattern body) (all_of P).
Proof. intros ? ? Hb. unfold with_temp. all_walk ltac:(repeat constructor; auto); auto. Qed.

Lemma all_image_asset img fetcher : twp (W := W) (UploadImageAssets img fetcher) (all_of not_ignition).
Proof.
  unfold UploadImageAssets, needAssetUpload. all_walk ltac:(up_eff).
  apply with_temp_all; [done|done|]. all_walk ltac:(up_eff). by apply all_upload_retry.
Qed.

Lemma all_fetch url f P : twp (W := W) (fetch_to url f) (all_of P).
Proof. apply all_retry_value; unfold downloadFile; all_walk ltac:(up_eff). Qed.
Hint Resolve all_fetch : twp.

Lemma all_os : twp (W := W) (uploadOSImages CurrentArtifacts) (all_of not_ignition).
Proof.
  unfold uploadOSImages. all_walk ltac:(up_eff).
  apply with_temp_all; [done|done|]. intros k. apply with_temp_all; [done|done|]. all_walk ltac:(up_eff).
Qed.
Lemma all_assets fetcher : twp (W := W) (uploadAssets CurrentArtifacts fetcher) (all_of not_ignition).
Proof.
  unfold uploadAssets. all_walk ltac:(up_eff); [|by apply all_upload_retry].
  apply all_env_Wait, Forall_fmap, Forall_true. intros img. apply all_image_asset.
Qed.

(** ** What a success means *)
Definition os_ready (es : list UpEffect) : Prop :=
  let version := os_Version (as_OSImage CurrentArtifacts) in
  (∃ ids, ImageIndex ids ∈ es ∧ last ids = Some version) ∨ ImageUpload version true ∈ es.
Definition asset_ready (name : string) (es : list UpEffect) : Prop :=
  AssetFound name ∈ es ∨ AssetUpload name true ∈ es.
(** Every container image that ignitions may refer to is there. *)
Definition assets_ready (es : list UpEffect) : Prop := ∀ name img,
  name ∈ SabakanImages → FindContainerImage CurrentArtifacts name = Ok img →
  asset_ready (imageAssetName img) es.

Lemma os_ready_mono es es' : os_ready es ∨ os_ready es' → os_ready (es ++ es').
Proof. unfold os_ready. setoid_rewrite elem_of_app. naive_solver. Qed.
Lemma asset_ready_mono name es es' : asset_ready name es ∨ asset_ready name es' → asset_ready name (es ++ es').
Proof. unfold asset_ready. rewrite !elem_of_app. naive_solver. Qed.

Lemma assets_ready_mono es es' : assets_ready es ∨ assets_ready es' → assets_ready (es ++ es').
Proof. intros Ha name img ? ?. apply asset_ready_mono. destruct Ha as [Ha|Ha]; [left|right]; by eapply Ha. Qed.

Lemma ok_upload_retry name f : twp (W := W) (assetsUploadWithRetry name f) (on_ok (λ es _, AssetUpload name true ∈ es)).
Proof.
  unfold assetsUploadWithRetry, retryCount. set (n := 39%nat). change 40%nat with (S n). simpl.
  apply twp_bind, twp_attempt, twp_traced. intros [[]|e|why|]; simpl; [| |done..].
  - apply twp_ret. intros [] _. set_solver.
  - apply twp_bind, twp_attempt. eapply twp_mono; [by eapply all_grows, (sleep_grows _ (λ _, True))|].
    intros es [[]|e'|why|] _; simpl; try done; [|by apply twp_fail].
    eapply twp_mono; [apply (ok_retry_last _ _ n e (λ es _, AssetUpload name true ∈ es))|].
    + set_solver.
    + eapply all_grows, (sleep_grows _ (λ _, True)).
    + apply twp_traced. intros [[]| | |] [] ?; set_solver.
    + intros es' r HQ [] ->. specialize (HQ tt eq_refl). set_solver.
Qed.

Lemma ok_with_temp {A} pattern (body : string → M (UW W) A) (R : list UpEffect → A → Prop) :
  (∀ es es' a, R es a → R (es ++ es') a) → (∀ es es' a, R es' a → R (es ++ es') a) →
  (∀ f, twp (body f) (on_ok R)) → twp (with_temp pattern body) (on_ok R).
Proof.
  intros Hl Hr Hb. apply ok_skip; [done| |].
  - by apply twp_traced.
  - intros f. apply ok_deferred; [done|done|]. apply (all_grows (λ _, True)). all_walk ltac:(by repeat constructor).
Qed.

Lemma ok_image_asset img fetcher :
  twp (W := W) (UploadImageAssets img fetcher) (on_ok (λ es _, asset_ready (imageAssetName img) es)).
Proof.
  unfold UploadImageAssets. apply (ok_bind _ _ (λ es need, need = true ∨ asset_ready (imageAssetName img) es)).
  - unfold needAssetUpload. apply twp_bind, twp_attempt, twp_traced. intros [[]|e|why|]; simpl; try done.
    + apply twp_ret. intros need [= <-]. right. left. set_solver.
    + destruct (saba_IsNotFound e); [apply twp_ret; intros need [= <-]; by left|by apply twp_fail].
  - intros es need Hn. destruct need; simpl.
    + eapply twp_mono; [apply (ok_with_temp _ _ (λ es _, asset_ready (imageAssetName img) es))|].
      * intros. apply asset_ready_mono. auto.
      * intros. apply asset_ready_mono. auto.
      * intros f. apply ok_skip; [intros; apply asset_ready_mono; auto| |].
        -- apply (all_grows (λ _, True)), all_GetTarball.
        -- intros []. eapply twp_mono; [apply ok_upload_retry|]. intros es' r HQ [] ->. right. by apply (HQ tt).
      * intros es' r HQ [] ->. apply asset_ready_mono. right. by apply (HQ tt).
    + apply twp_ret. intros [] _. destruct Hn; [done|]. apply asset_ready_mono. auto.
Qed.

Lemma find_images_spec names imgs name img :
  find_images CurrentArtifacts names = Ok imgs → name ∈ names →
  FindContainerImage CurrentArtifacts name = Ok img → img ∈ imgs.
Proof.
  revert imgs. induction names as [|n names IH]; intros imgs; [by intros _ ?%not_elem_of_nil|]. simpl.
  intros (img' & Hf & (imgs' & Hfs & [= <-])%bind_pure_ok)%bind_pure_ok Hin Hf'.
  apply elem_of_cons in Hin as [->|Hin]; [|set_solver]. rewrite Hf in Hf'. injection Hf' as <-. set_solver.
Qed.

Lemma ok_assets fetcher : twp (W := W) (uploadAssets CurrentArtifacts fetcher) (on_ok (λ es _, assets_ready es)).
Proof.
  unfold uploadAssets. apply (ok_bind _ _ (λ _ imgs, find_images CurrentArtifacts SabakanImages = Ok imgs)).
  { by apply twp_lift; intros imgs ->. }
  intros es imgs Hi. apply (ok_bind _ _ (λ es' _, Forall (λ img, asset_ready (imageAssetName img) es') imgs)).
  { apply ok_env_Wait; [intros; apply asset_ready_mono; auto..|]. intros img _. apply ok_image_asset. }
  intros es' [] Hr.
  eapply (twp_mono _ (λ _ _, True)).
  { apply (all_grows (λ _, True)). all_walk ltac:(by repeat constructor). by apply all_upload_retry. }
  intros es'' r _ [] -> name img Hn Hf.
  apply asset_ready_mono. right. apply asset_ready_mono. left.
  rewrite Forall_forall in Hr. apply Hr. by eapply find_images_spec.
Qed.

Lemma ok_os : twp (W := W) (uploadOSImages CurrentArtifacts) (on_ok (λ es _, os_ready es)).
Proof.
  unfold uploadOSImages. apply (ok_bind _ _ (λ es index, ImageIndex index ∈ es)).
  { apply twp_traced. intros [ids| | |] a [= <-]. set_solver. }
  intros es index Hi. case_bool_decide as Hl.
  { apply twp_ret. intros [] _. apply os_ready_mono. left. left. eauto. }
  destruct (URLs _) as [ku iu].
  eapply twp_mono; [apply (ok_with_temp _ _ (λ es _, os_ready es))|];
    [intros; apply os_ready_mono; auto..| |intros es' r HQ [] ->; apply os_ready_mono; right; by apply (HQ tt)].
  intros k. apply ok_with_temp; [intros; apply os_ready_mono; auto..|]. intros i.
  assert (∀ es' es'' (u : ()), os_ready es'' → os_ready (es' ++ es'')) as Hm by (intros; apply os_ready_mono; auto).
  apply ok_skip; [done| |intros r1; apply ok_skip; [done| |intros r2]].
  1,2: apply (all_grows (λ _, True)); all_walk ltac:(by repeat constructor).
  destruct r1, r2; try by apply twp_fail.
  apply ok_skip; [done| |intros []; apply ok_skip; [done| |intros []]]; try by apply twp_traced.
  apply twp_traced. intros [[]| | |] [] ?; try done. right. set_solver.
Qed.

(** ** Ignitions *)
Lemma all_get P k : twp (W := W) (get k) (all_of P).
Proof. unfold get. all_walk ltac:(by repeat constructor). Qed.
Lemma all_optional P k : twp (W := W) (optional (get k)) (all_of P).
Proof. unfold optional. all_walk ltac:(by repeat constructor). apply all_get. Qed.
Hint Resolve all_get all_optional : twp.
Lemma all_boot_addresses P lrns : twp (W := W) (boot_addresses lrns) (all_of P).
Proof. induction lrns as [|lrn lrns IH]; simpl; all_walk ltac:(by repeat constructor); auto. Qed.
Hint Resolve all_boot_addresses : twp.
Lemma all_GetRequest P : twp (W := W) GetRequest (all_of P).
Proof. unfold GetRequest, get_request_rev, GetRequestWithRev. all_walk ltac:(by repeat constructor). Qed.
Hint Resolve all_GetRequest : twp.
Lemma all_metadata P : twp (W := W) (ignition_metadata CurrentArtifacts) (all_of P).
Proof.
  unfold ignition_metadata, GetProxyConfig, GetContainerRuntime, newDockerRuntime, setCKEMetadata, GetCKEImages,
    checked_Output, GetSSHPubkey, GetNodeProxy, GetExternalIPAddressBlock.
  all_walk ltac:(by repeat constructor).
Qed.
Hint Resolve all_metadata : twp.

Lemma all_ignition metadata id role : twp (W := W) (upload_ignition metadata id role) (all_of (ignition_of id)).
Proof. unfold upload_ignition, MyCluster, fileExists, needIgnitionUpdate. all_walk ltac:(by repeat constructor). Qed.
Lemma all_ignitions id : twp (W := W) (uploadIgnitions CurrentArtifacts id) (all_of (ignition_of id)).
Proof.
  unfold uploadIgnitions, getInstalledRoles. all_walk ltac:(by repeat constructor). apply all_ignition.
Qed.

(** The newest ignition of the role has this identifier. *)
Definition ignition_ready (id role : string) (es : list UpEffect) : Prop :=
  (∃ ids, IgnitionIDs role ids ∈ es ∧ last ids = Some id) ∨ IgnitionPut role id true ∈ es.
Lemma ignition_ready_mono id role es es' :
  ignition_ready id role es ∨ ignition_ready id role es' → ignition_ready id role (es ++ es').
Proof. unfold ignition_ready. setoid_rewrite elem_of_app. naive_solver. Qed.

Lemma ok_ignition metadata id role :
  twp (W := W) (upload_ignition metadata id role) (on_ok (λ es _, ignition_ready id role es)).
Proof.
  assert (∀ es es' (u : ()), ignition_ready id role es' → ignition_ready id role (es ++ es')) as Hm
    by (intros; apply ignition_ready_mono; auto).
  unfold upload_ignition. apply ok_skip; [done| |intros c; apply ok_skip; [done| |intros ex; apply ok_skip; [done| |intros t]]].
  1,2,3: apply (all_grows (λ _, True)); unfold MyCluster, fileExists; all_walk ltac:(by repeat constructor).
  apply (ok_bind _ _ (λ es need, need = true ∨ ignition_ready id role es)).
  - unfold needIgnitionUpdate. apply twp_bind, twp_traced. intros [ids| | |]; simpl; try done.
    apply twp_ret. intros need [= <-]. case_bool_decide; [|by left]. right. left. exists ids. set_solver.
  - intros es need Hn. destruct need; simpl.
    + apply twp_traced. intros [[]| | |] [] ?; try done. apply ignition_ready_mono. right. right. set_solver.
    + apply twp_ret. intros [] _. destruct Hn; [done|]. apply ignition_ready_mono. auto.
Qed.

Definition roles_ready (id : string) (es : list UpEffect) : Prop := ∃ paths, Roles paths ∈ es ∧
  ∀ path, path ∈ paths → ignition_ready id (Base (Dir path)) es.
Lemma roles_ready_mono id es es' : roles_ready id es ∨ roles_ready id es' → roles_ready id (es ++ es').
Proof.
  intros [(paths & Hp & Hr)|(paths & Hp & Hr)]; exists paths; (split; [set_solver|]); intros path Hin;
    apply ignition_ready_mono; auto.
Qed.
Lemma ok_ignitions id : twp (W := W) (uploadIgnitions CurrentArtifacts id) (on_ok (λ es _, roles_ready id es)).
Proof.
  unfold uploadIgnitions.
  apply (ok_bind _ _ (λ es roles, ∃ paths, Roles paths ∈ es ∧ roles = map (λ path, Base (Dir path)) paths)).
  { unfold getInstalledRoles. apply twp_bind, twp_traced. intros [paths| | |]; simpl; try done.
    apply twp_ret. intros roles [= <-]. exists paths. set_solver. }
  intros es roles (paths & Hp & ->).
  apply (ok_bind _ _ (λ _ _, True)); [by eapply twp_mono; [apply (all_metadata (λ _, True))|]|].
  intros es' md _.
  eapply twp_mono; [apply (ok_for_each _ _ (ignition_ready id))|].
  - intros. apply ignition_ready_mono. auto.
  - intros. apply ignition_ready_mono. auto.
  - intros role _. apply ok_ignition.
  - intros es'' r HQ [] ->. specialize (HQ tt eq_refl). exists paths. split; [set_solver|]. intros path Hin.
    rewrite Forall_forall in HQ. do 2 (apply ignition_ready_mono; right). apply HQ. by apply (list_elem_of_fmap_2 (λ path, Base (Dir path))).
Qed.

(** An environment of two goroutines that ends well. *)
Lemma ok_both (t1 t2 : M (UW W) unit) (R1 R2 : list UpEffect → Prop) :
  (∀ es es', R1 es ∨ R1 es' → R1 (es ++ es')) → (∀ es es', R2 es ∨ R2 es' → R2 (es ++ es')) →
  twp t1 (on_ok (λ es _, R1 es)) → twp t2 (on_ok (λ es _, R2 es)) →
  twp (env_Wait [t1; t2]) (on_ok (λ es _, R1 es ∧ R2 es)).
Proof.
  intros HR1 HR2 Ht1 Ht2. change [t1; t2] with (map (λ b : bool, if b then t1 else t2) [true; false]).
  eapply twp_mono; [apply (ok_env_Wait _ _ (λ b : bool, if b then R1 else R2))|].
  - intros []; auto.
  - intros []; auto.
  - by intros [] _.
  - intros es r HQ [] ->. specialize (HQ tt eq_refl). rewrite !Forall_cons in HQ. naive_solver.
Qed.

Lemma all_phase1 fetcher :
  twp (W := W) (env_Wait [uploadOSImages CurrentArtifacts; uploadAssets CurrentArtifacts fetcher]) (all_of not_ignition).
Proof. apply (all_env_Wait not_ignition). repeat constructor; [apply all_os|apply all_assets]. Qed.
Lemma ok_phase1 fetcher :
  twp (W := W) (env_Wait [uploadOSImages CurrentArtifacts; uploadAssets CurrentArtifacts fetcher])
    (on_ok (λ es _, os_ready es ∧ assets_ready es)).
Proof. apply ok_both; [apply os_ready_mono|apply assets_ready_mono|apply ok_os|apply ok_assets]. Qed.


(** ** One container image *)
Definition upload_only (name : string) (e : UpEffect) : Prop := ∃ ok, e = AssetUpload name ok.

Lemma no_effects {A} (m : M (UW W) A) : (∀ P, twp m (all_of P)) → twp m (λ es _, es = []).
Proof. intros Hm. eapply twp_mono; [apply (Hm (λ _, False))|]. by intros [|e es] r He; [|inversion He]. Qed.

Lemma retry_bounded name f max last :
  twp (W := W) (retry_last (SleepContext (10 * Second)) (saba_AssetsUpload name f) max last)
    (λ es _, (length es ≤ max)%nat ∧ Forall (upload_only name) es).
Proof.
  revert last. induction max as [|max IH]; intros last; simpl; [by apply twp_lift|].
  apply twp_bind, twp_attempt, twp_traced. unfold upload_only in *. intros [[]|e|why|]; simpl.
  - apply twp_ret. simpl. split; [lia|]. repeat constructor. eauto.
  - apply twp_bind, twp_attempt. eapply twp_mono; [apply no_effects, sleep_grows|].
    intros es [[]|e'|why|] ->; simpl.
    + eapply twp_mono; [apply IH|]. intros es r [? ?]. simpl. split; [lia|]. constructor; eauto.
    + apply twp_fail. simpl. split; [lia|]. repeat constructor. eauto.
    + split; [simpl; lia|]. repeat constructor. eauto.
    + split; [simpl; lia|]. repeat constructor. eauto.
  - split; [lia|]. repeat constructor. eauto.
  - split; [lia|]. repeat constructor. eauto.
Qed.

Lemma tarball_then_upload fetcher img f name :
  twp (W := W) (_ ← GetTarball fetcher img f; assetsUploadWithRetry name f)
    (λ es _, (length es ≤ retryCount)%nat ∧ Forall (upload_only name) es).
Proof.
  apply twp_bind. eapply twp_mono; [apply no_effects; intros P; apply all_GetTarball|].
  intros es [[]|e|why|] ->; simpl; [|split; [unfold retryCount; lia|constructor]..]. apply retry_bounded.
Qed.

(** A container image that sabakan has is not fetched or uploaded again; one that it
    lacks is uploaded with at most forty attempts, through a temporary file that is
    removed whatever happens; and only the asset of this image is ever written. *)
Theorem UploadImageAssets_bounded img fetcher v v' r :
  UploadImageAssets img fetcher v = (v', r) →
  let name := imageAssetName img in
  ∃ es, tr_log v' = tr_log v ++ es ∧
    (es = [] ∧ (∀ a, r ≠ Ok a) ∨
     es = [AssetFound name] ∧ r = Ok tt ∨
     es = [AssetMissing name] ∧ (∀ a, r ≠ Ok a) ∨
     ∃ f ups rest, es = AssetMissing name :: TempFile f :: ups ++ rest ∧
       (length ups ≤ 40)%nat ∧ Forall (upload_only name) ups ∧
       (rest = [Removed f] ∨ rest = [] ∧ ¬ plain r)).
Proof.
  intros E name. revert v v' r E. change (twp (W := W) (UploadImageAssets img fetcher) (λ es r,
    es = [] ∧ (∀ a, r ≠ Ok a) ∨ es = [AssetFound name] ∧ r = Ok tt ∨ es = [AssetMissing name] ∧ (∀ a, r ≠ Ok a) ∨
    ∃ f ups rest, es = AssetMissing name :: TempFile f :: ups ++ rest ∧
       (length ups ≤ 40)%nat ∧ Forall (upload_only name) ups ∧ (rest = [Removed f] ∨ rest = [] ∧ ¬ plain r))).
  unfold UploadImageAssets, needAssetUpload. fold name. apply twp_bind, twp_bind, twp_attempt, twp_traced.
  intros [[]|e|why|]; simpl; [apply twp_ret, twp_ret; auto| |by left..].
  destruct (saba_IsNotFound e); [|by apply twp_fail; left]. apply twp_ret. simpl.
  unfold with_temp. apply twp_bind, twp_traced. intros [f|e'|why|]; simpl; [|by auto..].
  eapply twp_deferred.
  { apply (twp_mono _ (λ es rd, es = [Removed f] ∨ es = [] ∧ ¬ plain rd)); [|intros ? ? HQ; exact HQ].
    apply twp_bind, twp_ignore, twp_traced. intros []; simpl; [by apply twp_traced; left|by apply twp_traced; left|by right; auto..]. }
  eapply twp_mono; [apply tarball_then_upload|]. intros ups r [Hlen Hups].
  destruct r as [[]|e'|why|].
  1,2: intros rest rd [->|[-> Hrd]]; do 3 right; [exists f, ups, [Removed f]; auto|];
    exists f, ups, []; (split; [done|]); destruct rd; simpl in Hrd; by auto.
  1,2: do 3 right; exists f, ups, []; rewrite app_nil_r;
    split_and!; [done|done|done|right; split; [done|by intros []]].
Qed.

(** The configuration of a proxy is optional, but without it no ignition is uploaded. *)
Lemma ignitions_need_proxy id (w w' : W) r :
  (∀ w : W, ∃ w' : W, GetProxyConfig w = (w', Err ErrNotFound)) →
  uploadIgnitions CurrentArtifacts id w = (w', r) → ∀ a, r ≠ Ok a.
Proof.
  intros Hp E a ->. unfold uploadIgnitions, ignition_metadata in E. minv.
  match goal with E1 : GetProxyConfig ?w1 = _ |- _ => destruct (Hp w1) as [? Hw]; rewrite Hw in E1 end. done.
Qed.
End proofs.
