(* ===== verification/CKEUpload.v ===== *)
(** * Uploaders of CKE's contents

    [progs/cke/upload.go], [progs/cke/resource.go], [GenerateCKETemplate] of
    [progs/cke/conf.go] and the weights of [storage/cke.go]: the template of the
    Kubernetes cluster, its container images and the user-defined resources. *)
From S2P Require Import Prelude GoStr GoTime Json Types Etcd Worlds Storage.
From S2P Require Import Updater GoNet Host Progs Operator Ext Upload.
From Stdlib Require Import Floats.SpecFloat.

Local Open Scope Z_scope.

Abbreviation float64 := spec_float.

(** ** The outside *)

(** [text/template] on a map of parameters: the text of a template, its output. *)
Class TextTemplate := {
  tmpl_Parse : string → outcome unit;
  tmpl_Execute : string → gmap string string → outcome string;
}.

(** sigs.k8s.io/yaml into a [map[string]interface{}] ([None]: the nil map of an empty
    document), and the helpers of k8s.io/apimachinery on such maps. *)
Abbreviation object := (list (string * json)).
Class Unstructured := {
  yaml_Unmarshal : string → outcome (option object);
  SetNestedField : object → json → string → outcome object;
  (* the value, whether it was found, and an error *)
  NestedBool : object → string → bool * bool * option error;
}.

(** The text of JSON with floating-point numbers. *)
Class FloatJson := {
  Marshal_weights : gmap string float64 → outcome string;
  Unmarshal_weights : string → outcome (gmap string float64);
}.

(** ** [fmt.Sprintf("%f", x)]: six digits after the point, halves to even *)
Definition div_half_even (a b : Z) : Z :=
  let q := a / b in
  let r := a `mod` b in
  if 2 * r <? b then q else if b <? 2 * r then q + 1 else if Z.even q then q else q + 1.
Definition millionths (m : Z) (e : Z) : Z :=
  if 0 <=? e then m * 2 ^ e * 1000000 else div_half_even (m * 1000000) (2 ^ (- e)).
Definition fixed6 (sign : bool) (n : Z) : string :=
  (if sign then "-" else "") +:+ Itoa (n / 1000000) +:+ "." +:+ dec_fixed 6 (n `mod` 1000000) "".
Definition format_f (x : float64) : string :=
  match x with
  | S754_nan => "NaN"
  | S754_infinity sign => if sign then "-Inf" else "+Inf"
  | S754_zero sign => fixed6 sign 0
  | S754_finite sign m e => fixed6 sign (millionths (Zpos m) e)
  end.

(** ** Maps *)
Fixpoint obj_get (o : object) (k : string) : option json :=
  match o with
  | [] => None
  | (k', v) :: o => if bool_decide (k' = k) then Some v else obj_get o k
  end.
Fixpoint obj_set (o : object) (k : string) (v : json) : object :=
  match o with
  | [] => [(k, v)]
  | (k', v') :: o => if bool_decide (k' = k) then (k, v) :: o else (k', v') :: obj_set o k v
  end.

(** ** [GenerateCKETemplate] *)
Definition ckeLabelRole := "cke.cybozu.com/role".
Definition ckeLabelWeight := "cke.cybozu.com/weight".

Definition protected_namespaces : json :=
  JObj [("matchExpressions",
    JArr [JObj [("key", JStr "development"); ("operator", JStr "NotIn"); ("values", JArr [JStr "true"])]])].
(** [if r, ok := tmpl[field].(map[string]interface{}); ok] *)
Definition protect (field : string) (tmpl : object) : object :=
  match obj_get tmpl field with
  | Some (JObj r) => obj_set tmpl field (JObj (obj_set r "protected_namespaces" protected_namespaces))
  | _ => tmpl
  end.

Section template.
Context `{Unstructured}.

(** The loop over the nodes for one role: the first worker of the role gets the weight. *)
Fixpoint set_weight (role : string) (weight : float64) (nodes : list json) : outcome (list json) :=
  match nodes with
  | [] => Ok []
  | JObj n :: nodes =>
      let '(cp, found, err) := NestedBool n "control_plane" in
      if negb found then Err (ErrMsg "control_plane is not found")
      else
        match err with
        | Some err => Err err
        | None =>
            match obj_get n "labels" with
            | Some (JObj labels) =>
                if negb cp && match obj_get labels ckeLabelRole with
                              | Some (JStr r) => bool_decide (r = role)
                              | _ => false
                              end
                then Ok (JObj (obj_set n "labels"
                           (JObj (obj_set labels ckeLabelWeight (JStr (format_f weight))))) :: nodes)
                else nodes ← set_weight role weight nodes; Ok (JObj n :: nodes)
            | _ => Err (ErrMsg "labels should be a map")
            end
        end
  | _ :: _ => Err (ErrMsg "node should be a map")
  end.
(** [range weights], in the order of the list. *)
Fixpoint set_weights (weights : list (string * float64)) (nodes : list json) : outcome (list json) :=
  match weights with
  | [] => Ok nodes
  | (role, weight) :: weights => nodes ← set_weight role weight nodes; set_weights weights nodes
  end.

Definition named_template (name : string) (ckeTemplate : string) : outcome object :=
  tmpl ← yaml_Unmarshal ckeTemplate;
  match tmpl with
  | None => Panic "assignment to entry in nil map"
  | Some tmpl =>
      tmpl ← SetNestedField tmpl (JStr name) "name";
      Ok (if HasPrefix name "stage" then protect "repair" (protect "reboot" tmpl) else tmpl)
  end.
Definition weighted_template (weights : list (string * float64)) (tmpl : object) : outcome object :=
  match obj_get tmpl "nodes" with
  | Some (JArr nodes) => nodes ← set_weights weights nodes; Ok (obj_set tmpl "nodes" (JArr nodes))
  | _ => Err (ErrMsg "nodes should be a slice")
  end.
End template.

Section cke.
Context `{NetUtil} `{Yaml} `{Unstructured} `{FloatJson} `{TextTemplate}
  {W : Type} `{Etcd W} `{Files W} `{Commands W} `{Clock W} `{SabaClient W}
  `{MoreFiles W} `{Download W} `{Registry W}.
Variable CurrentArtifacts : ArtifactSet.

(** [storage/cke.go] *)
Definition PutCKEWeight (value : gmap string float64) : M W unit :=
  data ← lift (Marshal_weights value); put KeyCKEWeight data.
Definition GetCKEWeight : M W (gmap string float64) :=
  resp ← etcd_get KeyCKEWeight opt_key;
  match resp_kvs resp with
  | [] => fail ErrNotFound
  | kv :: _ => lift (Unmarshal_weights (kv_value kv))
  end.

Definition GenerateCKETemplate (name ckeTemplate : string) : M W string :=
  tmpl ← lift (named_template name ckeTemplate);
  r ← attempt GetCKEWeight;
  weights ← match r with
            | inr weights => mret (map_to_list weights)
            | inl ErrNotFound => mret []
            | inl e => fail e
            end;
  tmpl ← lift (weighted_template weights tmpl);
  lift (yaml_Marshal (JObj tmpl)).

(** [upload.go] *)
Definition UploadCKEContents (fetcher : ImageFetcher) : M W unit :=
  _ ← saba_NewClient SabakanLocalEndpoint;
  images ← GetCKEImages;
  env_Wait (map (λ img : ContainerImage, UploadImageAssets img fetcher) images).

Definition SetCKETemplate : M W unit :=
  cluster ← MyCluster;
  ckeTemplate ← os_ReadFile CKETemplateFile;
  newCkeTemplate ← GenerateCKETemplate cluster ckeTemplate;
  with_temp "" (λ f,
    _ ← file_Write f newCkeTemplate;
    cmd_Run [CKECLIBin; "sabakan"; "set-template"; f]).

(** [resource.go] *)
Definition setLBAddress (key : string) (lbAddr : M W string) (templateParams : gmap string string)
    : M W (gmap string string) :=
  addr ← optional lbAddr; mret (<[key := default "" addr]> templateParams).

Definition image_params (prefix : string) (imgs : list ContainerImage) (params : gmap string string)
    : gmap string string :=
  foldl (λ params img, <[prefix +:+ img_Name img := FullName img false]> params) params imgs.

Definition template_params : M W (gmap string string) :=
  images ← GetCKEImages;
  let params := image_params "cke-" images (image_params "" (as_Images CurrentArtifacts) ∅) in
  params ← setLBAddress "lbAddressDefault" GetLBAddressBlockDefault params;
  params ← setLBAddress "lbAddressBastion" GetLBAddressBlockBastion params;
  params ← setLBAddress "lbAddressInternet" GetLBAddressBlockInternet params;
  setLBAddress "lbAddressInternetCN" GetLBAddressBlockInternetCN params.

Definition user_resource_files (env : string) : list string :=
  if bool_decide (env = ProdEnv) then CKEUserResourceFiles
  else if bool_decide (env = NoneEnv) || bool_decide (env = TestEnv) then CKEUserResourceFilesDCTest
  else CKEUserResourceFilesPre.

Definition set_resource (params : gmap string string) (filename : string) : M W unit :=
  content ← os_ReadFile filename;
  _ ← lift (tmpl_Parse content);
  text ← lift (tmpl_Execute content params);
  cmd_RunInput [CKECLIBin; "resource"; "set"; "-"] text.

Definition UpdateResources : M W unit :=
  params ← template_params;
  env ← GetEnvConfig;
  for_each (user_resource_files env) (set_resource params).

(** The uploaders behind the interface of the operator. *)
Definition uploads (fetcher : ImageFetcher) : Uploads W := {|
  sabakan_UploadContents := UploadContents CurrentArtifacts fetcher;
  sabakan_UploadDHCPJSON := UploadDHCPJSON;
  cke_UploadContents _ := UploadCKEContents fetcher;
  cke_SetCKETemplate := SetCKETemplate;
  cke_UpdateResources := UpdateResources;
|}.
End cke.

Example format_f_small : format_f (S754_finite false 13107200 (-18)) = "50.000000".
Proof. reflexivity. Qed.
Example format_f_third : format_f (S754_finite true 6004799503160661 (-54)) = "-0.333333".
Proof. reflexivity. Qed.
