(* ===== verification/CKEProofs.v ===== *)
(** * The template of the Kubernetes cluster

    The loop of [GenerateCKETemplate] over a map of weights, whose order Go leaves open,
    and over the nodes, against a definition that reads the nodes once. *)
From S2P Require Import Prelude GoStr GoTime Json Types Etcd Worlds Storage.
From S2P Require Import Updater GoNet Host Progs Operator Ext Upload CKEUpload.

Local Open Scope Z_scope.

(** ** Maps *)
Lemma obj_get_set o k v : obj_get (obj_set o k v) k = Some v.
Proof.
  induction o as [|[k' v'] o IH]; simpl; [by rewrite bool_decide_eq_true_2|].
  case_bool_decide; simpl; [by rewrite bool_decide_eq_true_2|]. by rewrite bool_decide_eq_false_2.
Qed.
Lemma obj_get_set_ne o k k' v : k ≠ k' → obj_get (obj_set o k v) k' = obj_get o k'.
Proof.
  intros Hne. induction o as [|[k1 v1] o IH]; simpl; [by rewrite bool_decide_eq_false_2|].
  case_bool_decide as H1; simpl; [|by rewrite IH].
  rewrite (bool_decide_eq_false_2 (k = k')) by done. by rewrite bool_decide_eq_false_2 by congruence.
Qed.

(** What apimachinery documents of a field that is looked up. *)
Class UnstructuredLaws `{Unstructured} := {
  NestedBool_field o o' f : obj_get o f = obj_get o' f → NestedBool o f = NestedBool o' f;
}.

Section weights.
Context `{UnstructuredLaws}.

(** The role of a node that is not part of the control plane. *)
Definition worker_role (n : json) : option string :=
  match n with
  | JObj o =>
      match NestedBool o "control_plane", obj_get o "labels" with
      | (false, true, None), Some (JObj labels) =>
          match obj_get labels ckeLabelRole with Some (JStr r) => Some r | _ => None end
      | _, _ => None
      end
  | _ => None
  end.
Definition with_weight (n : json) (weight : float64) : json :=
  match n with
  | JObj o =>
      match obj_get o "labels" with
      | Some (JObj labels) =>
          JObj (obj_set o "labels" (JObj (obj_set labels ckeLabelWeight (JStr (format_f weight)))))
      | _ => n
      end
  | _ => n
  end.

(** One pass over the nodes: a weight is used up by the first worker of its role. *)
Fixpoint reweigh (m : gmap string float64) (nodes : list json) : list json :=
  match nodes with
  | [] => []
  | n :: nodes =>
      match worker_role n with
      | Some r =>
          match m !! r with
          | Some weight => with_weight n weight :: reweigh (delete r m) nodes
          | None => n :: reweigh m nodes
          end
      | None => n :: reweigh m nodes
      end
  end.

Lemma worker_role_weight n weight : worker_role (with_weight n weight) = worker_role n.
Proof.
  destruct n as [| | | | |o]; try done. simpl. destruct (obj_get o "labels") as [[| | | | |l]|] eqn:El; simpl; rewrite ?El; try done.
  rewrite obj_get_set. rewrite (NestedBool_field _ o) by by rewrite obj_get_set_ne.
  by rewrite obj_get_set_ne.
Qed.

(** The loop for one role, in terms of [worker_role]. *)
Lemma set_weight_cons role weight n nodes out :
  set_weight role weight (n :: nodes) = Ok out →
  (worker_role n = Some role ∧ out = with_weight n weight :: nodes) ∨
  (worker_role n ≠ Some role ∧ ∃ nodes', set_weight role weight nodes = Ok nodes' ∧ out = n :: nodes').
Proof.
  destruct n as [| | | | |o]; try done. simpl.
  destruct (NestedBool o "control_plane") as [[cp found] err]. destruct found; [|done]. simpl.
  destruct err as [err|]; [done|]. destruct (obj_get o "labels") as [[| | | | |l]|]; try done.
  destruct cp; simpl; [intros (x & ? & [= <-])%bind_pure_ok; right; by eauto|].
  destruct (obj_get l ckeLabelRole) as [[| | |r| |]|]; simpl;
    try (intros (x & ? & [= <-])%bind_pure_ok; right; by eauto).
  case_bool_decide as Hr; [subst; intros [= <-]; by left|].
  intros (x & ? & [= <-])%bind_pure_ok. right. split; [congruence|eauto].
Qed.

Lemma reweigh_set_weight role weight m nodes out :
  m !! role = None → set_weight role weight nodes = Ok out →
  reweigh m out = reweigh (<[role := weight]> m) nodes.
Proof.
  revert m out. induction nodes as [|n nodes IH]; intros m out Hm; [by intros [= <-]|].
  intros [[Hr ->]|(Hr & nodes' & Hs & ->)]%set_weight_cons; simpl.
  - rewrite worker_role_weight, Hr, Hm, lookup_insert_eq. by rewrite delete_insert_id.
  - destruct (worker_role n) as [r|] eqn:Er; [|by f_equal; apply IH].
    assert (r ≠ role) by congruence. rewrite lookup_insert_ne by done.
    destruct (m !! r) as [w'|] eqn:Ew; f_equal; [|by apply IH].
    rewrite delete_insert_ne by done. apply IH; [|done]. by rewrite lookup_delete_None; right.
Qed.

Lemma reweigh_empty nodes : reweigh ∅ nodes = nodes.
Proof.
  induction nodes as [|n nodes IH]; simpl; [done|]. rewrite IH. destruct (worker_role n); [by rewrite lookup_empty|done].
Qed.

Lemma set_weights_reweigh weights nodes out :
  NoDup weights.*1 → set_weights weights nodes = Ok out → out = reweigh (list_to_map weights) nodes.
Proof.
  revert nodes. induction weights as [|[role weight] weights IH]; intros nodes Hnd; simpl.
  - intros [= <-]. by rewrite reweigh_empty.
  - intros (nodes' & Hs & Ho)%bind_pure_ok. apply NoDup_cons in Hnd as [Hni Hnd].
    rewrite (IH nodes' Hnd Ho). apply reweigh_set_weight; [|done]. by apply not_elem_of_list_to_map_1.
Qed.

(** Nodes that [GenerateCKETemplate] accepts, and what it reads for one role: the nodes
    up to the first worker of the role. *)
Definition node_ok (n : json) : Prop :=
  match n with
  | JObj o =>
      match NestedBool o "control_plane", obj_get o "labels" with
      | (_, true, None), Some (JObj _) => True
      | _, _ => False
      end
  | _ => False
  end.
Fixpoint scan_ok (role : string) (nodes : list json) : Prop :=
  match nodes with
  | [] => True
  | n :: nodes => node_ok n ∧ (worker_role n = Some role ∨ scan_ok role nodes)
  end.

Lemma node_ok_weight n weight : node_ok (with_weight n weight) ↔ node_ok n.
Proof.
  destruct n as [| | | | |o]; try done. simpl. destruct (obj_get o "labels") as [[| | | | |l]|] eqn:El; simpl; rewrite ?El; try done.
  rewrite obj_get_set. by rewrite (NestedBool_field _ o) by by rewrite obj_get_set_ne.
Qed.
Lemma set_weight_ok role weight nodes : (∃ out, set_weight role weight nodes = Ok out) ↔ scan_ok role nodes.
Proof.
  induction nodes as [|n nodes IH]; [simpl; split; [done|by eauto]|].
  destruct n as [| | | | |o]; simpl; try (split; [by intros [? ?]|by intros [[] _]]).
  destruct (NestedBool o "control_plane") as [[cp found] err]. destruct found; simpl; [|by split; [intros [? ?]|simpl; intros [[] _]]].
  destruct err as [err|]; [by split; [intros [? ?]|simpl; intros [[] _]]|].
  destruct (obj_get o "labels") as [[| | | | |l]|]; try (by split; [intros [? ?]|simpl; intros [[] _]]).
  assert ((∃ out, (nodes ← set_weight role weight nodes; Ok (JObj o :: nodes)) = Ok out) ↔ scan_ok role nodes) as Hrest.
  { rewrite <-IH. split; [intros (out & (x & ? & _)%bind_pure_ok); eauto|intros [out Ho]]. rewrite Ho. by eexists. }
  destruct cp; simpl; [rewrite Hrest; split; [auto|by intros [_ [?|?]]]|].
  destruct (obj_get l ckeLabelRole) as [[| | |r| |]|]; simpl; rewrite ?Hrest;
    try (split; [auto|by intros [_ [?|?]]]).
  case_bool_decide; [subst; split; [auto|by eauto]|].
  rewrite Hrest. split; [auto|intros [_ [[=]|?]]; [congruence|done]].
Qed.
Lemma scan_ok_set_weight role role' weight nodes out :
  set_weight role weight nodes = Ok out → scan_ok role' out ↔ scan_ok role' nodes.
Proof.
  revert out. induction nodes as [|n nodes IH]; intros out; [by intros [= <-]|].
  intros [[Hr ->]|(_ & nodes' & Hs & ->)]%set_weight_cons; simpl.
  - by rewrite node_ok_weight, worker_role_weight.
  - by rewrite IH.
Qed.
Lemma set_weights_ok weights nodes :
  (∃ out, set_weights weights nodes = Ok out) ↔ Forall (λ rw, scan_ok rw.1 nodes) weights.
Proof.
  revert nodes. induction weights as [|[role weight] weights IH]; intros nodes; simpl.
  { split; [by constructor|by eauto]. }
  rewrite Forall_cons, <-(set_weight_ok role weight nodes). simpl. split.
  - intros (out & (nodes' & Hs & Ho)%bind_pure_ok). split; [by eauto|].
    assert (Forall (λ rw, scan_ok rw.1 nodes') weights) as Hf by (apply IH; eauto).
    eapply Forall_impl; [exact Hf|]. intros rw. by rewrite (scan_ok_set_weight _ _ _ _ _ Hs).
  - intros [[nodes' Hs] Hf]. rewrite Hs. apply IH. eapply Forall_impl; [exact Hf|].
    intros rw. by rewrite (scan_ok_set_weight _ _ _ _ _ Hs).
Qed.

(** The order in which a map is read does not show. *)
Lemma set_weights_order (weights : gmap string float64) order nodes out :
  set_weights (map_to_list weights) nodes = Ok out → order ≡ₚ map_to_list weights →
  set_weights order nodes = Ok (reweigh weights nodes).
Proof.
  intros Hs Hp. assert (∃ out', set_weights order nodes = Ok out') as [out' Ho].
  { apply set_weights_ok. rewrite Hp. apply set_weights_ok. eauto. }
  rewrite Ho. f_equal. apply set_weights_reweigh in Ho; [|rewrite Hp; apply NoDup_fst_map_to_list].
  rewrite Ho, (list_to_map_proper order (map_to_list weights)); [by rewrite list_to_map_to_list| |done].
  rewrite Hp. apply NoDup_fst_map_to_list.
Qed.
End weights.

Section template.
Context `{Yaml} `{UnstructuredLaws} `{FloatJson} {W : Type} `{Etcd W}.

(** C20: the loops over the map of weights and over the nodes do, in whatever order the
    map is read, what one pass over the nodes does that gives each weight to the first
    worker of its role: the template that is generated is the named template with its
    nodes so changed, for the weights that etcd holds or none. *)
Theorem GenerateCKETemplate_weights name text (w w' : W) out :
  GenerateCKETemplate name text w = (w', Ok out) →
  ∃ tmpl nodes weights,
    named_template name text = Ok tmpl ∧ obj_get tmpl "nodes" = Some (JArr nodes) ∧
    (GetCKEWeight w = (w', Ok weights) ∨ GetCKEWeight w = (w', Err ErrNotFound) ∧ weights = ∅) ∧
    (∀ order, order ≡ₚ map_to_list weights → set_weights order nodes = Ok (reweigh weights nodes)) ∧
    yaml_Marshal (JObj (obj_set tmpl "nodes" (JArr (reweigh weights nodes)))) = Ok out.
Proof.
  intros E. unfold GenerateCKETemplate in E. apply bind_ok in E as (w0 & tmpl & [-> Ht]%lift_ok & E).
  apply bind_ok in E as (w1 & r & Hr%attempt_ok & E). apply bind_ok in E as (w2 & ws & Hws & E).
  apply bind_ok in E as (w3 & tmpl' & [-> Hw]%lift_ok & [-> Hy]%lift_ok).
  assert (∃ weights, ws = map_to_list weights ∧ w2 = w1 ∧
    (GetCKEWeight w = (w1, Ok weights) ∨ GetCKEWeight w = (w1, Err ErrNotFound) ∧ weights = ∅))
    as (weights & -> & -> & Hget).
  { destruct r as [[]|weights]; minv; eauto 10. exists ∅. by rewrite map_to_list_empty; auto. }
  unfold weighted_template in Hw. destruct (obj_get tmpl "nodes") as [[| | | |nodes|]|] eqn:En; try done.
  apply bind_pure_ok in Hw as (nodes' & Hs & [= <-]).
  exists tmpl, nodes, weights. split_and!; [done|done|done|by intros; eapply set_weights_order|].
  rewrite (set_weights_order _ _ _ _ Hs (Permutation_refl _)) in Hs. by injection Hs as <-.
Qed.
End template.
