(* ===== verification/Vault.v ===== *)
(** * Vault

    HashiCorp's client library is outside, as the class [Vault]; over it [vault.go] of
    the root package, [progs/vault/unseal.go] and [policies.go], and users of etcd
    ([progs/etcd/user.go], [setup/etcd.go]). *)
From S2P Require Import Prelude GoStr GoTime Json Types Etcd Worlds Storage.
From S2P Require Import Updater GoNet Host Progs.

Local Open Scope Z_scope.

(** ** Constants *)
Definition CAServer := "ca/server".
Definition CAEtcdPeer := "ca/boot-etcd-peer".
Definition CAEtcdClient := "ca/boot-etcd-client".
Definition TTL100Year := "876000h".
Definition TTL10Year := "87600h".
Definition VaultPrefix := "/vault/".

(** ** The outside *)
Record Secret := { sec_Data : gmap string json; sec_ClientToken : option string }.
Record MountInput := { mi_Type : string; mi_MaxLeaseTTL : string; mi_DefaultLeaseTTL : string;
                       mi_Options : list (string * string) }.
Record InitResponse := { ir_KeysB64 : list string; ir_RootToken : string }.

(** The client library.  A write or a read may succeed without a secret: the nil pointer
    is [None]. *)
Class Vault (W : Type) := {
  VClient : Type;
  (* the address, or that of the environment *)
  vault_NewClient : option string → M W VClient;
  vault_SetToken : VClient → string → M W unit;
  vault_Token : VClient → M W string;
  vault_NoForwarding : VClient → M W unit;
  vault_Write : VClient → string → list (string * json) → M W (option Secret);
  vault_Read : VClient → string → M W (option Secret);
  vault_Mount : VClient → string → MountInput → M W unit;
  vault_Unmount : VClient → string → M W unit;
  vault_Init : VClient → Z → Z → M W InitResponse;
  (* whether it is still sealed *)
  vault_SysUnseal : VClient → string → M W bool;
  vault_EnableAudit : VClient → string → string → list (string * string) → M W unit;
  vault_PutPolicy : VClient → string → string → M W unit;
  vault_EnableAuth : VClient → string → string → M W unit;
  (* whether there is a response *)
  vault_ListAuth : VClient → M W bool;
  vault_Health : VClient → M W unit;
  vault_RevokeSelf : VClient → M W unit;
}.

Class Terminal (W : Type) := {
  term_StdinIsTerminal : M W bool;
  term_StdoutIsTerminal : M W bool;
  term_ReadPassword : M W string;
  (* up to and including the newline *)
  stdin_ReadLine : M W string;
}.

(** etcd's users, and random bytes as hexadecimal digits. *)
Class EtcdAuth (W : Type) := {
  ec_RoleAdd : string → M W unit;
  ec_UserAdd : string → string → M W unit;
  ec_UserGrantRole : string → string → M W unit;
  (* role, key, end of the range: for reading and writing *)
  ec_RoleGrantReadWrite : string → string → string → M W unit;
  ec_GetPrefixRangeEnd : string → string;
  ec_AuthEnable : M W unit;
  rand_Hex : Z → M W string;
}.

(** ** Secrets *)

(** [secret.Data[field].(string)] *)
Definition secret_string (secret : option Secret) (field : string) : outcome string :=
  match secret with
  | None => Panic "nil pointer dereference"
  | Some s =>
      match sec_Data s !! field with
      | Some (JStr v) => Ok v
      | _ => Panic "interface conversion"
      end
  end.

Section vault.
Context `{NetUtil} {W : Type} `{Vault W} `{Clock W} `{Terminal W} `{EtcdAuth W}.

(** ** [progs/vault/unseal.go] *)
Definition Unseal (vc : VClient) (unsealKey : string) : M W unit :=
  sealed ← vault_SysUnseal vc unsealKey;
  if (sealed : bool) then fail (ErrMsg "failed to unseal vault") else mret ().

(** ** [vault.go] *)
Definition readPasswordFromStdTerminal : M W string :=
  stdin ← term_StdinIsTerminal;
  stdout ← (if (stdin : bool) then term_StdoutIsTerminal else mret false);
  if negb stdout then fail (ErrMsg "stdin and stdout are not terminals") else term_ReadPassword.

Fixpoint wait_leader_loop (vc : VClient) (i : nat) : M W unit :=
  match i with
  | O => fail (ErrMsg "vault leader is not elected")
  | S i =>
      r ← attempt (vault_ListAuth vc);
      match r with
      | inr true => mret ()
      | _ =>
          fired ← clock_after Second;
          if (fired : bool) then wait_leader_loop vc i else fail ErrCanceled
      end
  end.
Definition WaitVaultLeader (vc : VClient) : M W unit :=
  _ ← vault_NoForwarding vc; wait_leader_loop vc 100.

Definition VaultClient (lrn : Z) : M W VClient :=
  vc ← vault_NewClient (Some ("https://" +:+ IP_String (BootNode0IP lrn) +:+ ":8200"));
  token ← vault_Token vc;
  if negb (bool_decide (token = "")) then mret vc
  else
    line ← stdin_ReadLine;
    let username := String.substring 0 (String.length line - 1) line in
    password ← readPasswordFromStdTerminal;
    secret ← vault_Write vc ("/auth/userpass/login/" +:+ username) [("password", JStr password)];
    match secret ≫= sec_ClientToken with
    | None => panic "nil pointer dereference"
    | Some token => _ ← vault_SetToken vc token; mret vc
    end.

(** ** [progs/etcd/user.go] *)
Definition rpgen : M W string := rand_Hex 16.

Definition UserAdd (name prefix : string) : M W unit :=
  _ ← (if bool_decide (name = "root") then ec_RoleAdd "root" else mret ());
  rp ← rpgen;
  _ ← ec_UserAdd name rp;
  if bool_decide (prefix = "") then ec_UserGrantRole name "root"
  else
    _ ← ec_RoleAdd name;
    _ ← ec_RoleGrantReadWrite name prefix (ec_GetPrefixRangeEnd prefix);
    ec_UserGrantRole name name.

(** ** [setup/etcd.go] *)
Definition enableEtcdAuth : M W unit :=
  _ ← UserAdd "root" "";
  _ ← UserAdd "backup" "";
  _ ← UserAdd "vault" VaultPrefix;
  _ ← UserAdd "neco" "";
  ec_AuthEnable.
End vault.

(** ** [progs/vault/policies.go] *)
Definition quoted (s : string) : string := dquote +:+ s +:+ dquote.
Definition capabilities (l : list string) : string := "  capabilities = [" +:+ Join ", " (map quoted l) +:+ "]".
Definition policy_path (comment path : string) (l : list string) : string :=
  "# " +:+ comment +:+ nl +:+ "path " +:+ quoted path +:+ nl +:+ "{" +:+ nl +:+ capabilities l +:+ nl +:+ "}" +:+ nl.
Definition all_caps : list string := ["create"; "read"; "update"; "delete"; "list"; "sudo"].

Definition AdminPolicy : string := Join nl
  [ policy_path "Manage auth methods broadly across Vault" "auth/*" all_caps;
    policy_path "List, create, update, and delete auth methods" "sys/auth/*" ["create"; "update"; "delete"; "sudo"];
    policy_path "List auth methods" "sys/auth" ["read"];
    policy_path "Create and manage ACL policies via CLI" "sys/policy/*" all_caps;
    policy_path "Create and manage ACL policies via API" "sys/policies/acl/*" all_caps;
    policy_path "To list policies - Step 3" "sys/policy" ["read"];
    policy_path "To perform Step 4" "sys/capabilities" ["create"; "update"];
    policy_path "To perform Step 4" "sys/capabilities-self" ["create"; "update"];
    policy_path "List, create, update, and delete key/value secrets" "secret/*" all_caps;
    policy_path "Manage secret engines broadly across Vault" "sys/mounts/*" all_caps;
    policy_path "List existing secret engines" "sys/mounts" ["read"];
    policy_path "Read health checks" "sys/health" ["read"; "sudo"];
    policy_path "Forces the node to give up active status" "sys/step-down" all_caps;
    policy_path "Read the HA status of a Vault cluster" "sys/ha-status" ["read"] ].
Definition CAAdminPolicy : string :=
  policy_path "Manage CA (pki secret engines)" "ca/*" all_caps.
