(* ===== verification/Setup.v ===== *)
(** * The set-up of boot servers ([setup/])

    [Setup] runs at once on all boot servers of a new data center: the one with the
    lowest rack number makes certificates with a temporary Vault, all install etcd and
    Vault, report to each other through etcd, restart both with their final
    certificates, and the first publishes the request that makes workers install the
    rest.  [Join] adds a boot server to an existing cluster. *)
From S2P Require Import Prelude GoStr GoTime Json Types Etcd Worlds Storage.
From S2P Require Import Updater GoNet Host Progs Operator Upload Vault BootIP.

Local Open Scope Z_scope.

(** ** Constants *)
Definition EtcdBackupDir := "/var/lib/etcd-backup".
Definition EtcdPeerCAFile := EtcdDir +:+ "/ca-peer.crt".
Definition EtcdClientCAFile := EtcdDir +:+ "/ca-client.crt".
Definition EtcdPeerCertFile := EtcdDir +:+ "/peer.crt".
Definition EtcdPeerKeyFile := EtcdDir +:+ "/peer.key".
Definition EtcdBackupCertFile := EtcdDir +:+ "/backup.crt".
Definition EtcdBackupKeyFile := EtcdDir +:+ "/backup.key".
Definition stageBeforeRestart : Z := 0.
Definition stageAfterRestart : Z := 1.

(** ** The outside *)
Inductive IfaceAddr := IfaceIPNet (n : IPNet) | IfaceOther.
Class HostEnv (W : Type) := {
  os_Hostname : M W string;
  os_Getenv : string → M W string;
  net_InterfaceByName : string → M W unit;
  iface_Addrs : string → M W (list IfaceAddr);
  (* a command in the background, and its end *)
  cmd_Start : list string → M W unit;
  cmd_CancelAndWait : M W unit;
}.

(** etcdutil: the configuration of a client out of YAML, and the client. *)
Class EtcdUtil (W : Type) := {
  EtcdConfig : Type;
  etcdutil_NewConfig : string → EtcdConfig;
  etcdutil_Unmarshal : string → EtcdConfig → outcome EtcdConfig;
  etcdutil_NewClient : EtcdConfig → M W unit;
}.

(** ** [etcd.go] of the root package *)
Definition EtcdClient {W : Type} `{Files W} `{EtcdUtil W} : M W unit :=
  data ← os_ReadFile NecoConfFile;
  cfg ← lift (etcdutil_Unmarshal data (etcdutil_NewConfig NecoPrefix));
  etcdutil_NewClient cfg.

Definition etcdBackupService : string := "[Unit]
Description=get snapshot of etcd

[Service]
Type=oneshot
ExecStart=/usr/local/bin/etcd-backup
".
Definition etcdBackupTimer : string := "[Unit]
Description=get snapshot of etcd
PartOf=etcd-container.service

[Timer]
OnCalendar=hourly
RandomizedDelaySec=1min
Persistent=true

[Install]
WantedBy=timers.target
".
Definition etcdBackupTmpl (certFile keyFile : string) : string := "#!/bin/sh

set -ue

SNAPSHOT=snapshot-$(date '+%Y%m%d_%H%M%S')
ETCDCTL=" +:+ dquote +:+ "/usr/local/bin/etcdctl --cert=" +:+ certFile +:+ " --key=" +:+ keyFile +:+ dquote +:+ "

$ETCDCTL snapshot save /var/lib/etcd-backup/${SNAPSHOT}
tar --remove-files -cvzf /var/lib/etcd-backup/${SNAPSHOT}.tar.gz /var/lib/etcd-backup/${SNAPSHOT}
find /var/lib/etcd-backup/ -mtime +14 -exec rm -f {} \;
".

Section setup.
Context `{NetUtil} `{Yaml} `{GoVersion} {W : Type} `{Etcd W} `{Files W} `{Commands W} `{Clock W}
  `{EtcdAdmin W} `{Vault W} `{EtcdAuth W} `{HostEnv W}.
Variable CurrentArtifacts : ArtifactSet.
Variable rt : dockerRuntime.

(** [time.Sleep] *)
Definition Sleep (d : Duration) : M W unit := _ ← clock_after d; mret ().

(** ** [bastion.go] *)
Fixpoint first_ipv4 (addrs : list IfaceAddr) : outcome IP :=
  match addrs with
  | [] => Err (ErrMsg "no IPv4 address for bastion device")
  | IfaceIPNet n :: addrs => if negb (bool_decide (To4 (ipn_IP n) = [])) then Ok (ipn_IP n) else first_ipv4 addrs
  | IfaceOther :: addrs => first_ipv4 addrs
  end.
Definition bastionIP : M W IP :=
  _ ← net_InterfaceByName "bastion";
  addrs ← iface_Addrs "bastion";
  lift (first_ipv4 addrs).

(** ** [vault.go] *)
Definition vaultPath := "/usr/local/bin/vault".

Definition dumpCertFiles (secret : option Secret) (caFile certFile keyFile : string) : M W unit :=
  cert ← lift (secret_string secret "certificate");
  _ ← WriteFile certFile cert;
  key ← lift (secret_string secret "private_key");
  _ ← WriteFile keyFile key;
  if bool_decide (caFile = "") then mret ()
  else ca ← lift (secret_string secret "issuing_ca"); WriteFile caFile ca.

(** Waiting for an entry: [None], it is there; [Some r], the context ended, and [r] is
    what the last read came to. *)
Definition secret_there (r : error + option Secret) : bool :=
  match r with inr (Some s) => negb (bool_decide (sec_Data s = ∅)) | _ => false end.
Fixpoint wait_secret (vc : VClient) (path : string) (fuel : nat) : M W (option (error + option Secret)) :=
  match fuel with
  | O => blocked
  | S fuel =>
      r ← attempt (vault_Read vc path);
      if secret_there r then mret None
      else
        fired ← clock_after Second;
        if (fired : bool) then wait_secret vc path fuel else mret (Some r)
  end.

(** A certificate for this server. *)
Definition issue (vc : VClient) (ca : string) (params : list (string * json)) : M W (option Secret) :=
  vault_Write vc (ca +:+ "/issue/system") params.
Definition client_params (name : string) : list (string * json) :=
  [("common_name", JStr name); ("exclude_cn_from_sans", JBool true)].

(** When the context ends, the error of the last read is returned, which may be nil. *)
Definition setupLocalCerts (fuel : nat) (vc : VClient) (lrn : Z) : M W unit :=
  stopped ← wait_secret vc "secret/bootstrap" fuel;
  match stopped with
  | Some (inl e) => fail e
  | Some (inr _) => mret ()
  | None =>
      myname ← os_Hostname;
      let myip := IP_String (BootNode0IP lrn) in
      bip ← bastionIP;
      secret ← issue vc CAServer
        [("common_name", JStr myname); ("alt_names", JStr "localhost");
         ("ip_sans", JArr [JStr "127.0.0.1"; JStr myip; JStr (IP_String bip)])];
      _ ← dumpCertFiles secret ServerCAFile ServerCertFile ServerKeyFile;
      _ ← cmd_Run ["update-ca-certificates"];
      secret ← issue vc CAEtcdPeer
        [("common_name", JStr myname); ("ip_sans", JArr [JStr myip; JStr (IP_String bip)]);
         ("exclude_cn_from_sans", JBool true)];
      _ ← dumpCertFiles secret EtcdPeerCAFile EtcdPeerCertFile EtcdPeerKeyFile;
      secret ← issue vc CAEtcdClient (client_params "vault");
      _ ← dumpCertFiles secret EtcdClientCAFile VaultCertFile VaultKeyFile;
      _ ← vault_Write vc ("secret/bootstrap_done/" +:+ Itoa lrn) [("done", JNum "1")];
      mret ()
  end.

Definition pki : MountInput :=
  {| mi_Type := "pki"; mi_MaxLeaseTTL := TTL100Year; mi_DefaultLeaseTTL := TTL10Year; mi_Options := [] |}.
Definition generate_root (vc : VClient) (ca name : string) : M W (option Secret) :=
  vault_Write vc (ca +:+ "/root/generate/exported")
    [("ttl", JStr TTL100Year); ("common_name", JStr name); ("format", JStr "pem_bundle")].
(** [ca/roles/name] with the flag that the CA restricts, if any. *)
Definition write_role (vc : VClient) (ca name ttl max_ttl : string) (flag : option string) : M W unit :=
  _ ← vault_Write vc (ca +:+ "/roles/" +:+ name)
        ([("ttl", JStr ttl); ("max_ttl", JStr max_ttl)] ++
         match flag with Some f => [(f, JBool false)] | None => [] end ++ [("allow_any_name", JBool true)]);
  mret ().

Definition createCA (vc : VClient) : M W (list (option Secret)) :=
  _ ← for_each [CAServer; CAEtcdPeer; CAEtcdClient] (λ ca, vault_Mount vc ca pki);
  serverPem ← generate_root vc CAServer "server CA";
  peerPem ← generate_root vc CAEtcdPeer "boot etcd peer CA";
  clientPem ← generate_root vc CAEtcdClient "boot etcd client CA";
  _ ← write_role vc CAServer "system" "1h" "1h" (Some "client_flag");
  _ ← write_role vc CAEtcdPeer "system" "1h" "1h" None;
  _ ← write_role vc CAEtcdClient "system" "1h" "1h" (Some "server_flag");
  _ ← vault_Unmount vc "secret";
  _ ← vault_Mount vc "secret" {| mi_Type := "kv"; mi_MaxLeaseTTL := ""; mi_DefaultLeaseTTL := "";
                                 mi_Options := [("version", "1")] |};
  _ ← vault_Write vc "secret/bootstrap" [("ready", JStr "go")];
  mret [serverPem; peerPem; clientPem].

(** The deferred end of the temporary server. *)
Definition stop_dev_server : M W unit :=
  _ ← cmd_CancelAndWait;
  home ← os_Getenv "HOME";
  os_Remove ((if bool_decide (home = "") then "/root" else home) +:+ "/.vault-token").

Definition prepareCA (fuel : nat) (isLeader : bool) (mylrn first : Z) (lrns : list Z)
    : M W (list (option Secret)) :=
  vc ← vault_NewClient (Some ("http://" +:+ IP_String (BootNode0IP first) +:+ ":8200"));
  _ ← vault_SetToken vc "cybozu";
  if negb isLeader then _ ← setupLocalCerts fuel vc mylrn; mret []
  else
    _ ← cmd_Start [vaultPath; "server"; "-dev"; "-dev-listen-address=0.0.0.0:8200"; "-dev-root-token-id=cybozu"];
    deferred
      (_ ← Sleep Second;
       pems ← createCA vc;
       _ ← setupLocalCerts fuel vc mylrn;
       _ ← for_each lrns (λ lrn,
             stopped ← wait_secret vc ("secret/bootstrap_done/" +:+ Itoa lrn) fuel;
             match stopped with Some _ => fail ErrCanceled | None => mret () end);
       mret pems)
      stop_dev_server.

Definition setupVault (mylrn : Z) (lrns : list Z) : M W unit :=
  _ ← os_OpenTrunc VaultConfFile mode_644;
  deferred
    (conf ← lift (vault_GenerateConf mylrn lrns);
     _ ← file_Write VaultConfFile conf;
     _ ← file_Sync VaultConfFile;
     let service := ServiceFile VaultService in
     _ ← os_OpenTrunc service mode_644;
     deferred
       (text ← lift (vault_GenerateService CurrentArtifacts rt);
        _ ← file_Write service text;
        _ ← file_Sync service;
        StartService VaultService)
       (file_Close service))
    (file_Close VaultConfFile).

(** What uses the client of etcd: a nil client is dereferenced. *)
Definition with_client {A} (ec : option unit) (m : M W A) : M W A :=
  match ec with None => panic "nil pointer dereference" | Some _ => m end.

(** The CAs with their certificates; [pems[i]] of a short list panics. *)
Fixpoint import_CAs (vc : VClient) (cas : list string) (pems : list (option Secret)) : M W unit :=
  match cas with
  | [] => mret ()
  | ca :: cas =>
      _ ← vault_Mount vc ca pki;
      cert ← lift (match pems with
                   | pem :: _ => secret_string pem "certificate"
                   | [] => Panic "index out of range"
                   end);
      _ ← vault_Write vc (ca +:+ "/config/ca") [("pem_bundle", JStr cert)];
      import_CAs vc cas (tail pems)
  end.

Definition bootVault (pems : list (option Secret)) (ec : option unit) : M W VClient :=
  client ← vault_NewClient None;
  resp ← vault_Init client 1 1;
  unsealKey ← lift (match ir_KeysB64 resp with k :: _ => Ok k | [] => Panic "index out of range" end);
  _ ← vault_SetToken client (ir_RootToken resp);
  _ ← Unseal client unsealKey;
  _ ← vault_EnableAudit client "stdout" "file" [("file_path", "stdout")];
  _ ← import_CAs client [CAServer; CAEtcdPeer; CAEtcdClient] pems;
  _ ← write_role client CAServer "system" TTL10Year TTL10Year (Some "client_flag");
  _ ← write_role client CAEtcdPeer "system" TTL10Year TTL10Year None;
  _ ← write_role client CAEtcdClient "system" TTL10Year TTL10Year (Some "server_flag");
  _ ← write_role client CAEtcdClient "human" "2h" "24h" (Some "server_flag");
  _ ← vault_PutPolicy client "admin" AdminPolicy;
  _ ← vault_PutPolicy client "ca-admin" CAAdminPolicy;
  _ ← vault_EnableAuth client "approle" "approle";
  with_client ec
    (_ ← PutVaultRootToken (ir_RootToken resp);
     _ ← PutVaultUnsealKey unsealKey;
     mret client).

Fixpoint waitVault (fuel : nat) : M W string :=
  match fuel with
  | O => blocked
  | S fuel =>
      r ← attempt GetVaultUnsealKey;
      match r with
      | inr unsealKey => mret unsealKey
      | inl ErrNotFound =>
          fired ← clock_after Second;
          if (fired : bool) then waitVault fuel else fail ErrCanceled
      | inl e => fail e
      end
  end.

Definition reissueCerts (vc : VClient) (mylrn : Z) : M W unit :=
  myname ← os_Hostname;
  let myip := IP_String (BootNode0IP mylrn) in
  secret ← issue vc CAServer
    [("common_name", JStr myname); ("alt_names", JStr "localhost");
     ("ip_sans", JArr [JStr "127.0.0.1"; JStr myip])];
  _ ← dumpCertFiles secret "" ServerCertFile ServerKeyFile;
  bip ← bastionIP;
  secret ← issue vc CAEtcdPeer
    [("common_name", JStr myname); ("ip_sans", JArr [JStr myip; JStr (IP_String bip)]);
     ("exclude_cn_from_sans", JBool true)];
  _ ← dumpCertFiles secret EtcdPeerCAFile EtcdPeerCertFile EtcdPeerKeyFile;
  secret ← issue vc CAEtcdClient (client_params "vault");
  dumpCertFiles secret EtcdClientCAFile VaultCertFile VaultKeyFile.

Definition revokeRootToken (vc : VClient) : M W unit :=
  _ ← vault_RevokeSelf vc; DeleteVaultRootToken.

(** ** [etcd_backup.go], [neco.go] *)
Definition setupEtcdBackup (vc : VClient) : M W unit :=
  _ ← os_MkdirAll EtcdBackupDir mode_700;
  _ ← os_Chown EtcdBackupDir EtcdUID EtcdGID;
  secret ← issue vc CAEtcdClient (client_params "backup");
  _ ← dumpCertFiles secret "" EtcdBackupCertFile EtcdBackupKeyFile;
  _ ← os_WriteFile "/usr/local/bin/etcd-backup" (etcdBackupTmpl EtcdBackupCertFile EtcdBackupKeyFile) mode_755;
  _ ← os_WriteFile (ServiceFile "etcd-backup") etcdBackupService mode_644;
  _ ← os_WriteFile (TimerFile "etcd-backup") etcdBackupTimer mode_644;
  StartTimer "etcd-backup".

Definition setupNecoFiles (vc : VClient) (lrns : list Z) : M W unit :=
  secret ← issue vc CAEtcdClient (client_params "neco");
  _ ← dumpCertFiles secret "" NecoCertFile NecoKeyFile;
  UpdateNecoConfig lrns.
End setup.

(** ** [setup.go] *)
Section Setup.
Context `{NetUtil} `{Yaml} `{GoVersion} {W : Type} `{Etcd W} `{Files W} `{Commands W} `{Clock W}
  `{EtcdAdmin W} `{Vault W} `{EtcdAuth W} `{HostEnv W}.
Variable CurrentArtifacts : ArtifactSet.

Definition install_image (rt : dockerRuntime) (name : string) (tools : M W unit) : M W unit :=
  img ← lift (FindContainerImage CurrentArtifacts name);
  _ ← Pull rt img;
  tools.

(** The polls of the two barriers: the first fails at once, the second tolerates ten
    failures. *)
Fixpoint wait_finished (stage : Z) (n : nat) (fuel : nat) : M W unit :=
  match fuel with
  | O => blocked
  | S fuel =>
      finished ← GetFinished stage;
      if Nat.eqb (length finished) n then mret ()
      else
        fired ← clock_after (500 * 1000000);
        if (fired : bool) then wait_finished stage n fuel else fail ErrCanceled
  end.
Fixpoint wait_restarted (stage : Z) (n : nat) (nRetries : Z) (fuel : nat) : M W unit :=
  match fuel with
  | O => blocked
  | S fuel =>
      r ← attempt (GetFinished stage);
      match r with
      | inl e =>
          if nRetries <? 10 then _ ← Sleep (10 * Second); wait_restarted stage n (nRetries + 1) fuel
          else fail e
      | inr finished =>
          if Nat.eqb (length finished) n then mret ()
          else
            fired ← clock_after (500 * 1000000);
            if (fired : bool) then wait_restarted stage n nRetries fuel else fail ErrCanceled
      end
  end.

(** Up to the report that this server is ready to restart. *)
Definition setup_certs (vc : VClient) (mylrn : Z) (lrns : list Z) : M W unit :=
  _ ← reissueCerts vc mylrn;
  _ ← setupEtcdBackup vc;
  setupNecoFiles vc lrns.

Definition boot_or_join_vault (fuel : nat) (rt : dockerRuntime) (isLeader : bool) (mylrn : Z) (lrns : list Z)
    (pems : list (option Secret)) (ec : option unit) : M W VClient :=
  if isLeader then
    _ ← setupVault CurrentArtifacts rt mylrn lrns;
    bootVault pems ec
  else
    unsealKey ← with_client ec (waitVault fuel);
    _ ← setupVault CurrentArtifacts rt mylrn lrns;
    vc ← vault_NewClient None;
    _ ← Unseal vc unsealKey;
    mret vc.

Definition report_ready (mylrn : Z) : M W unit :=
  _ ← RegisterBootserver mylrn;
  _ ← RecordContainerTag CurrentArtifacts mylrn "etcd";
  _ ← RecordContainerTag CurrentArtifacts mylrn "vault";
  Finish mylrn stageBeforeRestart.

Definition restart_all (fuel : nat) (vc : VClient) : M W (option unit) :=
  _ ← Sleep Second;
  _ ← RestartService "etcd-container";
  _ ← ignore_error etcd_ClientClose;
  ec ← WaitEtcdForVault fuel;
  _ ← RestartService "vault";
  _ ← WaitVaultLeader vc;
  mret ec.

(** What the first boot server does for all. *)
Definition publish (vc : VClient) (lrns : list Z) (revoke : bool) (proxy ghToken : string) : M W unit :=
  ver ← GetDebianVersion NecoPackageName;
  _ ← UpdateNecoRelease ver KeyVaultUnsealKey;
  _ ← (if (0 <? String.length proxy)%nat then PutProxyConfig proxy else mret ());
  now ← clock_now;
  _ ← PutRequest {| req_Version := ver; req_Servers := Some lrns; req_Stop := false; req_StartedAt := now |}
        KeyVaultUnsealKey;
  _ ← (if revoke then revokeRootToken vc else mret ());
  _ ← enableEtcdAuth;
  if negb (bool_decide (ghToken = "")) then PutGitHubToken ghToken else mret ().

Definition start_neco : M W unit :=
  _ ← StartService "neco-worker"; StartService "neco-updater".

Definition setup_restart (fuel : nat) (vc : VClient) (mylrn : Z) (lrns : list Z) (isLeader revoke : bool)
    (proxy ghToken : string) : M W unit :=
  _ ← wait_finished stageBeforeRestart (length lrns) fuel;
  ec ← restart_all fuel vc;
  with_client ec
    (_ ← Finish mylrn stageAfterRestart;
     _ ← wait_restarted stageAfterRestart (length lrns) 0 fuel;
     _ ← (if isLeader then publish vc lrns revoke proxy ghToken else mret ());
     _ ← ignore_error (cmd_Run ["sync"]);
     start_neco).

Definition Setup (fuel : nat) (lrns : list Z) (revoke : bool) (proxy ghToken : string) : M W unit :=
  rt ← GetContainerRuntime proxy;
  _ ← install_image rt "etcd" (etcd_InstallTools CurrentArtifacts rt);
  _ ← install_image rt "vault" (vault_InstallTools CurrentArtifacts rt);
  let lrns := SortInts lrns in
  mylrn ← MyLRN;
  match lrns with
  | [] => panic "index out of range"
  | first :: _ =>
      let isLeader := mylrn =? first in
      pems ← prepareCA fuel isLeader mylrn first lrns;
      ec ← etcd_Setup CurrentArtifacts rt fuel (etcd_GenerateConf mylrn lrns);
      deferred
        (vc ← boot_or_join_vault fuel rt isLeader mylrn lrns pems ec;
         rootToken ← GetVaultRootToken;
         _ ← vault_SetToken vc rootToken;
         _ ← setup_certs vc mylrn lrns;
         _ ← report_ready mylrn;
         setup_restart fuel vc mylrn lrns isLeader revoke proxy ghToken)
        etcd_ClientClose
  end.

Definition Join `{EtcdUtil W} (vc : VClient) (mylrn : Z) (lrns : list Z) : M W unit :=
  _ ← setup_certs vc mylrn lrns;
  _ ← EtcdClient;
  deferred (_ ← start_neco; RegisterBootserver mylrn) etcd_ClientClose.
End Setup.
