(* ===== verification/SetupProofs.v ===== *)
(** * The barriers of the set-up

    The boot servers that are set up at once wait for each other twice, through the
    stages they report in etcd: before they restart etcd and Vault with their final
    certificates, and before neco starts to work. *)
From S2P Require Import Prelude GoStr GoTime Json Types Etcd Worlds Storage.
From S2P Require Import Updater GoNet Host Progs Operator Upload Vault BootIP BootIPProofs Trace TraceLoops Setup.

Local Open Scope Z_scope.

(** ** The record of a set-up *)
Inductive SetupEffect :=
  | Ran (argv : list string)
  | Got (k : string) (kvs : list KeyValue)
  | Put (k v : string) (ok : bool)
  | Txn (cs : list Cmp) (ops : list Op)
  | Deleted (k : string)
  | RevokedRoot
  | UserAdded (name : string)
  | RoleGranted (user role : string)
  | AuthEnabled
  | Other.

Abbreviation SW W := (Traced SetupEffect W).
Definition okay {A} (r : outcome A) : bool := match r with Ok _ => true | _ => false end.

Section instances.
Context {W : Type}.
#[export] Instance su_files `{Files W} : Files (SW W) := {
  os_Stat n := traced (λ _, []) (os_Stat n);
  os_ReadFile n := traced (λ _, []) (os_ReadFile n);
  os_OpenTrunc n m := traced (λ _, []) (os_OpenTrunc n m);
  file_Write n d := traced (λ _, []) (file_Write n d);
  file_Sync n := traced (λ _, []) (file_Sync n);
  file_Close n := traced (λ _, []) (file_Close n);
  os_MkdirAll n m := traced (λ _, []) (os_MkdirAll n m);
  os_Remove n := traced (λ _, []) (os_Remove n);
  os_Rename a b := traced (λ _, []) (os_Rename a b);
  os_Chown n u g := traced (λ _, []) (os_Chown n u g);
  os_CreateTemp p := traced (λ _, []) (os_CreateTemp p);
}.
#[export] Instance su_commands `{Commands W} : Commands (SW W) := {
  cmd_Run argv := traced (λ _, [Ran argv]) (cmd_Run argv);
  cmd_Output argv := traced (λ _, []) (cmd_Output argv);
  cmd_RunInput argv input := traced (λ _, [Ran argv]) (cmd_RunInput argv input);
}.
#[export] Instance su_clock `{Clock W} : Clock (SW W) := {
  clock_now := traced (λ _, []) clock_now;
  clock_after d := traced (λ _, []) (clock_after d);
}.
#[export] Instance su_etcd `{Etcd W} : Etcd (SW W) := {
  etcd_get k o := traced (λ r, match r with Ok resp => [Got k (resp_kvs resp)] | _ => [] end) (etcd_get k o);
  etcd_put k v := traced (λ r, [Put k v (okay r)]) (etcd_put k v);
  etcd_delete k := traced (λ _, [Deleted k]) (etcd_delete k);
  etcd_txn cs ops := traced (λ _, [Txn cs ops]) (etcd_txn cs ops);
  etcd_recv o rev := traced (λ _, []) (etcd_recv o rev);
}.
#[export] Instance su_admin `{EtcdAdmin W} : EtcdAdmin (SW W) := {
  etcd_NewClient c k := traced (λ _, []) (etcd_NewClient c k);
  etcd_ClientClose := traced (λ _, []) etcd_ClientClose;
  etcd_MemberList := traced (λ _, []) etcd_MemberList;
  etcd_MemberAdd u := traced (λ _, []) (etcd_MemberAdd u);
  etcd_MemberRemove i := traced (λ _, [Other]) (etcd_MemberRemove i);
  etcd_Status := traced (λ _, []) etcd_Status;
  etcdutil_Config := etcdutil_Config (W := W);
}.
#[export] Instance su_vault `{Vault W} : Vault (SW W) := {
  VClient := VClient (W := W);
  vault_NewClient a := traced (λ _, []) (vault_NewClient a);
  vault_SetToken c t := traced (λ _, []) (vault_SetToken c t);
  vault_Token c := traced (λ _, []) (vault_Token c);
  vault_NoForwarding c := traced (λ _, []) (vault_NoForwarding c);
  vault_Write c p d := traced (λ _, [Other]) (vault_Write c p d);
  vault_Read c p := traced (λ _, []) (vault_Read c p);
  vault_Mount c p m := traced (λ _, [Other]) (vault_Mount c p m);
  vault_Unmount c p := traced (λ _, [Other]) (vault_Unmount c p);
  vault_Init c s t := traced (λ _, [Other]) (vault_Init c s t);
  vault_SysUnseal c k := traced (λ _, [Other]) (vault_SysUnseal c k);
  vault_EnableAudit c p t o := traced (λ _, [Other]) (vault_EnableAudit c p t o);
  vault_PutPolicy c n p := traced (λ _, [Other]) (vault_PutPolicy c n p);
  vault_EnableAuth c p t := traced (λ _, [Other]) (vault_EnableAuth c p t);
  vault_ListAuth c := traced (λ _, []) (vault_ListAuth c);
  vault_Health c := traced (λ _, []) (vault_Health c);
  vault_RevokeSelf c := traced (λ r, if okay r then [RevokedRoot] else []) (vault_RevokeSelf c);
}.
#[export] Instance su_auth `{EtcdAuth W} : EtcdAuth (SW W) := {
  ec_RoleAdd n := traced (λ _, []) (ec_RoleAdd n);
  ec_UserAdd n p := traced (λ r, if okay r then [UserAdded n] else []) (ec_UserAdd n p);
  ec_UserGrantRole u r := traced (λ res, if okay res then [RoleGranted u r] else []) (ec_UserGrantRole u r);
  ec_RoleGrantReadWrite r k e := traced (λ _, []) (ec_RoleGrantReadWrite r k e);
  ec_GetPrefixRangeEnd := ec_GetPrefixRangeEnd (W := W);
  ec_AuthEnable := traced (λ _, [AuthEnabled]) ec_AuthEnable;
  rand_Hex n := traced (λ _, []) (rand_Hex n);
}.
#[export] Instance su_env `{HostEnv W} : HostEnv (SW W) := {
  os_Hostname := traced (λ _, []) os_Hostname;
  os_Getenv n := traced (λ _, []) (os_Getenv n);
  net_InterfaceByName n := traced (λ _, []) (net_InterfaceByName n);
  iface_Addrs n := traced (λ _, []) (iface_Addrs n);
  cmd_Start argv := traced (λ _, [Ran argv]) (cmd_Start argv);
  cmd_CancelAndWait := traced (λ _, []) cmd_CancelAndWait;
}.
End instances.

(** ** The reports that a poll reads *)
Definition restart_etcd : SetupEffect := Ran ["systemctl"; "restart"; "etcd-container.service"].

(** So many servers were seen at a stage. *)
Definition seen_at (stage : Z) (n : nat) (es : list SetupEffect) : Prop := ∃ kvs fin,
  Got KeyFinishPrefix kvs ∈ es ∧ finished_lrns stage kvs = Ok fin ∧ length fin = n.
Lemma seen_at_mono stage n : lasting (seen_at stage n).
Proof. intros es es'. unfold seen_at. setoid_rewrite elem_of_app. naive_solver. Qed.

(** Reports of known servers only: as many as there are servers means all of them. *)
Lemma finished_lrns_spec stage kvs fin (lrns : list Z) :
  finished_lrns stage kvs = Ok fin →
  Forall (λ kv, ∃ lrn, lrn ∈ lrns ∧ in_int64 lrn ∧ kv_key kv = keyFinish lrn) kvs → NoDup (map kv_key kvs) →
  NoDup fin ∧ ∀ lrn, lrn ∈ fin → lrn ∈ lrns ∧ ∃ kv, kv ∈ kvs ∧ kv_key kv = keyFinish lrn ∧ Atoi (kv_value kv) = Ok stage.
Proof.
  revert fin. induction kvs as [|kv kvs IH]; intros fin; simpl.
  { intros [= <-] _ _. split; [constructor|]. by intros lrn ?%not_elem_of_nil. }
  intros (cur & Hcur & E)%bind_pure_ok [(lrn & Hlrn & H64 & Hkey) Hkvs]%Forall_cons [Hni Hnd]%NoDup_cons.
  destruct (Z.eqb_spec cur stage) as [->|Hne]; simpl in E.
  - rewrite Hkey in E. unfold keyFinish, key_suffix in E.
    rewrite (slice_from_app KeyFinishPrefix) in E. simpl in E.
    apply bind_pure_ok in E as (lrn' & HA & E). apply bind_pure_ok in E as (fin' & Hfin & [= <-]).
    assert (lrn' = lrn) as -> by (unfold Itoa in HA; rewrite Atoi_Itoa in HA by done; congruence).
    destruct (IH _ Hfin Hkvs Hnd) as [Hnd' Hin]. split.
    + constructor; [|done]. intros (_ & kv' & Hkv' & Hk' & _)%Hin. apply Hni. rewrite Hkey, <-Hk'.
      by apply list_elem_of_fmap_2.
    + intros l [->|Hl]%elem_of_cons; [|destruct (Hin _ Hl) as (? & kv' & ? & ? & ?); eauto 10 using list_elem_of_further].
      split; [done|]. exists kv. split; [apply list_elem_of_here|done].
  - destruct (IH _ E Hkvs Hnd) as [Hnd' Hin]. split; [done|].
    intros l Hl. destruct (Hin _ Hl) as (? & kv' & ? & ? & ?). eauto 10 using list_elem_of_further.
Qed.
Lemma all_finished stage kvs fin lrns lrn :
  finished_lrns stage kvs = Ok fin → length fin = length lrns → NoDup lrns →
  Forall (λ kv, ∃ lrn, lrn ∈ lrns ∧ in_int64 lrn ∧ kv_key kv = keyFinish lrn) kvs → NoDup (map kv_key kvs) →
  lrn ∈ lrns → ∃ kv, kv ∈ kvs ∧ kv_key kv = keyFinish lrn ∧ Atoi (kv_value kv) = Ok stage.
Proof.
  intros Hf Hlen Hnd Hk Hu Hin. destruct (finished_lrns_spec _ _ _ _ Hf Hk Hu) as [Hndf Hsub].
  assert (fin ≡ₚ lrns) as Hp.
  { apply submseteq_length_Permutation; [|lia]. apply NoDup_submseteq; [done|]. intros x Hx. by apply Hsub. }
  apply Hsub. by rewrite Hp.
Qed.

Section proofs.
Context `{NetUtil} `{Yaml} `{GoVersion} {W : Type} `{EtcdLaws W} `{Files W} `{Commands W} `{Clock W}
  `{EtcdAdmin W} `{Vault W} `{EtcdAuth W} `{HostEnv W}.
Variable CurrentArtifacts : ArtifactSet.

(** The commands that the barriers guard. *)
Definition guarded_cmds : list (list string) :=
  [ ["systemctl"; "restart"; "etcd-container.service"];
    ["systemctl"; "start"; "neco-worker.service"];
    ["systemctl"; "start"; "neco-updater.service"] ].
Definition harmless (argv : list string) : bool := negb (bool_decide (argv ∈ guarded_cmds)).

(** ** Before the first barrier *)
Section before.
Context (P : SetupEffect → Prop).
Hypothesis P_ran : ∀ argv, harmless argv = true → P (Ran argv).
Hypothesis P_got : ∀ k kvs, NoDup (map kv_key kvs) → P (Got k kvs).
Hypothesis P_put : ∀ k v ok, P (Put k v ok).
Hypothesis P_other : P Other.

Lemma all_etcd_get k o : twp (W := W) (etcd_get k o) (all_of P).
Proof.
  intros v v' r. unfold etcd_get. simpl. unfold traced. destruct (etcd_get k o (tr_world v)) as [w' r'] eqn:Eg.
  intros [= <- <-]. eexists. split; [done|]. destruct r' as [resp| | |]; try constructor; [|constructor].
  apply P_got. apply get_law in Eg as [_ ->]. apply range_keys_NoDup.
Qed.
Hint Resolve all_etcd_get : twp.

Ltac su_eff := repeat constructor; auto; fail.
Ltac su := all_walk ltac:(su_eff).

Lemma all_systemctl name unit : harmless ["systemctl"; "start"; name +:+ "." +:+ unit] = true →
  harmless ["systemctl"; "enable"; name +:+ "." +:+ unit] = true → twp (W := W) (startUnit name unit) (all_of P).
Proof. intros. unfold startUnit. su. Qed.

Lemma all_WriteFile n d : twp (W := W) (WriteFile n d) (all_of P).
Proof. unfold WriteFile, os_WriteFile. su. Qed.
Lemma all_os_WriteFile n d m : twp (W := W) (os_WriteFile n d m) (all_of P).
Proof. unfold os_WriteFile. su. Qed.
Hint Resolve all_WriteFile all_os_WriteFile : twp.
Lemma all_dump s ca cert key : twp (W := W) (dumpCertFiles s ca cert key) (all_of P).
Proof. unfold dumpCertFiles. su. Qed.
Hint Resolve all_dump : twp.
Lemma all_bastion : twp (W := W) bastionIP (all_of P).
Proof. unfold bastionIP. su. Qed.
Hint Resolve all_bastion : twp.
Lemma all_wait_secret vc p fuel : twp (W := W) (wait_secret vc p fuel) (all_of P).
Proof. induction fuel as [|fuel IH]; simpl; su; auto. Qed.
Hint Resolve all_wait_secret : twp.
Lemma all_issue vc ca ps : twp (W := W) (issue vc ca ps) (all_of P).
Proof. unfold issue. su. Qed.
Hint Resolve all_issue : twp.
Lemma all_local_certs fuel vc lrn : twp (W := W) (setupLocalCerts fuel vc lrn) (all_of P).
Proof. unfold setupLocalCerts. su. Qed.
Hint Resolve all_local_certs : twp.
Lemma all_role vc ca n t mt f : twp (W := W) (write_role vc ca n t mt f) (all_of P).
Proof. unfold write_role. su. Qed.
Hint Resolve all_role : twp.
Lemma all_createCA vc : twp (W := W) (createCA vc) (all_of P).
Proof. unfold createCA, generate_root. su. Qed.
Hint Resolve all_createCA : twp.
Lemma all_Sleep d : twp (W := W) (Sleep d) (all_of P).
Proof. unfold Sleep. su. Qed.
Hint Resolve all_Sleep : twp.
Lemma all_prepareCA fuel l mylrn first lrns : twp (W := W) (prepareCA fuel l mylrn first lrns) (all_of P).
Proof. unfold prepareCA, stop_dev_server. su. Qed.
Hint Resolve all_prepareCA : twp.
Lemma all_SleepContext d : twp (W := W) (SleepContext d) (all_of P).
Proof. unfold SleepContext. su. Qed.
Hint Resolve all_SleepContext : twp.
Lemma all_etcd_wait fuel : twp (W := W) (WaitEtcdForVault fuel) (all_of P).
Proof. induction fuel as [|fuel IH]; simpl; unfold tryWait, etcdClient; su; auto. Qed.
Hint Resolve all_etcd_wait : twp.
Lemma all_etcd_Setup rt fuel g : twp (W := W) (etcd_Setup CurrentArtifacts rt fuel g) (all_of P).
Proof. unfold etcd_Setup, StartService. su. by apply all_systemctl. Qed.
Lemma all_setupVault rt mylrn lrns : twp (W := W) (setupVault CurrentArtifacts rt mylrn lrns) (all_of P).
Proof. unfold setupVault, StartService. su. by apply all_systemctl. Qed.
Hint Resolve all_etcd_Setup all_setupVault : twp.
Lemma all_Unseal vc k : twp (W := W) (Unseal vc k) (all_of P).
Proof. unfold Unseal. su. Qed.
Hint Resolve all_Unseal : twp.
Lemma all_import vc cas pems : twp (W := W) (import_CAs vc cas pems) (all_of P).
Proof. revert pems. induction cas as [|ca cas IH]; intros pems; simpl; su; auto. Qed.
Hint Resolve all_import : twp.
Lemma all_bootVault pems ec : twp (W := W) (bootVault pems ec) (all_of P).
Proof. unfold bootVault, with_client, PutVaultRootToken, PutVaultUnsealKey, put. su. Qed.
Hint Resolve all_bootVault : twp.
Lemma all_gets k : twp (W := W) (get k) (all_of P).
Proof. unfold get. su. Qed.
Hint Resolve all_gets : twp.
Lemma all_waitVault fuel : twp (W := W) (waitVault fuel) (all_of P).
Proof. induction fuel as [|fuel IH]; simpl; unfold GetVaultUnsealKey; su; auto. Qed.
Hint Resolve all_waitVault : twp.
Lemma all_boot_or_join fuel rt l mylrn lrns pems ec :
  twp (W := W) (boot_or_join_vault CurrentArtifacts fuel rt l mylrn lrns pems ec) (all_of P).
Proof. unfold boot_or_join_vault, with_client. su. Qed.
Hint Resolve all_boot_or_join : twp.
Lemma all_certs vc mylrn lrns : twp (W := W) (setup_certs vc mylrn lrns) (all_of P).
Proof.
  unfold setup_certs, reissueCerts, setupEtcdBackup, setupNecoFiles, UpdateNecoConfig, StartTimer. su.
  by apply all_systemctl.
Qed.
Hint Resolve all_certs : twp.
Lemma all_report lrn : twp (W := W) (report_ready CurrentArtifacts lrn) (all_of P).
Proof. unfold report_ready, RegisterBootserver, RecordContainerTag, Finish. su. Qed.
Hint Resolve all_report : twp.
Lemma all_wait_finished stage n fuel : twp (W := W) (wait_finished stage n fuel) (all_of P).
Proof. induction fuel as [|fuel IH]; simpl; unfold GetFinished; su; auto. Qed.
Lemma all_wait_restarted stage n k fuel : twp (W := W) (wait_restarted stage n k fuel) (all_of P).
Proof. revert k. induction fuel as [|fuel IH]; intros k; simpl; unfold GetFinished; su; auto. Qed.
Lemma all_Pull rt img : twp (W := W) (Pull rt img) (all_of P).
Proof.
  unfold Pull, checked_Output, RetryWithSleep. su. generalize (Ok ()) as last. generalize 3%nat as n.
  induction n as [|n IH]; intros last; simpl; su; auto.
Qed.
Hint Resolve all_Pull : twp.
Lemma all_install rt :
  twp (W := W) (install_image CurrentArtifacts rt "etcd" (etcd_InstallTools CurrentArtifacts rt)) (all_of P) ∧
  twp (W := W) (install_image CurrentArtifacts rt "vault" (vault_InstallTools CurrentArtifacts rt)) (all_of P).
Proof. unfold install_image, etcd_InstallTools, vault_InstallTools, install_tools, Run. split; su. Qed.
Lemma all_restart_all fuel vc :
  P (Ran ["systemctl"; "restart"; "etcd-container.service"]) → twp (W := W) (restart_all fuel vc) (all_of P).
Proof.
  intros. unfold restart_all, RestartService, WaitVaultLeader. su.
  generalize 100%nat as n. induction n as [|n IH]; simpl; su; auto.
Qed.
Lemma all_MyLRN : twp (W := W) MyLRN (all_of P).
Proof. unfold MyLRN. su. Qed.
Lemma all_runtime proxy : twp (W := W) (GetContainerRuntime proxy) (all_of P).
Proof. unfold GetContainerRuntime, newDockerRuntime. su. Qed.
End before.

(** ** After it *)
Section after.
Context (P : SetupEffect → Prop).
Hypothesis P_all : ∀ x, match x with Got _ kvs => NoDup (map kv_key kvs) → P x | _ => P x end.
Ltac af_eff := repeat constructor; try apply (P_all (Ran _)); try apply (P_all (Txn _ _)); try apply (P_all (Put _ _ _));
  try apply (P_all (Deleted _)); try apply (P_all RevokedRoot); try apply (P_all (UserAdded _));
  try apply (P_all (RoleGranted _ _)); try apply (P_all AuthEnabled); try apply (P_all Other); fail.
Lemma P_got_after k kvs : NoDup (map kv_key kvs) → P (Got k kvs).
Proof. apply (P_all (Got k kvs)). Qed.
Hint Resolve P_got_after : core.
Ltac af := all_walk ltac:(af_eff).

Lemma af_etcd_get k o : twp (W := W) (etcd_get k o) (all_of P).
Proof. apply all_etcd_get. auto. Qed.
Hint Resolve af_etcd_get : twp.
Lemma af_UserAdd n p : twp (W := W) (UserAdd n p) (all_of P).
Proof. unfold UserAdd, rpgen. af. Qed.
Hint Resolve af_UserAdd : twp.
Lemma af_publish vc lrns revoke proxy token : twp (W := W) (publish vc lrns revoke proxy token) (all_of P).
Proof.
  unfold publish, GetDebianVersion, checked_Output, UpdateNecoRelease, PutProxyConfig, PutRequest, leader_txn, revokeRootToken,
    DeleteVaultRootToken, enableEtcdAuth, PutGitHubToken, put, del. af.
Qed.
Lemma af_start_neco : twp (W := W) start_neco (all_of P).
Proof. unfold start_neco, StartService, startUnit. af. Qed.
Lemma af_ran argv : P (Ran argv).
Proof. apply (P_all (Ran argv)). Qed.
Lemma af_put k v ok : P (Put k v ok).
Proof. apply (P_all (Put k v ok)). Qed.
Lemma af_other : P Other.
Proof. apply (P_all Other). Qed.
Hint Resolve af_ran af_put af_other : core.
Lemma af_finish lrn stage : twp (W := W) (Finish lrn stage) (all_of P).
Proof. unfold Finish. af. Qed.
Hint Resolve af_publish af_start_neco af_finish all_wait_finished all_wait_restarted all_restart_all : twp.
Lemma af_setup_restart fuel vc mylrn lrns l revoke proxy tok :
  twp (W := W) (setup_restart fuel vc mylrn lrns l revoke proxy tok) (all_of P).
Proof. unfold setup_restart, with_client. af. Qed.
Hint Resolve af_setup_restart all_runtime all_MyLRN all_prepareCA all_etcd_Setup all_boot_or_join all_gets
  all_certs all_report : twp.
Lemma af_Setup fuel lrns revoke proxy tok : twp (W := W) (Setup CurrentArtifacts fuel lrns revoke proxy tok) (all_of P).
Proof.
  unfold Setup, GetVaultRootToken. af; apply all_install; auto.
Qed.
End after.

(** ** The barriers *)
Lemma ok_GetFinished stage : twp (W := W) (GetFinished stage)
  (on_ok (λ es fin, ∃ kvs, Got KeyFinishPrefix kvs ∈ es ∧ finished_lrns stage kvs = Ok fin)).
Proof.
  unfold GetFinished. apply twp_bind, twp_traced. intros [resp| | |]; simpl; try done.
  apply twp_lift. intros fin Hf. exists (resp_kvs resp). split; [set_solver|exact Hf].
Qed.
Lemma ok_wait_finished stage n fuel : twp (W := W) (wait_finished stage n fuel) (on_ok (λ es _, seen_at stage n es)).
Proof.
  induction fuel as [|fuel IH]; simpl; [by apply twp_blocked|]. eapply ok_bind; [apply ok_GetFinished|].
  intros es fin (kvs & Hk & Hf). destruct (Nat.eqb_spec (length fin) n).
  - apply twp_ret. intros [] _. apply seen_at_mono. left. exists kvs, fin. auto.
  - apply (ok_later _ es); [apply seen_at_mono|]. apply ok_next; [apply seen_at_mono|by apply twp_traced|]. intros [|]; [apply IH|by apply twp_fail].
Qed.
Lemma ok_wait_restarted stage n k fuel :
  twp (W := W) (wait_restarted stage n k fuel) (on_ok (λ es _, seen_at stage n es)).
Proof.
  revert k. induction fuel as [|fuel IH]; intros k; simpl; [by apply twp_blocked|].
  apply twp_bind, twp_attempt. eapply twp_mono; [apply ok_GetFinished|]. intros es [fin|e|why|] Hr; simpl; try done.
  - destruct (Hr _ eq_refl) as (kvs & Hk & Hf). destruct (Nat.eqb_spec (length fin) n).
    + apply twp_ret. intros [] _. apply seen_at_mono. left. exists kvs, fin. auto.
    + apply (ok_later _ es); [apply seen_at_mono|]. apply ok_next; [apply seen_at_mono|by apply twp_traced|]. intros [|]; [apply IH|by apply twp_fail].
  - destruct (k <? 10); [|by apply twp_fail].
    apply (ok_later _ es); [apply seen_at_mono|]. apply ok_next; [apply seen_at_mono| |intros []; apply IH]. unfold Sleep. apply twp_bind, twp_traced.
    intros []; simpl; auto. by apply twp_ret.
Qed.

(** What is guarded in the part that restarts is guarded in the whole. *)
Lemma gd_Setup B G fuel lrns revoke proxy tok :
  (∀ es es', G es ∨ G es' → G (es ++ es')) →
  (∀ argv, harmless argv = true → ¬ B (Ran argv)) → (∀ k kvs, ¬ B (Got k kvs)) → (∀ k v ok, ¬ B (Put k v ok)) → ¬ B Other →
  (∀ vc mylrn l, twp (W := W) (setup_restart fuel vc mylrn (SortInts lrns) l revoke proxy tok) (λ es _, guarded B G es)) →
  twp (W := W) (Setup CurrentArtifacts fuel lrns revoke proxy tok) (λ es _, guarded B G es).
Proof.
  intros HG Hran Hgot Hput Hother Hrest.
  assert (∀ A (m : M (SW W) A), twp m (all_of (λ x, ¬ B x)) → twp m (λ es _, guarded B G es)) as Hnone.
  { intros A m Hm. by apply gd_none. }
  unfold Setup. apply gd_bind; [done|by apply Hnone, all_runtime; auto|intros rt].
  do 2 (apply gd_bind; [done|apply Hnone, all_install; auto|intros []]).
  apply gd_bind; [done|apply Hnone, all_MyLRN; auto|intros mylrn].
  destruct (SortInts lrns) as [|first rest] eqn:Es; [apply Hnone, all_const|].
  apply gd_bind; [done|apply Hnone, all_prepareCA; auto|intros pems].
  apply gd_bind; [done|apply Hnone, all_etcd_Setup; auto|intros ec].
  apply gd_deferred; [done| |apply all_traced; by intros []].
  apply gd_bind; [done|apply Hnone, all_boot_or_join; auto|intros vc].
  apply gd_bind; [done|apply Hnone; unfold GetVaultRootToken; apply all_gets; auto|intros tk].
  apply gd_bind; [done|apply Hnone, all_traced; by intros []|intros []].
  apply gd_bind; [done|apply Hnone, all_certs; auto|intros []].
  apply gd_bind; [done|apply Hnone, all_report; auto|intros []]. apply Hrest.
Qed.

(** The effects that the second barrier guards: neco's services and the transactions
    that publish the release and its request. *)
Definition begins (x : SetupEffect) : bool :=
  match x with
  | Ran argv => bool_decide (argv ∈ tail guarded_cmds)
  | Txn _ _ => true
  | _ => false
  end.
Lemma harmless_restart argv : harmless argv = true → Ran argv ≠ restart_etcd.
Proof. unfold harmless, restart_etcd. intros Hh [= ->]. done. Qed.
Lemma harmless_begins argv : harmless argv = true → begins (Ran argv) = true → False.
Proof. unfold harmless, begins. rewrite negb_true_iff, bool_decide_eq_false, bool_decide_eq_true. set_solver. Qed.

Lemma gd_restart fuel vc mylrn lrns l revoke proxy tok :
  twp (W := W) (setup_restart fuel vc mylrn lrns l revoke proxy tok)
    (λ es _, guarded (.= restart_etcd) (seen_at stageBeforeRestart (length lrns)) es).
Proof.
  unfold setup_restart. apply gd_barrier; [apply seen_at_mono| |apply ok_wait_finished|intros []].
  { apply all_wait_finished; try done. }
  apply (all_grows (λ _, True)), all_bind; [apply all_restart_all; auto|intros ec].
  destruct ec as [[]|]; [|apply all_const]. unfold with_client.
  apply all_bind; [apply af_finish; by intros []|intros []].
  apply all_bind; [apply all_wait_restarted; auto|intros []].
  apply all_bind; [destruct l; [apply af_publish; by intros []|apply all_const]|intros []].
  apply all_bind; [|intros []; apply af_start_neco; by intros []].
  apply all_ignore, all_traced. intros []; simpl; auto.
Qed.
Lemma gd_begin fuel vc mylrn lrns l revoke proxy tok :
  twp (W := W) (setup_restart fuel vc mylrn lrns l revoke proxy tok)
    (λ es _, guarded (λ x, begins x = true) (seen_at stageAfterRestart (length lrns)) es).
Proof.
  pose proof harmless_begins as Hh.
  unfold setup_restart. apply gd_bind; [apply seen_at_mono|apply gd_none, all_wait_finished; eauto|intros []].
  apply gd_bind; [apply seen_at_mono|apply gd_none, all_restart_all; eauto|intros ec].
  destruct ec as [[]|]; [|apply gd_none, all_const]. unfold with_client.
  apply gd_bind; [apply seen_at_mono|apply gd_none; unfold Finish; all_walk ltac:(repeat constructor; auto)|intros []].
  apply gd_barrier; [apply seen_at_mono|apply all_wait_restarted; eauto|apply ok_wait_restarted|intros []].
  apply (all_grows (λ _, True)).
  apply all_bind; [destruct l; [apply af_publish; by intros []|apply all_const]|intros []].
  apply all_bind; [|intros []; apply af_start_neco; by intros []].
  apply all_ignore, all_traced. intros []; simpl; auto.
Qed.

(** The answer of a poll showed all servers at a stage, if only servers of the set-up
    report. *)
Definition reported (stage : Z) (lrns : list Z) (es : list SetupEffect) : Prop := ∃ kvs,
  Got KeyFinishPrefix kvs ∈ es ∧
  (Forall (λ kv, ∃ lrn, lrn ∈ lrns ∧ in_int64 lrn ∧ kv_key kv = keyFinish lrn) kvs →
   ∀ lrn, lrn ∈ lrns → ∃ kv, kv ∈ kvs ∧ kv_key kv = keyFinish lrn ∧ Atoi (kv_value kv) = Ok stage).
Definition keys_once (x : SetupEffect) : Prop := match x with Got _ kvs => NoDup (map kv_key kvs) | _ => True end.
Lemma seen_reported stage lrns es : NoDup lrns → Forall keys_once es →
  seen_at stage (length lrns) es → reported stage lrns es.
Proof.
  intros Hnd Hk (kvs & fin & Hin & Hf & Hlen). exists kvs. split; [done|]. intros Hknown lrn Hlrn.
  eapply all_finished; [done..|eapply Forall_forall in Hk; [|done]; exact Hk|done].
Qed.
Lemma guarded_reported B stage lrns es : NoDup lrns → Forall keys_once es →
  guarded B (seen_at stage (length lrns)) es → guarded B (reported stage lrns) es.
Proof.
  intros Hnd Hk Hg es1 x es2 -> Hx. apply seen_reported; [done|by apply Forall_app in Hk as [? _]|by eapply Hg].
Qed.


(** ** Two gaps

    Stages are compared by equality: once a server has gone on to the second stage, a
    server that still polls for the first one never sees all of them again. *)
Lemma overtaken_never_seen kvs fin lrns lrn kv :
  finished_lrns stageBeforeRestart kvs = Ok fin → NoDup lrns →
  Forall (λ kv, ∃ lrn, lrn ∈ lrns ∧ in_int64 lrn ∧ kv_key kv = keyFinish lrn) kvs → NoDup (map kv_key kvs) →
  lrn ∈ lrns → kv ∈ kvs → kv_key kv = keyFinish lrn → Atoi (kv_value kv) = Ok stageAfterRestart →
  length fin ≠ length lrns.
Proof.
  intros Hf Hnd Hk Hu Hl Hkv Hkey Hv Hlen.
  destruct (all_finished _ _ _ _ _ Hf Hlen Hnd Hk Hu Hl) as (kv' & Hkv' & Hkey' & Hv').
  apply list_elem_of_lookup in Hkv as [i Hi]. apply list_elem_of_lookup in Hkv' as [j Hj].
  assert (i = j) as <-.
  { apply (NoDup_lookup _ _ _ (keyFinish lrn) Hu); by rewrite list_lookup_fmap, ?Hi, ?Hj; simpl; f_equal. }
  rewrite Hi in Hj. injection Hj as <-. by rewrite Hv in Hv'.
Qed.

(** A server whose context ends before the certificates' issuer is ready reports success
    without having written any. *)
Lemma setupLocalCerts_silent fuel vc lrn (w w1 w2 : W) :
  vault_Read vc "secret/bootstrap" w = (w1, Ok None) → clock_after Second w1 = (w2, Ok false) →
  setupLocalCerts (S fuel) vc lrn w = (w2, Ok ()).
Proof.
  intros Hr Hc. unfold setupLocalCerts. simpl. unfold mbind, M_bind, attempt. rewrite Hr. simpl. by rewrite Hc.
Qed.
End proofs.
