(* ===== verification/SetupWitness.v ===== *)
(** * The theorems about the set-up and the uploaders at work

    A simulated boot server that is being set up: an etcd, files in a map, a Vault and a
    sabakan that answer. *)
From S2P Require Import Prelude GoStr GoTime Json Types Etcd Worlds Storage.
From S2P Require Import Updater GoNet Host Progs Operator OperatorWitness BootIP Ext.
From S2P Require Import Trace Upload UploadProofs CKEUpload CKEProofs Vault Setup SetupProofs.
Import V4.

Local Open Scope Z_scope.

Record Server := { sv_files : gmap string string; sv_uploads : nat (* that sabakan is going to refuse *) }.
Definition Site : Type := Sim * Server.
Definition write_files (f : gmap string string) (h : Site) : Site :=
  (h.1, {| sv_files := f; sv_uploads := sv_uploads h.2 |}).

#[export] Instance site_files : Files Site := {
  os_Stat n h := (h, match sv_files h.2 !! n with Some _ => Ok () | None => Err (ErrNotExist "no such file") end);
  os_ReadFile n h := (h, match sv_files h.2 !! n with Some d => Ok d | None => Err (ErrNotExist "no such file") end);
  os_OpenTrunc n _ h := (write_files (<[n := ""]> (sv_files h.2)) h, Ok ());
  file_Write n d h := (write_files (<[n := default "" (sv_files h.2 !! n) +:+ d]> (sv_files h.2)) h, Ok ());
  file_Sync _ := mret ();
  file_Close _ := mret ();
  os_MkdirAll _ _ := mret ();
  os_Remove n h := (write_files (delete n (sv_files h.2)) h, Ok ());
  os_Rename a b h :=
    (write_files (match sv_files h.2 !! a with Some d => <[b := d]> (delete a (sv_files h.2)) | None => sv_files h.2 end) h, Ok ());
  os_Chown _ _ _ := mret ();
  os_CreateTemp p := mret (p +:+ "1");
}.
#[export] Instance site_commands : Commands Site := {
  cmd_Run _ := mret ();
  cmd_Output argv := mret (if bool_decide (argv = [CKECLIBin; "images"]) then "" else "1.0.0", None);
  cmd_RunInput _ _ := mret ();
}.
#[export] Instance site_clock : Clock Site := {
  clock_now := mret (1700000100 * Second);
  clock_after _ := mret true;
}.
#[export] Instance site_admin : EtcdAdmin Site := {
  etcd_NewClient _ _ := mret ();
  etcd_ClientClose := mret ();
  etcd_MemberList := mret [];
  etcd_MemberAdd _ := mret ([], 1);
  etcd_MemberRemove _ := mret ();
  etcd_Status := mret "3.5.0";
  etcdutil_Config prefix endpoints cert key := JObj [("prefix", JStr prefix)];
}.
Definition certificate : Secret :=
  {| sec_Data := list_to_map [("certificate", JStr "cert"); ("private_key", JStr "key"); ("issuing_ca", JStr "ca")];
     sec_ClientToken := None |}.
#[export] Instance site_vault : Vault Site := {
  VClient := unit;
  vault_NewClient _ := mret ();
  vault_SetToken _ _ := mret ();
  vault_Token _ := mret "token";
  vault_NoForwarding _ := mret ();
  vault_Write _ _ _ := mret (Some certificate);
  vault_Read _ _ := mret (Some certificate);
  vault_Mount _ _ _ := mret ();
  vault_Unmount _ _ := mret ();
  vault_Init _ _ _ := mret {| ir_KeysB64 := ["unseal"]; ir_RootToken := "root" |};
  vault_SysUnseal _ _ := mret false;
  vault_EnableAudit _ _ _ _ := mret ();
  vault_PutPolicy _ _ _ := mret ();
  vault_EnableAuth _ _ _ := mret ();
  vault_ListAuth _ := mret true;
  vault_Health _ := mret ();
  vault_RevokeSelf _ := mret ();
}.
#[export] Instance site_auth : EtcdAuth Site := {
  ec_RoleAdd _ := mret ();
  ec_UserAdd _ _ := mret ();
  ec_UserGrantRole _ _ := mret ();
  ec_RoleGrantReadWrite _ _ _ := mret ();
  ec_GetPrefixRangeEnd p := p;
  ec_AuthEnable := mret ();
  rand_Hex _ := mret "00";
}.
#[export] Instance site_env : HostEnv Site := {
  os_Hostname := mret "boot-0";
  os_Getenv _ := mret "/root";
  net_InterfaceByName _ := mret ();
  iface_Addrs _ := mret [IfaceIPNet {| ipn_IP := v4_bytes (10 * 2 ^ 24 + 1); ipn_Mask := [255; 255; 255; 0] |}];
  cmd_Start _ := mret ();
  cmd_CancelAndWait := mret ();
}.

(** ** A set-up of two boot servers, seen from the first *)
Definition other_reports (stage : Z) : Log := [[EvPut (keyFinish 1) (Itoa stage)]].
Definition new_site : SW Site :=
  {| tr_world := ({| sim_log := [];
                     sim_env := repeat [] 8 ++ [other_reports 0; []; []; other_reports 1];
                     sim_fail := [] |},
                  {| sv_files := {[RackFile := "0"]}; sv_uploads := 0 |});
     tr_log := [] |}.
Definition set_up : SW Site * outcome unit := Setup artifacts 3 [1; 0] true "" "token" new_site.


(** ** An upload *)
Definition asset_missing : error := ErrMsg "asset not found".
#[export] Instance site_saba : SabaClient Site := {
  saba_NewClient _ := mret ();
  saba_ImagesIndex _ := mret ["0"];
  saba_ImagesUpload _ _ _ _ _ _ := mret ();
  saba_AssetsInfo _ := fail asset_missing;
  saba_AssetsUpload _ _ h :=
    match sv_uploads h.2 with
    | O => (h, Ok ())
    | S n => ((h.1, {| sv_files := sv_files h.2; sv_uploads := n |}), Err (ErrMsg "connection reset"))
    end;
  saba_IsNotFound e := bool_decide (e = asset_missing);
  saba_IgnitionsListIDs _ := mret ["0.9.0"];
  IgnitionTemplate := unit;
  saba_BuildIgnitionTemplate _ _ := mret ();
  saba_IgnitionsSet _ _ _ := mret ();
  saba_MachinesGet _ := mret [{| mc_Serial := "a"; mc_Labels := ∅; mc_Role := "boot"; mc_IPv4 := ["10.69.0.3"];
                                 mc_BMC := {| bmc_IPv4 := ""; bmc_IPv6 := ""; bmc_Type := "" |};
                                 mc_State := "healthy"; mc_InfoBMC := JNull |}];
  DHCPConfig := unit;
  saba_DecodeDHCPConfig _ := Ok ();
  saba_DHCPConfigSet _ := mret ();
}.
#[export] Instance site_more : MoreFiles Site := {
  file_Truncate _ _ := mret ();
  file_Seek _ := mret ();
  os_ReadDir _ := mret [("neco-worker", false); ("lib", true)];
  filepath_Glob _ := mret ["/usr/share/neco/ignitions/roles/cs/site.yml"; "/usr/share/neco/ignitions/roles/ss/site.yml"];
}.
#[export] Instance site_download : Download Site := { http_Get _ := mret 4; http_CopyTo _ := mret 4 }.
#[export] Instance site_registry : Registry Site := {
  reg_ParseReference _ := mret ();
  reg_Image _ := mret ();
  reg_WriteTarball _ _ := mret ();
}.

Definition all_images : ArtifactSet :=
  {| as_Images := map image SabakanImages; as_Debs := []; as_OSImage := {| os_Channel := "stable"; os_Version := "1" |} |}.
Definition request : string := match Marshal upd with Ok s => s | _ => "" end.
Definition running_site (refusals : nat) : UW Site :=
  {| tr_world := ({| sim_log := [[EvPut KeyProxy "http://10.0.0.1"]; [EvPut KeyCurrent request]]; sim_env := []; sim_fail := [] |},
                  {| sv_files := {[ClusterFile := "stage0"]}; sv_uploads := refusals |});
     tr_log := [] |}.
Definition fetcher : ImageFetcher := {| if_env := ProdEnv |}.
Definition uploaded : UW Site * outcome unit := UploadContents all_images fetcher "1.0.0" (running_site 2).


(** Sabakan refuses twice, and then forty-one times. *)
Definition one_image (refusals : nat) : UW Site * outcome unit :=
  UploadImageAssets (image "bird") fetcher (running_site refusals).
Lemma UploadImageAssets_bounded_witness :
  (one_image 2).2 = Ok tt ∧ UploadProofs.okay (one_image 41).2 = false ∧
  let name := imageAssetName (image "bird") in
  ∃ es, tr_log (one_image 41).1 = [] ++ es ∧
    (es = [] ∧ (∀ a, (one_image 41).2 ≠ Ok a) ∨
     es = [AssetFound name] ∧ (one_image 41).2 = Ok tt ∨
     es = [AssetMissing name] ∧ (∀ a, (one_image 41).2 ≠ Ok a) ∨
     ∃ f ups rest, es = AssetMissing name :: TempFile f :: ups ++ rest ∧
       (length ups ≤ 40)%nat ∧ Forall (upload_only name) ups ∧
       (rest = [Removed f] ∨ rest = [] ∧ ¬ plain (one_image 41).2)).
Proof.
  split; [vm_compute; reflexivity|]. split; [vm_compute; reflexivity|].
  apply (UploadImageAssets_bounded (image "bird") fetcher (running_site 41) (one_image 41).1 (one_image 41).2).
  unfold one_image. apply surjective_pairing.
Defined.

(** ** A template of CKE *)
Definition node (cp : bool) (role : string) : json :=
  JObj [("control_plane", JBool cp); ("labels", JObj [(ckeLabelRole, JStr role)])].
Definition cluster_template : object :=
  [("name", JStr "tmpl"); ("nodes", JArr [node true "cs"; node false "cs"; node false "ss"; node false "cs"])].
#[export] Instance fixed_objects : Unstructured := {
  yaml_Unmarshal _ := Ok (Some cluster_template);
  SetNestedField o v f := Ok (obj_set o f v);
  NestedBool o f :=
    match obj_get o f with
    | None => (false, false, None)
    | Some (JBool b) => (b, true, None)
    | Some _ => (false, false, Some (ErrMsg "not a bool"))
    end;
}.
#[export] Instance fixed_objects_laws : UnstructuredLaws.
Proof. split. intros o o' f Hf. simpl. by rewrite Hf. Qed.
Definition half_and_two : gmap string float64 :=
  {["cs" := SpecFloat.S754_finite false 4503599627370496 (-53); "ss" := SpecFloat.S754_finite false 4503599627370496 (-51)]}.
#[export] Instance fixed_weights : FloatJson := {
  Marshal_weights _ := Ok "weights";
  Unmarshal_weights _ := Ok half_and_two;
}.
Definition weighted_site : Site :=
  ({| sim_log := [[EvPut KeyCKEWeight "weights"]]; sim_env := []; sim_fail := [] |}, {| sv_files := ∅; sv_uploads := 0 |}).
Definition generated : Site * outcome string := GenerateCKETemplate "stage0" "template" weighted_site.
Definition generated_text : string := match generated.2 with Ok t => t | _ => "" end.

Lemma GenerateCKETemplate_weights_witness :
  ∃ tmpl nodes weights,
    named_template "stage0" "template" = Ok tmpl ∧ obj_get tmpl "nodes" = Some (JArr nodes) ∧
    (GetCKEWeight weighted_site = (generated.1, Ok weights) ∨
     GetCKEWeight weighted_site = (generated.1, Err ErrNotFound) ∧ weights = ∅) ∧
    (∀ order, order ≡ₚ map_to_list weights → set_weights order nodes = Ok (reweigh weights nodes)) ∧
    yaml_Marshal (JObj (obj_set tmpl "nodes" (JArr (reweigh weights nodes)))) = Ok generated_text.
Proof.
  apply (GenerateCKETemplate_weights "stage0" "template" weighted_site generated.1 generated_text).
  vm_compute. reflexivity.
Defined.
