(* ===== verification/NecoCmd.v ===== *)
(** * The neco command: storage, credentials and set-up ([pkg/neco/cmd/])

    The sub-commands that read and write etcd and Vault.  A command runs the function
    that it gives to [well.Go] and waits; an error is logged and ends the process with
    status 1, which is [fail] here, so that deferred calls of [Run] are skipped then. *)
From S2P Require Import Prelude GoStr GoTime Json Types Etcd Worlds Storage.
From S2P Require Import Updater GoNet Host Progs Operator GoURL Ext Upload CKEUpload Vault Setup.

Local Open Scope Z_scope.

(** ** The outside *)
Class Console (W : Type) := {
  stdout_Print : string → M W unit;
  stdin_ReadAll : M W string;
  ui_Ask : string → M W string;
}.
(** crypto/rsa and x/crypto/ssh: a key pair in its text forms, public and private. *)
Class KeyGen (W : Type) := { rsa_KeyPair : Z → M W (string * string); os_Getuid : M W Z }.
(** [strconv.ParseFloat] and the text of a [float64] by [fmt.Println]. *)
Class FloatText := { ParseFloat : string → outcome float64; Float_Text : float64 → string }.

Definition newline : string := String (Ascii.ascii_of_nat 10) "".

(** [args[i]] *)
Definition arg (args : list string) (i : nat) : outcome string :=
  match args !! i with Some a => Ok a | None => Panic "index out of range" end.
Definition received (want : nat) (args : list string) : error :=
  ErrMsg ("accepts " +:+ Itoa (Z.of_nat want) +:+ " arg(s), received " +:+ Itoa (Z.of_nat (length args))).
(** [cobra.ExactArgs] *)
Definition ExactArgs (n : nat) (args : list string) : outcome unit :=
  if Nat.eqb (length args) n then Ok () else Err (received n args).
(** [strconv.ParseUint(s, 10, 32)] *)
Definition ParseUint32 (s : string) : outcome Z :=
  match parse_magnitude s with
  | Some n => if (Z.of_N n <? 2 ^ 32) then Ok (Z.of_N n) else Err (ErrMsg ("strconv.ParseUint: parsing " +:+ s +:+ ": value out of range"))
  | None => Err (ErrMsg ("strconv.ParseUint: parsing " +:+ s +:+ ": invalid syntax"))
  end.
Fixpoint parse_lrns (args : list string) : outcome (list Z) :=
  match args with
  | [] => Ok []
  | a :: args => n ← ParseUint32 a; ns ← parse_lrns args; Ok (n :: ns)
  end.

Section neco.
Context `{NetUtil} `{Cron} {W : Type} `{Etcd W} `{Files W} `{EtcdUtil W} `{EtcdAdmin W} `{Console W}.

Definition Println (s : string) : M W unit := stdout_Print (s +:+ newline).

(** [etcd, err := neco.EtcdClient(); defer etcd.Close(); well.Go(body)] in [Run]. *)
Definition storage_cmd (body : M W unit) : M W unit :=
  _ ← EtcdClient; _ ← body; ignore_error etcd_ClientClose.
Definition show (get : M W string) : M W unit := v ← get; Println v.

(** ** [config_set.go] *)
Definition two_arg_keys : list string :=
  ["env"; "slack"; "proxy"; "check-update-interval"; "worker-timeout"; "node-proxy"; "external-ip-address-block"].
Definition configSetArgs (args : list string) : outcome unit :=
  match args with
  | [] => Err (received 1 args)
  | key :: _ =>
      if bool_decide (key ∈ two_arg_keys) && negb (Nat.eqb (length args) 2) then Err (received 2 args) else Ok ()
  end.

Definition set_url (put : string → M W unit) (value : string) : M W unit :=
  u ← lift (url_Parse value);
  if negb (IsAbs u) then fail (ErrMsg "invalid URL") else put value.
Definition set_duration (put : Duration → M W unit) (value : string) : M W unit :=
  duration ← lift (ParseDuration value); put duration.
Definition set_block (put : string → M W unit) (value : string) : M W unit :=
  '(ip, block) ← lift (ParseCIDR value);
  if bool_decide (To4 ip = []) then fail (ErrMsg ("not IPv4 addr: " +:+ value)) else put (IPNet_String block).
Fixpoint check_schedules (values : list string) : outcome unit :=
  match values with
  | [] => Ok ()
  | v :: values => _ ← ParseStandard v; check_schedules values
  end.

Definition config_set (args : list string) : M W unit :=
  key ← lift (arg args 0);
  let value : M W string := lift (arg args 1) in
  if bool_decide (key = "env") then
    v ← value;
    if bool_decide (v ∈ [TestEnv; DevEnv; StagingEnv; ProdEnv]) then PutEnvConfig v else fail (ErrMsg "invalid environment")
  else if bool_decide (key = "slack") then v ← value; set_url PutSlackNotification v
  else if bool_decide (key = "proxy") then v ← value; set_url PutProxyConfig v
  else if bool_decide (key = "check-update-interval") then v ← value; set_duration PutCheckUpdateInterval v
  else if bool_decide (key = "worker-timeout") then v ← value; set_duration PutWorkerTimeout v
  else if bool_decide (key = "github-token") then v ← value; PutGitHubToken v
  else if bool_decide (key = "node-proxy") then v ← value; set_url PutNodeProxy v
  else if bool_decide (key = "external-ip-address-block") then v ← value; set_block PutExternalIPAddressBlock v
  else if bool_decide (key = "lb-address-block-default") then v ← value; set_block PutLBAddressBlockDefault v
  else if bool_decide (key = "lb-address-block-bastion") then v ← value; set_block PutLBAddressBlockBastion v
  else if bool_decide (key = "lb-address-block-internet") then v ← value; set_block PutLBAddressBlockInternet v
  else if bool_decide (key = "lb-address-block-internet-cn") then v ← value; set_block PutLBAddressBlockInternetCN v
  else if bool_decide (key = "release-time") then
    _ ← lift (check_schedules (tail args)); PutReleaseTime (String.concat newline (tail args))
  else if bool_decide (key = "release-timezone") then
    v ← value; _ ← lift (LoadLocation v); PutReleaseTimeZone v
  else fail (ErrMsg ("unknown key: " +:+ key)).
Definition configSetCmd (args : list string) : M W unit :=
  _ ← lift (configSetArgs args); storage_cmd (config_set args).

(** ** [config_get.go] *)
Definition config_get (key : string) : M W unit :=
  if bool_decide (key = "env") then show GetEnvConfig
  else if bool_decide (key = "slack") then show GetSlackNotification
  else if bool_decide (key = "proxy") then show GetProxyConfig
  else if bool_decide (key = "check-update-interval") then d ← GetCheckUpdateInterval; Println (Duration_String d)
  else if bool_decide (key = "worker-timeout") then d ← GetWorkerTimeout; Println (Duration_String d)
  else if bool_decide (key = "github-token") then show GetGitHubToken
  else if bool_decide (key = "node-proxy") then show GetNodeProxy
  else if bool_decide (key = "external-ip-address-block") then show GetExternalIPAddressBlock
  else if bool_decide (key = "lb-address-block-default") then show GetLBAddressBlockDefault
  else if bool_decide (key = "lb-address-block-bastion") then show GetLBAddressBlockBastion
  else if bool_decide (key = "lb-address-block-internet") then show GetLBAddressBlockInternet
  else if bool_decide (key = "lb-address-block-internet-cn") then show GetLBAddressBlockInternetCN
  else if bool_decide (key = "release-time") then show GetReleaseTime
  else if bool_decide (key = "release-timezone") then show GetReleaseTimeZone
  else fail (ErrMsg ("unknown key: " +:+ key)).
Definition configGetCmd (args : list string) : M W unit :=
  _ ← lift (ExactArgs 1 args); key ← lift (arg args 0); storage_cmd (config_get key).
End neco.

(** ** Credentials of BMCs ([bmc_config_*.go]) and Vault's keys ([vault_*_key.go], [vault_show_root_token.go]) *)
Section keys.
Context {W : Type} `{Etcd W} `{Files W} `{EtcdUtil W} `{EtcdAdmin W} `{Console W} `{SabaClient W}.

Definition bmcConfigGetBMCUserCmd : M W unit := storage_cmd (show GetBMCBMCUser).
Definition bmcConfigGetIPMIUserCmd : M W unit := storage_cmd (show GetBMCIPMIUser).
Definition bmcConfigGetIPMIPasswordCmd : M W unit := storage_cmd (show GetBMCIPMIPassword).
Definition bmcConfigGetRepairUserCmd : M W unit := storage_cmd (show GetBMCRepairUser).
Definition bmcConfigGetRepairPasswordCmd : M W unit := storage_cmd (show GetBMCRepairPassword).
Definition bmcConfigSetIPMIUserCmd (value : string) : M W unit := storage_cmd (PutBMCIPMIUser value).
Definition bmcConfigSetIPMIPasswordCmd (value : string) : M W unit := storage_cmd (PutBMCIPMIPassword value).
Definition bmcConfigSetRepairUserCmd (value : string) : M W unit := storage_cmd (PutBMCRepairUser value).
Definition bmcConfigSetRepairPasswordCmd (value : string) : M W unit := storage_cmd (PutBMCRepairPassword value).
Definition bmcConfigSetBMCUserCmd (file : string) : M W unit :=
  _ ← EtcdClient;
  data ← os_ReadFile file;
  _ ← PutBMCBMCUser data;
  _ ← saba_NewClient SabakanLocalEndpoint;
  _ ← saba_AssetsUpload "bmc-user.json" file;
  ignore_error etcd_ClientClose.

Definition vaultRemoveUnsealKeyCmd : M W unit := storage_cmd DeleteVaultUnsealKey.
Definition vaultShowRootTokenCmd : M W unit := storage_cmd (show GetVaultRootToken).
Definition vaultShowUnsealKeyCmd : M W unit := storage_cmd (show GetVaultUnsealKey).

(** ** [leave.go], [recover.go] *)
Definition leaveArgs (args : list string) : outcome Z :=
  match args with
  | [a] => ParseUint32 a
  | _ => Err (ErrMsg "expected exact one argument")
  end.
Definition leaveCmd (args : list string) : M W unit :=
  lrn ← lift (leaveArgs args); storage_cmd (DeleteBootServer lrn).
Definition recoverCmd (fuel : nat) : M W unit := storage_cmd (ClearStatusAndContents fuel).

(** ** [status.go] *)
Section status.
Variable format_time : Time → string.
Definition checkUpdateAborted (ver : string) (statuses : gmap Z UpdateStatus) : bool :=
  existsb (λ p : Z * UpdateStatus,
    bool_decide (st_Version (snd p) = ver) && (st_Cond (snd p) =? CondAbort)) (map_to_list statuses).
Definition update_state (req : UpdateRequest) (statuses : gmap Z UpdateStatus) : string :=
  if checkUpdateAborted (req_Version req) statuses then "aborted"
  else if UpdateCompleted (req_Version req) (elems (req_Servers req)) statuses then "completed"
  else "running".
Definition show_server (req : UpdateRequest) (statuses : gmap Z UpdateStatus) (lrn : Z) : M W unit :=
  match statuses !! lrn with
  | None => panic "nil pointer dereference"
  | Some status =>
      if negb (bool_decide (st_Version status = req_Version req)) then mret ()
      else
        _ ← stdout_Print (newline +:+ "Boot server " +:+ Itoa lrn +:+ newline);
        _ ← Println ("    step: " +:+ Itoa (st_Step status));
        _ ← Println ("    condition: " +:+ UpdateCondition_String (st_Cond status));
        if (0 <? String.length (st_Message status))%nat then Println ("    message: " +:+ st_Message status) else mret ()
  end.
Definition showStatus : M W unit :=
  ss ← NewSnapshot;
  _ ← Println ("Boot servers: " +:+ ints_text (elems (ss_Servers ss)));
  _ ← Println "Update process";
  match ss_Request ss with
  | None => Println "    status: clear"
  | Some req =>
      _ ← Println ("    status: " +:+ update_state req (ss_Statuses ss));
      _ ← Println ("   version: " +:+ req_Version req);
      _ ← Println ("   members: " +:+ ints_text (elems (req_Servers req)));
      _ ← Println ("   started: " +:+ format_time (req_StartedAt req));
      for_each (BootIP.SortInts (map fst (map_to_list (ss_Statuses ss)))) (show_server req (ss_Statuses ss))
  end.
Definition statusCmd : M W unit := storage_cmd showStatus.
End status.

(** ** [cke_weight_*.go] *)
Section weights.
Context `{FloatJson} `{FloatText}.
Definition ckeWeightGetCmd (role : string) : M W unit := storage_cmd
  (data ← GetCKEWeight;
   match data !! role with
   | None => fail (ErrMsg ("no such weight found for role " +:+ role))
   | Some val => Println (Float_Text val)
   end).
Definition ckeWeightListCmd : M W unit := storage_cmd
  (data ← GetCKEWeight; output ← lift (Marshal_weights data); Println output).
(** The decoder gives a nil map only for the JSON value [null], which is never put. *)
Definition ckeWeightSetCmd (role weight : string) : M W unit := storage_cmd
  (r ← attempt GetCKEWeight;
   data ← match r with
          | inr data => mret data
          | inl ErrNotFound => mret ∅
          | inl e => fail e
          end;
   w ← lift (ParseFloat weight);
   PutCKEWeight (<[role := w]> data)).
End weights.
End keys.

(** ** Initialisation of applications *)
Definition EtcdpasswdPrefix := "/passwd/".
Definition SabakanPrefix := "/sabakan/".
Definition CKEPrefix := "/cke/".
Definition SabakanDataDir := "/var/lib/sabakan".
Definition SabakanServerCertFile := SabakanDir +:+ "/server.crt".
Definition SabakanServerKeyFile := SabakanDir +:+ "/server.key".
Definition TeleportConfFile := "/etc/teleport/teleport.yaml".
Definition mode_600 : Z := 384.

Section init.
Context `{NetUtil} `{Yaml} {W : Type} `{Etcd W} `{Files W} `{Commands W} `{Clock W} `{EtcdUtil W} `{EtcdAdmin W}
  `{Console W} `{Vault W} `{Terminal W} `{EtcdAuth W} `{HostEnv W} `{KeyGen W} `{Process W}.

(** *** [init.go] *)
Definition generateAndSetToken (bytes : Z) : M W unit :=
  token ← rand_Hex bytes; PutTeleportAuthToken token.
Definition init_application (name : string) : M W unit :=
  if bool_decide (name = "etcdpasswd") then UserAdd "etcdpasswd" EtcdpasswdPrefix
  else if bool_decide (name = "sabakan") then UserAdd "sabakan" SabakanPrefix
  else if bool_decide (name = "cke") then UserAdd "cke" CKEPrefix
  else if bool_decide (name = "teleport") then generateAndSetToken 32
  else fail (ErrMsg ("unknown service name: " +:+ name)).
Definition one_arg (args : list string) : outcome string :=
  match args with [a] => Ok a | _ => Err (ErrMsg "expected exact one argument") end.
Definition initCmd (args : list string) : M W unit :=
  name ← lift (one_arg args); storage_cmd (init_application name).

(** *** [init_local.go]

    Whether certificates were issued; [false] stands for [os.ErrExist]. *)
Definition write_certs (secret : option Secret) (cert key : string) : M W unit :=
  c ← lift (secret_string secret "certificate");
  _ ← WriteFile cert c;
  k ← lift (secret_string secret "private_key");
  WriteFile key k.
Definition issueEtcdCerts (vc : VClient) (commonName cert key : string) : M W bool :=
  r ← attempt (os_Stat cert);
  match r with
  | inr _ => mret false
  | inl _ =>
      secret ← issue vc CAEtcdClient (client_params commonName);
      _ ← write_certs secret cert key; mret true
  end.
Definition issueSabakanServerCerts (vc : VClient) (cert key : string) : M W bool :=
  r ← attempt (os_Stat cert);
  match r with
  | inr _ => mret false
  | inl _ =>
      myname ← os_Hostname;
      rack ← MyLRN;
      secret ← issue vc CAServer
        [("common_name", JStr myname); ("alt_names", JStr "localhost");
         ("ip_sans", JArr [JStr "127.0.0.1"; JStr (IP_String (BootNode0IP rack))])];
      _ ← write_certs secret cert key; mret true
  end.
(** [progs/sabakan/init_local.go] *)
Definition InitLocal : M W unit := os_MkdirAll SabakanDataDir mode_755.

Definition issue_local (vc : VClient) (name : string) : M W unit :=
  if bool_decide (name = "etcdpasswd") then
    _ ← issueEtcdCerts vc "etcdpasswd" EtcdpasswdCertFile EtcdpasswdKeyFile; mret ()
  else if bool_decide (name = "sabakan") then
    _ ← issueEtcdCerts vc "sabakan" SabakanEtcdCertFile SabakanEtcdKeyFile;
    _ ← issueSabakanServerCerts vc SabakanServerCertFile SabakanServerKeyFile;
    InitLocal
  else if bool_decide (name = "cke") then
    _ ← issueEtcdCerts vc "cke" CKECertFile CKEKeyFile; mret ()
  else fail (ErrMsg ("unknown service name: " +:+ name)).
Definition start_local (name : string) : M W unit :=
  if bool_decide (name = "etcdpasswd") then
    isActive ← IsActiveService EtcdpasswdService;
    if negb isActive then StartService EtcdpasswdService else mret ()
  else if bool_decide (name = "sabakan") then
    isActive ← IsActiveService SabakanService;
    if negb isActive then StartService SabakanService else mret ()
  else if bool_decide (name = "cke") then
    isActive ← IsActiveService CKEService;
    if negb isActive then _ ← StartService CKEService; StartService CKELocalProxyService else mret ()
  else mret ().
Definition initLocalCmd (args : list string) : M W unit :=
  name ← lift (one_arg args);
  mylrn ← MyLRN;
  vc ← VaultClient mylrn;
  storage_cmd (_ ← issue_local vc name; start_local name).

(** *** [join.go] *)
Definition joinArgs (args : list string) : outcome (list Z) :=
  match args with [] => Err (ErrMsg "at least one LRN must be specified") | _ => parse_lrns args end.
Definition joinCmd (args : list string) : M W unit :=
  lrns ← lift (joinArgs args);
  first ← lift (match lrns with n :: _ => Ok n | [] => Panic "index out of range" end);
  vc ← VaultClient first;
  mylrn ← MyLRN;
  Join vc mylrn lrns.

(** *** [ssh_generate.go] *)
Definition rsaBits : Z := 2048.
Definition makeSSHKeyPair : M W (string * string) := rsa_KeyPair rsaBits.
Definition store_keys (force dump : bool) (pubkey privkey : string) : M W unit :=
  r ← attempt GetSSHPubkey;
  match r with
  | inl ErrNotFound | inr _ =>
      if match r with inr _ => negb force | _ => false end then fail (ErrMsg "SSH key already exists")
      else
        _ ← PutSSHPubkey pubkey;
        _ ← cmd_RunInput [CKECLIBin; "vault"; "ssh-privkey"; "-"] privkey;
        if dump then Println privkey else mret ()
  | inl e => fail e
  end.
Definition sshGenerateCmd (force dump : bool) : M W unit :=
  _ ← EtcdClient;
  '(pubkey, privkey) ← makeSSHKeyPair;
  _ ← store_keys force dump pubkey privkey;
  ignore_error etcd_ClientClose.

(** *** [teleport_config.go] *)
Definition teleportConfig : M W unit :=
  uid ← os_Getuid;
  if negb (uid =? 0) then fail (ErrMsg "run as root")
  else
    _ ← EtcdClient;
    deferred
      (token ← GetTeleportAuthToken;
       if bool_decide (token = "") then fail (ErrMsg "no teleport token is found")
       else
         mylrn ← MyLRN;
         buf ← lift (teleport_GenerateConf mylrn token);
         _ ← os_WriteFile TeleportConfFile buf mode_600;
         RestartService "teleport-node")
      etcd_ClientClose.

(** *** [vault_unseal.go] *)
Fixpoint wait_vault_health (fuel : nat) (vc : VClient) : M W unit :=
  match fuel with
  | O => blocked
  | S fuel =>
      r ← attempt (vault_Health vc);
      match r with
      | inr _ => mret ()
      | inl _ =>
          fired ← clock_after Second;
          if (fired : bool) then wait_vault_health fuel vc else fail ErrCanceled
      end
  end.
Definition subMain (fuel : nat) : M W unit :=
  _ ← EtcdClient;
  deferred
    (r ← attempt GetVaultUnsealKey;
     match r with
     | inl ErrNotFound => mret ()
     | inl e => fail e
     | inr key => vc ← vault_NewClient None; _ ← wait_vault_health fuel vc; Unseal vc key
     end)
    etcd_ClientClose.
Definition vaultUnsealCmd (fuel : nat) : M W unit :=
  r ← attempt (os_Stat NecoConfFile);
  match r with
  | inl e => if IsNotExist e then mret () else subMain fuel
  | inr _ => subMain fuel
  end.
End init.
