(* ===== verification/NecoInit.v ===== *)
(** * The neco command: contents, hardware, images and session logs ([pkg/neco/cmd/]) *)
From S2P Require Import Prelude GoStr GoTime Json Types Etcd Worlds Storage.
From S2P Require Import Updater GoNet Host Progs Operator GoURL Ext Upload CKEUpload Vault Setup NecoCmd.

Local Open Scope Z_scope.

(** ** The outside *)

(** [exec.ExitError]: the exit status, if the error is one of a command that ran. *)
Class ExitErrors := { ExitCode : error → option Z }.
(** The JSON of sabakan's machines; an element may be null. *)
Class SabaJson := { machines_Unmarshal : string → outcome (list (option Machine)) }.

Section init_data.
Context `{NetUtil} `{Yaml} `{Unstructured} `{FloatJson} `{TextTemplate}
  {W : Type} `{Etcd W} `{Files W} `{Commands W} `{Clock W} `{SabaClient W}
  `{MoreFiles W} `{Download W} `{Registry W} `{EtcdUtil W} `{EtcdAdmin W} `{Process W} `{Console W}.
Variable CurrentArtifacts : ArtifactSet.

(** ** [init_data.go] *)
Record InitDataOpts := { ignitionsOnly : bool; updateResourcesOnly : bool; uploadCACertOnly : bool }.
Definition optional_proxy : M W string :=
  r ← attempt GetProxyConfig;
  match r with
  | inr proxy => mret proxy
  | inl ErrNotFound => mret ""
  | inl e => fail e
  end.
Definition upload_all (fetcher : ImageFetcher) (version : string) : M W unit :=
  env_Wait [UploadContents CurrentArtifacts fetcher version; UploadCKEContents fetcher; UploadDHCPJSON;
            SetCKETemplate; UpdateResources CurrentArtifacts; UploadCACert].
Definition initData (opts : InitDataOpts) : M W unit :=
  version ← GetDebianVersion NecoPackageName;
  _ ← ProxyHTTPClient;
  proxy ← optional_proxy;
  _ ← (if negb (bool_decide (proxy = "")) then _ ← lift (url_Parse proxy); mret () else mret ());
  necoEnv ← GetEnvConfig;
  fetcher ← lift (NewImageFetcher necoEnv);
  if ignitionsOnly opts then UploadIgnitions CurrentArtifacts version
  else if updateResourcesOnly opts then UpdateResources CurrentArtifacts
  else if uploadCACertOnly opts then UploadCACert
  else upload_all fetcher version.
Definition initDataCmd (opts : InitDataOpts) : M W unit := storage_cmd (initData opts).

(** ** [cke_update.go], [image.go] *)
Definition ckeUpdateCmd : M W unit := storage_cmd SetCKETemplate.
Definition imageCmd (name : string) : M W unit :=
  img ← lift (FindContainerImage CurrentArtifacts name); Println (FullName img false).

(** ** [is_running.go] *)
Definition isRunning (name : string) : M W unit :=
  img ← lift (FindContainerImage CurrentArtifacts name);
  _ ← EtcdClient;
  deferred
    (proxy ← GetProxyConfig;
     rt ← GetContainerRuntime proxy;
     ok ← IsRunning rt img;
     if negb ok then _ ← Println "not running"; _ ← os_Exit 1; blocked
     else Println "running")
    etcd_ClientClose.
Definition isRunningCmd (name : string) : M W unit :=
  r ← attempt (isRunning name);
  match r with
  | inl _ => _ ← os_Exit 2; blocked
  | inr _ => mret ()
  end.
End init_data.

(** ** [setup.go] *)
Record SetupParams := { sp_noRevoke : bool; sp_proxy : string; sp_ghTokenFile : string }.
Definition setupArgs (params : SetupParams) (args : list string) : outcome (list Z) :=
  if (length args <? 3)%nat then Err (ErrMsg "too few boot servers")
  else
    lrns ← parse_lrns args;
    if bool_decide (sp_proxy params = "") then Ok lrns
    else
      u ← url_Parse (sp_proxy params);
      if negb (IsAbs u) then Err (ErrMsg "proxy not absolute") else Ok lrns.
Section setup_cmd.
Context `{NetUtil} `{Yaml} `{GoVersion} {W : Type} `{Etcd W} `{Files W} `{Commands W} `{Clock W}
  `{EtcdAdmin W} `{Vault W} `{EtcdAuth W} `{HostEnv W} `{Console W}.
Variable CurrentArtifacts : ArtifactSet.
Definition setupCmd (fuel : nat) (params : SetupParams) (args : list string) : M W unit :=
  lrns ← lift (setupArgs params args);
  token ← (if bool_decide (sp_ghTokenFile params = "") then stdin_ReadAll else os_ReadFile (sp_ghTokenFile params));
  Setup CurrentArtifacts fuel lrns (negb (sp_noRevoke params)) (sp_proxy params) (TrimSpace token).
End setup_cmd.

(** ** [bmc_setuphw.go] *)
Section setup_hw.
Context `{ExitErrors} `{SabaJson} {W : Type} `{Etcd W} `{Files W} `{Commands W} `{Clock W} `{Terminal W}
  `{KeyGen W} `{EtcdUtil W} `{EtcdAdmin W}.

(** [Exec] of [docker.go] *)
Definition Exec (rt : dockerRuntime) (name : string) (stdio : bool) (command : list string) : M W unit :=
  flags ← (if stdio then tty ← term_StdinIsTerminal; mret [if (tty : bool) then "-it" else "-i"] else mret []);
  cmd_Run ("docker" :: ["exec"; "--privileged"] ++ flags ++ [name] ++ command).

Definition getMyMachine : M W (option Machine) :=
  data ← os_ReadFile "/sys/devices/virtual/dmi/id/product_serial";
  let serial := TrimSpace data in
  out ← checked_Output ["sabactl"; "machines"; "get"; "--serial"; serial];
  machines ← lift (machines_Unmarshal out);
  match machines with
  | [m] => mret m
  | _ => fail (ErrMsg "no machine entry in sabakan")
  end.
Definition writeBMCAddress (info : json) : M W unit :=
  let file := "/etc/neco/bmc-address.json" in
  _ ← os_OpenTrunc file mode_644;
  deferred (_ ← file_Write file (print info NecoCmd.newline); file_Sync file) (file_Close file).

Definition setupHW : M W unit :=
  my ← getMyMachine;
  match my with
  | None => panic "nil pointer dereference"
  | Some my =>
      _ ← wrapping "failed to write bmc-address.json" (writeBMCAddress (mc_InfoBMC my));
      bmcUser ← GetBMCBMCUser;
      _ ← os_WriteFile "/etc/neco/bmc-user.json" bmcUser mode_644;
      _ ← RestartService "setup-hw";
      _ ← cmd_Run ["systemctl"; "is-active"; "setup-hw"];
      proxy ← GetProxyConfig;
      rt ← GetContainerRuntime proxy;
      _ ← RetryWithSleep (SleepContext Second) (Exec rt "setup-hw" false ["echo"; "hello"]) (λ _, mret ()) 240;
      virt ← attempt (cmd_Run ["systemd-detect-virt"; "-q"; "--vm"]);
      _ ← match virt with inl _ => Sleep Minute | inr _ => mret () end;
      r ← attempt (Exec rt "setup-hw" true ["setup-hw"]);
      match r with
      | inr _ => mret ()
      | inl err =>
          if bool_decide (ExitCode err = Some 10) then ignore_error (cmd_Run ["reboot"]) else fail err
      end
  end.
Definition bmcSetupHWCmd : M W unit :=
  uid ← os_Getuid;
  if negb (uid =? 0) then fail (ErrMsg "run as root") else storage_cmd setupHW.
End setup_hw.

(** ** [session_log_start.go] *)
Definition s3gwEndpoint := "http://s3gw.session-log.svc".
Definition sftpServer := "/usr/lib/openssh/sftp-server".
Definition userShell := "/usr/bin/bash".

(** The command line, the members of the archive, and whether the command is written to
    a file of the directory. *)
Definition sessionLogStartGetParam (originalCommand tmpdir : string) : list string * list string * bool :=
  let recording := negb (bool_decide (tmpdir = "")) in
  if bool_decide (originalCommand = "") then
    if recording
    then (["/usr/bin/script"; "-q"; "-t" +:+ tmpdir +:+ "/timingfile"; "-e"; tmpdir +:+ "/typescript"],
          ["typescript"; "timingfile"], false)
    else ([userShell], [], false)
  else
    let cmdline :=
      if bool_decide (originalCommand = "internal-sftp") then ["/bin/sh"; "-c"; sftpServer]
      else if bool_decide (originalCommand = sftpServer) || HasPrefix originalCommand "scp -t"
      then ["/bin/sh"; "-c"; originalCommand]
      else [userShell; "-c"; originalCommand] in
    (cmdline, if recording then ["SSH_ORIGINAL_COMMAND"] else [], recording).

Class SessionEnv (W : Type) := {
  os_MkdirTemp : string → string → M W string;
  os_RemoveAll : string → M W unit;
  os_Chdir : string → M W unit;
  user_Current : M W string;
  os_Getpid : M W Z;
  os_Open : string → M W unit;
  (* a request with the body of a file, and its response's status *)
  http_NewPut : string → outcome unit;
  http_PutFile : string → string → M W Z;
}.
Section session_log.
Context `{ExitErrors} {W : Type} `{Files W} `{Commands W} `{Clock W} `{HostEnv W} `{Process W} `{SessionEnv W}.
(** [Format("20060102T150405")] *)
Variable format_start : Time → string.

Definition or_unknown (m : M W string) : M W string :=
  r ← attempt m; mret (match r with inr v => v | inl _ => "unknown" end).
Definition Truncate (d m : Duration) : Duration := d - Z.rem d m.

(** The function that archives and sends the files: its own errors end it only. *)
Definition put_session_log (tmpdir startTimeStr : string) (startTime : Time) (members : list string) : M W unit :=
  _ ← ignore_error (os_Chdir tmpdir);
  now ← clock_now;
  let durationStr := Duration_String (Truncate (Sub now startTime) Second) in
  username ← or_unknown user_Current;
  hostname ← or_unknown os_Hostname;
  pid ← os_Getpid;
  let filename := "session-log-" +:+ startTimeStr +:+ "-" +:+ hostname +:+ "-" +:+ Itoa pid +:+ "-" +:+
                  durationStr +:+ "-" +:+ username +:+ ".tar.gz" in
  let url := s3gwEndpoint +:+ "/bucket/" +:+ filename in
  ignore_error
    (_ ← cmd_Run (["/bin/tar"; "zcf"; filename] ++ members);
     _ ← os_Open filename;
     _ ← lift (http_NewPut url);
     _ ← http_PutFile url filename;
     ignore_error (os_RemoveAll tmpdir)).

Definition exit_status (r : error + unit) : Z :=
  match r with inr _ => 0 | inl e => default 255 (ExitCode e) end.
Definition sessionLogStartRun : M W unit :=
  startTime ← clock_now;
  let startTimeStr := format_start startTime in
  originalCommand ← os_Getenv "SSH_ORIGINAL_COMMAND";
  t ← attempt (os_MkdirTemp "/tmp" ("session-log-" +:+ startTimeStr +:+ "-"));
  let tmpdir := match t with inr dir => dir | inl _ => "" end in
  let '(cmdline, tarMemberFiles, record) := sessionLogStartGetParam originalCommand tmpdir in
  _ ← (if record : bool
       then ignore_error (os_WriteFile (tmpdir +:+ "/SSH_ORIGINAL_COMMAND") originalCommand mode_600)
       else mret ());
  runErr ← attempt (cmd_Run cmdline);
  _ ← (if negb (bool_decide (tmpdir = "")) then put_session_log tmpdir startTimeStr startTime tarMemberFiles
       else mret ());
  _ ← os_Exit (exit_status runErr);
  blocked.
End session_log.
