(* ===== verification/Leader.v ===== *)
(** * The controllers as leaders

    [Run] of neco-rebooter and of sabakan-state-setter: a session, an election, a
    goroutine that makes a pass per tick and one that watches the leader key.  The
    goroutines, the caller's context, the session and the leader key take turns in a
    step relation; a pass is [runOnce] of the program, a parameter here.  Beside it, who
    the leader is and the metrics of neco-rebooter. *)
From S2P Require Import Prelude GoStr GoTime Json Types Etcd Worlds Storage.
From S2P Require Import Trace Setup NecoCmd.

Local Open Scope Z_scope.

(** ** [watchLeaderKey], the same in both programs *)

(** What one [select] finds; an event is a deletion or not. *)
Inductive LeaderSelect :=
  | CtxDone (e : error)
  | SessionDone
  | WatchClosed
  | WatchErr (e : error)
  | WatchEvents (deletions : list bool).
Class LeaderWatch (W : Type) := { select_leader : M W LeaderSelect }.
Fixpoint watchLeaderKey {W} `{LeaderWatch W} (fuel : nat) : M W unit :=
  match fuel with
  | O => blocked
  | S fuel =>
      sel ← select_leader;
      match sel with
      | CtxDone e => fail e
      | SessionDone => fail (ErrMsg "session is closed")
      | WatchClosed => fail (ErrMsg "watch is closed")
      | WatchErr e => fail e
      | WatchEvents deletions =>
          if existsb id deletions then fail (ErrMsg "leader key is deleted") else watchLeaderKey fuel
      end
  end.
(** It ends with an error if it ends: the callers always cancel. *)
Lemma watchLeaderKey_ends {W} `{LeaderWatch W} fuel (w w' : W) : watchLeaderKey fuel w ≠ (w', Ok tt).
Proof.
  revert w. induction fuel as [|fuel IH]; intros w E; simpl in E; [done|].
  minv. destruct x0; minv. case_match; minv. by apply IH in E.
Qed.

(** ** [Run] *)
Inductive Program := NecoRebooter | SabakanStateSetter (shutdownSchedule : string).

(** Where the function itself is; [GivingUp] and [Closing] are its deferred functions,
    with the error that it is about to return. *)
Inductive MainPc :=
  | Starting
  | Campaigning
  | Leading
  | GivingUp (e : error)
  | Closing (e : error)
  | Finished (e : error).
Inductive TickerPc := NoTicker | Waiting | InPass | TickerStopped.
Inductive WatcherPc := NoWatcher | Watching | WatcherStopped.
Inductive RunEvent := Won | PassBegan | PassEnded | GaveUp | JobRan.
#[export] Instance RunEvent_eq_dec : EqDecision RunEvent.
Proof. solve_decision. Defined.

Record RunState (W : Type) := {
  rs_main : MainPc;
  rs_ticker : TickerPc;
  rs_watcher : WatcherPc;
  rs_cron : bool;               (* the shutdown job is scheduled *)
  rs_ctx : bool;                (* the caller's context is done *)
  rs_cause : option error;      (* why the goroutines' context is done *)
  rs_session : bool;            (* the session is open *)
  rs_key : bool;                (* the leader key is in etcd *)
  rs_world : W;
  rs_events : list RunEvent;
}.
Arguments rs_main {W} _.
Arguments rs_ticker {W} _.
Arguments rs_watcher {W} _.
Arguments rs_cron {W} _.
Arguments rs_ctx {W} _.
Arguments rs_cause {W} _.
Arguments rs_session {W} _.
Arguments rs_key {W} _.
Arguments rs_world {W} _.
Arguments rs_events {W} _.

Section run.
Context `{Cron} {W : Type} (k : Program) (pass job : M W unit).
Implicit Types (s : RunState W).

Definition start (w : W) : RunState W :=
  {| rs_main := Starting; rs_ticker := NoTicker; rs_watcher := NoWatcher; rs_cron := false; rs_ctx := false;
     rs_cause := None; rs_session := false; rs_key := false; rs_world := w; rs_events := [] |}.

(** What becomes of the shutdown schedule once the election is won. *)
Definition schedule_job : outcome bool :=
  match k with
  | NecoRebooter => Ok false
  | SabakanStateSetter shutdownSchedule =>
      if bool_decide (shutdownSchedule = "") then Ok false
      else match ParseStandard shutdownSchedule with
           | Err e => Err (ErrMsg ("failed to start shutdown cron job: " +:+ error_text e))
           | _ => Ok true
           end
  end.
(** The context of the goroutines is done.  [ErrCanceled] stands for the cause of the
    caller's context. *)
Definition ctx_done s : bool := rs_ctx s || bool_decide (is_Some (rs_cause s)).
Definition cause s : error := default ErrCanceled (rs_cause s).
(** A goroutine ends with [e]: the first cause stays.  The context of neco-rebooter takes
    the cause of the caller's context when that is done first; the environment of
    sabakan-state-setter keeps the error of the first goroutine. *)
Definition cancelled_by (e : error) s : option error :=
  match rs_cause s, k with
  | Some c, _ => Some c
  | None, NecoRebooter => if rs_ctx s then None else Some e
  | None, SabakanStateSetter _ => Some e
  end.

(** When the main function goes on: neco-rebooter as soon as the context is done,
    sabakan-state-setter when both goroutines have ended ([env.Wait]). *)
Definition returns s : bool :=
  match k with
  | NecoRebooter => ctx_done s
  | SabakanStateSetter _ =>
      match rs_ticker s, rs_watcher s with TickerStopped, WatcherStopped => true | _, _ => false end
  end.

Definition to_main (m : MainPc) s : RunState W :=
  {| rs_main := m; rs_ticker := rs_ticker s; rs_watcher := rs_watcher s; rs_cron := rs_cron s; rs_ctx := rs_ctx s;
     rs_cause := rs_cause s; rs_session := rs_session s; rs_key := rs_key s; rs_world := rs_world s;
     rs_events := rs_events s |}.
Definition to_ticker (t : TickerPc) (c : option error) (w : W) (es : list RunEvent) s : RunState W :=
  {| rs_main := rs_main s; rs_ticker := t; rs_watcher := rs_watcher s; rs_cron := rs_cron s; rs_ctx := rs_ctx s;
     rs_cause := c; rs_session := rs_session s; rs_key := rs_key s; rs_world := w; rs_events := rs_events s ++ es |}.
Definition to_etcd (session key : bool) s : RunState W :=
  {| rs_main := rs_main s; rs_ticker := rs_ticker s; rs_watcher := rs_watcher s; rs_cron := rs_cron s;
     rs_ctx := rs_ctx s; rs_cause := rs_cause s; rs_session := session; rs_key := key; rs_world := rs_world s;
     rs_events := rs_events s |}.
Definition won (m : MainPc) (t : TickerPc) (wa : WatcherPc) (cron : bool) s : RunState W :=
  {| rs_main := m; rs_ticker := t; rs_watcher := wa; rs_cron := cron; rs_ctx := rs_ctx s; rs_cause := rs_cause s;
     rs_session := rs_session s; rs_key := rs_session s; rs_world := rs_world s; rs_events := rs_events s ++ [Won] |}.
Definition watched (e : error) s : RunState W :=
  {| rs_main := rs_main s; rs_ticker := rs_ticker s; rs_watcher := WatcherStopped; rs_cron := rs_cron s;
     rs_ctx := rs_ctx s; rs_cause := cancelled_by e s; rs_session := rs_session s; rs_key := rs_key s;
     rs_world := rs_world s; rs_events := rs_events s |}.
Definition gave_up (e : error) (key : bool) s : RunState W :=
  {| rs_main := Closing e; rs_ticker := rs_ticker s; rs_watcher := rs_watcher s; rs_cron := rs_cron s;
     rs_ctx := rs_ctx s; rs_cause := rs_cause s; rs_session := rs_session s; rs_key := key; rs_world := rs_world s;
     rs_events := rs_events s ++ [GaveUp] |}.
Definition ctx_cancelled s : RunState W :=
  {| rs_main := rs_main s; rs_ticker := rs_ticker s; rs_watcher := rs_watcher s; rs_cron := rs_cron s;
     rs_ctx := true; rs_cause := rs_cause s; rs_session := rs_session s; rs_key := rs_key s;
     rs_world := rs_world s; rs_events := rs_events s |}.

(** Why [watchLeaderKey] may end. *)
Inductive watch_end s : error → Prop :=
  | end_ctx : ctx_done s = true → watch_end s ErrCanceled
  | end_session : rs_session s = false → watch_end s (ErrMsg "session is closed")
  | end_deleted : rs_key s = false → watch_end s (ErrMsg "leader key is deleted")
  | end_closed : watch_end s (ErrMsg "watch is closed")
  | end_error e : client_error e → watch_end s e.

Inductive run_step : RunState W → RunState W → Prop :=
  | step_no_session e s : rs_main s = Starting →
      run_step s (to_main (Finished (ErrMsg ("failed to create new session: " +:+ error_text e))) s)
  | step_session s : rs_main s = Starting → run_step s (to_main Campaigning (to_etcd true false s))
  (* the select around the campaign *)
  | step_campaign_ctx s : rs_main s = Campaigning → rs_ctx s = true → run_step s (to_main (Closing ErrCanceled) s)
  | step_campaign_session s : rs_main s = Campaigning → rs_session s = false →
      run_step s (to_main (Closing (ErrMsg "failed to campaign: session is closed")) s)
  | step_campaign_fails e s : rs_main s = Campaigning →
      run_step s (to_main (Closing (ErrMsg ("failed to campaign: " +:+ error_text e))) s)
  | step_won cron s : rs_main s = Campaigning → schedule_job = Ok cron →
      run_step s (won Leading Waiting Watching cron s)
  | step_won_in_vain e s : rs_main s = Campaigning → schedule_job = Err e →
      run_step s (won (GivingUp e) NoTicker NoWatcher false s)
  (* the ticker: a select takes any case that is ready *)
  | step_tick s : rs_ticker s = Waiting →
      run_step s (to_ticker InPass (rs_cause s) (rs_world s) [PassBegan] s)
  | step_passed w' s : rs_ticker s = InPass → pass (rs_world s) = (w', Ok tt) →
      run_step s (to_ticker Waiting (rs_cause s) w' [PassEnded] s)
  | step_pass_fails e w' s : rs_ticker s = InPass → pass (rs_world s) = (w', Err e) →
      run_step s (to_ticker TickerStopped (cancelled_by e s) w' [PassEnded] s)
  | step_ticker_ctx s : rs_ticker s = Waiting → ctx_done s = true →
      run_step s (to_ticker TickerStopped (cancelled_by ErrCanceled s) (rs_world s) [] s)
  (* the watcher *)
  | step_watch e s : rs_watcher s = Watching → watch_end s e →
      run_step s (watched (ErrMsg ("failed to watch leader key: " +:+ error_text e)) s)
  (* the end *)
  | step_return s : rs_main s = Leading → returns s = true → run_step s (to_main (GivingUp (cause s)) s)
  | step_no_resign e s : rs_main s = GivingUp e → rs_session s = false → run_step s (gave_up e (rs_key s) s)
  | step_resigned e s : rs_main s = GivingUp e → rs_session s = true → run_step s (gave_up e false s)
  | step_resign_fails e s : rs_main s = GivingUp e → rs_session s = true → run_step s (gave_up e (rs_key s) s)
  | step_close e s : rs_main s = Closing e → run_step s (to_main (Finished e) (to_etcd false false s))
  (* the shutdown job *)
  | step_job w' r s : rs_cron s = true → job (rs_world s) = (w', r) →
      run_step s (to_ticker (rs_ticker s) (rs_cause s) w' [JobRan] s)
  (* outside *)
  | step_cancel s : run_step s (ctx_cancelled s)
  | step_expire s : run_step s (to_etcd false false s)
  | step_deleted s : run_step s (to_etcd (rs_session s) false s).

Definition reachable (w : W) s : Prop := rtc run_step (start w) s.
End run.

(** What the two functions [Run] can reach. *)
Definition Rebooter_Run `{Cron} {W} (runOnce : M W unit) (w : W) (s : RunState W) : Prop :=
  reachable NecoRebooter runOnce (mret ()) w s.
Definition StateSetter_Run `{Cron} {W} (shutdownSchedule : string) (runOnce machineShutdown : M W unit) (w : W)
    (s : RunState W) : Prop :=
  reachable (SabakanStateSetter shutdownSchedule) runOnce machineShutdown w s.

(** ** The leadership outlasts the passes *)
Definition weight (x : RunEvent) : Z := match x with PassBegan => 1 | PassEnded => -1 | _ => 0 end.
Definition open_passes (es : list RunEvent) : Z := foldr (λ x n, weight x + n) 0 es.
Definition sealed (es : list RunEvent) : Prop := ∀ es1 es2, es = es1 ++ (GaveUp :: es2) →
  (open_passes es1 = 0) ∧ (PassBegan ∉ es2) ∧ (PassEnded ∉ es2).

Lemma open_passes_app es es' : open_passes (es ++ es') = open_passes es + open_passes es'.
Proof. induction es as [|x es IH]; simpl; lia. Qed.
Lemma sealed_snoc es x : sealed es →
  (x = GaveUp → open_passes es = 0) → (weight x ≠ 0 → GaveUp ∉ es) → sealed (es ++ [x]).
Proof.
  intros Hs Hg Hw es1 es2. destruct (decide (es2 = [])) as [->|Hne].
  - intros [-> [= ->]]%app_inj_tail. split; [auto|]. split; apply not_elem_of_nil.
  - destruct (exists_last Hne) as (es2' & y & ->). rewrite app_comm_cons, (assoc_L (++)).
    intros [-> ->]%app_inj_tail. destruct (Hs es1 es2' eq_refl) as (? & ? & ?).
    assert (weight y = 0) as Hy.
    { destruct (decide (weight y = 0)) as [|Hn]; [done|]. destruct (Hw Hn). set_solver. }
    split; [done|]. destruct y; try done; set_solver.
Qed.

Section leadership.
Context `{Cron} {W : Type} (k : Program) (pass job : M W unit).
Implicit Types (s : RunState W).

Definition past_leading (m : MainPc) : bool := match m with GivingUp _ | Closing _ | Finished _ => true | _ => false end.
Definition has_given_up (m : MainPc) : bool := match m with Closing _ | Finished _ => true | _ => false end.
Definition ticking (t : TickerPc) : bool := match t with Waiting | InPass => true | _ => false end.

Record run_inv s : Prop := {
  inv_open : open_passes (rs_events s) = match rs_ticker s with InPass => 1 | _ => 0 end;
  inv_early : match rs_main s with Starting | Campaigning => rs_ticker s = NoTicker | _ => True end;
  inv_won : ticking (rs_ticker s) = true → Won ∈ rs_events s;
  inv_guard : guarded (.= PassBegan) (λ es, Won ∈ es) (rs_events s);
  inv_gave : GaveUp ∈ rs_events s → has_given_up (rs_main s) = true;
  inv_late : k ≠ NecoRebooter → past_leading (rs_main s) = true → ticking (rs_ticker s) = false;
  inv_sealed : k ≠ NecoRebooter → sealed (rs_events s);
}.

Lemma guarded_event es x : guarded (.= PassBegan) (λ es, Won ∈ es) es → (x = PassBegan → Won ∈ es) →
  guarded (.= PassBegan) (λ es, Won ∈ es) (es ++ [x]).
Proof.
  intros Hg Hx. apply guarded_app; [by intros es1 es2 [?|?]; apply elem_of_app; auto|done|].
  destruct (decide (x = PassBegan)) as [Hp|Hp]; [auto|]. right. by apply guarded_none, Forall_singleton.
Qed.
Lemma run_inv_start w : run_inv (start w).
Proof.
  constructor; simpl; try done.
  - by apply guarded_none.
  - by intros ?%not_elem_of_nil.
  - intros _ es1 es2 E. by destruct es1.
Qed.

Lemma run_inv_step s s' : run_inv s → run_step k pass job s s' → run_inv s'.
Proof.
  intros [Ho He Hw Hg Hgv Hl Hs] Hstep.
  assert (¬ has_given_up (rs_main s) = true → GaveUp ∉ rs_events s) as Hno by auto.
  assert (ticking (rs_ticker s) = true → k ≠ NecoRebooter → past_leading (rs_main s) = false) as Hlate.
  { intros Ht Hk. destruct (past_leading (rs_main s)) eqn:E; [|done]. rewrite Hl in Ht by done. done. }
  destruct Hstep; constructor; simpl in *; rewrite ?app_nil_r, ?open_passes_app; simpl.
  all: repeat match goal with E : rs_main _ = _ |- _ => rewrite E in *; simpl in *; clear E
                         | E : rs_ticker _ = _ |- _ => rewrite E in *; simpl in *; clear E end.
  all: try done; try lia; try (by destruct (rs_main s)).
  all: try (apply guarded_event; [done|]; try done; by auto).
  all: try (intros; apply sealed_snoc; [by auto|done|]; done).
  all: try (intros; apply elem_of_app; solve [left; auto|right; by apply list_elem_of_singleton]).
  all: try (intros [?|Hx%list_elem_of_singleton]%elem_of_app; [by auto|done]).
  all: intros Hk; try (apply sealed_snoc; [by auto|done|]; intros _; apply Hno;
         specialize (Hlate eq_refl Hk); by destruct (rs_main s)).
  all: try (apply sealed_snoc; [by auto| |done]; intros _; specialize (Hl Hk eq_refl); rewrite Ho; by destruct (rs_ticker s)).
  intros _. unfold returns in *. destruct k; [done|]. by destruct (rs_ticker s).
Qed.

Lemma run_inv_reachable w s : reachable k pass job w s → run_inv s.
Proof.
  intros Hr. unfold reachable in Hr. remember (start w) as s0 eqn:E0.
  assert (run_inv s0) as H0 by (subst; apply run_inv_start). clear E0.
  induction Hr; [done|]. eauto using run_inv_step.
Qed.
End leadership.

(** C29: whatever the passes, the session and the election do, a pass of either controller
    begins only after the election is won.  The leadership of sabakan-state-setter is
    given up only when no pass is running, and no pass begins or ends after that. *)
Theorem leadership_outlasts_passes `{Cron} {W} schedule (pass job : M W unit) (w : W) s :
  (Rebooter_Run pass w s → guarded (.= PassBegan) (λ es, Won ∈ es) (rs_events s)) ∧
  (StateSetter_Run schedule pass job w s →
   guarded (.= PassBegan) (λ es, Won ∈ es) (rs_events s) ∧ sealed (rs_events s)).
Proof.
  split; [intros Hi%run_inv_reachable; apply Hi|]. intros Hi%run_inv_reachable. split; [apply Hi|by apply Hi].
Qed.

(** neco-rebooter does not wait for its goroutines: when the watcher ends, the leadership
    can be given up in the middle of a pass. *)
Ltac run_by tac := eapply rtc_l; [tac; reflexivity|].
Lemma rebooter_resigns_in_pass `{Cron} {W} (runOnce : M W unit) (w : W) : ∃ s,
  Rebooter_Run runOnce w s ∧ rs_events s = [Won; PassBegan; GaveUp] ∧ rs_key s = false.
Proof.
  eexists. split; [|split].
  - run_by ltac:(eapply step_session). run_by ltac:(eapply step_won). run_by ltac:(eapply step_tick).
    eapply rtc_l; [eapply (step_watch _ _ _ (ErrMsg "watch is closed")); [reflexivity|constructor]|].
    run_by ltac:(eapply step_return). run_by ltac:(eapply step_resigned). apply rtc_refl.
  - reflexivity.
  - reflexivity.
Qed.

(** The shutdown job of sabakan-state-setter is scheduled for ever: it can run after the
    leadership was given up. *)
Lemma shutdown_job_outlasts `{Cron} {W} (pass job : M W unit) (w w' : W) sched x :
  sched ≠ "" → ParseStandard sched = Ok x → job w = (w', Ok tt) → ∃ s,
  StateSetter_Run sched pass job w s ∧ rs_events s = [Won; GaveUp; JobRan].
Proof.
  intros Hs Hp Hj. assert (schedule_job (SabakanStateSetter sched) = Ok true) as Hc.
  { simpl. rewrite bool_decide_eq_false_2 by done. by rewrite Hp. }
  eexists. split.
  - run_by ltac:(eapply step_session). eapply rtc_l; [eapply step_won; [reflexivity|exact Hc]|].
    eapply rtc_l; [apply step_cancel|]. run_by ltac:(eapply step_ticker_ctx).
    eapply rtc_l; [eapply (step_watch _ _ _ ErrCanceled); [reflexivity|by constructor]|].
    run_by ltac:(eapply step_return). run_by ltac:(eapply step_resigned).
    eapply rtc_l; [eapply step_job; [reflexivity|exact Hj]|]. apply rtc_refl.
  - reflexivity.
Qed.

(** ** Who leads ([storage/neco-rebooter.go]) *)
Class LeaderQuery (W : Type) := {
  session_New : M W unit;
  session_IsDone : M W bool;
  session_Close : M W unit;
  (* the values of the leader's key: [e.Leader] fails when there is none *)
  election_Leader : string → M W (list string);
}.
Section query.
Context {W : Type} `{Etcd W} `{LeaderQuery W} `{Console W}.
Definition GetNecoRebooterLeader : M W string :=
  _ ← session_New;
  Host.deferred
    (kvs ← election_Leader KeyNecoRebooterLeader;
     match kvs with [] => fail (ErrMsg "no leader") | v :: _ => mret v end)
    (gone ← session_IsDone; if (gone : bool) then mret () else session_Close).
Definition rebooterLeaderCmd : M W unit := leader ← GetNecoRebooterLeader; Println leader.

(** ** [metrics.go] *)
Record Metric := { mt_Desc : string; mt_Value : Z; mt_Labels : list string }.
Definition gauge (desc : string) (value : Z) (labels : list string) : Metric :=
  {| mt_Desc := desc; mt_Value := value; mt_Labels := labels |}.
(** What is sent to the channel; an error is logged and nothing is sent. *)
Definition sent (m : M W (list Metric)) : M W (list Metric) :=
  r ← attempt m; mret (match r with inr ms => ms | inl _ => [] end).
Definition updateLeader (hostname : string) : M W (list Metric) := sent
  (leaderHostName ← GetNecoRebooterLeader;
   mret [gauge "neco_rebooter_leader" (if bool_decide (leaderHostName = hostname) then 1 else 0) []]).
Definition updateRebootListItems : M W (list Metric) := sent
  (entries ← GetRebootListEntries;
   mret [gauge "neco_rebooter_reboot_list_items" (Z.of_nat (length entries)) []]).
Definition updateIsEnabled : M W (list Metric) := sent
  (enabled ← IsNecoRebooterEnabled; mret [gauge "neco_rebooter_enabled" (if (enabled : bool) then 1 else 0) []]).
Definition updateProcessingGroup : M W (list Metric) := sent
  (group ← GetProcessingGroup;
   entries ← GetRebootListEntries;
   mret (match entries with [] => [] | _ => [gauge "neco_rebooter_processing_group" 1 [group]] end)).
Definition updateRebootListStatus : M W (list Metric) := sent
  (entries ← GetRebootListEntries;
   mret (map (λ e, gauge "neco_rebooter_reboot_list_status" 1
                     [rl_Node e; rl_RebootTime e; rl_Group e; rl_Status e]) entries)).
Definition Collect (hostname : string) : M W (list Metric) :=
  m1 ← updateLeader hostname;
  m2 ← updateRebootListItems;
  m3 ← updateIsEnabled;
  m4 ← updateProcessingGroup;
  m5 ← updateRebootListStatus;
  mret (m1 ++ m2 ++ m3 ++ m4 ++ m5).

(** ** [rebooter_list.go] *)

(** [text/tabwriter] with padding 1: the width of a column of cells that a tab ends. *)
Definition column (cells : list string) : nat := S (foldr Nat.max 0%nat (map String.length cells)).
Definition spaces (n : nat) : string := String.concat "" (repeat " " n).
Definition padded (width : nat) (cell : string) : string := cell +:+ spaces (width - String.length cell).
Definition list_header : list string := ["Index"; "Node"; "Group"; "RebootTime"].
Definition list_cells (e : RebootListEntry) : list string :=
  [Itoa (rl_Index e); rl_Node e; rl_Group e; rl_RebootTime e].
(** The last column of the entries ends in a tab, that of the header does not. *)
Definition list_text (entries : list RebootListEntry) : string :=
  let widths := map (λ j, column (map (λ row, nth j row "") (list_header :: map list_cells entries))) (seq 0 4) in
  let last := column (map rl_Status entries) in
  let row cells := String.concat "" (zip_with padded widths cells) in
  row list_header +:+ "Status" +:+ newline +:+
  String.concat "" (map (λ e, row (list_cells e) +:+ padded last (rl_Status e) +:+ newline) entries).
(** [json] is the encoder's text, which indents. *)
Definition rebooterListCmd (json : list RebootListEntry → outcome string) (output : string) : M W unit :=
  entries ← GetRebootListEntries;
  if bool_decide (output = "simple") then stdout_Print (list_text entries)
  else text ← lift (json entries); stdout_Print text.
End query.

Example list_text_ex :
  list_text [{| rl_Index := 12; rl_Node := "10.69.0.4"; rl_Group := "rack0"; rl_RebootTime := "cs"; rl_Status := "pending" |}]
  = "Index Node      Group RebootTime Status" +:+ newline +:+
    "12    10.69.0.4 rack0 cs         pending " +:+ newline.
Proof. reflexivity. Qed.

(** A state setter that makes a pass, loses its session and goes. *)
#[local] Instance any_cron : Cron := {
  Schedule := unit; Location := unit; ParseStandard _ := Ok tt; LoadLocation _ := Ok tt; Next _ _ t := t + Minute;
}.
Definition no_work : M nat unit := λ n, (S n, Ok tt).
Lemma leadership_outlasts_passes_witness : ∃ s,
  rs_events s = [Won; PassBegan; PassEnded; GaveUp] ∧ rs_world s = 1%nat ∧
  guarded (.= PassBegan) (λ es, Won ∈ es) (rs_events s) ∧ sealed (rs_events s).
Proof.
  eexists. split; [|split; [|apply (leadership_outlasts_passes "" no_work no_work 0%nat)]].
  3:{ run_by ltac:(eapply step_session). run_by ltac:(eapply step_won). run_by ltac:(eapply step_tick).
      run_by ltac:(eapply step_passed). eapply rtc_l; [apply step_expire|].
      eapply rtc_l; [eapply (step_watch _ _ _ (ErrMsg "session is closed")); [reflexivity|by constructor]|].
      run_by ltac:(eapply step_ticker_ctx). run_by ltac:(eapply step_return). run_by ltac:(eapply step_no_resign).
      apply rtc_refl. }
  - reflexivity.
  - reflexivity.
Defined.
