(* ===== verification/NecoPower.v ===== *)
(** * The neco command: machines and their BMCs ([pkg/neco/cmd/])

    Power control through Redfish, TPM devices, repair commands over SSH, and the check
    that a machine has come back after a reboot. *)
From S2P Require Import Prelude GoStr GoTime Json Types Etcd Worlds Storage.
From S2P Require Import Updater GoNet Host Progs Operator GoURL Ext StateSetter Upload Vault Setup NecoCmd NecoInit.

Local Open Scope Z_scope.

(** ** The outside: gofish *)
Class RedfishValues := {
  OnResetType : string;
  ForceOffResetType : string;
  ForceRestartResetType : string;
  OnPowerState : string;
  OffPowerState : string;
}.
Class Redfish (W : Type) := {
  RfClient : Type;
  RfSystem : Type;
  RfBios : Type;
  RfResponse : Type;
  (* endpoint, user name, password *)
  rf_Connect : string → string → string → M W RfClient;
  rf_Logout : RfClient → M W unit;
  rf_Systems : RfClient → M W (list RfSystem);
  rf_PowerState : RfSystem → string;
  rf_TrustedModules : RfSystem → json;
  rf_Reset : RfSystem → string → M W unit;
  (* the nil pointer is [None] *)
  rf_Bios : RfSystem → M W (option RfBios);
  rf_Attributes : RfBios → list (string * json);
  rf_UpdateBiosAttributes : RfBios → list (string * json) → M W unit;
  rf_Post : RfClient → string → list (string * string) → M W (option RfResponse * option error);
  rf_LocationPath : RfResponse → outcome string;
}.

(** [strings.Contains] *)
Fixpoint Contains (s sub : string) : bool :=
  HasPrefix s sub || match s with EmptyString => false | String _ s => Contains s sub end.

Section power.
Context `{ExitErrors} `{RedfishValues} {W : Type} `{Etcd W} `{Files W} `{Commands W} `{Clock W}
  `{SabaClient W} `{EtcdUtil W} `{EtcdAdmin W} `{Console W} `{Redfish W}.

(** ** [power.go] *)
Definition lookup_params (id : string) : list (string * string) :=
  let ip := ParseIP id in
  if bool_decide (ip = []) then [("serial", id)]
  else if bool_decide (To4 ip = []) then [("ipv6", id)]
  else [("ipv4", id)].
Definition lookupMachine (id : string) : M W Machine :=
  _ ← saba_NewClient SabakanLocalEndpoint;
  machines ← saba_MachinesGet (lookup_params id);
  match machines with
  | [m] => mret m
  | _ => fail (ErrMsg "machine is not found in sabakan")
  end.

Definition getBMCUsernameAndPassword : M W (string * string) :=
  _ ← EtcdClient;
  deferred
    (username ← GetBMCIPMIUser;
     password ← GetBMCIPMIPassword;
     mret (username, password))
    etcd_ClientClose.
Definition getRedfishClient (bmcAddr : string) : M W RfClient :=
  '(username, password) ← getBMCUsernameAndPassword;
  rf_Connect ("https://" +:+ bmcAddr) username password.
Definition getComputerSystem (client : RfClient) : M W RfSystem :=
  systems ← rf_Systems client;
  match systems with
  | [s] => mret s
  | _ => fail (ErrMsg ("computer Systems length should be 1, actual: " +:+ Itoa (Z.of_nat (length systems))))
  end.

(** A ping that succeeds gives a nil error, which is no exit error either. *)
Fixpoint waitForStop (fuel : nat) (nodeAddr : string) : M W unit :=
  match fuel with
  | O => blocked
  | S fuel =>
      r ← attempt (cmd_Run ["ping"; "-c1"; "-w1"; nodeAddr]);
      match r with
      | inr _ => mret ()
      | inl err =>
          match ExitCode err with
          | None => fail err
          | Some code => if negb (code =? 0) then mret () else _ ← Sleep (500 * 1000000); waitForStop fuel nodeAddr
          end
      end
  end.

Definition reset_type (action : string) : option string :=
  if bool_decide (action = "start") then Some OnResetType
  else if bool_decide (action = "stop") then Some ForceOffResetType
  else if bool_decide (action = "restart") then Some ForceRestartResetType
  else None.
Definition power (action bmcAddr : string) : M W unit :=
  client ← getRedfishClient bmcAddr;
  deferred
    (system ← getComputerSystem client;
     match reset_type action with
     | Some resetType => _ ← rf_Reset system resetType; Println "ok"
     | None =>
         if bool_decide (action = "status") then Println (rf_PowerState system)
         else fail (ErrMsg ("invalid action: " +:+ action))
     end)
    (rf_Logout client).

Definition first_ip (m : Machine) : outcome string :=
  match mc_IPv4 m with ip :: _ => Ok ip | [] => Panic "index out of range" end.
Definition powerCmd (fuel : nat) (waitForStopFlag : bool) (action id : string) : M W unit :=
  if negb (bool_decide (action = "stop")) && negb (bool_decide (action = "restart")) && waitForStopFlag
  then fail (ErrMsg ("invalid flag for " +:+ action +:+ " action: --wait-for-stop"))
  else
    machine ← lookupMachine id;
    _ ← power action (bmc_IPv4 (mc_BMC machine));
    if waitForStopFlag then addr ← lift (first_ip machine); waitForStop fuel addr else mret ().

(** ** [tpm_clear.go] *)
Definition machineTypeLabelName := "machine-type".
Inductive TpmClearLogic := tpmClearLogicTypePowerOff | tpmClearLogicTypeDellRedfish.
Definition supportedMachineTypes : gmap string TpmClearLogic := list_to_map
  [("qemu", tpmClearLogicTypePowerOff); ("r6525-boot-1", tpmClearLogicTypeDellRedfish);
   ("r6525-cs-1", tpmClearLogicTypeDellRedfish); ("r6525-cs-2", tpmClearLogicTypeDellRedfish);
   ("r7525-ss-1", tpmClearLogicTypeDellRedfish); ("r7525-ss-2", tpmClearLogicTypeDellRedfish);
   ("r6615-cs-1", tpmClearLogicTypeDellRedfish); ("r7615-ss-1", tpmClearLogicTypeDellRedfish);
   ("r7615-ss-2", tpmClearLogicTypeDellRedfish)].
Definition dellRedfishJobURI := "/redfish/v1/Managers/iDRAC.Embedded.1/Jobs".
Definition dellRedfishBiosSettingsURI := "/redfish/v1/Systems/System.Embedded.1/Bios/Settings".

Definition dellRedfishSetTpmAttribute (client : RfClient) : M W unit :=
  system ← getComputerSystem client;
  bios ← rf_Bios system;
  match bios with
  | None => panic "nil pointer dereference"
  | Some bios => rf_UpdateBiosAttributes bios [("Tpm2Hierarchy", JStr "Clear")]
  end.
Definition dellRedfishCreateBiosSettingsJob (client : RfClient) : M W string :=
  '(resp, err) ← rf_Post client dellRedfishJobURI [("TargetSettingsURI", dellRedfishBiosSettingsURI)];
  match err with
  | Some e =>
      if negb (Contains (error_text e) "SYS011") then fail e
      else
        match resp with
        | None => panic "nil pointer dereference"
        | Some resp => path ← lift (rf_LocationPath resp); mret (default "" (last (Split "/" path)))
        end
  | None =>
      match resp with
      | None => panic "nil pointer dereference"
      | Some resp => path ← lift (rf_LocationPath resp); mret (default "" (last (Split "/" path)))
      end
  end.
Definition startOrRestart (client : RfClient) : M W unit :=
  system ← getComputerSystem client;
  let state := rf_PowerState system in
  if bool_decide (state = OnPowerState) then rf_Reset system ForceRestartResetType
  else if bool_decide (state = OffPowerState) then rf_Reset system OnResetType
  else fail (ErrMsg ("unsupported power state: " +:+ state)).
Definition dellRedfishClearTpm (bmcAddr : string) : M W unit :=
  client ← wrapping "failed to get redfish client" (getRedfishClient bmcAddr);
  deferred
    (_ ← wrapping "failed to set bios attribute" (dellRedfishSetTpmAttribute client);
     _ ← wrapping "failed to create bios setting job" (dellRedfishCreateBiosSettingsJob client);
     wrapping "failed to reset" (startOrRestart client))
    (rf_Logout client).

Definition tpmClearCmd `{MachineStates} (tpmClearForce : bool) (id : string) : M W unit :=
  if negb tpmClearForce then fail (ErrMsg "use --force explicitly")
  else
    machine ← lookupMachine id;
    if negb (bool_decide (mc_State machine = StateRetiring)) then fail (ErrMsg "machine is not retiring")
    else
      let machineType := default "" (mc_Labels machine !! machineTypeLabelName) in
      match supportedMachineTypes !! machineType with
      | None =>
          _ ← ignore_error (power "stop" (bmc_IPv4 (mc_BMC machine)));
          fail (ErrMsg "unknown machine type")
      | Some tpmClearLogicTypePowerOff => power "stop" (bmc_IPv4 (mc_BMC machine))
      | Some tpmClearLogicTypeDellRedfish => dellRedfishClearTpm (bmc_IPv4 (mc_BMC machine))
      end.

(** ** [tpm_show.go] *)
Record tpmSettings := { tpm_Devices : json; tpm_Attributes : list (string * json) }.
Definition getTpmSettings (client : RfClient) : M W tpmSettings :=
  system ← getComputerSystem client;
  r ← attempt (rf_Bios system);
  match r with
  | inl e =>
      if negb (Contains (error_text e) "404") then fail e
      else mret {| tpm_Devices := rf_TrustedModules system; tpm_Attributes := [] |}
  | inr bios =>
      let attrs := match bios with Some b => rf_Attributes b | None => [] end in
      mret {| tpm_Devices := rf_TrustedModules system;
              tpm_Attributes := List.filter (λ p : string * json, HasPrefix (fst p) "Tpm") attrs |}
  end.
(** [text] is the encoder's, which indents. *)
Definition tpmShowCmd (text : tpmSettings → outcome string) (id : string) : M W unit :=
  machine ← lookupMachine id;
  client ← getRedfishClient (bmc_IPv4 (mc_BMC machine));
  deferred
    (tpm ← getTpmSettings client;
     out ← lift (text tpm);
     stdout_Print out)
    (rf_Logout client).
End power.

(** ** Repairs ([bmc_repair*.go]) *)
Class SSH (W : Type) := {
  SSHClient : Type;
  (* user, password, address *)
  ssh_Dial : string → string → string → M W SSHClient;
  ssh_Close : SSHClient → M W unit;
  SSHSession : Type;
  ssh_NewSession : SSHClient → M W SSHSession;
  session_Output : SSHSession → string → M W string;
  session_Close : SSHSession → M W unit;
}.
(** The expression [(?s).*\[Key=(.* )#MiscSettings\].*]: both stars before the brackets
    are greedy, so the first group ends at the last possible [#MiscSettings]] and starts
    at the last possible [[Key=] before it. *)
Fixpoint last_match (sub s : string) (i : nat) : option nat :=
  match s with
  | EmptyString => if HasPrefix s sub then Some i else None
  | String _ t =>
      match last_match sub t (S i) with
      | Some j => Some j
      | None => if HasPrefix s sub then Some i else None
      end
  end.
(** The last [[Key=] that has a [#MiscSettings]] behind it, and the last of those. *)
Fixpoint find_key (s : string) : option string :=
  match s with
  | EmptyString => None
  | String _ t =>
      match find_key t with
      | Some fqdd => Some fqdd
      | None =>
          if HasPrefix s "[Key=" then
            let after := str_drop 5 s in
            match last_match "#MiscSettings]" after 0 with
            | Some j => Some (str_take j after)
            | None => None
            end
          else None
      end
  end.
Section repair.
Context `{ExitErrors} {W : Type} `{Etcd W} `{Files W} `{SabaClient W} `{EtcdUtil W} `{EtcdAdmin W} `{SSH W}.

Definition getBMCWithType (id bmcType : string) : M W MachineBMC :=
  r ← attempt (lookupMachine id);
  match r with
  | inl e => fail (ErrMsg ("failed to lookup serial or IP address " +:+ id +:+ ": " +:+ error_text e))
  | inr machine =>
      if negb (bool_decide (bmc_Type (mc_BMC machine) = bmcType))
      then fail (ErrMsg ("not a machine with " +:+ bmcType +:+ "-type BMC: " +:+ id))
      else mret (mc_BMC machine)
  end.
Definition bmc_address (bmc : MachineBMC) : option string :=
  if negb (bool_decide (bmc_IPv6 bmc = "")) then Some (bmc_IPv6 bmc)
  else if negb (bool_decide (bmc_IPv4 bmc = "")) then Some (bmc_IPv4 bmc)
  else None.
Definition dialToBMCByRepairUser (bmc : MachineBMC) : M W SSHClient :=
  match bmc_address bmc with
  | None => fail (ErrMsg "BMC IP address not set")
  | Some address =>
      _ ← EtcdClient;
      deferred
        (user ← GetBMCRepairUser;
         password ← GetBMCRepairPassword;
         ssh_Dial user password (address +:+ ":22"))
        etcd_ClientClose
  end.
Definition sshSessionOutput (client : SSHClient) (cmd : string) : M W string :=
  session ← ssh_NewSession client;
  deferred (session_Output session cmd) (session_Close session).

Definition bmcRepairDellResetIdracCmd (id : string) : M W unit :=
  bmc ← getBMCWithType id "iDRAC";
  client ← dialToBMCByRepairUser bmc;
  deferred (_ ← sshSessionOutput client "racadm racreset soft"; mret ()) (ssh_Close client).
Definition bmcRepairDellDischargeCmd (id : string) : M W unit :=
  bmc ← getBMCWithType id "iDRAC";
  client ← dialToBMCByRepairUser bmc;
  deferred
    (output ← sshSessionOutput client "racadm set BIOS.MiscSettings.PowerCycleRequest FullPowerCycle";
     match find_key output with
     | None => fail (ErrMsg "FQDD of BIOS setup not found")
     | Some fqdd =>
         _ ← sshSessionOutput client ("racadm jobqueue create " +:+ fqdd);
         _ ← sshSessionOutput client "racadm serveraction powercycle";
         mret ()
     end)
    (ssh_Close client).
End repair.
