(* ===== verification/NecoReboot.v ===== *)
(** * The neco command: reboots ([pkg/neco/cmd/])

    [reboot-check] and [reboot-and-wait], the sub-commands of [neco rebooter] that edit
    the reboot list, [reboot-worker], [apply-firmware] and [isoreboot]. *)
From S2P Require Import Prelude GoStr GoTime Json Types Etcd Worlds Storage.
From S2P Require Import Updater GoNet Host Progs Operator Ext StateSetter Rebooter Upload CKEUpload Vault Setup.
From S2P Require Import NecoCmd NecoInit NecoPower.

Local Open Scope Z_scope.

(** ** [reboot_check.go] *)
Definition serfTagUptime := "uptime".

Record serfMember := {
  sf_Name : string;
  sf_Addr : string;
  sf_Port : Z;
  sf_Tags : gmap string string;
  sf_Status : string;
  sf_Proto : gmap string Z;
}.
Definition zero_member : serfMember :=
  {| sf_Name := ""; sf_Addr := ""; sf_Port := 0; sf_Tags := ∅; sf_Status := ""; sf_Proto := ∅ |}.

(** Decoding: numbers of a width, maps, slices. *)
Definition decode_uint (bits : Z) (old : Z) (j : json) : outcome Z :=
  n ← decode_int old j; if (0 <=? n) && (n <? 2 ^ bits) then Ok n else type_error.
Definition decode_map {A} (decode : json → outcome A) (old : gmap string A) (j : json) : outcome (gmap string A) :=
  match j with
  | JObj l => foldl (λ acc fx, m ← acc; a ← decode (snd fx); Ok (<[fst fx := a]> m)) (Ok old) l
  | JNull => Ok ∅
  | _ => type_error
  end.
Fixpoint decode_list {A} (decode : json → outcome A) (l : list json) : outcome (list A) :=
  match l with
  | [] => Ok []
  | j :: l => a ← decode j; r ← decode_list decode l; Ok (a :: r)
  end.
Definition set_member_field (f : string) (j : json) (m : serfMember) : outcome serfMember :=
  let build name addr port tags status proto := Ok
    {| sf_Name := name; sf_Addr := addr; sf_Port := port; sf_Tags := tags; sf_Status := status; sf_Proto := proto |} in
  if field_named "name" f then
    v ← decode_string (sf_Name m) j; build v (sf_Addr m) (sf_Port m) (sf_Tags m) (sf_Status m) (sf_Proto m)
  else if field_named "addr" f then
    v ← decode_string (sf_Addr m) j; build (sf_Name m) v (sf_Port m) (sf_Tags m) (sf_Status m) (sf_Proto m)
  else if field_named "port" f then
    v ← decode_uint 16 (sf_Port m) j; build (sf_Name m) (sf_Addr m) v (sf_Tags m) (sf_Status m) (sf_Proto m)
  else if field_named "tags" f then
    v ← decode_map (decode_string "") (sf_Tags m) j; build (sf_Name m) (sf_Addr m) (sf_Port m) v (sf_Status m) (sf_Proto m)
  else if field_named "status" f then
    v ← decode_string (sf_Status m) j; build (sf_Name m) (sf_Addr m) (sf_Port m) (sf_Tags m) v (sf_Proto m)
  else if field_named "protocol" f then
    v ← decode_map (decode_uint 8 0) (sf_Proto m) j; build (sf_Name m) (sf_Addr m) (sf_Port m) (sf_Tags m) (sf_Status m) v
  else Ok m.
Definition decode_member : json → outcome serfMember := decode_struct set_member_field zero_member.
Definition decode_members (j : json) : outcome (list serfMember) :=
  decode_struct (λ f j members,
    if field_named "members" f then
      match j with JArr l => decode_list decode_member l | JNull => Ok [] | _ => type_error end
    else Ok members) [] j.
Definition Unmarshal_members (s : string) : outcome (list serfMember) :=
  match parse s with Some j => decode_members j | None => Err (ErrMsg "invalid JSON") end.

(** [time.Parse("2006-01-02 15:04:05", s)]: the hour may have one digit, and a fraction
    of a second may follow. *)
Definition take_hour (s : string) : option (Z * string) :=
  match take_digits 2 s 0 with Some r => Some r | None => take_digits 1 s 0 end.
Definition take_subsecond (s : string) : Z * string :=
  match s with
  | String c (String d t) =>
      if (bool_decide (c = "."%char) || bool_decide (c = ","%char)) && bool_decide (is_Some (char_digit d))
      then take_frac 9 (String d t) 0 else (0, s)
  | _ => (0, s)
  end.
Definition parse_uptime (s : string) : option Time :=
  '(y, s) ← take_digits 4 s 0; s ← take_char "-" s;
  '(m, s) ← take_digits 2 s 0; s ← take_char "-" s;
  '(d, s) ← take_digits 2 s 0; s ← take_char " " s;
  '(hh, s) ← take_hour s; s ← take_char ":" s;
  '(mm, s) ← take_digits 2 s 0; s ← take_char ":" s;
  '(ss, s) ← take_digits 2 s 0;
  let '(ns, s) := take_subsecond s in
  if (1 <=? m) && (m <=? 12) && (1 <=? d) && (d <=? daysIn m y)
     && (hh <=? 23) && (mm <=? 59) && (ss <=? 59) && bool_decide (s = "") then
    Some ((days_of_civil y m d * 86400 + hh * 3600 + mm * 60 + ss) * Second + ns)
  else None.
Definition uptime_of (tag : string) : outcome Time :=
  match parse_uptime tag with Some t => Ok t | None => Err (ErrMsg ("parsing time " +:+ tag)) end.

Section check.
Context `{MachineStates} {W : Type} `{Files W} `{Commands W} `{Clock W} `{SabaClient W} `{Console W}.

Definition getSerfMemberBySerial (serial : string) : M W (option serfMember) :=
  output ← checked_Output ["serf"; "members"; "-format"; "json"; "-tag"; "serial=" +:+ serial];
  members ← lift (Unmarshal_members output);
  mret (head members).
(** The tag, if there is a member that has one. *)
Definition uptime_tag (member : option serfMember) : string :=
  match member with Some m => default "" (sf_Tags m !! serfTagUptime) | None => "" end.

(** The two loops of [rebootCheck]. *)
Fixpoint wait_uptime (fuel : nat) (serial : string) (timestamp : Time) (wait : bool) : M W bool :=
  match fuel with
  | O => blocked
  | S fuel =>
      member ← getSerfMemberBySerial serial;
      let tag := uptime_tag member in
      up ← (if negb (bool_decide (tag = "")) then t ← lift (uptime_of tag); mret (After t timestamp) else mret false);
      if (up : bool) then mret true
      else if negb wait then mret false
      else _ ← Sleep Second; wait_uptime fuel serial timestamp wait
  end.
Fixpoint wait_healthy (fuel : nat) (target : string) (wait : bool) : M W bool :=
  match fuel with
  | O => blocked
  | S fuel =>
      machine ← lookupMachine target;
      if bool_decide (mc_State machine = StateHealthy) then mret true
      else if negb wait then mret false
      else _ ← Sleep Second; wait_healthy fuel target wait
  end.
Definition rebootCheck (fuel : nat) (target : string) (timestamp : Time) (wait : bool) : M W bool :=
  machine ← lookupMachine target;
  up ← wait_uptime fuel (mc_Serial machine) timestamp wait;
  if negb (up : bool) then mret false else wait_healthy fuel target wait.
Definition rebootCheckMain (fuel : nat) (target timestamp : string) : M W unit :=
  unixtime ← lift (Atoi timestamp);
  rebooted ← rebootCheck fuel target (unixtime * Second) false;
  Println (if (rebooted : bool) then "true" else "false").
End check.

(** ** [reboot_and_wait.go] *)
Definition zero_time : Time := days_of_civil 1 1 1 * 86400 * Second.
Section reboot_and_wait.
Context `{ExitErrors} `{RedfishValues} `{MachineStates} {W : Type} `{Etcd W} `{Files W} `{Commands W} `{Clock W}
  `{SabaClient W} `{EtcdUtil W} `{EtcdAdmin W} `{Console W} `{Redfish W}.

Definition rebootAndWaitMain (fuel : nat) (target : string) : M W unit :=
  machine ← lookupMachine target;
  member ← getSerfMemberBySerial (mc_Serial machine);
  let tag := uptime_tag member in
  oldUptime ← lift (if negb (bool_decide (tag = "")) then uptime_of tag else Ok zero_time);
  _ ← power "restart" (bmc_IPv4 (mc_BMC machine));
  _ ← Sleep (60 * Second);
  _ ← rebootCheck fuel target oldUptime true;
  mret ().
(** [{"address": ...}] on the standard input. *)
Definition decode_address (s : string) : outcome string :=
  match parse s with
  | Some j => decode_struct (λ f j old, if field_named "address" f then decode_string old j else Ok old) "" j
  | None => Err (ErrMsg "invalid JSON")
  end.
Definition rebootAndWaitCmd (fuel : nat) (target : string) : M W unit :=
  target ← (if bool_decide (target = "-") then data ← stdin_ReadAll; lift (decode_address data) else mret target);
  rebootAndWaitMain fuel target.
End reboot_and_wait.

(** ** [rebooter.go] *)
Record KubeNode := { kn_Name : string; kn_Labels : gmap string string }.
(** [Config] of neco-rebooter. *)
Record Config := {
  cf_RebootTimes : list RebootTimes;
  cf_TimeZone : string;
  cf_GroupLabelKey : string;
  cf_MetricsPort : Z;
}.
Definition DefaultMetricsPort : Z := 10082.
(** sigs.k8s.io/yaml into a [Config] that holds defaults. *)
Class ConfigYaml := { config_Unmarshal : Config → string → outcome Config }.
Definition LoadConfig `{ConfigYaml} (data : string) : outcome Config :=
  config_Unmarshal {| cf_RebootTimes := []; cf_TimeZone := ""; cf_GroupLabelKey := "";
                      cf_MetricsPort := DefaultMetricsPort |} data.

(** client-go, the etcd of CKE, and a command whose output goes to a file. *)
Class Kube (W : Type) := {
  kube_BuildConfigFromFlags : string → M W unit;
  kube_NewForConfig : M W unit;
  kube_ListNodes : M W (list KubeNode);
  cmd_RunTo : list string → string → M W unit;
  cke_NewStorage : string → M W unit;
  cke_IsRebootQueueDisabled : M W bool;
}.
(** netlink *)
Class Iface (W : Type) := { link_ByName : string → M W unit; link_AddrsV4 : string → M W (list IP) }.
Definition mode_666 : Z := 438.

Fixpoint matchRebootTimes (node : KubeNode) (rebootTimes : list RebootTimes) : outcome RebootTimes :=
  match rebootTimes with
  | [] => Err (ErrMsg ("node: " +:+ kn_Name node +:+ " does not match any reboot time"))
  | rt :: rebootTimes =>
      if forallb (λ kv : string * string, bool_decide (default "" (kn_Labels node !! fst kv) = snd kv))
           (map_to_list (rt_MatchLabels rt))
      then Ok rt else matchRebootTimes node rebootTimes
  end.

Section rebooter.
Context `{ExitErrors} `{RedfishValues} `{ConfigYaml} {W : Type} `{Etcd W} `{Files W} `{Commands W} `{Clock W}
  `{SabaClient W} `{EtcdUtil W} `{EtcdAdmin W} `{Console W} `{Redfish W} `{Kube W}.
Variables flagCKEConfig flagConfigFile flagKubeconfig : string.

Definition renewKubeConfig : M W unit :=
  _ ← os_OpenTrunc flagKubeconfig mode_666;
  deferred (cmd_RunTo [CKECLIBin; "kubernetes"; "issue"] flagKubeconfig) (file_Close flagKubeconfig).
Definition loadKubeConfig : M W unit :=
  _ ← kube_BuildConfigFromFlags flagKubeconfig; kube_NewForConfig.

(** The loop over [RETRY]; [n] renewals are left. *)
Fixpoint load_retry (n : nat) : M W unit :=
  r ← attempt loadKubeConfig;
  match r, n with
  | inr _, _ => mret ()
  | inl e, O => fail e
  | inl _, S n => _ ← renewKubeConfig; load_retry n
  end.
Definition rebooter_PersistentPreRunE : M W Config :=
  data ← os_ReadFile flagConfigFile;
  config ← lift (LoadConfig data);
  ckeConf ← os_ReadFile flagCKEConfig;
  _ ← cke_NewStorage ckeConf;
  _ ← EtcdClient;
  _ ← load_retry 3;
  mret config.
Fixpoint list_nodes (n : nat) : M W (list KubeNode) :=
  r ← attempt kube_ListNodes;
  match r, n with
  | inr nodes, _ => mret nodes
  | inl e, O => fail e
  | inl _, S n => _ ← renewKubeConfig; _ ← loadKubeConfig; list_nodes n
  end.

(** The global [config], which only the sub-commands of [neco rebooter] set. *)
Definition config_of (config : option Config) : outcome Config :=
  match config with Some c => Ok c | None => Panic "nil pointer dereference" end.

Definition pending_entry (node group : string) (rt : RebootTimes) : RebootListEntry :=
  {| rl_Index := 0; rl_Node := node; rl_Group := group; rl_RebootTime := rt_Name rt;
     rl_Status := RebootListEntryStatusPending |}.
(** One node into the reboot list. *)
Definition add_node (fuel : nat) (flagDryRun : bool) (config : option Config) (node : KubeNode) : M W unit :=
  c ← lift (config_of config);
  match kn_Labels node !! cf_GroupLabelKey c with
  | None => fail (ErrMsg ("node has no groupKey label (" +:+ cf_GroupLabelKey c +:+ ")"))
  | Some group =>
      match matchRebootTimes node (cf_RebootTimes c) with
      | Err e => Println (error_text e)
      | Ok rt =>
          _ ← stdout_Print ("adding a node to reboot list node=" +:+ kn_Name node +:+ "  group=" +:+ group +:+
                            " reboot_time=" +:+ rt_Name rt +:+ NecoCmd.newline);
          if negb flagDryRun then _ ← RegisterRebootListEntry fuel (pending_entry (kn_Name node) group rt); mret ()
          else mret ()
      | Panic why => panic why
      | Running => blocked
      end
  end.

(** ** [rebooter_add.go] *)
Fixpoint validateNode (node : string) (nodes : list KubeNode) : outcome KubeNode :=
  match nodes with
  | [] => Err (ErrMsg (node +:+ " is not a valid node IP address"))
  | n :: nodes => if bool_decide (kn_Name n = node) then Ok n else validateNode node nodes
  end.
Definition rebooterAddCmd (fuel : nat) (flagDryRun : bool) (config : option Config) (file : string) : M W unit :=
  data ← (if bool_decide (file = "-") then stdin_ReadAll else os_ReadFile file);
  kubernetesNodes ← list_nodes 3;
  for_each (Fields data) (λ node,
    kubeNode ← lift (validateNode node kubernetesNodes);
    add_node fuel flagDryRun config kubeNode).

(** ** [rebooter_cancel.go], [rebooter_cancel_all.go], [rebooter_enable.go] and the like *)
Definition cancelled (e : RebootListEntry) : RebootListEntry :=
  {| rl_Index := rl_Index e; rl_Node := rl_Node e; rl_Group := rl_Group e; rl_RebootTime := rl_RebootTime e;
     rl_Status := RebootListEntryStatusCancelled |}.
Definition rebooterCancelCmd (fuel : nat) (index : string) : M W unit :=
  index ← lift (ParseInt index);
  entry ← GetRebootListEntry index;
  UpdateRebootListEntry fuel (cancelled entry).
Definition rebooterCancelAllCmd (fuel : nat) : M W unit :=
  entries ← GetRebootListEntries;
  for_each entries (λ entry,
    r ← attempt (UpdateRebootListEntry fuel (cancelled entry));
    match r with
    | inr _ => mret ()
    | inl err =>
        _ ← stdout_Print ("failed to cancel the enty. index:" +:+ Itoa (rl_Index entry) +:+ ", node:" +:+
                          rl_Node entry +:+ NecoCmd.newline);
        fail err
    end).
Definition rebooterDisableCmd : M W unit := EnableNecoRebooter false.
Definition rebooterEnableCmd : M W unit := EnableNecoRebooter true.
Definition rebooterIsEnabledCmd : M W unit :=
  enabled ← IsNecoRebooterEnabled; Println (if (enabled : bool) then "true" else "false").
Definition rebooterShowProcessingGroupCmd : M W unit := pg ← GetProcessingGroup; Println pg.

(** ** [rebooter_reboot_woker.go] *)
Definition rebootNode (bmcAddr : string) : M W unit :=
  client ← wrapping "failed to get redfish client" (getRedfishClient bmcAddr);
  deferred
    (system ← wrapping "failed to get system instance" (getComputerSystem client);
     if bool_decide (rf_PowerState system = OffPowerState) then Println "skip: already powered OFF"
     else _ ← wrapping "failed to reset" (rf_Reset system ForceRestartResetType); Println "ok")
    (rf_Logout client).

(** [kubernetesNodeAddrs]: the last node of a name. *)
Definition node_map (nodes : list KubeNode) : gmap string KubeNode :=
  foldl (λ m n, <[kn_Name n := n]> m) ∅ nodes.
(** The machines that are nodes, as nodes, and the others. *)
Fixpoint split_machines (nodes : gmap string KubeNode) (machines : list Machine) : list KubeNode * list Machine :=
  match machines with
  | [] => ([], [])
  | m :: machines =>
      let '(kube, others) := split_machines nodes machines in
      match mc_IPv4 m with
      | [] => (kube, others)
      | ip :: _ =>
          match nodes !! ip with
          | Some node => (node :: kube, others)
          | None => (kube, m :: others)
          end
      end
  end.
(** The serials of the machines that could not be restarted. *)
Fixpoint restart_machines (flagDryRun : bool) (machines : list Machine) : M W (list string) :=
  match machines with
  | [] => mret []
  | m :: machines =>
      let addr := bmc_IPv4 (mc_BMC m) in
      if bool_decide (mc_Role m = "boot") || bool_decide (mc_IPv4 m = []) || bool_decide (addr = "") || flagDryRun
      then restart_machines flagDryRun machines
      else
        r ← attempt (rebootNode addr);
        errors ← restart_machines flagDryRun machines;
        mret (match r with inl _ => mc_Serial m :: errors | inr _ => errors end)
  end.
Definition rebootMachines (fuel : nat) (flagDryRun : bool) (config : option Config) (machines : list Machine) : M W unit :=
  nodes ← list_nodes 3;
  let '(kube, others) := split_machines (node_map nodes) machines in
  _ ← for_each kube (add_node fuel flagDryRun config);
  errorNodes ← restart_machines flagDryRun others;
  match errorNodes with
  | [] => mret ()
  | _ => fail (ErrMsg ("failed to reboot on some nodes: " +:+ String.concat "," errorNodes))
  end.

Definition askYorN (query : string) : M W bool :=
  ans ← ui_Ask (query +:+ " [y/N]"); mret (bool_decide (ans ∈ ["y"; "Y"; "yes"; "YES"])).
Definition sabakanMachinesGet (opts : gmap string string) : M W (list Machine) :=
  _ ← saba_NewClient SabakanLocalEndpoint; saba_MachinesGet (map_to_list opts).
Definition rebooterRebootWorkerCmd (fuel : nat) (flagDryRun : bool) (config : option Config)
    (opts : gmap string string) : M W unit :=
  _ ← Println "WARNING: this command reboots all servers other than boot servers and may cause system instability.";
  ans ← askYorN "Continue?";
  if negb (ans : bool) then mret ()
  else
    _ ← Println "WARNING: rebooting starts immediately after this question.";
    ans ← askYorN "Continue?";
    if negb (ans : bool) then mret ()
    else
      ckeDisabled ← cke_IsRebootQueueDisabled;
      _ ← (if (ckeDisabled : bool) then Println "WARNING: CKE reboot queue is disabled." else mret ());
      machines ← sabakanMachinesGet opts;
      rebootMachines fuel flagDryRun config machines.

(** ** [apply-firmware.go], [isoreboot.go]

    The commands of the machines run at once; what they add to the lists is added in the
    order of the machines here. *)
Definition getInterfaceAddress `{Iface W} (ifname : string) : M W IP :=
  _ ← link_ByName ifname;
  addrs ← link_AddrsV4 ifname;
  match addrs with ip :: _ => mret ip | [] => panic "index out of range" end.
Fixpoint upload_files (root : string) (filenames : list string) : M W (list string) :=
  match filenames with
  | [] => mret []
  | filename :: filenames =>
      let name := Base filename in
      _ ← saba_AssetsUpload name filename;
      urls ← upload_files root filenames;
      mret ((root +:+ name) :: urls)
  end.
(** The machines on which the command succeeded, and the addresses where it failed. *)
Fixpoint run_on (cmdline assetUrls : list string) (machines : list Machine) : M W (list Machine * list string) :=
  match machines with
  | [] => mret ([], [])
  | m :: machines =>
      addr ← lift (first_ip m);
      '(output, err) ← cmd_Output ([CKECLIBin; "ssh"; addr] ++ cmdline ++ assetUrls);
      _ ← match err with Some _ => stdout_Print output | None => mret () end;
      '(ok, failed) ← run_on cmdline assetUrls machines;
      mret (match err with Some _ => (ok, addr :: failed) | None => (m :: ok, failed) end)
  end.
Definition strings_text (l : list string) : string := "[" +:+ String.concat " " (Sort l) +:+ "]".
Definition run_report (total : nat) (ok failed : list string) : string :=
  NecoCmd.newline +:+ "Total:     " +:+ Itoa (Z.of_nat total) +:+ NecoCmd.newline +:+
  "Succeeded: " +:+ Itoa (Z.of_nat (length ok)) +:+ " " +:+ strings_text ok +:+ NecoCmd.newline +:+
  "Failed:    " +:+ Itoa (Z.of_nat (length failed)) +:+ " " +:+ strings_text failed +:+ NecoCmd.newline +:+ NecoCmd.newline.

Definition uploadAssetsAndRunCommandOnWorkers `{Iface W} (fuel : nat) (config : option Config) (opts : gmap string string)
    (filenames cmdline : list string) (needReboot : bool) : M W unit :=
  machines ← sabakanMachinesGet opts;
  let machines := List.filter (λ m, negb (bool_decide (mc_Role m = "boot"))) machines in
  _ ← stdout_Print ("Applying to " +:+ Itoa (Z.of_nat (length machines)) +:+ " machines." +:+ NecoCmd.newline);
  _ ← saba_NewClient SabakanLocalEndpoint;
  hostAddr ← getInterfaceAddress "node0";
  assetUrls ← upload_files ("http://" +:+ IP_String hostAddr +:+ ":10080/api/v1/assets/") filenames;
  '(ok, failed) ← run_on cmdline assetUrls machines;
  let okAddrs := concat (map (λ m, take 1 (mc_IPv4 m)) ok) in
  _ ← stdout_Print (run_report (length machines) okAddrs failed);
  if negb needReboot then mret ()
  else
    ans ← ui_Ask "reboot succeeded machines? ([y]es/[N]o)";
    if bool_decide (ans ∈ ["y"; "Y"; "yes"]) then rebootMachines fuel false config ok else mret ().
Definition applyFirmwareRun `{Iface W} (fuel : nat) (opts : gmap string string) (args : list string) (reboot : bool) : M W unit :=
  uploadAssetsAndRunCommandOnWorkers fuel None opts args
    ["docker"; "exec"; "setup-hw"; "setup-apply-firmware"] reboot.
Definition isoRebootRun `{Iface W} (fuel : nat) (opts : gmap string string) (args : list string) : M W unit :=
  uploadAssetsAndRunCommandOnWorkers fuel None opts args ["docker"; "exec"; "setup-hw"; "setup-isoreboot"] true.
End rebooter.
