(* ===== verification/NecoShutdown.v ===== *)
(** * The neco command: non-graceful shutdown of nodes ([pkg/neco/cmd/non_graceful_shutdown*.go])

    A node that does not answer is powered off and fenced off its storage, and then
    tainted, so that Kubernetes moves its volumes; [cleanup] undoes this. *)
From S2P Require Import Prelude GoStr GoTime Json Types Etcd Worlds Storage.
From S2P Require Import Updater GoNet Host Progs Operator Upload Vault Setup NecoCmd.

Local Open Scope Z_scope.

(** ** The outside: Kubernetes and csi-addons *)
Class K8sValues := {
  TaintNodeOutOfService : string;
  TaintEffectNoExecute : string;
  Fenced : string;
  Unfenced : string;
  FencingOperationResultSucceeded : string;
  UnFenceOperationSuccessfulMessage : string;
}.
Record NamespacedName := { nn_Name : string; nn_Namespace : string }.
Record Taint := { tn_Key : string; tn_Value : string; tn_Effect : string }.
(** A node: its taints, and the rest of the object. *)
Record Node := { nd_Name : string; nd_Taints : list Taint; nd_Object : json }.
Record StorageClass := { stc_Provisioner : string; stc_Parameters : gmap string string }.
Record NetworkFence := {
  nf_Name : string;
  nf_Namespace : string;
  nf_FenceState : string;
  nf_Driver : string;
  nf_Cidrs : list string;
  nf_Secret : NamespacedName;
  nf_Parameters : list (string * string);
  nf_Result : string;
  nf_Message : string;
}.
Class KubeApi (W : Type) := {
  (* a client out of the text of a kubeconfig *)
  k8s_Client : string → M W unit;
  k8s_GetNode : string → M W Node;
  k8s_UpdateNode : Node → M W unit;
  k8s_ListStorageClasses : M W (list StorageClass);
  k8s_ListCephClusters : string → M W (list NamespacedName);
  k8s_CreateFence : NetworkFence → M W unit;
  k8s_GetFence : string → M W NetworkFence;
  k8s_UpdateFence : NetworkFence → M W unit;
  k8s_DeleteFence : NetworkFence → M W unit;
  (* the nodes of the volume attachments *)
  k8s_ListVolumeAttachments : M W (list string);
  api_IsNotFound : error → bool;
  api_IsAlreadyExists : error → bool;
}.

Section shutdown.
Context `{K8sValues} {W : Type} `{Commands W} `{Clock W} `{Console W} `{KubeApi W}.

(** ** [non_graceful_shutdown.go] *)
Definition issueAndLoadKubeconfig : M W unit :=
  out ← checked_Output [CKECLIBin; "kubernetes"; "issue"]; k8s_Client out.

Definition rbd_cluster_ids (scs : list StorageClass) : list string :=
  map (λ sc, default "" (stc_Parameters sc !! "clusterID"))
    (List.filter (λ sc, HasSuffix (stc_Provisioner sc) "rbd.csi.ceph.com") scs).
Fixpoint ceph_clusters (ids : list string) : M W (list NamespacedName) :=
  match ids with
  | [] => mret []
  | id :: ids =>
      items ← k8s_ListCephClusters id;
      match items with
      | [c] => cs ← ceph_clusters ids; mret (c :: cs)
      | _ => fail (ErrMsg "cephCluster is not found or multiple cephClusters are found")
      end
  end.
Definition listRBDCephClusters : M W (list NamespacedName) :=
  scs ← k8s_ListStorageClasses; ceph_clusters (rbd_cluster_ids scs).

Definition generateFenceName (clusterName node : string) : string :=
  clusterName +:+ "-" +:+ replace_char "." "-" node.

(** ** [non_graceful_shutdown_shutdown.go] *)
Definition power_status (node : string) : M W string :=
  out ← checked_Output ["neco"; "power"; "status"; node]; mret (TrimSpace out).
Fixpoint wait_power_off (fuel : nat) (node : string) : M W unit :=
  match fuel with
  | O => blocked
  | S fuel =>
      state ← power_status node;
      if bool_decide (state = "Off") then mret () else _ ← Sleep (5 * Second); wait_power_off fuel node
  end.
Definition power_off (fuel : nat) (node : string) : M W unit :=
  state ← power_status node;
  if bool_decide (state = "On") then
    _ ← cmd_Run ["neco"; "power"; "stop"; node];
    _ ← Println ("Waiting for the node " +:+ node +:+ " to be power off");
    wait_power_off fuel node
  else mret ().

Definition new_fence (ceph : NamespacedName) (node : string) : NetworkFence :=
  {| nf_Name := generateFenceName (nn_Name ceph) node; nf_Namespace := nn_Namespace ceph; nf_FenceState := Fenced;
     nf_Driver := nn_Name ceph +:+ ".rbd.csi.ceph.com"; nf_Cidrs := [node +:+ "/32"];
     nf_Secret := {| nn_Name := "rook-csi-rbd-provisioner"; nn_Namespace := nn_Namespace ceph |};
     nf_Parameters := [("clusterID", nn_Namespace ceph)]; nf_Result := ""; nf_Message := "" |}.
Fixpoint wait_fenced (fuel : nat) (fenceName : string) : M W unit :=
  match fuel with
  | O => blocked
  | S fuel =>
      fence ← k8s_GetFence fenceName;
      if bool_decide (nf_Result fence = FencingOperationResultSucceeded) then mret ()
      else _ ← Sleep (5 * Second); wait_fenced fuel fenceName
  end.
(** The function of one goroutine; see below for the variable [err] that they share. *)
Definition fence_cluster (fuel : nat) (node : string) (ceph : NamespacedName) : M W unit :=
  let fence := new_fence ceph node in
  r ← attempt (k8s_CreateFence fence);
  _ ← match r with
      | inr _ => mret ()
      | inl err =>
          if api_IsAlreadyExists err then Println ("NetworkFence " +:+ nf_Name fence +:+ " already exists") else fail err
      end;
  _ ← Println ("Waiting for the fence operation of " +:+ nf_Name fence +:+ " to be succeeded");
  _ ← wait_fenced fuel (nf_Name fence);
  Println ("Fence operation for NetworkFence " +:+ nf_Name fence +:+ " is succeeded").

Definition is_out_of_service (t : Taint) : bool := bool_decide (tn_Key t = TaintNodeOutOfService).
Definition out_of_service : Taint :=
  {| tn_Key := TaintNodeOutOfService; tn_Value := "nodeshutdown"; tn_Effect := TaintEffectNoExecute |}.
Definition with_taints (n : Node) (ts : list Taint) : Node :=
  {| nd_Name := nd_Name n; nd_Taints := ts; nd_Object := nd_Object n |}.
Definition taint_node (node : string) : M W unit :=
  n ← k8s_GetNode node;
  if existsb is_out_of_service (nd_Taints n) then mret ()
  else k8s_UpdateNode (with_taints n (nd_Taints n ++ [out_of_service])).
Fixpoint wait_detached (fuel : nat) (node : string) : M W unit :=
  match fuel with
  | O => blocked
  | S fuel =>
      attachments ← k8s_ListVolumeAttachments;
      if negb (bool_decide (node ∈ attachments)) then mret ()
      else _ ← Sleep (5 * Second); wait_detached fuel node
  end.

Definition shutdownCmd (fuel : nat) (node : string) : M W unit :=
  _ ← issueAndLoadKubeconfig;
  r ← attempt (k8s_GetNode node);
  match r with
  | inl err =>
      if api_IsNotFound err then Println ("Node " +:+ node +:+ " is not k8s node, skipping") else fail err
  | inr _ =>
      _ ← Println ("Shutting down the node: " +:+ node);
      _ ← power_off fuel node;
      _ ← Println ("Node " +:+ node +:+ " is power off");
      cephClusters ← listRBDCephClusters;
      _ ← env_Wait (map (fence_cluster fuel node) cephClusters);
      _ ← Println "Adding taint to the node";
      _ ← taint_node node;
      _ ← Println "Waiting for the VolumeAttachment to be deleted";
      wait_detached fuel node
  end.

(** ** [non_graceful_shutdown_cleanup.go] *)
Definition unfenced (f : NetworkFence) : NetworkFence :=
  {| nf_Name := nf_Name f; nf_Namespace := nf_Namespace f; nf_FenceState := Unfenced; nf_Driver := nf_Driver f;
     nf_Cidrs := nf_Cidrs f; nf_Secret := nf_Secret f; nf_Parameters := nf_Parameters f;
     nf_Result := nf_Result f; nf_Message := nf_Message f |}.
Definition unfence_succeeded (f : NetworkFence) : bool :=
  bool_decide (nf_Result f = FencingOperationResultSucceeded) &&
  bool_decide (nf_Message f = UnFenceOperationSuccessfulMessage).
Fixpoint wait_unfenced (fuel : nat) (fenceName : string) : M W NetworkFence :=
  match fuel with
  | O => blocked
  | S fuel =>
      fence ← k8s_GetFence fenceName;
      if unfence_succeeded fence then mret fence else _ ← Sleep (5 * Second); wait_unfenced fuel fenceName
  end.
Definition unfence_cluster (fuel : nat) (node : string) (ceph : NamespacedName) : M W unit :=
  let fenceName := generateFenceName (nn_Name ceph) node in
  r ← attempt (k8s_GetFence fenceName);
  match r with
  | inl err => if api_IsNotFound err then Println "NetworkFence is already removed" else fail err
  | inr fence =>
      _ ← k8s_UpdateFence (unfenced fence);
      _ ← Println ("Waiting for Unfence operation of " +:+ nf_Name fence +:+ " to be Succeeded");
      fence ← wait_unfenced fuel fenceName;
      _ ← k8s_DeleteFence fence;
      Println ("Unfence operation for NetworkFence " +:+ nf_Name fence +:+ " is succeeded and it is removed")
  end.
(** The first taint of the key is removed. *)
Fixpoint remove_taint (ts : list Taint) : list Taint :=
  match ts with
  | [] => []
  | t :: ts => if is_out_of_service t then ts else t :: remove_taint ts
  end.
Definition cleanupCmd (fuel : nat) (node : string) : M W unit :=
  _ ← issueAndLoadKubeconfig;
  cephClusters ← listRBDCephClusters;
  _ ← env_Wait (map (unfence_cluster fuel node) cephClusters);
  r ← attempt (k8s_GetNode node);
  match r with
  | inl err =>
      if api_IsNotFound err then Println ("Node " +:+ node +:+ " is not in the cluster") else fail err
  | inr n =>
      _ ← k8s_UpdateNode (with_taints n (remove_taint (nd_Taints n)));
      Println "Removed taint from the node"
  end.
End shutdown.

(** ** The variable that the goroutines share

    [err = kubeClient.Create(...)] in the goroutines of [shutdownCmd] assigns the variable
    of the enclosing function, which is then tested: between the two, another goroutine
    may assign it.  A goroutine is at one of four places. *)
Inductive FencePc := BeforeCreate | Assigned | WentOn | Returned (e : error).
Record FenceRace := { fr_err : option error; fr_pc : list FencePc }.
Definition move (i : nat) (pc : FencePc) (s : FenceRace) : FenceRace :=
  {| fr_err := fr_err s; fr_pc := <[i := pc]> (fr_pc s) |}.
Inductive fence_step (exists_already : error → bool) (created : list (option error)) : FenceRace → FenceRace → Prop :=
  | step_assign i res s : fr_pc s !! i = Some BeforeCreate → created !! i = Some res →
      fence_step exists_already created s {| fr_err := res; fr_pc := <[i := Assigned]> (fr_pc s) |}
  | step_nil i s : fr_pc s !! i = Some Assigned → fr_err s = None →
      fence_step exists_already created s (move i WentOn s)
  | step_exists i e s : fr_pc s !! i = Some Assigned → fr_err s = Some e → exists_already e = true →
      fence_step exists_already created s (move i WentOn s)
  | step_return i e s : fr_pc s !! i = Some Assigned → fr_err s = Some e → exists_already e = false →
      fence_step exists_already created s (move i (Returned e) s).

(** Two clusters: the first goroutine goes on although its creation failed. *)
Lemma fence_error_lost exists_already e :
  exists_already e = false →
  ∃ s, rtc (fence_step exists_already [Some e; None]) {| fr_err := None; fr_pc := [BeforeCreate; BeforeCreate] |} s ∧
       fr_pc s = [WentOn; WentOn].
Proof.
  intros _. eexists. split.
  - eapply rtc_l; [apply (step_assign _ _ 0%nat (Some e)); reflexivity|].
    eapply rtc_l; [apply (step_assign _ _ 1%nat None); reflexivity|].
    eapply rtc_l; [apply (step_nil _ _ 0%nat); reflexivity|].
    eapply rtc_l; [apply (step_nil _ _ 1%nat); reflexivity|]. apply rtc_refl.
  - reflexivity.
Qed.
