(* ===== verification/Installer.v ===== *)
(** * The set-up of a boot server's operating system ([installer/setup/])

    The program that the installation medium runs once: it asks for the proxy and the
    cluster, writes the identity of the host and the configuration of its network, and
    installs packages.  The global variable [config] is an argument here; messages on the
    standard error are left out. *)
From S2P Require Import Prelude GoStr GoTime Json Types Etcd Worlds Rebooter GoNet Host Progs.
From S2P Require Import BootIP GoURL Setup NecoCmd NecoReboot.

Local Open Scope Z_scope.

(** ** The outside *)
Class InstallerEnv (W : Type) `{Netlink W} := {
  os_Args : M W (list string);
  os_Readlink : string → M W string;
  os_Mkdir : string → Z → M W unit;
  os_RemoveAll : string → M W unit;
  time_Sleep : Duration → M W unit;
  (* with the environment; the output is there also when the command fails *)
  cmd_CombinedOutput : list string → list string → M W (string * option error);
  (* [http.Client.Get] through a proxy, and the body of the response *)
  http_GetVia : string → string → M W unit;
  http_ReadBody : M W string;
  (* go-input: asks again until the answer satisfies the test *)
  ui_AskValid : string → (string → bool) → M W string;
  LinkList : M W (list Link);
  link_IsDevice : Link → bool;
  link_Name : Link → string;
  link_OperUp : Link → bool;
}.

(** ** [cluster.go] *)
Record Cluster := { ic_Name : string; ic_Bastion : string; ic_BMC : string; ic_NTPServers : list string }.

Fixpoint check_servers (servers : list string) : outcome unit :=
  match servers with
  | [] => Ok ()
  | n :: servers =>
      if bool_decide (ParseIP n = []) then Err (ErrMsg ("invalid NTP server address: " +:+ n)) else check_servers servers
  end.
Definition Validate (c : Cluster) : outcome unit :=
  if bool_decide (ic_Name c = "") then Err (ErrMsg "no name")
  else if bool_decide (ParseIP (ic_Bastion c) = []) then Err (ErrMsg ("invalid bastion network: " +:+ ic_Bastion c))
  else
    match ParseCIDR (ic_BMC c) with
    | Err e => Err (ErrWrap "invalid BMC network" e)
    | _ => if bool_decide (ic_NTPServers c = []) then Err (ErrMsg "no NTP servers") else check_servers (ic_NTPServers c)
    end.

(** [json.Unmarshal(data, &config.clusters)] *)
Definition zero_cluster : Cluster := {| ic_Name := ""; ic_Bastion := ""; ic_BMC := ""; ic_NTPServers := [] |}.
Definition set_cluster_field (f : string) (j : json) (c : Cluster) : outcome Cluster :=
  if field_named "name" f then
    v ← decode_string (ic_Name c) j;
    Ok {| ic_Name := v; ic_Bastion := ic_Bastion c; ic_BMC := ic_BMC c; ic_NTPServers := ic_NTPServers c |}
  else if field_named "bastion_network" f then
    v ← decode_string (ic_Bastion c) j;
    Ok {| ic_Name := ic_Name c; ic_Bastion := v; ic_BMC := ic_BMC c; ic_NTPServers := ic_NTPServers c |}
  else if field_named "bmc_network" f then
    v ← decode_string (ic_BMC c) j;
    Ok {| ic_Name := ic_Name c; ic_Bastion := ic_Bastion c; ic_BMC := v; ic_NTPServers := ic_NTPServers c |}
  else if field_named "ntp_servers" f then
    v ← match j with JArr l => decode_list (decode_string "") l | JNull => Ok [] | _ => type_error end;
    Ok {| ic_Name := ic_Name c; ic_Bastion := ic_Bastion c; ic_BMC := ic_BMC c; ic_NTPServers := v |}
  else Ok c.
Definition decode_clusters (j : json) : outcome (list Cluster) :=
  match j with
  | JArr l => decode_list (decode_struct set_cluster_field zero_cluster) l
  | JNull => Ok []
  | _ => type_error
  end.
Definition Unmarshal_clusters (s : string) : outcome (list Cluster) :=
  match parse s with Some j => decode_clusters j | None => Err (ErrMsg "invalid JSON") end.

(** ** Texts *)
Definition baseASN : Z := 64600.
Definition nodeMaskBits : Z := 26.

(** [templates.go], and the texts of [network.go]; the white space of the templates is
    that of their execution. *)
Definition birdConf (asn : Z) (tor1 tor2 : IP) : string :=
  "# bird configurations for boot servers
log stderr all;
protocol device {
    scan time 60;
}
protocol direct singles {
    ipv4;
    interface " +:+ dquote +:+ "node0" +:+ dquote +:+ ", " +:+ dquote +:+ "bastion" +:+ dquote +:+ ", " +:+ dquote +:+ "boot" +:+ dquote +:+ ";
}
protocol bfd {
    interface " +:+ dquote +:+ "*" +:+ dquote +:+ " {
       min rx interval 400 ms;
       min tx interval 400 ms;
    };
}
protocol kernel {
    merge paths;
    ipv4 {
        export filter {
            if source = RTS_DEVICE then reject;
            accept;
        };
    };
}

ipv4 table dummytab;
protocol static dummystatic {
    ipv4 { table dummytab; };
    route 0.0.0.0/0 via " +:+ dquote +:+ "lo" +:+ dquote +:+ ";
}
template bgp tor {
    local as " +:+ Itoa asn +:+ ";
    direct;
    bfd;
    error wait time 3,300;

    ipv4 {
        # Accept routes regardless of its NEXT_HOP.
        igp table dummytab;
        gateway recursive;

        import filter {
            # If this route came from iBGP peers,
            if bgp_next_hop.mask(" +:+ Itoa nodeMaskBits +:+ ") = from.mask(" +:+ Itoa nodeMaskBits +:+ ") then {
                # use the NEXT_HOP as the gateway address.
                gw = bgp_next_hop;
                accept;
            }

            # Otherwise, use the router address as the gateway address.
            # This is virtually equal to " +:+ dquote +:+ "next hop self" +:+ dquote +:+ " on receiver side.
            gw = from;
            accept;
        };
        export all;
    };
}
protocol bgp tor1 from tor {
    neighbor " +:+ IP_String tor1 +:+ " as " +:+ Itoa asn +:+ ";
}
protocol bgp tor2 from tor {
    neighbor " +:+ IP_String tor2 +:+ " as " +:+ Itoa asn +:+ ";
}
".
Definition chronyConf (servers : list string) : string :=
  "# Welcome to the chrony configuration file. See chrony.conf(5) for more
# information about usuable directives.
" +:+
  String.concat "" (map (λ server, newline +:+ "server " +:+ server +:+ " iburst") servers) +:+ "

# This directive specify the location of the file containing ID/key pairs for
# NTP authentication.
keyfile /etc/chrony/chrony.keys

# This directive specify the file into which chronyd will store the rate
# information.
driftfile /var/lib/chrony/chrony.drift

# Uncomment the following line to turn logging on.
#log tracking measurements statistics

# Log files location.
logdir /var/log/chrony

# Stop bad estimates upsetting machine clock.
maxupdateskew 100.0

# This directive enables kernel synchronisation (every 11 minutes) of the
# real-time clock. Note that it can’t be used along with the 'rtcfile' directive.
rtcsync

# Step the system clock instead of slewing it if the adjustment is larger than
# 0.1 seconds, but only in the first three clock updates.
makestep 0.1 3

# Allow NTP client access from local network.
allow 10.0.0.0/8

# Ignore leap second; adjust by slewing
leapsecmode slew
maxslewrate 1000
smoothtime 400 0.001 leaponly

# mlockall
lock_all

# set highest scheduling priority
sched_priority 99
".
Definition netdevText (name : string) : string :=
  "[NetDev]
Name=" +:+ name +:+ "
Kind=dummy
".
Definition dummyNetworkText (name : string) (addrs : list IP) : string :=
  "[Match]
Name=" +:+ name +:+ "

[Network]
" +:+
  String.concat "" (map (λ a, "Address=" +:+ IP_String a +:+ "/32" +:+ newline) addrs).
Definition physNetworkText (name : string) (addr : IP) : string :=
  "[Match]
Name=" +:+ name +:+ "

[Network]
LLDP=true
EmitLLDP=nearest-bridge

[Address]
Address=" +:+ IP_String addr +:+ "/26
Scope=link
".
Definition offloadUnit (eth0 eth1 : string) : string :=
  "[Unit]
Description=Disable network device offload
Wants=network-online.target
After=network-online.target
ConditionVirtualization=!kvm

[Service]
Type=oneshot
ExecStart=/sbin/ethtool -K " +:+ eth0 +:+ " tx off rx off
ExecStart=/sbin/ethtool -K " +:+ eth1 +:+ " tx off rx off
RemainAfterExit=yes

[Install]
WantedBy=multi-user.target
".
Definition routeUnit (tor1 tor2 bastion : IP) : string :=
  "[Unit]
Wants=network-online.target
After=network-online.target

[Service]
Type=oneshot
ExecStart=/bin/ip route add 0.0.0.0/0 src " +:+ IP_String bastion +:+ " nexthop via " +:+ IP_String tor1 +:+ " nexthop via " +:+ IP_String tor2 +:+ "
RemainAfterExit=yes
FailureAction=reboot-immediate

[Install]
WantedBy=multi-user.target
".
Definition birdOverride : string :=
  "[Unit]
Wants=network-online.target
After=network-online.target

[Service]
CPUSchedulingPolicy=rr
CPUSchedulingPriority=50
OOMScoreAdjust=-1000
".
Definition chronyOverride : string :=
  "
[Unit]
Wants=network-online.target
After=network-online.target

[Service]
OOMScoreAdjust=-1000
LimitMEMLOCK=infinity
".

(** What [configure] sets in the variable [config]; the HTTP client is the one that uses
    [proxy]. *)
Record InstConfig := { cf_proxy : string; cf_cluster : Cluster }.

Definition dockerPrerequisites : list string :=
  ["apt-transport-https"; "ca-certificates"; "gnupg-agent"; "software-properties-common"].
Definition dockerPackages : list string := ["docker-ce"; "docker-ce-cli"; "containerd.io"].
Definition purgeList : list string :=
  ["apport"; "apport-symptoms"; "fwupd"; "nano"; "unattended-upgrades"; "update-manager-core";
   "ubuntu-release-upgrader-core"].
Definition installList : list string := ["jq"; "ipvsadm"].
Definition SabakanIPAMFile := NecoDir +:+ "/sabakan_ipam.json".
Definition DockerKeyringFile := "/etc/apt/keyrings/docker-key.asc".
Definition DockerSourceListFile := "/etc/apt/sources.list.d/docker.list".

(** [IPMask.Size] *)
Definition Mask_Size (mask : IPMask) : Z * Z :=
  let ones := simpleMaskLength mask 0 in
  if ones =? -1 then (0, 0) else (ones, 8 * Z.of_nat (length mask)).

(** ** Addresses ([network.go]) *)
Section addresses.
Context `{NetUtil}.
Definition nodeAddresses (cluster : Cluster) (lrn : Z) : IP * IP * IP * IP :=
  let node0 := BootNode0IP lrn in
  let node1 := IPAdd node0 64 in
  let node2 := IPAdd node0 128 in
  let bastionBase := ParseIP (ic_Bastion cluster) in
  let bastion := IPAdd bastionBase lrn in
  (node0, node1, node2, bastion).
Definition torIP (nodeIP : IP) : IP := IPAdd (Mask nodeIP (CIDRMask nodeMaskBits 32)) 1.
End addresses.

Section installer.
Context `{NetUtil} {W : Type} `{Files W} `{Commands W} `{Console W} `{KeyGen W} `{HostEnv W} `{Netlink W}
  `{!InstallerEnv W}.

(** ** [util.go] *)
Definition runCmd (proxy : string) (argv : list string) : M W unit :=
  '(out, err) ← cmd_CombinedOutput
     ["http_proxy=" +:+ proxy; "https_proxy=" +:+ proxy; "DEBIAN_FRONTEND=noninteractive"] argv;
  match err with Some e => fail e | None => mret () end.
Definition systemctl (proxy : string) (args : list string) : M W unit := runCmd proxy ("systemctl" :: args).
Definition enableService (proxy name : string) : M W unit :=
  _ ← systemctl proxy ["daemon-reload"];
  _ ← systemctl proxy ["enable"; name +:+ ".service"];
  systemctl proxy ["restart"; name +:+ ".service"].
Definition installService (proxy name unit : string) : M W () :=
  _ ← wrapping ("failed to create service file for " +:+ name)
        (os_WriteFile ("/etc/systemd/system/" +:+ name +:+ ".service") unit mode_644);
  enableService proxy name.
Definition installOverrideConf (name data : string) : M W unit :=
  let dir := "/etc/systemd/system/" +:+ name +:+ ".service.d" in
  _ ← wrapping ("failed to mkdir " +:+ dir) (os_Mkdir dir mode_755);
  wrapping ("failed to create override.conf for " +:+ name) (os_WriteFile (dir +:+ "/override.conf") data mode_644).

(** [exec.Command("systemd-detect-virt", "-v", "-q").Run() == nil] *)
Definition is_virtual : M W bool :=
  r ← attempt (cmd_Run ["systemd-detect-virt"; "-v"; "-q"]);
  mret (match r with inl _ => false | inr _ => true end).

(** ** [packages.go] *)
Definition purgePackages (proxy : string) : M W unit :=
  virtual ← is_virtual;
  runCmd proxy (["apt-get"; "purge"; "-y"; "--autoremove"] ++ purgeList ++
                if (virtual : bool) then [] else ["netplan.io"; "popularity-contest"]).
Definition installPackages (proxy : string) (pkgs : list string) : M W unit :=
  runCmd proxy (["apt-get"; "install"; "-y"; "--no-install-recommends"] ++ pkgs).
Definition installChromium (proxy : string) : M W unit :=
  virtual ← is_virtual;
  if (virtual : bool) then mret ()
  else
    _ ← wrapping "failed to set proxy for snap" (runCmd proxy ["snap"; "set"; "system"; "proxy.http=" +:+ proxy]);
    _ ← wrapping "failed to set proxy for snap" (runCmd proxy ["snap"; "set"; "system"; "proxy.https=" +:+ proxy]);
    _ ← wrapping "failed to update snapd with snap" (runCmd proxy ["snap"; "refresh"; "snapd"]);
    wrapping "failed to install chromium with snap" (runCmd proxy ["snap"; "install"; "chromium"]).

(** ** [docker.go] *)
Definition docker_override (proxy : string) : string :=
  "[Service]" +:+ newline +:+
  "Environment=" +:+ dquote +:+ "HTTP_PROXY=" +:+ proxy +:+ dquote +:+ newline +:+
  "Environment=" +:+ dquote +:+ "HTTPS_PROXY=" +:+ proxy +:+ dquote +:+ newline.
(** [strings.TrimSuffix(s, "\n")] *)
Definition trim_newline (s : string) : string :=
  match String.rev s with
  | String c t => if bool_decide (c = Host.newline) then String.rev t else s
  | EmptyString => s
  end.
Definition docker_repo (codename : string) : string :=
  "deb [arch=amd64 signed-by=" +:+ DockerKeyringFile +:+ "] https://download.docker.com/linux/ubuntu " +:+ codename +:+
  " stable" +:+ newline.
Definition setupDocker (proxy : string) : M W unit :=
  _ ← installOverrideConf "docker" (docker_override proxy);
  _ ← installPackages proxy dockerPrerequisites;
  _ ← wrapping "failed to retrieve Docker PGP key" (http_GetVia proxy "https://download.docker.com/linux/ubuntu/gpg");
  data ← wrapping "failed to read Docker PGP key" http_ReadBody;
  _ ← wrapping ("failed to create " +:+ DockerKeyringFile) (os_WriteFile DockerKeyringFile data mode_644);
  out ← wrapping "failed to invoke lsb_release -cs" (checked_Output ["lsb_release"; "-cs"]);
  _ ← wrapping ("failed to create " +:+ DockerSourceListFile)
        (os_WriteFile DockerSourceListFile (docker_repo (trim_newline out)) mode_644);
  _ ← wrapping "failed to update packages" (runCmd proxy ["apt-get"; "update"]);
  installPackages proxy dockerPackages.

(** ** [neco.go] *)
Definition ipam_json (cluster : Cluster) (prefixLen : Z) : json :=
  JObj [("bmc-ipv4-gateway-offset", encode_int 1); ("bmc-ipv4-offset", JStr "0.0.1.0"); ("bmc-ipv4-pool", JStr (ic_BMC cluster));
        ("bmc-ipv4-range-mask", encode_int prefixLen); ("bmc-ipv4-range-size", encode_int 5);
        ("max-nodes-in-rack", encode_int 28); ("node-gateway-offset", encode_int 1); ("node-index-offset", encode_int 3);
        ("node-ip-per-node", encode_int 3); ("node-ipv4-pool", JStr "10.69.0.0/20");
        ("node-ipv4-range-mask", encode_int 26); ("node-ipv4-range-size", encode_int 6)].
Definition dumpNecoFiles (cluster : Cluster) (lrn : Z) : M W unit :=
  _ ← wrapping ("failed to mkdir " +:+ NecoDir) (os_MkdirAll NecoDir mode_755);
  _ ← wrapping ("failed to create " +:+ RackFile) (os_WriteFile RackFile (Itoa lrn +:+ newline) mode_644);
  _ ← wrapping ("failed to create " +:+ ClusterFile) (os_WriteFile ClusterFile (ic_Name cluster +:+ newline) mode_644);
  (* the network is nil when the text is not one *)
  n ← lift (match ParseCIDR (ic_BMC cluster) with Ok (_, n) => Ok n | _ => Panic "nil pointer dereference" end);
  let prefixLen := fst (Mask_Size (ipn_Mask n)) in
  wrapping ("failed to create" +:+ SabakanIPAMFile)
    (os_WriteFile SabakanIPAMFile (print (ipam_json cluster prefixLen) "") mode_644).

(** ** [network.go] *)
Definition networkd_file (name ext : string) : string := "/etc/systemd/network/" +:+ name +:+ ext.
Definition writeDummyNetworkConf (name : string) (addrs : list IP) : M W unit :=
  _ ← wrapping ("failed to create netdev file for " +:+ name)
        (os_WriteFile (networkd_file name ".netdev") (netdevText name) mode_644);
  match addrs with
  | [] => mret ()
  | _ => wrapping ("failed to create network file for " +:+ name)
           (os_WriteFile (networkd_file name ".network") (dummyNetworkText name addrs) mode_644)
  end.
Definition writePhysNetworkConf (name : string) (addr : IP) : M W unit :=
  wrapping ("failed to create network file for " +:+ name)
    (os_WriteFile (networkd_file name ".network") (physNetworkText name addr) mode_644).

Fixpoint wait_addresses (fuel : nat) (link : Link) (expected : list string) : M W unit :=
  match fuel with
  | O => blocked
  | S fuel =>
      r ← attempt (AddrList_v4 link);
      let al := match r with inl _ => [] | inr al => al end in
      if bool_decide (expected = Sort (map (λ a, IP_String (ipn_IP a)) al)) then mret ()
      else _ ← time_Sleep Second; wait_addresses fuel link expected
  end.
Definition waitNetwork (fuel : nat) (linkName : string) (addrs : list IP) : M W unit :=
  link ← wrapping ("failed to lookup " +:+ linkName) (LinkByName linkName);
  wait_addresses fuel link (Sort (map IP_String addrs)).

(** The links that are set up and looked at again.  The error of [LinkSetUp] is dropped:
    the condition after it tests an older error. *)
Fixpoint set_up_links (links : list Link) : M W (list string) :=
  match links with
  | [] => mret []
  | l :: links =>
      if negb (link_IsDevice l) then set_up_links links
      else if bool_decide (link_Name l = "lo") || bool_decide (link_Name l = "idrac") then set_up_links links
      else _ ← ignore_error (LinkSetUp l); names ← set_up_links links; mret (link_Name l :: names)
  end.
Fixpoint up_links (names : list string) : M W (list string) :=
  match names with
  | [] => mret []
  | lname :: names =>
      l ← wrapping ("netlink: link not found " +:+ lname) (LinkByName lname);
      rest ← up_links names;
      mret (if link_OperUp l then lname :: rest else rest)
  end.
Definition detectPhysLinks : M W (string * string) :=
  virtual ← is_virtual;
  if (virtual : bool) then mret ("ens3", "ens4")
  else
    links ← LinkList;
    physLinks ← set_up_links links;
    _ ← time_Sleep (10 * Second);
    upLinks ← up_links physLinks;
    match Sort upLinks with
    | [eth0; eth1] => mret (eth0, eth1)
    | _ => fail (ErrMsg "too few up links")
    end.

Definition enableNetworkd (proxy : string) : M W unit :=
  _ ← wrapping "failed to remove /etc/netplan" (os_RemoveAll "/etc/netplan");
  _ ← wrapping "failed to enable systemd-networkd" (systemctl proxy ["enable"; "systemd-networkd.service"]);
  wrapping "failed to restart systemd-networkd" (systemctl proxy ["restart"; "systemd-networkd.service"]).
Definition disableOffload (proxy eth0 eth1 : string) : M W unit :=
  installService proxy "disable-offload" (offloadUnit eth0 eth1).
Definition configureDefaultRoute (proxy : string) (tor1 tor2 bastion : IP) : M W unit :=
  installService proxy "setup-route" (routeUnit tor1 tor2 bastion).
Definition configureBird (proxy : string) (asn : Z) (tor1 tor2 : IP) : M W unit :=
  _ ← wrapping "failed to write /etc/bird/bird.conf" (os_WriteFile "/etc/bird/bird.conf" (birdConf asn tor1 tor2) mode_644);
  _ ← installOverrideConf "bird" birdOverride;
  enableService proxy "bird".
Definition configureChrony (cfg : InstConfig) : M W unit :=
  _ ← wrapping "failed to write /etc/chrony/chrony.conf"
        (os_WriteFile "/etc/chrony/chrony.conf" (chronyConf (ic_NTPServers (cf_cluster cfg))) mode_644);
  _ ← installOverrideConf "chrony" chronyOverride;
  enableService (cf_proxy cfg) "chrony".

Definition setupNetwork (fuel : nat) (cfg : InstConfig) (lrn : Z) : M W unit :=
  let '(node0, node1, node2, bastion) := nodeAddresses (cf_cluster cfg) lrn in
  let tor1 := torIP node1 in
  let tor2 := torIP node2 in
  '(eth0, eth1) ← detectPhysLinks;
  _ ← writeDummyNetworkConf "node0" [node0];
  _ ← writeDummyNetworkConf "bastion" [bastion];
  _ ← writeDummyNetworkConf "boot" [];
  _ ← writePhysNetworkConf eth0 node1;
  _ ← writePhysNetworkConf eth1 node2;
  _ ← enableNetworkd (cf_proxy cfg);
  _ ← waitNetwork fuel "node0" [node0];
  _ ← waitNetwork fuel "bastion" [bastion];
  _ ← waitNetwork fuel "boot" [];
  _ ← waitNetwork fuel eth0 [node1];
  _ ← waitNetwork fuel eth1 [node2];
  _ ← disableOffload (cf_proxy cfg) eth0 eth1;
  _ ← configureDefaultRoute (cf_proxy cfg) tor1 tor2 bastion;
  _ ← configureBird (cf_proxy cfg) (wrap64 (baseASN + lrn)) tor1 tor2;
  configureChrony cfg.

(** ** [main.go] *)
Definition sanity : M W (list Cluster) :=
  uid ← os_Getuid;
  if negb (uid =? 0) then fail (ErrMsg "run as root")
  else
    myself ← os_Readlink "/proc/self/exe";
    data ← wrapping "could not load cluster.json" (os_ReadFile (Dir myself +:+ "/cluster.json"));
    wrapping "invalid cluster.json" (lift (Unmarshal_clusters data)).

Definition parses_url (s : string) : bool := match url_Parse (TrimSpace s) with Ok _ => true | _ => false end.
Definition is_choice (n : nat) (s : string) : bool :=
  match Atoi (TrimSpace s) with Ok ans => (0 <=? ans) && (ans <? Z.of_nat n) | _ => false end.
Fixpoint print_choices (i : Z) (clusters : list Cluster) : M W unit :=
  match clusters with
  | [] => mret ()
  | c :: clusters => _ ← stdout_Print (Itoa i +:+ ") " +:+ ic_Name c +:+ newline); print_choices (i + 1) clusters
  end.
Definition choose_cluster (clusters : list Cluster) : M W Z :=
  if Nat.ltb 1 (length clusters) then
    _ ← stdout_Print ("Choose the cluster of this server:" +:+ newline);
    _ ← print_choices 0 clusters;
    s ← ui_AskValid ("Input a number [0-" +:+ Itoa (Z.of_nat (length clusters) - 1) +:+ "]") (is_choice (length clusters));
    lift (Atoi (TrimSpace s))
  else mret 0.
Definition configure (clusters : list Cluster) : M W InstConfig :=
  env ← os_Getenv "http_proxy";
  proxy ← (if bool_decide (env = "") then s ← ui_AskValid "proxy URL" parses_url; mret (TrimSpace s) else mret env);
  _ ← wrapping ("invalid URL " +:+ proxy) (lift (url_Parse proxy));
  i ← choose_cluster clusters;
  match clusters !! Z.to_nat i with
  | Some c => mret {| cf_proxy := proxy; cf_cluster := c |}
  | None => panic "index out of range"
  end.

Fixpoint connectivity_loop (i : nat) (proxy : string) : M W bool :=
  match i with
  | O => mret false
  | S i =>
      r ← attempt (http_GetVia proxy "http://www.cybozu.com");
      match r with
      | inl _ => _ ← time_Sleep Second; connectivity_loop i proxy
      | inr _ => _ ← ignore_error http_ReadBody; mret true
      end
  end.
Definition checkConnectivity (proxy : string) : M W unit :=
  ok ← connectivity_loop 30 proxy;
  if (ok : bool) then mret () else _ ← ui_Ask "Press Enter to continue"; mret ().

Definition subMain (fuel : nat) : M W unit :=
  args ← os_Args;
  if negb (Nat.eqb (length args) 2) then
    program ← lift (arg args 0); fail (ErrMsg ("usage: " +:+ program +:+ " LRN"))
  else
    a ← lift (arg args 1);
    lrn ← wrapping "invalid LRN" (lift (Atoi a));
    if lrn <? 0 then fail (ErrMsg ("invalid LRN: " +:+ Itoa lrn))
    else
      clusters ← sanity;
      cfg ← configure clusters;
      let run := runCmd (cf_proxy cfg) in
      let hostname := ic_Name (cf_cluster cfg) +:+ "-boot-" +:+ Itoa lrn in
      _ ← run ["hostnamectl"; "set-hostname"; hostname];
      _ ← run ["sed"; "-i"; "s/ boot/ " +:+ hostname +:+ "/"; "/etc/hosts"];
      _ ← purgePackages (cf_proxy cfg);
      _ ← dumpNecoFiles (cf_cluster cfg) lrn;
      _ ← setupNetwork fuel cfg lrn;
      _ ← checkConnectivity (cf_proxy cfg);
      _ ← run ["sed"; "-i"; "s/archive.ubuntu.com/linux.yz.yamagata-u.ac.jp/g"; "/etc/apt/sources.list"];
      _ ← setupDocker (cf_proxy cfg);
      _ ← run ["adduser"; "cybozu"; "docker"];
      _ ← installPackages (cf_proxy cfg) installList;
      _ ← installChromium (cf_proxy cfg);
      _ ← run ["apt-mark"; "hold"; "cloud-init"];
      _ ← run ["apt-get"; "-y"; "dist-upgrade"];
      run ["apt-get"; "clean"].
End installer.
