(* ===== verification/Generator.v ===== *)
(** * The release tools

    [generator/] with generate-artifacts, which writes [artifacts.go], the list of what a
    release is made of; that list itself; and generate-sabakan-machines, which turns a
    table of machines (CSV) into JSON for sabakan.  Container registries, GitHub, the feed
    of operating-system images and go-version are classes. *)
From S2P Require Import Prelude GoStr GoTime Json Types Etcd Worlds Storage Updater GoNet Host Progs Operator.
From S2P Require Import GoURL Ext Upload CKEUpload Vault Setup NecoCmd NecoReboot.

Local Open Scope Z_scope.

(** ** [types.go]: artifacts as Go source *)

(** [%q] on ASCII text. *)
Definition quote_char (c : ascii) : string :=
  let b := byte_of c in
  let esc (d : ascii) := String bslash (String d "") in
  if bool_decide (c = dq) then esc dq
  else if bool_decide (c = bslash) then esc bslash
  else if (b =? 7)%N then esc "a"%char else if (b =? 8)%N then esc "b"%char else if (b =? 12)%N then esc "f"%char
  else if (b =? 10)%N then esc "n"%char else if (b =? 13)%N then esc "r"%char else if (b =? 9)%N then esc "t"%char
  else if (b =? 11)%N then esc "v"%char
  else if (b <? 32)%N || (b =? 127)%N then String bslash (String "x"%char (hex_fixed 2 (Z.of_N b) ""))
  else String c "".
Definition Quote (s : string) : string :=
  dquote +:+ String.concat "" (map quote_char (String.list_ascii_of_string s)) +:+ dquote.
Definition bool_text (b : bool) : string := if b then "true" else "false".
Definition Image_MarshalGo (c : ContainerImage) : string :=
  "{Name: " +:+ Quote (img_Name c) +:+ ", Repository: " +:+ Quote (img_Repository c) +:+ ", Tag: " +:+
  Quote (img_Tag c) +:+ ", Private: " +:+ bool_text (img_Private c) +:+ "}".
Definition Deb_MarshalGo (deb : DebianPackage) : string :=
  "{Name: " +:+ Quote (deb_Name deb) +:+ ", Owner: " +:+ Quote (deb_Owner deb) +:+ ", Repository: " +:+
  Quote (deb_Repository deb) +:+ ", Release: " +:+ Quote (deb_Release deb) +:+ "}".
Definition OSImage_MarshalGo (c : OSImage) : string :=
  "OSImage{Channel: " +:+ Quote (os_Channel c) +:+ ", Version: " +:+ Quote (os_Version c) +:+ "}".

(** go-version: what [Updater.GoVersion] leaves out. *)
Class VersionParts `{GoVersion} := {
  Version_Prerelease : GVersion → string;
  Version_Segments : GVersion → list Z;
  (* [sort.Sort(sort.Reverse(version.Collection(vs)))]; [sort.Sort] is not stable *)
  sort_Reverse : list GVersion → list GVersion;
}.
Definition first_segment `{VersionParts} (v : GVersion) : outcome Z :=
  match Version_Segments v with n :: _ => Ok n | [] => Panic "index out of range" end.
(** [version.Must] panics. *)
Definition MajorVersion `{VersionParts} (c : ContainerImage) : outcome Z :=
  match NewVersion (img_Tag c) with
  | Ok ver => first_segment ver
  | Err e => Panic (error_text e)
  | Panic p => Panic p
  | Running => Running
  end.

(** ** [artifacts.go] *)
Definition image_ (name repository tag : string) (private : bool) : ContainerImage :=
  {| img_Name := name; img_Repository := repository; img_Tag := tag; img_Private := private |}.
Definition CurrentArtifacts : ArtifactSet := {|
  as_Images :=
    [image_ "coil" "ghcr.io/cybozu-go/coil" "2.8.0" false;
     image_ "bird" "ghcr.io/cybozu/bird" "2.15.1.1" false;
     image_ "chrony" "ghcr.io/cybozu/chrony" "4.6.1.1" false;
     image_ "etcd" "ghcr.io/cybozu/etcd" "3.5.15.1" false;
     image_ "promtail" "ghcr.io/cybozu/promtail" "3.2.1.2" false;
     image_ "sabakan" "ghcr.io/cybozu-go/sabakan" "3.1.4" false;
     image_ "serf" "ghcr.io/cybozu/serf" "0.10.1.7" false;
     image_ "setup-hw" "ghcr.io/cybozu-go/setup-hw" "1.20.1" true;
     image_ "squid" "ghcr.io/cybozu/squid" "6.12.0.2" false;
     image_ "squid-exporter" "ghcr.io/cybozu/squid-exporter" "1.0.7" false;
     image_ "vault" "ghcr.io/cybozu/vault" "1.18.1.1" false;
     image_ "cilium" "ghcr.io/cybozu/cilium" "1.14.14.1" false;
     image_ "cilium-operator-generic" "ghcr.io/cybozu/cilium-operator-generic" "1.14.14.2" false;
     image_ "hubble-relay" "ghcr.io/cybozu/hubble-relay" "1.14.14.1" false;
     image_ "cilium-certgen" "ghcr.io/cybozu/cilium-certgen" "0.1.14.1" false];
  as_Debs := [{| deb_Name := "etcdpasswd"; deb_Owner := "cybozu-go"; deb_Repository := "etcdpasswd"; deb_Release := "v1.4.9" |}];
  as_OSImage := {| os_Channel := "stable"; os_Version := "4152.2.1" |};
|}.

(** ** [generate.go] *)
Definition imageRepos : list string :=
  ["ghcr.io/cybozu-go/coil"; "ghcr.io/cybozu/bird"; "ghcr.io/cybozu/chrony"; "ghcr.io/cybozu/etcd";
   "ghcr.io/cybozu/promtail"; "ghcr.io/cybozu-go/sabakan"; "ghcr.io/cybozu/serf"; "ghcr.io/cybozu-go/setup-hw";
   "ghcr.io/cybozu/squid"; "ghcr.io/cybozu/squid-exporter"; "ghcr.io/cybozu/vault"; "ghcr.io/cybozu/cilium";
   "ghcr.io/cybozu/cilium-operator-generic"; "ghcr.io/cybozu/hubble-relay"; "ghcr.io/cybozu/cilium-certgen"].
Definition privateImages : gmap string bool := {["ghcr.io/cybozu-go/setup-hw" := true]}.
Definition debRepos : list string := ["etcdpasswd"].
Definition osImageFeed := "https://www.flatcar.org/releases-json/releases-stable.json".

(** The three types of entries, which differ in the name of the key: repository, name and
    channel. *)
Record ignoreConfig := { ig_Key : string; ig_Versions : list string }.
Record IgnoreConfig := { ig_Images : list ignoreConfig; ig_Debs : list ignoreConfig; ig_OSImage : list ignoreConfig }.
Record GenConfig := { gc_Release : bool; gc_Ignored : IgnoreConfig }.

Fixpoint ignored_versions (l : list ignoreConfig) (key : string) : list string :=
  match l with
  | [] => []
  | c :: l => if bool_decide (ig_Key c = key) then ig_Versions c else ignored_versions l key
  end.
Definition getImageVersions (c : IgnoreConfig) (repo : string) : list string := ignored_versions (ig_Images c) repo.
Definition getDebVersions (c : IgnoreConfig) (name : string) : list string := ignored_versions (ig_Debs c) name.
Definition getOSImageVersions (c : IgnoreConfig) : list string := ignored_versions (ig_OSImage c) "stable".

(** What GitHub answers to a list of releases: their tags, or an error with the status of
    the response, if there was one. *)
Inductive ReleaseReply := Tags (tags : list (option string)) | ReplyError (status : option Z) (e : error).
Class ArtifactSources (W : Type) := {
  Repository : Type;
  NewRepository : string → outcome Repository;
  RepositoryStr : Repository → string;
  Repository_Name : Repository → string;
  remote_List : Repository → M W (list string);
  gh_ListRepoReleases : string → string → M W ReleaseReply;
  (* the status of [http.Get] and then the body *)
  feed_Get : string → M W Z;
  feed_Body : M W string;
  (* [range] over a map *)
  range_keys : gset string → M W (list string);
}.

Definition artifacts_text (tag : string) (images : list ContainerImage) (debs : list DebianPackage) (os : OSImage) : string :=
  "// Code generated by generate-artifacts. DO NOT EDIT.
//go:build " +:+ tag +:+ "

package neco

var CurrentArtifacts = ArtifactSet{
	Images: []ContainerImage{" +:+
  String.concat "" (map (λ i, newline +:+ "		" +:+ Image_MarshalGo i +:+ ",") images) +:+ "
	},
	Debs: []DebianPackage{" +:+
  String.concat "" (map (λ d, newline +:+ "		" +:+ Deb_MarshalGo d +:+ ",") debs) +:+ "
	},
	OSImage: " +:+ OSImage_MarshalGo os +:+ ",
}
".

(** [json.NewDecoder(body).Decode(&feed)]: the keys of the first value of the text. *)
Definition decode_feed (text : string) : outcome (gset string) :=
  match parse_value (S (String.length text)) text with
  | Some (JObj l, _) => Ok (list_to_set (map fst l))
  | Some (JNull, _) => Ok ∅
  | Some _ => type_error
  | None => Err (ErrMsg "invalid JSON")
  end.

Section generator.
Context `{VersionParts} {W : Type} `{ArtifactSources W} `{Console W}.

Definition render (release : bool) (images : list ContainerImage) (debs : list DebianPackage) (os : OSImage) : M W unit :=
  stdout_Print (artifacts_text (if release then "release" else "!release") images debs os).

Definition imageName (repo : Repository) : string := default "" (last (Split "/" (RepositoryStr repo))).

(** The version of a tag that is to be considered. *)
Definition tag_version (release : bool) (ignoreVersions : list string) (tag : string) : option GVersion :=
  if (count_char "." tag <? 2)%nat then None
  else if bool_decide (tag ∈ ignoreVersions) then None
  else match NewVersion tag with
       | Ok v => if release && negb (bool_decide (Version_Prerelease v = "")) then None else Some v
       | _ => None
       end.
Fixpoint of_major (major : Z) (versions : list GVersion) : outcome (list GVersion) :=
  match versions with
  | [] => Ok []
  | v :: versions =>
      n ← first_segment v;
      rest ← of_major major versions;
      Ok (if n =? major then v :: rest else rest)
  end.
Definition first_version (versions : list GVersion) : outcome GVersion :=
  match versions with v :: _ => Ok v | [] => Panic "index out of range" end.
Definition getLatestImage (repo : Repository) (release : bool) (ignoreVersions : list string) : M W ContainerImage :=
  tags ← remote_List repo;
  let versions := omap (tag_version release ignoreVersions) tags in
  let name := imageName repo in
  versions ← (if release then
                current ← lift (FindContainerImage CurrentArtifacts name);
                major ← lift (MajorVersion current);
                lift (of_major major versions)
              else mret versions);
  v ← lift (first_version (sort_Reverse versions));
  mret (image_ name (Repository_Name repo) (Version_Original v)
          (default false (privateImages !! Repository_Name repo))).

(** The first tag that is not ignored. *)
Fixpoint first_tag (ignoreVersions : list string) (tags : list (option string)) : string :=
  match tags with
  | [] => ""
  | None :: tags => first_tag ignoreVersions tags
  | Some tag :: tags => if bool_decide (tag ∈ ignoreVersions) then first_tag ignoreVersions tags else tag
  end.
Definition getLatestDeb (name : string) (ignoreVersions : list string) : M W (option DebianPackage) :=
  reply ← gh_ListRepoReleases "cybozu-go" name;
  match reply with
  | ReplyError None _ => panic "nil pointer dereference"
  | ReplyError (Some status) e => if status =? 404 then mret None else fail e
  | Tags tags =>
      let version := first_tag ignoreVersions tags in
      if bool_decide (version = "") then fail (ErrMsg (name +:+ ": no available version was found"))
      else mret (Some {| deb_Name := name; deb_Owner := "cybozu-go"; deb_Repository := name; deb_Release := version |})
  end.

Fixpoint feed_versions (ignoreVersions keys : list string) : outcome (list GVersion) :=
  match keys with
  | [] => Ok []
  | k :: keys =>
      if bool_decide (k = "current") then feed_versions ignoreVersions keys
      else
        v ← NewVersion k;
        rest ← feed_versions ignoreVersions keys;
        Ok (if bool_decide (k ∈ ignoreVersions) then rest else v :: rest)
  end.
Definition getLatestOSImage (ignoreVersions : list string) : M W OSImage :=
  status ← feed_Get osImageFeed;
  if negb (status =? 200) then fail (ErrMsg ("failed to get OSImage feed. status = " +:+ Itoa status))
  else
    text ← feed_Body;
    feed ← lift (decode_feed text);
    keys ← range_keys feed;
    versions ← lift (feed_versions ignoreVersions keys);
    v ← lift (first_version (sort_Reverse versions));
    mret {| os_Channel := "stable"; os_Version := Version_Original v |}.

Fixpoint latest_images (cfg : GenConfig) (repos : list string) : M W (list ContainerImage) :=
  match repos with
  | [] => mret []
  | repoStr :: repos =>
      repo ← lift (NewRepository repoStr);
      img ← getLatestImage repo (gc_Release cfg) (getImageVersions (gc_Ignored cfg) repoStr);
      images ← latest_images cfg repos;
      mret (img :: images)
  end.
Fixpoint latest_debs (cfg : GenConfig) (names : list string) : M W (list DebianPackage) :=
  match names with
  | [] => mret []
  | name :: names =>
      deb ← getLatestDeb name (getDebVersions (gc_Ignored cfg) name);
      debs ← latest_debs cfg names;
      mret (match deb with Some deb => deb :: debs | None => debs end)
  end.
Definition Generate (cfg : GenConfig) : M W unit :=
  images ← latest_images cfg imageRepos;
  debs ← latest_debs cfg debRepos;
  osImage ← getLatestOSImage (getOSImageVersions (gc_Ignored cfg));
  render (gc_Release cfg) images debs osImage.
End generator.

(** ** generate-artifacts *)
Class IgnoreYaml := { ignore_Unmarshal : string → outcome IgnoreConfig }.
Definition defaultIgnoreFile := "artifacts_ignore.yaml".
(** [os.Exit(2)] after the error is printed. *)
Definition or_exit {W A} `{Process W} (status : Z) (m : M W A) : M W A :=
  r ← attempt m;
  match r with inl _ => _ ← os_Exit status; blocked | inr a => mret a end.
Definition generate_artifacts `{IgnoreYaml} `{VersionParts} {W} `{ArtifactSources W} `{Console W} `{Files W} `{Process W}
    (release : bool) (ignoreFile : string) : M W unit :=
  r ← attempt (os_ReadFile ignoreFile);
  data ← match r with
         | inr data => mret data
         | inl e => if IsNotExist e then mret "" else _ ← os_Exit 2; blocked
         end;
  ignored ← (if bool_decide (data = "") then mret {| ig_Images := []; ig_Debs := []; ig_OSImage := [] |}
             else or_exit 2 (lift (ignore_Unmarshal data)));
  or_exit 2 (Generate {| gc_Release := release; gc_Ignored := ignored |}).

Example CurrentArtifacts_text :
  Image_MarshalGo (image_ "setup-hw" "ghcr.io/cybozu-go/setup-hw" "1.20.1" true)
  = "{Name: " +:+ dquote +:+ "setup-hw" +:+ dquote +:+ ", Repository: " +:+ dquote +:+ "ghcr.io/cybozu-go/setup-hw" +:+
    dquote +:+ ", Tag: " +:+ dquote +:+ "1.20.1" +:+ dquote +:+ ", Private: true}".
Proof. vm_compute. reflexivity. Qed.

(** ** generate-sabakan-machines *)

(** [csv.Reader] with its defaults: what [Read] gives, up to the first error.  The reader
    makes each line end in a newline alone and drops a carriage return at the end of the
    text. *)
Definition LF : ascii := chr 10.
Definition CR : ascii := chr 13.
Fixpoint csv_lines (s : string) : string :=
  match s with
  | EmptyString => ""
  | String c t =>
      if bool_decide (c = CR) then
        match t with
        | EmptyString => ""
        | String d u => if bool_decide (d = LF) then String LF (csv_lines u) else String c (csv_lines t)
        end
      else String c (csv_lines t)
  end.
(** Where the reader is; a field and a record are collected in reverse. *)
Inductive CsvState := RecordStart | FieldStart | Plain | Quoted | QuoteSeen.
Definition csv_error (what : string) : list (outcome (list string)) := [Err (ErrMsg ("parse error: " +:+ what))].
Fixpoint csv_records (s : string) (st : CsvState) (field : string) (record : list string) : list (outcome (list string)) :=
  let emit := Ok (rev (String.rev field :: record)) in
  match s with
  | EmptyString =>
      match st with
      | RecordStart => []
      | FieldStart | Plain | QuoteSeen => [emit]
      | Quoted => csv_error "extraneous or missing quote in quoted-field"
      end
  | String c s =>
      match st with
      | RecordStart | FieldStart =>
          if bool_decide (c = LF) then
            match st with
            | RecordStart => csv_records s RecordStart "" []
            | _ => emit :: csv_records s RecordStart "" []
            end
          else if bool_decide (c = dq) then csv_records s Quoted "" record
          else if bool_decide (c = ","%char) then csv_records s FieldStart "" (String.rev field :: record)
          else csv_records s Plain (String c "") record
      | Plain =>
          if bool_decide (c = LF) then emit :: csv_records s RecordStart "" []
          else if bool_decide (c = dq) then csv_error "bare quote in non-quoted-field"
          else if bool_decide (c = ","%char) then csv_records s FieldStart "" (String.rev field :: record)
          else csv_records s Plain (String c field) record
      | Quoted =>
          if bool_decide (c = dq) then csv_records s QuoteSeen field record
          else csv_records s Quoted (String c field) record
      | QuoteSeen =>
          if bool_decide (c = dq) then csv_records s Quoted (String c field) record
          else if bool_decide (c = ","%char) then csv_records s FieldStart "" (String.rev field :: record)
          else if bool_decide (c = LF) then emit :: csv_records s RecordStart "" []
          else csv_error "extraneous or missing quote in quoted-field"
      end
  end.
(** Every record has as many fields as the first. *)
Fixpoint same_width (width : nat) (records : list (outcome (list string))) : list (outcome (list string)) :=
  match records with
  | Ok r :: records => if (length r =? width)%nat then Ok r :: same_width width records else csv_error "wrong number of fields"
  | _ => records
  end.
Definition csv_read (text : string) : list (outcome (list string)) :=
  match csv_records (csv_lines text) RecordStart "" [] with
  | Ok r :: records => Ok r :: same_width (length r) records
  | records => records
  end.

Example csv_ex :
  csv_read ("a,b" +:+ String CR (String LF (String LF (dquote +:+ "x,1" +:+ dquote +:+ dquote +:+ "y" +:+ dquote +:+ ","
    +:+ String LF "z"))))
  = [Ok ["a"; "b"]; Ok ["x,1" +:+ dquote +:+ "y"; ""]; Err (ErrMsg "parse error: wrong number of fields")].
Proof. vm_compute. reflexivity. Qed.

(** [time.Parse("2006/1/2", s)]: month and day have one or two digits. *)
Definition take_one_or_two (s : string) : option (Z * string) :=
  match take_digits 2 s 0 with Some r => Some r | None => take_digits 1 s 0 end.
Definition parse_support_date (s : string) : option Time :=
  '(y, s) ← take_digits 4 s 0; s ← take_char "/" s;
  '(m, s) ← take_one_or_two s; s ← take_char "/" s;
  '(d, s) ← take_one_or_two s;
  if (1 <=? m) && (m <=? 12) && (1 <=? d) && (d <=? daysIn m y) && bool_decide (s = "") then
    Some (days_of_civil y m d * 86400 * Second)
  else None.
(** [Format(time.RFC3339)] of a time in whole seconds; the year may have five digits. *)
Definition Format_RFC3339 (t : Time) : string :=
  let secs := t `div` Second in
  let '(y, m, d) := civil_of_days (secs `div` 86400) in
  if y <=? 9999 then rfc3339_text y m d (secs `mod` 86400) 0
  else Itoa y +:+ default "" (slice_from 4 (rfc3339_text 0 m d (secs `mod` 86400) 0)).

(** The flags. *)
Record MachineFlags := {
  fl_Boot : string; fl_CS : string; fl_SS : string; fl_SS2 : string;
  fl_bmcType : string;
}.
Definition machine_type (flags : MachineFlags) (role : string) : outcome string :=
  if bool_decide (role = "boot") then Ok (fl_Boot flags)
  else if bool_decide (role = "cs") then Ok (fl_CS flags)
  else if bool_decide (role = "ss") then Ok (fl_SS flags)
  else if bool_decide (role = "ss2") then Ok (fl_SS2 flags)
  else Err (ErrMsg ("unknown role " +:+ role)).
Definition five_years : Duration := 3600 * Second * 24 * 365 * 5.
(** The machine of a record; its keys are sorted, as the encoder sorts those of a map. *)
Definition machine_json (flags : MachineFlags) (record : list string) : outcome json :=
  datacenter ← arg record 0;
  rackString ← arg record 1;
  serial ← arg record 3;
  product ← arg record 4;
  role ← arg record 5;
  supportDateString ← arg record 6;
  machineType ← machine_type flags role;
  if existsb (λ s, bool_decide (s = "")) [datacenter; rackString; serial; product; role; supportDateString] then
    Err (ErrMsg ("some colmuns are missing in csv, datacenter: " +:+ datacenter +:+ ", rack: " +:+ rackString +:+
                 ", serial: " +:+ serial +:+ ", product: " +:+ product +:+ ", role: " +:+ role))
  else
    rack ← Atoi rackString;
    match parse_support_date supportDateString with
    | None => Err (ErrMsg ("parsing time " +:+ supportDateString))
    | Some supportDate =>
        Ok (JObj [("bmc", JObj [("type", JStr (fl_bmcType flags))]);
                  ("labels", JObj [("datacenter", JStr datacenter); ("machine-type", JStr machineType); ("product", JStr product)]);
                  ("rack", encode_int rack);
                  ("retire-date", JStr (Format_RFC3339 (Add supportDate five_years)));
                  ("role", JStr role);
                  ("serial", JStr serial)])
    end.
(** The loop: the first record is the header. *)
Fixpoint machines_of (flags : MachineFlags) (records : list (outcome (list string))) : outcome (list json) :=
  match records with
  | [] => Ok []
  | r :: records => record ← r; m ← machine_json flags record; ms ← machines_of flags records; Ok (m :: ms)
  end.
Definition machines_json (flags : MachineFlags) (text : string) : outcome (list json) :=
  match csv_read text with
  | [] => Ok []
  | header :: records => _ ← header; machines_of flags records
  end.

(** [json.Indent] with two blanks. *)
Definition indentation (depth : nat) (k : string) : string := String LF (Nat.iter (2 * depth) (String " "%char) k).
Fixpoint print_indent (depth : nat) (j : json) (k : string) : string :=
  match j with
  | JArr (x :: l) =>
      String "[" (indentation (S depth) (print_indent (S depth) x
        ((fix go l := match l with
                      | [] => indentation depth (String "]" k)
                      | x :: l => String "," (indentation (S depth) (print_indent (S depth) x (go l)))
                      end) l)))
  | JObj ((f, x) :: l) =>
      let member f x k := indentation (S depth) (print_string f (String ":" (String " " (print_indent (S depth) x k)))) in
      String "{" (member f x
        ((fix go l := match l with
                      | [] => indentation depth (String "}" k)
                      | (f, x) :: l => String "," (member f x (go l))
                      end) l))
  | _ => print j k
  end.
Definition generate_sabakan_machines {W} `{Files W} `{Console W} (flags : MachineFlags) (args : list string) : M W unit :=
  _ ← lift (ExactArgs 1 args);
  file ← lift (arg args 0);
  text ← os_ReadFile file;
  ms ← lift (machines_json flags text);
  stdout_Print (print_indent 0 (JArr ms) newline).
