(* ===== verification/Mains.v ===== *)
(** * The programs themselves

    The [main] functions of the daemons and of the small commands, the constructors that
    they call, and what lies between a component and the outside: the GraphQL client and
    the commands of sabakan-state-setter, the template files of placemat-menu, the reader of
    its YAML documents, and [hardware.go].  The well framework, errgroup, sabakan's client,
    the template engine and the YAML framer are classes. *)
From S2P Require Import Prelude GoStr GoTime Json Types Etcd Worlds Storage Watch Worker Rebooter Updater StateSetter.
From S2P Require Import GoNet Host Progs Operator BootIP Menu MenuSpec MenuConf GoURL Ext Upload CKEUpload Vault Setup.
From S2P Require Import NecoCmd NecoInit Leader NecoReboot Installer Generator.

Local Open Scope Z_scope.

(** well: [Go] of each function, [Stop] and [Wait], which ends with the first error or when
    all functions have returned; whether an error is that of a signal. *)
Class Well (W : Type) := {
  well_Wait : list (M W unit) → M W unit;
  IsSignaled : error → bool;
}.
(** What follows [well.Wait]: an error that no signal has caused ends the process with status 1. *)
Definition unless_signaled {W} `{Well W} `{Process W} (functions : list (M W unit)) : M W unit :=
  r ← attempt (well_Wait functions);
  match r with
  | inl e => if IsSignaled e then mret () else _ ← os_Exit 1; blocked
  | inr _ => mret ()
  end.

(** ** [worker/operator.go]: [NewOperator] *)
Record operator := {
  op_mylrn : Z;
  op_ghClient : HTTPClient;
  op_proxyClient : HTTPClient;
  op_localClient : HTTPClient;
  op_fetcher : ImageFetcher;
  op_containerRuntime : dockerRuntime;
}.
Section new_operator.
Context {W : Type} `{Etcd W} `{Files W}.
Definition NewOperator (mylrn : Z) : M W operator :=
  proxyClient ← ProxyHTTPClient;
  ghClient ← GitHubHTTPClient;
  proxy ← GetProxyConfig;
  env ← GetEnvConfig;
  fetcher ← lift (NewImageFetcher env);
  rt ← GetContainerRuntime proxy;
  mret {| op_mylrn := mylrn; op_ghClient := ghClient; op_proxyClient := proxyClient;
          op_localClient := LocalHTTPClient; op_fetcher := fetcher; op_containerRuntime := rt |}.
End new_operator.

(** ** neco-worker *)
Definition dockerDropInDir := "/etc/systemd/system/docker.service.d".
Definition resolvconf := "/etc/resolv.conf".
Definition resolv_contents : string := "nameserver 127.0.0.1
search cluster.local
options ndots:3
".

Section system.
Context {W : Type} `{Files W} `{Commands W}.
Definition configureSystemProxy (proxy : string) : M W unit :=
  if bool_decide (proxy = "") then mret ()
  else
    out ← wrapping "failed to invoke docker info" (checked_Output ["docker"; "info"; "-f"; "{{.HTTPProxy}}"]);
    if bool_decide (TrimSpace out = proxy) then mret ()
    else
      _ ← os_MkdirAll dockerDropInDir mode_755;
      let file := dockerDropInDir +:+ "/override.conf" in
      _ ← wrapping "failed to create override conf for docker" (os_OpenTrunc file mode_644);
      deferred (_ ← file_Write file (docker_override proxy); _ ← file_Sync file; RestartService "docker")
        (file_Close file).

(** The error of [IsActiveService] is dropped. *)
Definition configureSystemDNS : M W unit :=
  r ← attempt (IsActiveService "systemd-resolved");
  match r with
  | inr true => fail (ErrMsg "systemd-resolved.service is running")
  | _ =>
      _ ← wrapping "failed to create /etc/resolv.conf.tmp" (os_WriteFile (resolvconf +:+ ".tmp") resolv_contents mode_644);
      _ ← wrapping "failed to replace /etc/resolv.conf" (os_Rename (resolvconf +:+ ".tmp") resolvconf);
      cmd_Run ["sync"]
  end.
End system.

Section worker_main.
Context `{NetUtil} `{Yaml} `{GoVersion} {W : Type} `{Etcd W} `{Files W} `{Commands W} `{Clock W}
  `{EtcdAdmin W} `{Sessions W} `{Uploads W} `{Http W} `{GitHubAssets W} `{Process W} `{EtcdUtil W} `{Well W}.

(** The first goroutine; a missing proxy setting is the empty string. *)
Definition worker_body (fuel : nat) (version : string) (mylrn : Z) : M W unit :=
  r ← attempt GetProxyConfig;
  proxy ← match r with
          | inr proxy => mret proxy
          | inl ErrNotFound => mret ""
          | inl e => fail e
          end;
  _ ← configureSystemProxy proxy;
  _ ← configureSystemDNS;
  op ← NewOperator mylrn;
  with_local (NewWorker version mylrn)
    (Worker.Run (H0 := operator_ops CurrentArtifacts (op_mylrn op) (op_containerRuntime op) fuel) fuel).
(** [now] is the revision that the watch of the configuration starts at. *)
Definition neco_worker (fuel : nat) (now : Z) : M W unit :=
  _ ← or_exit 1 EtcdClient;
  version ← or_exit 1 (GetDebianVersion NecoPackageName);
  mylrn ← or_exit 1 MyLRN;
  unless_signaled [worker_body fuel version mylrn; WaitConfigChange now].
End worker_main.

(** ** neco-updater *)
Section updater_main.
Context {W : Type} `{Etcd W} `{Files W} `{EtcdUtil W} `{Sessions W} `{Election W} `{Process W} `{Well W}.
(** The flag session-ttl has the default 60s; [int(ttl.Seconds())] drops fractions (of
    binary64, which is exact enough below 2^22 seconds). *)
Definition neco_updater (fuel : nat) (now : Z) (flgSessionTTL : string) : M W unit :=
  ttl ← or_exit 1 (lift (ParseDuration flgSessionTTL));
  _ ← or_exit 1 EtcdClient;
  _ ← or_exit 1 (NewSession (Z.quot ttl Second));
  unless_signaled [(_ ← NewNotifier; Server_Run fuel); WaitConfigChange now].
End updater_main.

(** ** neco-rebooter *)
Class CKEConf (W : Type) `{EtcdUtil W} := { cke_NewEtcdConfig : EtcdConfig }.

Section rebooter_main.
Context `{ConfigYaml} `{Cron} {W : Type} `{Files W} `{EtcdUtil W} `{!CKEConf W} `{HostEnv W} `{Process W} `{Clock W}.

(** [config.go]; [ckeConfig] is the text of the file. *)
Definition NewCKEStorage (ckeConfig : string) : M W unit :=
  cfg ← lift (etcdutil_Unmarshal ckeConfig cke_NewEtcdConfig);
  etcdutil_NewClient cfg.

(** [controller.go]; the clients are the world. *)
Record RebooterController := {
  rc_config : NecoReboot.Config;
  rc_rebootTimes : gmap string RebootTime;
  rc_sessionTTL : Duration;
  rc_electionValue : string;
  rc_interval : Duration;
  rc_timeZone : Location;
}.
Definition Rebooter_NewController (config : NecoReboot.Config) (rt : gmap string RebootTime) (electionValue : string)
    : outcome RebooterController :=
  tz ← LoadLocation (cf_TimeZone config);
  Ok {| rc_config := config; rc_rebootTimes := rt; rc_sessionTTL := Minute; rc_electionValue := electionValue;
        rc_interval := Minute; rc_timeZone := tz |}.

(** [main] up to its goroutines; every error ends the process with status 1. *)
Definition rebooter_setup (flagConfigFile flagCKEConfig : string) : M W RebooterController :=
  data ← or_exit 1 (os_ReadFile flagConfigFile);
  c ← or_exit 1 (lift (LoadConfig data));
  t ← or_exit 1 (lift (GetRebootTime (cf_RebootTimes c)));
  ckeConf ← or_exit 1 (os_ReadFile flagCKEConfig);
  _ ← or_exit 1 (NewCKEStorage ckeConf);
  _ ← or_exit 1 EtcdClient;
  hostname ← or_exit 1 os_Hostname;
  or_exit 1 (lift (Rebooter_NewController c t hostname)).
(** The address of the metrics server. *)
Definition metrics_addr (c : NecoReboot.Config) : string := ":" +:+ Itoa (cf_MetricsPort c).

(** Why the context of [main] ends: a signal, or the error of [Run]. *)
Inductive Cause := SignalReceived | RunError (e : error).
(** The goroutine that runs the controller cancels only with an error: when [Run] returns
    without one, [main] goes on waiting. *)
Definition run_cause (r : outcome unit) : option Cause :=
  match r with Err e => Some (RunError e) | _ => None end.
(** [main] after the context is done: [srv.Shutdown] gets that context and returns at once, with
    an error that is dropped; nothing stops the timer. *)
Definition rebooter_end (cause : Cause) : M W unit :=
  _ ← clock_after (5 * Second);
  _ ← os_Exit (match cause with SignalReceived => 0 | RunError _ => 1 end);
  blocked.
End rebooter_main.

(** ** boot-ip-setter *)

(** net/http: [ListenAndServe] in a goroutine next to the context, and [Shutdown]; an
    error is what [ListenAndServe] returned. *)
Class HTTPServer (W : Type) := {
  serve_until_done : string → list string → M W (option error);
  server_Shutdown : Duration → M W unit;
}.
(** golang.org/x/sync/errgroup: the functions run until all have returned; the first error
    ends the context of the others. *)
Class ErrGroup (W : Type) := { group_Wait : list (M W unit) → M W unit }.

Section boot_ip_main.
Context {W : Type} `{NetworkInterface W} `{EtcdAdmin W} `{Clock W} `{Files W} `{EtcdUtil W} `{HostEnv W} `{HTTPServer W}
  `{ErrGroup (W * Z)}.

Definition hostnameHandler (hostname : string) : Z * string := (200, hostname).
Definition runHTTPServer (listenAddr : string) : M W unit :=
  r ← serve_until_done listenAddr ["/hostname"; "/metrics"];
  match r with
  | Some e => fail (ErrWrap "failed to listen" e)
  | None => _ ← wrapping "failed to shutdown" (server_Shutdown (5 * Second)); fail ErrCanceled
  end.
(** The counter of errors starts at 0 and is shared by the setter and the collector. *)
Definition subMain (fuel : nat) (interval : Duration) (listenAddr : string) : M W unit :=
  _ ← wrapping "failed to get hostname" os_Hostname;
  rack ← wrapping "failed to get logical rack number" MyLRN;
  _ ← wrapping "failed to create etcd client" EtcdClient;
  with_local 0 (group_Wait [runIPSetter fuel interval rack; on_world (runHTTPServer listenAddr)]).
Definition boot_ip_setter (fuel : nat) (interval : Duration) (listenAddr : string) : M W Z := λ w,
  let '(w', r) := subMain fuel interval listenAddr w in main_exit r w'.
End boot_ip_main.

(** ** find-installed-release, download-neco-deb *)
Section release_tools.
Context `{GoVersion} {W : Type} `{GitHub W} `{GitHubAssets W} `{Http W} `{HostEnv W} `{Console W} `{Process W} `{Well W}.

(** [github.go]: the client of the GitHub API. *)
Definition NewDefaultGitHubClient : M W HTTPClient :=
  token ← os_Getenv "GITHUB_TOKEN";
  mret (if bool_decide (token = "") then DefaultClient else TokenClient token DefaultClient).

(** [os.Args] with the name of the program. *)
Definition usage {A} : M W A := _ ← os_Exit 2; blocked.
Definition choose_tag (fuel : nat) (args : list string) : M W (M W string) :=
  match args with
  | [_; datacenter] =>
      _ ← NewDefaultGitHubClient;
      if bool_decide (datacenter = "staging") then mret (GetLatestPublishedTag fuel "release-")
      else if bool_decide (datacenter = "production") then mret GetLatestReleaseTag
      else usage
  | _ => usage
  end.
Definition or_report (body : M W unit) : M W unit := or_exit 1 (well_Wait [body]).

Definition find_installed_release (fuel : nat) (args : list string) : M W unit :=
  getTag ← choose_tag fuel args;
  or_report (tag ← getTag; stdout_Print (tag +:+ newline)).

Definition necoDeb (tag : string) : DebianPackage :=
  {| deb_Name := NecoPackageName; deb_Owner := GitHubRepoOwner; deb_Repository := GitHubRepoName;
     deb_Release := "release-" +:+ tag |}.
(** The status of the response is not looked at. *)
Definition download_body (fuel : nat) (getTag : M W string) : M W unit :=
  tag ← getTag;
  downloadURL ← GetGitHubDownloadURL fuel (necoDeb tag);
  token ← os_Getenv "GITHUB_TOKEN";
  _ ← http_Do downloadURL
        (("Accept", "application/octet-stream") ::
         (if bool_decide (token = "") then [] else [("Authorization", "Bearer " +:+ token)]));
  body ← http_Body;
  stdout_Print body.
Definition download_neco_deb (fuel : nat) (args : list string) : M W unit :=
  getTag ← choose_tag fuel args;
  or_report (download_body fuel getTag).
End release_tools.

(** ** download-container-images *)
Record DownloadSpec := { ds_FullName : string; ds_TarName : string }.
Definition tar_name (name tag : string) : string := "cybozu-" +:+ name +:+ "-" +:+ tag +:+ ".img".
Definition artifact_spec (img : ContainerImage) : DownloadSpec :=
  {| ds_FullName := FullName img true; ds_TarName := tar_name (img_Name img) (img_Tag img) |}.
(** The name of an image of CKE has a registry and an organization before its last part. *)
Definition cke_spec (fullName : string) : outcome DownloadSpec :=
  let names := Split ":" fullName in
  repository ← arg names 0;
  name ← arg (Split "/" repository) 2;
  tag ← arg names 1;
  Ok {| ds_FullName := fullName; ds_TarName := tar_name name tag |}.
Fixpoint cke_specs (names : list string) : outcome (list DownloadSpec) :=
  match names with
  | [] => Ok []
  | n :: names => s ← cke_spec n; ss ← cke_specs names; Ok (s :: ss)
  end.

Section download_images.
Context {W : Type} `{Commands W} `{Console W} `{Process W}.
(** One image: whether to go on; after an error [main] returns, with status 0. *)
Definition download_image (downloadDir : string) (img : DownloadSpec) : M W bool :=
  _ ← stdout_Print (newline +:+ "*** downloading " +:+ ds_FullName img +:+ newline);
  r ← attempt (cmd_Run ["docker"; "pull"; ds_FullName img]);
  match r with
  | inl e => _ ← stdout_Print ("docker pull failed: " +:+ error_text e); mret false
  | inr _ =>
      let imgTarName := Join_path [downloadDir; ds_TarName img] in
      _ ← stdout_Print ("*** saving " +:+ ds_FullName img +:+ " to " +:+ imgTarName +:+ newline);
      r ← attempt (cmd_Run ["docker"; "save"; "-o"; imgTarName; ds_FullName img]);
      match r with
      | inl e => _ ← stdout_Print ("docker save failed: " +:+ error_text e); mret false
      | inr _ => _ ← stdout_Print ("ok" +:+ newline); mret true
      end
  end.
Fixpoint download_images (downloadDir : string) (specs : list DownloadSpec) : M W unit :=
  match specs with
  | [] => mret ()
  | img :: specs =>
      ok ← download_image downloadDir img;
      if (ok : bool) then download_images downloadDir specs else mret ()
  end.
(** [AllImages] is that of CKE. *)
Definition download_container_images (AllImages args : list string) : M W unit :=
  match args with
  | [_; downloadDir] =>
      specs ← lift (cke_specs AllImages);
      download_images downloadDir (map artifact_spec (as_Images CurrentArtifacts) ++ specs)
  | _ => _ ← os_Exit 2; blocked
  end.
End download_images.

(** ** [hardware.go] *)
Inductive HardwareType := HWTypeNil | HWTypeVM | HWTypeContainer | HWTypeDell.
Section hardware.
Context {W : Type} `{Files W} `{Commands W}.
(** systemd-detect-virt fails where there is no virtualization, and says none. *)
Definition systemdDetectVirt : M W string :=
  '(out, err) ← cmd_Output ["systemd-detect-virt"];
  let t := TrimSpace out in
  match err with
  | Some e => if bool_decide (t = "none") then mret t else fail e
  | None => mret t
  end.
Definition vms : list string :=
  ["qemu"; "kvm"; "zvm"; "vmware"; "microsoft"; "oracle"; "xen"; "bochs"; "uml"; "parallels"; "bhyve"].
Definition containers : list string := ["openvz"; "lxc"; "lxc-libvirt"; "systemd-nspawn"; "docker"].
Definition DetectHardware : M W HardwareType :=
  t ← systemdDetectVirt;
  if bool_decide (t ∈ vms) then mret HWTypeVM
  else if bool_decide (t ∈ containers) then mret HWTypeContainer
  else if negb (bool_decide (t = "none")) then fail (ErrMsg ("unsupported hardware type: " +:+ t))
  else
    vendorBytes ← os_ReadFile "/sys/class/dmi/id/chassis_vendor";
    let vendor := TrimSpace vendorBytes in
    if bool_decide (vendor = "Dell Inc.") then mret HWTypeDell
    else fail (ErrMsg ("unsupported hardware vendor: " +:+ vendor)).
End hardware.

(** ** ignition-template *)

(** sabakan's [BuildIgnitionTemplate], ignition's configuration as far as it is used, and
    the escapes of data URLs. *)
Class IgnitionTools (W : Type) := {
  BuildIgnitionTemplate : string → M W string;
  IgnConfig : Type;
  (* a pointer, which JSON null leaves nil *)
  ign_Unmarshal : string → outcome (option IgnConfig);
  ign_Sources : IgnConfig → list string;
  ign_WithSources : IgnConfig → list string → IgnConfig;
  ign_Yaml : IgnConfig → outcome string;
  dataurl_Unescape : string → outcome string;
}.
(** [strings.ReplaceAll(s, old, "")] of a text that is not empty; [n] bounds the text. *)
Fixpoint remove_all (n : nat) (old s : string) : string :=
  match n, s with
  | S n, String c t => if HasPrefix s old then remove_all n old (str_drop (String.length old) s) else String c (remove_all n old t)
  | _, _ => s
  end.
Definition RemoveAll (old s : string) : string := remove_all (String.length s) old s.

Section ignition.
Context {W : Type} `{Files W} `{Console W} `{IgnitionTools W}.
Definition fileExists (path : string) : M W bool :=
  r ← attempt (os_Stat path);
  match r with
  | inr _ => mret true
  | inl e => if IsNotExist e then mret false else fail e
  end.
Fixpoint unescape_sources (sources : list string) : outcome (list string) :=
  match sources with
  | [] => Ok []
  | s :: sources => t ← dataurl_Unescape (RemoveAll "data:," s); ts ← unescape_sources sources; Ok (t :: ts)
  end.
(** [abs] is the absolute path of ../ignitions/roles. *)
Definition buildConfig (abs cluster role : string) : M W unit :=
  if bool_decide (role = "") then fail (ErrMsg "please set role argument")
  else
    let path := Join_path [abs; role; "site-" +:+ cluster +:+ ".yml"] in
    exist ← fileExists path;
    tmpl ← BuildIgnitionTemplate (if exist : bool then path else Join_path [abs; role; "site.yml"]);
    cfg ← lift (ign_Unmarshal tmpl);
    match cfg with
    | None => panic "nil pointer dereference"
    | Some cfg =>
        sources ← lift (unescape_sources (ign_Sources cfg));
        data ← lift (ign_Yaml (ign_WithSources cfg sources));
        stdout_Print data
    end.
End ignition.

(** ** placemat-menu *)

(** [menu.go]: k8s's framer puts the next document, or the next part of one that does not
    fit, into a buffer of the given length. *)
Inductive FrameEnd := FrameDone | FrameShort | FrameErr (e : error).
Class Framer (W : Type) := {
  frame_Open : string → M W unit;
  frame_Read : Z → M W (string * FrameEnd);
}.
Definition EOF : error := ErrMsg "EOF".
Definition maxBytes : Z := 16 * 1024 * 1024.

Section documents.
Context {W : Type} `{Framer W}.
(** [buf] is the text that was read, [cap] the length of the buffer: it doubles in each
    round, from 1024 to [maxBytes], which fifteen rounds cover. *)
Fixpoint read_doc_loop (rounds : nat) (cap : Z) (buf : string) : M W string :=
  match rounds with
  | O => blocked
  | S rounds =>
      let base := Z.of_nat (String.length buf) in
      '(text, e) ← frame_Read (cap - base);
      match e with
      | FrameShort =>
          if bool_decide (text = "") then
            fail (ErrMsg ("got short buffer with n=0, base=" +:+ Itoa base +:+ ", cap=" +:+ Itoa cap))
          else if cap <? maxBytes then read_doc_loop rounds (2 * cap) (buf +:+ text)
          else fail (ErrMsg "yaml document is too large")
      | FrameErr e => fail e
      | FrameDone => mret (buf +:+ text)
      end
  end.
Definition readSingleYamlDoc : M W string := read_doc_loop 15 1024 "".

Context `{NetUtil} `{MenuYaml} `{IPAMFiles W}.
(** The loop of [Parse]: only [io.EOF] is looked at; [fuel] bounds the documents. *)
Fixpoint parse_frames (fuel : nat) (menuFileDir : string) (m : menu) : M W menu :=
  match fuel with
  | O => blocked
  | S fuel =>
      r ← attempt readSingleYamlDoc;
      match r with
      | inl e =>
          if bool_decide (e = EOF) then mret m
          else m ← parse_doc menuFileDir m ""; parse_frames fuel menuFileDir m
      | inr y => m ← parse_doc menuFileDir m y; parse_frames fuel menuFileDir m
      end
  end.
Definition empty_menu : menu :=
  {| mn_network := None; mn_inventory := None; mn_images := []; mn_deviceclasses := []; mn_nodes := [] |}.
End documents.

(** The embedded files of [menu/assets], text/template (what is written also when the
    execution fails), and the JSON of sabakan's machines. *)
Class MenuAssets := {
  assets_ReadFile : string → outcome string;
  Template : Type;
  template_Parse : string → string → outcome Template;
  template_Execute : Template → TemplateArgs → string * option error;
  machine_spec_json : MachineSpec → json;
}.
Class Chmod (W : Type) := { file_Chmod : string → Z → M W unit }.

Section templates.
Context `{MenuAssets} {W : Type} `{Files W} `{Chmod W}.
Definition mode_create : Z := 438.
(** [os.Create], and [body] gives what is written. *)
Definition created (output : string) (body : M W unit) : M W unit :=
  _ ← os_OpenTrunc output mode_create; deferred body (file_Close output).
Definition execute_to (tmpl : Template) (output : string) (args : TemplateArgs) : M W unit :=
  let '(text, err) := template_Execute tmpl args in
  _ ← file_Write output text;
  match err with Some e => fail e | None => mret () end.
Definition export_embedded (input output : string) (args : TemplateArgs) : M W unit :=
  created output
    (content ← lift (assets_ReadFile (Join_path ["assets"; input]));
     tmpl ← lift (template_Parse input content);
     execute_to tmpl output args).
Definition export_file (input output : string) (args : TemplateArgs) : M W unit :=
  created output
    (content ← os_ReadFile input;
     tmpl ← lift (template_Parse input content);
     execute_to tmpl output args).
Definition export_json (dst : string) (data : list MachineSpec) : M W unit :=
  created dst (file_Write dst (print_indent 0 (match data with [] => JNull | _ => JArr (map machine_spec_json data) end) newline)).
Definition copy_file (src dist : string) : M W unit :=
  data ← lift (assets_ReadFile (Join_path ["assets"; src]));
  os_WriteFile dist data mode_644.
#[export] Instance template_export : Export W := {
  export := export_embedded;
  exportFile := export_file;
  exportJSON := export_json;
  copyFile := copy_file;
  os_Chmod := file_Chmod;
}.
End templates.

Section placemat_menu.
Context `{NetUtil} `{MenuYaml} `{Sha1} `{MenuAssets} {W : Type} `{Files W} `{Chmod W} `{Framer W} `{IPAMFiles W}
  `{!SpecWriter W} `{Console W} `{Process W}.
(** [run]; [os.Open] and the frame reader are one. *)
Definition placemat_run (fuel : nat) (flagConfig flagOutDir : string) : M W unit :=
  configFile ← filepath_Abs flagConfig;
  let inputDir := Dir configFile in
  outputDir ← filepath_Abs flagOutDir;
  _ ← frame_Open configFile;
  m ← parse_frames fuel inputDir empty_menu;
  img ← lift (FindContainerImage CurrentArtifacts "chrony");
  cluster ← lift (NewCluster m);
  MenuConf.Generate cluster inputDir outputDir (img_Tag img).
Definition placemat_menu (fuel : nat) (flagConfig flagOutDir : string) : M W unit :=
  r ← attempt (placemat_run fuel flagConfig flagOutDir);
  match r with
  | inl e => _ ← stdout_Print (error_text e +:+ newline); _ ← os_Exit 1; blocked
  | inr _ => mret ()
  end.
End placemat_menu.

(** ** sabakan-state-setter: the clients *)

(** [necocommand.go]: [CombinedOutput] of a command. *)
Class Combined (W : Type) := { cmd_CombinedOutput : list string → M W string }.
#[export] Instance necoCmdExecutor {W} `{Combined W} : StateSetter.NecoCmd W := {
  PowerStop serial := cmd_CombinedOutput ["neco"; "power"; "stop"; serial];
  PowerStatus serial := cmd_CombinedOutput ["neco"; "power"; "status"; serial];
  TPMClear serial := cmd_CombinedOutput ["neco"; "tpm"; "clear"; "--force"; serial];
}.

(** [prometheus.go]: the whole exchange has ten seconds; the status is not looked at. *)
Class MetricsText := { TextToMetricFamilies : string → outcome (gmap string MetricFamily) }.
#[export] Instance promClient `{MetricsText} {W} `{Http W} : PromServer W := {
  ConnectMetricsServer addr :=
    _ ← http_Do ("http://" +:+ addr +:+ ":9105/metrics") [];
    body ← http_Body;
    lift (TextToMetricFamilies body);
}.

(** [sabakan.go] *)
Class SabakanGQL (W : Type) := {
  (* a POST of JSON to the endpoint, and the body of the answer *)
  gql_Post : string → string → M W string;
  (* the JSON of [model.MachineParams] with the given states *)
  MachineParams_json : list string → json;
  GQLEnum : string → string;
  (* [gqlerror.Error] *)
  gqlerror_decode : json → outcome error;
  tls_CryptsDelete : string → M W unit;
  (* the check of the address by sabakan's client; [URL.String] after [path.Join] on its path *)
  sabac_NewClient : string → outcome unit;
  url_JoinPath : string → string → string;
}.

Definition decode_list {A} (decode : json → outcome A) (j : json) : outcome (list A) :=
  match j with
  | JArr l => outcomes decode l
  | JNull => Ok []
  | _ => type_error
  end.
Record graphQLRequest := { gq_Query : string; gq_Having : option (list string) }.
Record graphQLResponse := { gr_Data : option json; gr_Errors : list error }.

Definition decode_label (j : json) : outcome label :=
  decode_struct (λ f j l,
    if field_named "name" f then s ← decode_string (lb_Name l) j; Ok {| lb_Name := s; lb_Value := lb_Value l |}
    else if field_named "value" f then s ← decode_string (lb_Value l) j; Ok {| lb_Name := lb_Name l; lb_Value := s |}
    else Ok l) {| lb_Name := ""; lb_Value := "" |} j.
Definition zero_machine : searchMachine := {| sm_Serial := ""; sm_Labels := []; sm_IPv4 := []; sm_State := "" |}.
Definition decode_spec (m : searchMachine) (j : json) : outcome searchMachine :=
  decode_struct (λ f j m,
    if field_named "serial" f then
      s ← decode_string (sm_Serial m) j;
      Ok {| sm_Serial := s; sm_Labels := sm_Labels m; sm_IPv4 := sm_IPv4 m; sm_State := sm_State m |}
    else if field_named "labels" f then
      l ← decode_list decode_label j;
      Ok {| sm_Serial := sm_Serial m; sm_Labels := l; sm_IPv4 := sm_IPv4 m; sm_State := sm_State m |}
    else if field_named "ipv4" f then
      l ← decode_list (decode_string "") j;
      Ok {| sm_Serial := sm_Serial m; sm_Labels := sm_Labels m; sm_IPv4 := l; sm_State := sm_State m |}
    else Ok m) m j.
Definition decode_state (m : searchMachine) (j : json) : outcome searchMachine :=
  decode_struct (λ f j m,
    if field_named "state" f then
      s ← decode_string (sm_State m) j;
      Ok {| sm_Serial := sm_Serial m; sm_Labels := sm_Labels m; sm_IPv4 := sm_IPv4 m; sm_State := s |}
    else Ok m) m j.
Definition decode_machine (j : json) : outcome searchMachine :=
  decode_struct (λ f j m,
    if field_named "spec" f then decode_spec m j
    else if field_named "status" f then decode_state m j
    else Ok m) zero_machine j.
(** [json.Unmarshal] of the data; a response without data is an empty text. *)
Definition decode_machines (data : option json) : outcome (list searchMachine) :=
  match data with
  | None => Err (ErrMsg "unexpected end of JSON input")
  | Some j => decode_struct (λ f j ms, if field_named "searchMachines" f then decode_list decode_machine j else Ok ms) [] j
  end.

Definition search_query : string := "
query search($having: MachineParams) {
  searchMachines(having: $having, notHaving: null) {
    spec {
      serial
      labels {
        name
        value
      }
      ipv4
    }
    status {
      state
    }
  }
}".

Section gql.
Context {W : Type} `{SabakanGQL W}.
Variable gqlEndpoint : string.

Definition request_json (greq : graphQLRequest) : json :=
  JObj [("query", JStr (gq_Query greq));
        ("variables", JObj [("having", match gq_Having greq with Some states => MachineParams_json states | None => JNull end)])].
Definition decode_response (j : json) : outcome graphQLResponse :=
  decode_struct (λ f j r,
    if field_named "data" f then Ok {| gr_Data := Some j; gr_Errors := gr_Errors r |}
    else if field_named "errors" f then es ← decode_list gqlerror_decode j; Ok {| gr_Data := gr_Data r; gr_Errors := es |}
    else Ok r) {| gr_Data := None; gr_Errors := [] |} j.
Definition requestGQL (greq : graphQLRequest) : M W (option json) :=
  body ← gql_Post gqlEndpoint (print (request_json greq) "");
  match parse_value (S (String.length body)) body with
  | None => fail (ErrMsg "invalid JSON")
  | Some (j, _) =>
      gresp ← lift (decode_response j);
      match gr_Errors gresp with
      | e :: _ => fail e
      | [] => mret (gr_Data gresp)
      end
  end.
Definition set_state_query (serial state : string) : string := "mutation {
  setMachineState(serial: " +:+ dquote +:+ serial +:+ dquote +:+ ", state: " +:+ GQLEnum state +:+ ") {
    state
  }
}".
(** What [getMachines], [UpdateSabakanState] and [CryptsDelete] ask of sabakan. *)
Definition sabacWrapper : SabakanServer W := {|
  gql_searchMachines having :=
    data ← requestGQL {| gq_Query := search_query; gq_Having := having |}; lift (decode_machines data);
  gql_setMachineState serial state :=
    _ ← requestGQL {| gq_Query := set_state_query serial state; gq_Having := None |}; mret ();
  sabakan_CryptsDelete := tls_CryptsDelete;
|}.
(** The endpoint that the wrapper keeps. *)
Definition newSabakanClientWrapper (sabakanAddress sabakanAddressHTTPS : string) : outcome string :=
  _ ← sabac_NewClient sabakanAddressHTTPS;
  _ ← url_Parse sabakanAddress;
  Ok (url_JoinPath sabakanAddress "/graphql").
End gql.

(** ** sabakan-state-setter: the configuration and [main] *)

(** [time.Duration(v)] of a number: towards zero, and the least integer where it does not fit. *)
Definition duration_of_float (x : float64) : Duration :=
  let z := match x with
           | SpecFloat.S754_finite s m e =>
               let n := if 0 <=? e then Zpos m * 2 ^ e else Zpos m / 2 ^ (- e) in
               if (s : bool) then - n else n
           | SpecFloat.S754_zero _ => 0
           | _ => int64_min
           end in
  if (int64_min <=? z) && (z <=? int64_max) then z else int64_min.
Definition duration_MarshalJSON (d : Duration) : json := JStr (Duration_String d).
Definition duration_UnmarshalJSON `{FloatText} (j : json) : outcome Duration :=
  match j with
  | JNum text => v ← ParseFloat text; Ok (duration_of_float v)
  | JStr v => ParseDuration v
  | _ => Err (ErrMsg "invalid duration")
  end.

Class StateSetterYaml := { state_setter_Unmarshal : string → outcome config }.
Class SerfClients (W : Type) := { serf_NewRPCClient : string → M W unit }.

(** [Controller]; its clients are the world, the endpoint of sabakan and the alerts to look for. *)
Record StateSetterController := {
  sc_electionValue : string;
  sc_sessionTTL : Duration;
  sc_gqlEndpoint : string;
  sc_interval : Duration;
  sc_shutdownSchedule : string;
  sc_settings : Settings;
  sc_unhealthyMachines : gmap string Time;
}.
Record StateSetterFlags := {
  fg_configFile : string;
  fg_etcdSessionTTL : Duration;
  fg_interval : Duration;
  fg_parallelSize : Z;
  fg_sabakanURL : string;
  fg_sabakanURLHTTPS : string;
  fg_serfAddress : string;
}.
Definition default_flags : StateSetterFlags :=
  {| fg_configFile := ""; fg_etcdSessionTTL := Minute; fg_interval := Minute; fg_parallelSize := 30;
     fg_sabakanURL := "http://localhost:10080"; fg_sabakanURLHTTPS := "https://localhost:10443";
     fg_serfAddress := "127.0.0.1:7373" |}.

Section state_setter_main.
Context `{MachineStates} `{StateSetterYaml} {W : Type} `{Files W} `{EtcdUtil W} `{HostEnv W} `{SabakanGQL W} `{SerfClients W}
  `{Process W} `{Well W}.

Definition readConfigFile (name : string) : M W (string * gmap string machineType * option alertMonitor) :=
  data ← os_ReadFile name;
  lift (cfg ← state_setter_Unmarshal data; parseConfig cfg).
(** The alerts to look for; without a monitor the client is nil. *)
Definition newAlertmanagerClient (am : option alertMonitor) : outcome (option (list triggerAlert)) :=
  match am with
  | None => Ok None
  | Some am => _ ← url_Parse (al_AlertmanagerEndpoint am); Ok (Some (al_TriggerAlerts am))
  end.
Definition newSerfClient (address : string) : M W unit := serf_NewRPCClient address.

Definition StateSetter_NewController (flags : StateSetterFlags) (electionValue : string) : M W StateSetterController :=
  '(shutdownSchedule, machineTypes, alertMonitor) ← readConfigFile (fg_configFile flags);
  gqlEndpoint ← lift (newSabakanClientWrapper (fg_sabakanURL flags) (fg_sabakanURLHTTPS flags));
  _ ← newSerfClient (fg_serfAddress flags);
  triggers ← lift (newAlertmanagerClient alertMonitor);
  mret {| sc_electionValue := electionValue; sc_sessionTTL := fg_etcdSessionTTL flags; sc_gqlEndpoint := gqlEndpoint;
          sc_interval := fg_interval flags; sc_shutdownSchedule := shutdownSchedule;
          sc_settings := {| c_parallelSize := fg_parallelSize flags; c_machineTypes := machineTypes; c_triggerAlerts := triggers |};
          sc_unhealthyMachines := ∅ |}.

(** [run] is [Run] of the controller. *)
Definition sabakan_state_setter (run : StateSetterController → M W unit) (flags : StateSetterFlags) : M W unit :=
  hostname ← or_exit 1 os_Hostname;
  _ ← or_exit 1 EtcdClient;
  unless_signaled
    [(r ← attempt (StateSetter_NewController flags hostname);
      match r with
      | inl e => fail (ErrMsg ("failed to create controller: " +:+ error_text e))
      | inr ctr => run ctr
      end)].
End state_setter_main.
