(* ===== verification/NecoTrace.v ===== *)
(** * The record of a neco command

    What a command reads and does outside, in order, for the theorems about reboots,
    TPM devices and shutdowns. *)
From S2P Require Import Prelude GoStr GoTime Json Types Etcd Worlds Storage.
From S2P Require Import Updater GoNet Host Progs Operator Ext Trace Upload Vault Setup.
From S2P Require Import NecoCmd NecoInit NecoPower NecoReboot NecoShutdown.

Local Open Scope Z_scope.

Inductive CmdEffect :=
  | Machines (params : list (string * string)) (ms : list Machine)
  | Ran (argv : list string)
  | Said (argv : list string) (out : string)
  | EtcdPut (k : string)
  | EtcdTxn (cs : list Cmp) (ops : list Op)
  | EtcdDeleted (k : string)
  | Asset (name : string)
  | Connected (endpoint : string)
  | Reset (resetType : string)
  | BiosUpdated
  | JobPosted
  | NodesListed (ns : list KubeNode)
  | Classes (scs : list StorageClass)
  | Clusters (id : string) (items : list NamespacedName)
  | FenceMade (f : NetworkFence)
  | FenceRead (name : string) (f : NetworkFence)
  | FenceAbsent (name : string)
  | FenceUpdated (f : NetworkFence)
  | FenceDeleted (f : NetworkFence) (ok : bool)
  | NodeRead (n : Node)
  | NodeUpdated (n : Node) (ok : bool)
  | Attachments (nodes : list string).

Abbreviation NW W := (Traced CmdEffect W).
Definition done_ok {A} (r : outcome A) : bool := match r with Ok _ => true | _ => false end.
(** What a read that succeeded is recorded as. *)
Definition reads {A} (e : A → CmdEffect) (r : outcome A) : list CmdEffect := match r with Ok a => [e a] | _ => [] end.

Section instances.
Context {W : Type}.
#[export] Instance cm_files `{Files W} : Files (NW W) := {
  os_Stat n := traced (λ _, []) (os_Stat n);
  os_ReadFile n := traced (λ _, []) (os_ReadFile n);
  os_OpenTrunc n m := traced (λ _, []) (os_OpenTrunc n m);
  file_Write n d := traced (λ _, []) (file_Write n d);
  file_Sync n := traced (λ _, []) (file_Sync n);
  file_Close n := traced (λ _, []) (file_Close n);
  os_MkdirAll n m := traced (λ _, []) (os_MkdirAll n m);
  os_Remove n := traced (λ _, []) (os_Remove n);
  os_Rename a b := traced (λ _, []) (os_Rename a b);
  os_Chown n u g := traced (λ _, []) (os_Chown n u g);
  os_CreateTemp p := traced (λ _, []) (os_CreateTemp p);
}.
#[export] Instance cm_commands `{Commands W} : Commands (NW W) := {
  cmd_Run argv := traced (λ _, [Ran argv]) (cmd_Run argv);
  cmd_Output argv := traced (λ r, match r with Ok (out, None) => [Said argv out] | _ => [Ran argv] end) (cmd_Output argv);
  cmd_RunInput argv input := traced (λ _, [Ran argv]) (cmd_RunInput argv input);
}.
#[export] Instance cm_clock `{Clock W} : Clock (NW W) := {
  clock_now := traced (λ _, []) clock_now;
  clock_after d := traced (λ _, []) (clock_after d);
}.
#[export] Instance cm_etcd `{Etcd W} : Etcd (NW W) := {
  etcd_get k o := traced (λ _, []) (etcd_get k o);
  etcd_put k v := traced (λ _, [EtcdPut k]) (etcd_put k v);
  etcd_delete k := traced (λ _, [EtcdDeleted k]) (etcd_delete k);
  etcd_txn cs ops := traced (λ _, [EtcdTxn cs ops]) (etcd_txn cs ops);
  etcd_recv o rev := traced (λ _, []) (etcd_recv o rev);
}.
#[export] Instance cm_util `{EtcdUtil W} : EtcdUtil (NW W) := {
  EtcdConfig := EtcdConfig (W := W);
  etcdutil_NewConfig := etcdutil_NewConfig (W := W);
  etcdutil_Unmarshal := etcdutil_Unmarshal (W := W);
  etcdutil_NewClient c := traced (λ _, []) (etcdutil_NewClient c);
}.
#[export] Instance cm_admin `{EtcdAdmin W} : EtcdAdmin (NW W) := {
  etcd_NewClient c k := traced (λ _, []) (etcd_NewClient c k);
  etcd_ClientClose := traced (λ _, []) etcd_ClientClose;
  etcd_MemberList := traced (λ _, []) etcd_MemberList;
  etcd_MemberAdd u := traced (λ _, []) (etcd_MemberAdd u);
  etcd_MemberRemove i := traced (λ _, []) (etcd_MemberRemove i);
  etcd_Status := traced (λ _, []) etcd_Status;
  etcdutil_Config := etcdutil_Config (W := W);
}.
#[export] Instance cm_console `{Console W} : Console (NW W) := {
  stdout_Print s := traced (λ _, []) (stdout_Print s);
  stdin_ReadAll := traced (λ _, []) stdin_ReadAll;
  ui_Ask q := traced (λ _, []) (ui_Ask q);
}.
#[export] Instance cm_saba `{SabaClient W} : SabaClient (NW W) := {
  saba_NewClient u := traced (λ _, []) (saba_NewClient u);
  saba_ImagesIndex o := traced (λ _, []) (saba_ImagesIndex o);
  saba_ImagesUpload o v k ks i is_ := traced (λ _, [Asset v]) (saba_ImagesUpload o v k ks i is_);
  saba_AssetsInfo n := traced (λ _, []) (saba_AssetsInfo n);
  saba_AssetsUpload n f := traced (λ _, [Asset n]) (saba_AssetsUpload n f);
  saba_IsNotFound := saba_IsNotFound (W := W);
  saba_IgnitionsListIDs role := traced (λ _, []) (saba_IgnitionsListIDs role);
  IgnitionTemplate := IgnitionTemplate (W := W);
  saba_BuildIgnitionTemplate p m := traced (λ _, []) (saba_BuildIgnitionTemplate p m);
  saba_IgnitionsSet role id t := traced (λ _, [Asset id]) (saba_IgnitionsSet role id t);
  saba_MachinesGet ps := traced (reads (Machines ps)) (saba_MachinesGet ps);
  DHCPConfig := DHCPConfig (W := W);
  saba_DecodeDHCPConfig := saba_DecodeDHCPConfig (W := W);
  saba_DHCPConfigSet c := traced (λ _, []) (saba_DHCPConfigSet c);
}.
#[export] Instance cm_redfish `{Redfish W} : Redfish (NW W) := {
  RfClient := RfClient (W := W);
  RfSystem := RfSystem (W := W);
  RfBios := RfBios (W := W);
  RfResponse := RfResponse (W := W);
  rf_Connect e u p := traced (λ _, [Connected e]) (rf_Connect e u p);
  rf_Logout c := traced (λ _, []) (rf_Logout c);
  rf_Systems c := traced (λ _, []) (rf_Systems c);
  rf_PowerState := rf_PowerState (W := W);
  rf_TrustedModules := rf_TrustedModules (W := W);
  rf_Reset s t := traced (λ _, [Reset t]) (rf_Reset s t);
  rf_Bios s := traced (λ _, []) (rf_Bios s);
  rf_Attributes := rf_Attributes (W := W);
  rf_UpdateBiosAttributes b a := traced (λ _, [BiosUpdated]) (rf_UpdateBiosAttributes b a);
  rf_Post c u p := traced (λ _, [JobPosted]) (rf_Post c u p);
  rf_LocationPath := rf_LocationPath (W := W);
}.
#[export] Instance cm_kube `{Kube W} : Kube (NW W) := {
  kube_BuildConfigFromFlags f := traced (λ _, []) (kube_BuildConfigFromFlags f);
  kube_NewForConfig := traced (λ _, []) kube_NewForConfig;
  kube_ListNodes := traced (reads NodesListed) kube_ListNodes;
  cmd_RunTo argv f := traced (λ _, [Ran argv]) (cmd_RunTo argv f);
  cke_NewStorage c := traced (λ _, []) (cke_NewStorage c);
  cke_IsRebootQueueDisabled := traced (λ _, []) cke_IsRebootQueueDisabled;
}.
#[export] Instance cm_iface `{Iface W} : Iface (NW W) := {
  link_ByName n := traced (λ _, []) (link_ByName n);
  link_AddrsV4 n := traced (λ _, []) (link_AddrsV4 n);
}.
#[export] Instance cm_api `{KubeApi W} : KubeApi (NW W) := {
  k8s_Client c := traced (λ _, []) (k8s_Client c);
  k8s_GetNode n := traced (reads NodeRead) (k8s_GetNode n);
  k8s_UpdateNode n := traced (λ r, [NodeUpdated n (done_ok r)]) (k8s_UpdateNode n);
  k8s_ListStorageClasses := traced (reads Classes) k8s_ListStorageClasses;
  k8s_ListCephClusters id := traced (reads (Clusters id)) (k8s_ListCephClusters id);
  k8s_CreateFence f := traced (λ _, [FenceMade f]) (k8s_CreateFence f);
  k8s_GetFence n := traced (λ r, match r with
                                 | Ok f => [FenceRead n f]
                                 | Err e => if api_IsNotFound (W := W) e then [FenceAbsent n] else []
                                 | _ => []
                                 end) (k8s_GetFence n);
  k8s_UpdateFence f := traced (λ _, [FenceUpdated f]) (k8s_UpdateFence f);
  k8s_DeleteFence f := traced (λ r, [FenceDeleted f (done_ok r)]) (k8s_DeleteFence f);
  k8s_ListVolumeAttachments := traced (reads Attachments) k8s_ListVolumeAttachments;
  api_IsNotFound := api_IsNotFound (W := W);
  api_IsAlreadyExists := api_IsAlreadyExists (W := W);
}.
End instances.

(** Membership only grows. *)
Lemma mem_l {E} (x : E) es es' : x ∈ es → x ∈ es ++ es'.
Proof. intros. apply elem_of_app. auto. Qed.
Lemma mem_r {E} (x : E) es es' : x ∈ es' → x ∈ es ++ es'.
Proof. intros. apply elem_of_app. auto. Qed.
#[export] Hint Resolve mem_l mem_r : twp.
