(* ===== verification/ShutdownProofs.v ===== *)
(** * Non-graceful shutdown is in order

    A node that still runs, or can still write to its volumes, must not be tainted out
    of service: Kubernetes would attach the volumes to another node.  Conversely a fence
    may go only when its operation has been undone. *)
From S2P Require Import Prelude GoStr GoTime Json Types Etcd Worlds Storage.
From S2P Require Import Updater GoNet Host Progs Operator Trace Upload TraceLoops Vault Setup.
From S2P Require Import NecoCmd NecoInit NecoPower NecoReboot NecoShutdown NecoTrace.

Local Open Scope Z_scope.

Section shutdown.
Context `{K8sValues} {W : Type} `{Commands W} `{Clock W} `{Console W} `{KubeApi W}.

(** ** What is known before a step *)

(** The power of the node was read and was not on. *)
Definition powered_off (node : string) (es : list CmdEffect) : Prop :=
  ∃ out, Said ["neco"; "power"; "status"; node] out ∈ es ∧ TrimSpace out ≠ "On".
(** The fences of all clusters of the storage classes were read, each after success. *)
Definition fenced (node : string) (c : NamespacedName) (es : list CmdEffect) : Prop :=
  ∃ f, FenceRead (generateFenceName (nn_Name c) node) f ∈ es ∧ nf_Result f = FencingOperationResultSucceeded.
Definition clusters_of (scs : list StorageClass) (cs : list NamespacedName) (es : list CmdEffect) : Prop :=
  Forall2 (λ id c, Clusters id [c] ∈ es) (rbd_cluster_ids scs) cs.
Definition for_clusters (R : NamespacedName → list CmdEffect → Prop) (es : list CmdEffect) : Prop := ∃ scs cs,
  Classes scs ∈ es ∧ clusters_of scs cs es ∧ Forall (λ c, R c es) cs.

Lemma powered_off_mono node : lasting (powered_off node).
Proof. intros es es'. unfold powered_off. setoid_rewrite elem_of_app. naive_solver. Qed.
Lemma fenced_mono node c : lasting (fenced node c).
Proof. intros es es'. unfold fenced. setoid_rewrite elem_of_app. naive_solver. Qed.
Lemma clusters_mono scs cs : lasting (clusters_of scs cs).
Proof. intros es es' [Hc|Hc]; (eapply Forall2_impl; [exact Hc|]); intros; rewrite elem_of_app; auto. Qed.
Lemma for_clusters_mono R : (∀ c, lasting (R c)) → lasting (for_clusters R).
Proof.
  intros HR es es' [(scs & cs & Hs & Hc & Hf)|(scs & cs & Hs & Hc & Hf)]; exists scs, cs;
    (split; [set_solver|split; [apply clusters_mono; auto|]]); (eapply Forall_impl; [exact Hf|]); intros c ?;
    apply (HR c); auto.
Qed.

(** ** Nothing but reads *)
Section reads.
Context (P : CmdEffect → Prop).
Hypothesis P_said : ∀ argv out, P (Said argv out).
Hypothesis P_ran : ∀ argv, P (Ran argv).
Hypothesis P_node : ∀ n, P (NodeRead n).
Hypothesis P_classes : ∀ scs, P (Classes scs).
Hypothesis P_clusters : ∀ id cs, P (Clusters id cs).
Hypothesis P_fence : ∀ n f, P (FenceRead n f).
Hypothesis P_absent : ∀ n, P (FenceAbsent n).
Hypothesis P_attached : ∀ l, P (Attachments l).
Ltac nc := all_walk ltac:(repeat (match goal with |- context [match ?x with _ => _ end] => destruct x end); repeat constructor; auto).

Lemma all_Println s : twp (W := W) (Println s) (all_of P).
Proof. unfold Println. nc. Qed.
Lemma all_cm_Sleep d : twp (W := W) (Sleep d) (all_of P).
Proof. unfold Sleep. nc. Qed.
Hint Resolve all_Println all_cm_Sleep : twp.
Lemma all_output argv : twp (W := W) (checked_Output argv) (all_of P).
Proof. unfold checked_Output. nc. Qed.
Hint Resolve all_output : twp.
Lemma all_issueKube : twp (W := W) issueAndLoadKubeconfig (all_of P).
Proof. unfold issueAndLoadKubeconfig. nc. Qed.
Lemma all_power_status node : twp (W := W) (power_status node) (all_of P).
Proof. unfold power_status. nc. Qed.
Hint Resolve all_power_status : twp.
Lemma all_power_off fuel node : twp (W := W) (power_off fuel node) (all_of P).
Proof.
  unfold power_off. nc. generalize fuel as n. induction n as [|n IH]; simpl; nc; auto.
Qed.
Lemma all_list_clusters : twp (W := W) listRBDCephClusters (all_of P).
Proof.
  unfold listRBDCephClusters. nc. generalize (rbd_cluster_ids a) as ids.
  induction ids as [|id ids IH]; simpl; nc; auto.
Qed.
Lemma all_GetNode n : twp (W := W) (k8s_GetNode n) (all_of P).
Proof. nc. Qed.
Lemma all_wait_fenced fuel n : twp (W := W) (wait_fenced fuel n) (all_of P).
Proof. induction fuel as [|fuel IH]; simpl; nc; auto. Qed.
Lemma all_wait_unfenced fuel n : twp (W := W) (wait_unfenced fuel n) (all_of P).
Proof. induction fuel as [|fuel IH]; simpl; nc; auto. Qed.
Lemma all_wait_detached fuel n : twp (W := W) (wait_detached fuel n) (all_of P).
Proof. induction fuel as [|fuel IH]; simpl; nc; auto. Qed.
Hint Resolve all_wait_fenced all_wait_unfenced : twp.
Lemma all_fence_cluster fuel node c : (∀ f, P (FenceMade f)) → twp (W := W) (fence_cluster fuel node c) (all_of P).
Proof. intros. unfold fence_cluster. nc. Qed.
Lemma all_unfence_cluster fuel node c :
  (∀ f, P (FenceUpdated f)) → (∀ f ok, P (FenceDeleted f ok)) → twp (W := W) (unfence_cluster fuel node c) (all_of P).
Proof. intros. unfold unfence_cluster. nc. Qed.
End reads.

(** ** What success says *)
Lemma ok_power_status node : twp (W := W) (power_status node)
  (on_ok (λ es s, ∃ out, Said ["neco"; "power"; "status"; node] out ∈ es ∧ s = TrimSpace out)).
Proof.
  unfold power_status, checked_Output. apply twp_bind, twp_bind, twp_traced. intros [[out err]| | |]; simpl; try done.
  destruct err; [by apply twp_fail|]. apply twp_ret. simpl. apply twp_ret. intros s [= <-].
  exists out. split; [set_solver|done].
Qed.
Lemma ok_wait_power_off fuel node : twp (W := W) (wait_power_off fuel node) (on_ok (λ es _, powered_off node es)).
Proof.
  induction fuel as [|fuel IH]; simpl; [by apply twp_blocked|].
  eapply ok_bind; [apply ok_power_status|]. intros es s (out & Hout & ->). case_bool_decide as Ho.
  - apply twp_ret. intros [] _. exists out. rewrite Ho, app_nil_r. done.
  - apply ok_later; [apply powered_off_mono|]. apply ok_next; [apply powered_off_mono| |done].
    apply (all_grows (λ _, True)), all_cm_Sleep.
Qed.
Lemma ok_power_off fuel node : twp (W := W) (power_off fuel node) (on_ok (λ es _, powered_off node es)).
Proof.
  unfold power_off. eapply ok_bind; [apply ok_power_status|]. intros es s (out & Hout & ->). case_bool_decide as Hs.
  - apply ok_later; [apply powered_off_mono|]. apply ok_next; [apply powered_off_mono|by apply twp_traced|intros _].
    apply ok_next; [apply powered_off_mono| |intros _; apply ok_wait_power_off].
    apply (all_grows (λ _, True)), all_Println.
  - apply twp_ret. intros [] _. exists out. rewrite app_nil_r. done.
Qed.
Lemma ok_ceph_clusters ids : twp (W := W) (ceph_clusters ids)
  (on_ok (λ es cs, Forall2 (λ id c, Clusters id [c] ∈ es) ids cs)).
Proof.
  induction ids as [|id ids IH]; simpl; [apply twp_ret; intros cs [= <-]; constructor|].
  apply twp_bind, twp_traced. intros [items| | |]; simpl; try done.
  destruct items as [|c [|]]; try by apply twp_fail. eapply ok_bind; [apply IH|].
  intros es cs Hcs. apply twp_ret. intros l [= <-]. constructor; [set_solver|].
  eapply Forall2_impl; [exact Hcs|]. simpl. set_solver.
Qed.
Lemma ok_list_clusters : twp (W := W) listRBDCephClusters
  (on_ok (λ es cs, ∃ scs, Classes scs ∈ es ∧ clusters_of scs cs es)).
Proof.
  unfold listRBDCephClusters. apply twp_bind, twp_traced. intros [scs| | |]; simpl; try done.
  eapply twp_mono; [apply ok_ceph_clusters|]. intros es r Hr cs ->. exists scs. split; [set_solver|].
  eapply Forall2_impl; [by apply Hr|]. set_solver.
Qed.
Lemma ok_wait_fenced fuel node c : twp (W := W) (wait_fenced fuel (generateFenceName (nn_Name c) node))
  (on_ok (λ es _, fenced node c es)).
Proof.
  induction fuel as [|fuel IH]; simpl; [by apply twp_blocked|].
  apply twp_bind, twp_traced. intros [f|e| |]; simpl; try done. case_bool_decide as Hf.
  - apply twp_ret. intros [] _. exists f. split; [set_solver|done].
  - apply (ok_later _ [_]); [apply fenced_mono|]. apply ok_next; [apply fenced_mono| |done].
    apply (all_grows (λ _, True)), all_cm_Sleep.
Qed.
Lemma ok_fence_cluster fuel node c : twp (W := W) (fence_cluster fuel node c) (on_ok (λ es _, fenced node c es)).
Proof.
  unfold fence_cluster. apply ok_next; [apply fenced_mono|by apply twp_attempt, twp_traced|intros r].
  apply ok_next; [apply fenced_mono| |intros _].
  { destruct r as [err|]; [destruct (api_IsAlreadyExists err)|]; [|by apply twp_fail|by apply twp_ret].
    apply (all_grows (λ _, True)), all_Println. }
  apply ok_next; [apply fenced_mono|apply (all_grows (λ _, True)), all_Println|intros _].
  apply ok_first; [apply fenced_mono|apply ok_wait_fenced|intros _].
  apply (all_grows (λ _, True)), all_Println.
Qed.
(** The goroutines of all clusters. *)
Lemma ok_for_clusters (R : NamespacedName → list CmdEffect → Prop) (task : NamespacedName → M (NW W) unit) :
  (∀ c, lasting (R c)) → (∀ c, twp (task c) (on_ok (λ es _, R c es))) →
  twp (W := W) (cs ← listRBDCephClusters; env_Wait (map task cs)) (on_ok (λ es _, for_clusters R es)).
Proof.
  intros HR Ht. eapply ok_bind; [apply ok_list_clusters|]. intros es cs (scs & Hs & Hc).
  eapply twp_mono; [apply (ok_env_Wait cs task R)|].
  - intros c es1 es2 ?. apply HR. auto.
  - intros c es1 es2 ?. apply HR. auto.
  - intros c _. apply Ht.
  - intros es' r Hr [] ->. exists scs, cs. split; [set_solver|]. split; [apply clusters_mono; auto|].
    eapply Forall_impl; [by apply (Hr tt)|]. intros c ?. apply HR. auto.
Qed.

(** ** The shutdown *)
Definition makes_fence (x : CmdEffect) : Prop := match x with FenceMade _ => True | _ => False end.
Definition updates_node (x : CmdEffect) : Prop := match x with NodeUpdated _ _ => True | _ => False end.
(** What changes something that the others read. *)
Definition changes (x : CmdEffect) : Prop :=
  match x with
  | FenceMade _ | FenceUpdated _ | FenceDeleted _ _ | NodeUpdated _ _ => True
  | _ => False
  end.
Ltac no_change HB := try (intros; intros []%HB).
Definition gone (node : string) (es : list CmdEffect) : Prop := ∃ l, Attachments l ∈ es ∧ node ∉ l.
Lemma gone_mono node : lasting (gone node).
Proof. intros es es'. unfold gone. setoid_rewrite elem_of_app. naive_solver. Qed.

(** After the power is off: the clusters are fenced, the node is tainted. *)
Definition fence_and_taint (fuel : nat) (node : string) : M (NW W) unit :=
  _ ← Println ("Node " +:+ node +:+ " is power off");
  cephClusters ← listRBDCephClusters;
  _ ← env_Wait (map (fence_cluster fuel node) cephClusters);
  _ ← Println "Adding taint to the node";
  _ ← taint_node node;
  _ ← Println "Waiting for the VolumeAttachment to be deleted";
  wait_detached fuel node.

Lemma all_taint_node node P : (∀ n, P (NodeRead n)) → (∀ n ok, P (NodeUpdated n ok)) →
  twp (W := W) (taint_node node) (all_of P).
Proof. intros. unfold taint_node. all_walk ltac:(repeat constructor; auto). Qed.
Lemma grows_fence_and_taint fuel node : grows (fence_and_taint fuel node).
Proof.
  apply (all_grows (λ _, True)). unfold fence_and_taint.
  apply all_bind; [by apply all_Println|intros _]. apply all_bind; [by apply all_list_clusters|intros cs].
  apply all_bind; [apply all_env_Wait, Forall_fmap, Forall_true; intros c; by apply all_fence_cluster|intros _].
  apply all_bind; [by apply all_Println|intros _]. apply all_bind; [by apply all_taint_node|intros _].
  apply all_bind; [by apply all_Println|intros _]. by apply all_wait_detached.
Qed.
Lemma gd_taint fuel node :
  twp (fence_and_taint fuel node) (λ es _, guarded updates_node (for_clusters (fenced node)) es).
Proof.
  assert (lasting (for_clusters (fenced node))) as HG by (apply for_clusters_mono; intros; apply fenced_mono).
  unfold fence_and_taint. apply gd_bind; [done|by apply gd_none, all_Println; auto|intros _].
  apply twp_assoc, gd_barrier; [done| |apply ok_for_clusters; [intros; apply fenced_mono|intros; apply ok_fence_cluster]|intros _].
  - apply all_bind; [apply all_list_clusters; auto|intros cs].
    apply all_env_Wait, Forall_fmap, Forall_true. intros c. apply all_fence_cluster; auto.
  - apply (all_grows (λ _, True)). apply all_bind; [by apply all_Println|intros _].
    apply all_bind; [by apply all_taint_node|intros _].
    apply all_bind; [by apply all_Println|intros _]. by apply all_wait_detached.
Qed.
Lemma ok_wait_detached fuel node : twp (W := W) (wait_detached fuel node) (on_ok (λ es _, gone node es)).
Proof.
  induction fuel as [|fuel IH]; simpl; [by apply twp_blocked|].
  apply twp_bind, twp_traced. intros [l| | |]; simpl; try done. case_bool_decide as Hl; simpl.
  - apply (ok_later _ [_]); [apply gone_mono|]. apply ok_next; [apply gone_mono| |done].
    apply (all_grows (λ _, True)). by apply all_cm_Sleep.
  - apply twp_ret. intros [] _. exists l. split; [set_solver|done].
Qed.
Lemma ok_fence_and_taint fuel node : twp (fence_and_taint fuel node) (on_ok (λ es _, gone node es)).
Proof.
  unfold fence_and_taint.
  apply ok_next; [apply gone_mono|apply (all_grows (λ _, True)); by apply all_Println|intros _].
  apply ok_next; [apply gone_mono|apply (all_grows (λ _, True)); by apply all_list_clusters|intros cs].
  apply ok_next; [apply gone_mono|apply (all_grows (λ _, True))|intros _].
  { apply all_env_Wait, Forall_fmap, Forall_true; intros c; by apply all_fence_cluster. }
  apply ok_next; [apply gone_mono|apply (all_grows (λ _, True)); by apply all_Println|intros _].
  apply ok_next; [apply gone_mono|apply (all_grows (λ _, True)); by apply all_taint_node|intros _].
  apply ok_next; [apply gone_mono|apply (all_grows (λ _, True)); by apply all_Println|intros _].
  apply ok_wait_detached.
Qed.

(** The whole command, for a guard that the power being off, or what follows it, establishes. *)
Lemma gd_shutdown (B : CmdEffect → Prop) G fuel node : lasting G → (∀ x, B x → changes x) →
  twp (W := W) (_ ← power_off fuel node; fence_and_taint fuel node) (λ es _, guarded B G es) →
  twp (W := W) (shutdownCmd fuel node) (λ es _, guarded B G es).
Proof.
  intros HG HB Hrest. unfold shutdownCmd.
  assert (∀ s, twp (W := W) (Println s) (λ es _, guarded B G es)) as Hp.
  { intros s. apply gd_none, all_traced. by intros []. }
  apply gd_bind; [done|apply gd_none, all_issueKube; no_change HB|intros _].
  apply gd_bind; [done|apply gd_attempt, gd_none, all_GetNode; no_change HB|intros r].
  destruct r as [err|n]; [destruct (api_IsNotFound err); [apply Hp|apply gd_none, all_const]|].
  apply gd_bind; [done|apply Hp|intros _; exact Hrest].
Qed.
Lemma ok_shutdown fuel node : twp (W := W) (shutdownCmd fuel node)
  (on_ok (λ es _, gone node es ∨ ∀ n, NodeRead n ∉ es)).
Proof.
  unfold shutdownCmd. pose (quiet := λ x, match x with NodeRead _ => False | _ => True end).
  apply (ok_bind _ _ (λ es _, Forall quiet es)).
  { eapply twp_mono; [apply (all_issueKube quiet); try done|]. intros es r Hq a _. exact Hq. }
  intros es0 [] Hq0. apply twp_bind, twp_attempt, twp_traced. intros [n|e|why|]; simpl; try done.
  - apply (twp_mono _ (on_ok (λ es _, gone node es))); [|intros es r Hr [] ->; left; apply gone_mono; right;
      apply (gone_mono node [_] es); right; by apply (Hr tt)].
    apply ok_next; [apply gone_mono|apply (all_grows (λ _, True)); by apply all_Println|intros _].
    apply ok_next; [apply gone_mono|apply (all_grows (λ _, True)); by apply all_power_off|intros _].
    apply ok_fence_and_taint.
  - destruct (api_IsNotFound e); [|by apply twp_fail].
    apply (twp_mono _ (all_of quiet)); [by apply all_Println|]. intros es r Hq [] _. right.
    intros n Hn. assert (Forall quiet (es0 ++ es)) as Hall by (by apply Forall_app).
    eapply Forall_forall in Hall; [|exact Hn]. done.
Qed.


(** ** The clean-up *)
Definition undone (f : NetworkFence) (es : list CmdEffect) : Prop :=
  unfence_succeeded f = true ∧ ∃ name, FenceRead name f ∈ es.
(** The fence of a cluster was absent, or undone and deleted. *)
Definition released (node : string) (c : NamespacedName) (es : list CmdEffect) : Prop :=
  let name := generateFenceName (nn_Name c) node in
  FenceAbsent name ∈ es ∨ ∃ f, FenceRead name f ∈ es ∧ unfence_succeeded f = true ∧ FenceDeleted f true ∈ es.
Definition deletes (f : NetworkFence) (x : CmdEffect) : Prop :=
  match x with FenceDeleted f' _ => f' = f | _ => False end.
Lemma undone_mono f : lasting (undone f).
Proof. intros es es'. unfold undone. setoid_rewrite elem_of_app. naive_solver. Qed.
Lemma released_mono node c : lasting (released node c).
Proof. intros es es'. unfold released. setoid_rewrite elem_of_app. naive_solver. Qed.

Lemma ok_wait_unfenced fuel name : twp (W := W) (wait_unfenced fuel name)
  (on_ok (λ es f, FenceRead name f ∈ es ∧ unfence_succeeded f = true)).
Proof.
  induction fuel as [|fuel IH]; simpl; [by apply twp_blocked|].
  apply twp_bind, twp_traced. intros [f|e| |]; simpl; try done. destruct (unfence_succeeded f) eqn:Hf.
  - apply twp_ret. intros f' [= <-]. split; [set_solver|done].
  - apply ok_skip; [set_solver|apply (all_grows (λ _, True)); by apply all_cm_Sleep|intros _].
    eapply twp_mono; [exact IH|]. intros es r Hr f' ->. destruct (Hr _ eq_refl). split; [set_solver|done].
Qed.
Lemma ok_unfence_cluster fuel node c : twp (W := W) (unfence_cluster fuel node c) (on_ok (λ es _, released node c es)).
Proof.
  unfold unfence_cluster. apply twp_bind, twp_attempt, twp_traced. intros [f|e| |]; simpl; try done.
  - apply (ok_later _ [_]); [apply released_mono|]. apply ok_next; [apply released_mono|by apply twp_traced|intros _].
    apply ok_next; [apply released_mono|apply (all_grows (λ _, True)); by apply all_Println|intros _].
    eapply ok_bind; [apply ok_wait_unfenced|]. intros es f' [Hr Hu]. apply twp_bind, twp_traced.
    intros [[]| | |]; simpl; try done. rewrite <-(app_nil_l []). eapply twp_mono; [apply (all_Println (λ _, True)); done|].
    intros es' r _ [] _. right. exists f'. set_solver.
  - destruct (api_IsNotFound e); [|by apply twp_fail]. apply (ok_here _ [_]); [apply released_mono|left; set_solver|].
    apply (all_grows (λ _, True)). by apply all_Println.
Qed.
Lemma gd_unfence_cluster f fuel node c :
  twp (W := W) (unfence_cluster fuel node c) (λ es _, guarded (deletes f) (undone f) es).
Proof.
  assert (∀ x, deletes f x → changes x) as HD by (by intros []).
  assert (∀ s, twp (W := W) (Println s) (λ es _, guarded (deletes f) (undone f) es)) as Hp.
  { intros s. apply gd_none, all_traced. by intros []. }
  unfold unfence_cluster. apply gd_bind; [apply undone_mono|apply gd_attempt, gd_none, all_traced|intros r].
  { intros []; simpl; [|destruct (api_IsNotFound _)|..]; repeat constructor; by intros []. }
  destruct r as [e|fe]; [destruct (api_IsNotFound e); [apply Hp|apply gd_none, all_const]|].
  apply gd_bind; [apply undone_mono|apply gd_none, all_traced; repeat constructor; by intros []|intros _].
  apply gd_bind; [apply undone_mono|apply Hp|intros _].
  apply (gd_use _ _ _ _ (λ es f', FenceRead (generateFenceName (nn_Name c) node) f' ∈ es ∧ unfence_succeeded f' = true));
    [apply undone_mono|apply all_wait_unfenced; no_change HD|apply ok_wait_unfenced|].
  intros es f' [Hr Hu]. unfold Println. all_walk ltac:(first [solve [constructor]|apply Forall_singleton; simpl; intros <-; split; [done|by eexists]]).
Qed.

(** What the clean-up writes back is what it read, less the taint. *)
Definition writes (n : Node) (x : CmdEffect) : Prop := match x with NodeUpdated n' _ => n' = n | _ => False end.
Definition cleaned (n : Node) (es : list CmdEffect) : Prop := ∃ n0,
  NodeRead n0 ∈ es ∧ n = with_taints n0 (remove_taint (nd_Taints n0)).
Lemma cleaned_mono n : lasting (cleaned n).
Proof. intros es es'. unfold cleaned. setoid_rewrite elem_of_app. naive_solver. Qed.
Lemma gd_written_back n fuel node : twp (W := W) (cleanupCmd fuel node) (λ es _, guarded (writes n) (cleaned n) es).
Proof.
  assert (∀ x, writes n x → changes x) as HB by (by intros []). unfold cleanupCmd.
  apply gd_bind; [apply cleaned_mono|apply gd_none, all_issueKube; no_change HB|intros _].
  apply gd_bind; [apply cleaned_mono|apply gd_none, all_list_clusters; no_change HB|intros cs].
  apply gd_bind; [apply cleaned_mono|apply gd_none, all_env_Wait, Forall_fmap, Forall_true|intros _].
  { intros c. apply all_unfence_cluster; try (by intros ?? []); try (by intros ? []); no_change HB. }
  apply (gd_use _ _ _ _ (λ es r, match r with inr n0 => NodeRead n0 ∈ es | inl _ => True end));
    [apply cleaned_mono|apply all_attempt, all_GetNode; no_change HB| |].
  { apply twp_attempt, twp_traced. intros [n0| | |] a [= <-]; [set_solver|done]. }
  intros es [e|n0] Hr; unfold Println; all_walk ltac:(first [solve [constructor]|apply Forall_singleton; simpl; intros <-; by exists n0]).
Qed.

End shutdown.
