(* ===== verification/RebootProofs.v ===== *)
(** * What the reboot commands touch

    [reboot-worker] resets machines at once only when Kubernetes does not run on them,
    and never boot servers; nodes of Kubernetes go into the reboot list.  TPM devices are
    cleared on retiring machines only.  [reboot-and-wait] waits for a later boot. *)
From S2P Require Import Prelude GoStr GoTime Json Types Etcd Worlds Storage.
From S2P Require Import Updater GoNet Host Progs Operator Ext StateSetter Rebooter Trace Upload TraceLoops CKEUpload Vault Setup.
From S2P Require Import NecoCmd NecoInit NecoPower NecoReboot NecoShutdown NecoTrace.

Local Open Scope Z_scope.

(** ** Machines and nodes *)
Lemma node_map_lookup nodes ip :
  match node_map nodes !! ip with
  | Some n => n ∈ nodes ∧ kn_Name n = ip
  | None => ∀ n, n ∈ nodes → kn_Name n ≠ ip
  end.
Proof.
  unfold node_map. induction nodes as [|n nodes IH] using rev_ind.
  { simpl. rewrite lookup_empty. by intros n ?%not_elem_of_nil. }
  rewrite foldl_app. simpl. destruct (decide (kn_Name n = ip)) as [<-|Hne].
  - rewrite lookup_insert_eq. split; [set_solver|done].
  - rewrite lookup_insert_ne by done. destruct (foldl _ _ _ !! ip); [destruct IH; split; [set_solver|done]|].
    intros n' [?|Hx%list_elem_of_singleton]%elem_of_app; [auto|by subst].
Qed.

(** A machine that may be reset: it is no node, no boot server, and has a BMC. *)
Definition outside (nodes : list KubeNode) (m : Machine) : Prop :=
  (∃ ip, head (mc_IPv4 m) = Some ip ∧ ∀ n, n ∈ nodes → kn_Name n ≠ ip) ∧
  mc_Role m ≠ "boot" ∧ bmc_IPv4 (mc_BMC m) ≠ "".
Definition endpoint (m : Machine) : string := "https://" +:+ bmc_IPv4 (mc_BMC m).

Lemma split_machines_spec nodes machines :
  (∀ node, node ∈ (split_machines (node_map nodes) machines).1 →
     ∃ m, m ∈ machines ∧ node ∈ nodes ∧ head (mc_IPv4 m) = Some (kn_Name node)) ∧
  (∀ m, m ∈ (split_machines (node_map nodes) machines).2 ↔
     m ∈ machines ∧ ∃ ip, head (mc_IPv4 m) = Some ip ∧ ∀ n, n ∈ nodes → kn_Name n ≠ ip).
Proof.
  induction machines as [|m machines [IH1 IH2]]; simpl.
  { split; [by intros node ?%not_elem_of_nil|]. intros m. split; [by intros ?%not_elem_of_nil|intros [?%not_elem_of_nil _]; done]. }
  destruct (split_machines _ _) as [kube others]. simpl in *.
  destruct (mc_IPv4 m) as [|ip ips] eqn:Ei.
  { split; [intros node (m' & ? & ?)%IH1; exists m'; set_solver|]. intros m'. rewrite IH2. split.
    - intros [? ?]. split; [set_solver|done].
    - intros [[->|?]%elem_of_cons (ip & Hip & ?)]; [by rewrite Ei in Hip|eauto]. }
  pose proof (node_map_lookup nodes ip) as Hl. destruct (node_map nodes !! ip) as [n|]; simpl; split.
  - intros node [->|Hn]%elem_of_cons.
    + exists m. destruct Hl as [? <-]. rewrite Ei. split; [set_solver|done].
    + destruct (IH1 _ Hn) as (m' & ? & ?). exists m'. set_solver.
  - intros m'. rewrite IH2. split; [intros [? ?]; split; [set_solver|done]|].
    intros [[->|?]%elem_of_cons (ip' & Hip & Hno)]; [|eauto]. rewrite Ei in Hip. injection Hip as <-.
    destruct Hl as [Hin Hnm]. by destruct (Hno _ Hin).
  - intros node Hn. destruct (IH1 _ Hn) as (m' & ? & ?). exists m'. set_solver.
  - intros m'. rewrite elem_of_cons, IH2. split.
    + intros [->|[? ?]]; split; try set_solver. exists ip. by rewrite Ei.
    + intros [[->|?]%elem_of_cons ?]; auto.
Qed.

Section reboot.
Context `{ExitErrors} `{RedfishValues} {W : Type} `{Etcd W} `{Files W} `{Commands W} `{Clock W}
  `{SabaClient W} `{EtcdUtil W} `{EtcdAdmin W} `{Console W} `{Redfish W} `{Kube W}.
Variable flagKubeconfig : string.

(** ** What is registered *)
Definition registers (entry : RebootListEntry) (ops : list Op) : Prop := ∃ index data,
  Marshal (with_index entry index) = Ok data ∧
  ops = [OpPut (rebootListEntryKey index) data; OpPut KeyNecoRebooterWriteIndex (FormatInt (wrap64 (index + 1)))].
Definition entry_of (config : option Config) (node : KubeNode) (entry : RebootListEntry) : Prop := ∃ c group rt,
  config = Some c ∧ kn_Labels node !! cf_GroupLabelKey c = Some group ∧
  matchRebootTimes node (cf_RebootTimes c) = Ok rt ∧ entry = pending_entry (kn_Name node) group rt.

Section all.
Context (P : CmdEffect → Prop).
Ltac rb := all_walk ltac:(repeat constructor; auto).

Lemma all_rb_Println s : twp (W := W) (Println s) (all_of P).
Proof. unfold Println. rb. Qed.
Hint Resolve all_rb_Println : twp.

Lemma all_Register fuel entry : (∀ cs ops, registers entry ops → P (EtcdTxn cs ops)) →
  twp (W := W) (RegisterRebootListEntry fuel entry) (all_of P).
Proof.
  revert entry. induction fuel as [|fuel IH]; intros entry HP; simpl; [apply all_const|].
  apply all_bind; [rb|intros resp]. apply all_bind; [rb|intros [index rev]].
  apply twp_bind, twp_lift. destruct (Marshal (with_index entry index)) as [data| | |] eqn:Em; try constructor.
  apply all_bind; [apply all_traced; intros r; repeat constructor; apply HP; by exists index, data|intros r].
  destruct (txn_succeeded r); [apply all_const|]. apply IH. intros cs ops (i & d & Hm & ->). apply HP. by exists i, d.
Qed.
Lemma all_add_node fuel dry config node :
  (∀ entry cs ops, dry = false → entry_of config node entry → registers entry ops → P (EtcdTxn cs ops)) →
  twp (W := W) (add_node fuel dry config node) (all_of P).
Proof.
  intros HP. unfold add_node. destruct config as [c|]; [|apply twp_bind, twp_lift; constructor].
  apply twp_bind, twp_lift. simpl. destruct (kn_Labels node !! cf_GroupLabelKey c) as [group|] eqn:Eg; [|apply all_const].
  destruct (matchRebootTimes node (cf_RebootTimes c)) as [rt| | |] eqn:Em; try apply all_const; [|apply all_rb_Println].
  apply all_bind; [rb|intros _]. destruct dry; [apply all_const|]. simpl.
  apply all_bind; [apply all_Register; intros cs ops Hreg|intros; apply all_const].
  eapply HP; [done| |done]. by exists c, group, rt.
Qed.
Lemma all_list_nodes n : (∀ ns, P (NodesListed ns)) → P (Ran [CKECLIBin; "kubernetes"; "issue"]) →
  twp (W := W) (list_nodes flagKubeconfig n) (all_of P).
Proof.
  intros. induction n as [|n IH]; simpl; unfold renewKubeConfig, loadKubeConfig; rb; auto.
Qed.
Lemma all_getRedfish addr : P (Connected ("https://" +:+ addr)) → twp (W := W) (getRedfishClient addr) (all_of P).
Proof. intros. unfold getRedfishClient, getBMCUsernameAndPassword, EtcdClient, GetBMCIPMIUser, GetBMCIPMIPassword, get. rb. Qed.
Lemma all_getSystem c : twp (W := W) (getComputerSystem c) (all_of P).
Proof. unfold getComputerSystem. rb. Qed.
Hint Resolve all_getSystem : twp.
Lemma all_rebootNode addr : P (Connected ("https://" +:+ addr)) → P (Reset ForceRestartResetType) →
  twp (W := W) (rebootNode addr) (all_of P).
Proof.
  intros. unfold rebootNode. apply all_bind; [by apply all_wrapping, all_getRedfish|intros c].
  apply all_deferred; [|rb]. apply all_bind; [apply all_wrapping, all_getSystem|intros sys].
  case_bool_decide; [apply all_rb_Println|]. apply all_bind; [apply all_wrapping; rb|intros _; apply all_rb_Println].
Qed.
Lemma all_restart_machines dry machines :
  (∀ m, m ∈ machines → dry = false → mc_Role m ≠ "boot" → bmc_IPv4 (mc_BMC m) ≠ "" →
     P (Connected (endpoint m)) ∧ P (Reset ForceRestartResetType)) →
  twp (W := W) (restart_machines dry machines) (all_of P).
Proof.
  induction machines as [|m machines IH]; intros HP; simpl; [apply all_const|].
  assert (twp (W := W) (restart_machines dry machines) (all_of P)) as Hrest.
  { apply IH. intros m' Hm'. apply HP. by apply list_elem_of_further. }
  destruct (_ || _ || _ || dry) eqn:Ec; [done|]. apply orb_false_iff in Ec as [[[Hr%bool_decide_eq_false Hi]%orb_false_iff
    Hb%bool_decide_eq_false]%orb_false_iff Hd].
  destruct (HP m (list_elem_of_here _ _) Hd Hr Hb). apply all_bind; [by apply all_attempt, all_rebootNode|intros r].
  apply all_bind; [done|intros; apply all_const].
Qed.
End all.

(** ** What success says *)
Lemma ok_list_nodes n : twp (W := W) (list_nodes flagKubeconfig n) (on_ok (λ es ns, NodesListed ns ∈ es)).
Proof.
  induction n as [|n IH]; simpl; apply twp_bind, twp_attempt, twp_traced; intros [ns|e| |]; simpl; try done.
  - apply twp_ret. intros ns' [= <-]. set_solver.
  - by apply twp_fail.
  - apply twp_ret. intros ns' [= <-]. set_solver.
  - apply ok_skip; [set_solver| |intros _].
    { apply (all_grows (λ _, True)). unfold renewKubeConfig. all_walk ltac:(repeat constructor; auto). }
    apply ok_skip; [set_solver| |intros _; exact IH].
    apply (all_grows (λ _, True)). unfold loadKubeConfig. all_walk ltac:(repeat constructor; auto).
Qed.
Lemma ok_rebootNode m : twp (W := W) (rebootNode (bmc_IPv4 (mc_BMC m))) (on_ok (λ es _, Connected (endpoint m) ∈ es)).
Proof.
  assert (lasting (λ es, Connected (endpoint m) ∈ es)) as HR by (intros es es'; set_solver).
  unfold rebootNode. apply ok_first; [done| |].
  - unfold wrapping. apply twp_bind, twp_attempt.
    apply (twp_mono _ (on_ok (λ es _, Connected (endpoint m) ∈ es))); last first.
    { intros es [c| | |] Hr; simpl; try done; [|by apply twp_fail]. apply twp_ret. intros c' [= <-].
      rewrite app_nil_r. by apply (Hr c). }
    unfold getRedfishClient. apply ok_next; [done| |intros [u p]; apply twp_traced; intros r c ->; set_solver].
    apply (all_grows (λ _, True)). unfold getBMCUsernameAndPassword, EtcdClient, GetBMCIPMIUser, GetBMCIPMIPassword, get.
    all_walk ltac:(repeat constructor; auto).
  - intros c. apply (all_grows (λ _, True)). apply all_deferred; [|all_walk ltac:(repeat constructor; auto)].
    apply all_bind; [apply all_wrapping, all_getSystem|intros sys].
    case_bool_decide; [apply all_rb_Println|]. apply all_bind; [apply all_wrapping|intros _; apply all_rb_Println].
    all_walk ltac:(repeat constructor; auto).
Qed.
Lemma ok_restart_machines machines : twp (W := W) (restart_machines false machines)
  (on_ok (λ es errs, errs = [] → ∀ m, m ∈ machines → mc_Role m ≠ "boot" → mc_IPv4 m ≠ [] → bmc_IPv4 (mc_BMC m) ≠ "" →
     Connected (endpoint m) ∈ es)).
Proof.
  induction machines as [|m machines IH]; simpl; [by apply twp_ret; intros ? _ _ m ?%not_elem_of_nil|].
  destruct (_ || _ || _ || false) eqn:Ec.
  { eapply twp_mono; [exact IH|]. intros es r Hr errs -> Hnil m' [->|Hm']%elem_of_cons Hr' Hi' Hb'; [|by eapply Hr].
    rewrite !bool_decide_eq_false_2 in Ec by done. done. }
  apply twp_bind, twp_attempt. eapply twp_mono; [apply ok_rebootNode|].
  intros es r Hok.
  destruct r as [[]|e| |]; simpl; try done.
  - eapply ok_bind; [exact IH|]. intros es' errs Herrs. apply twp_ret. intros errs' [= <-] -> m' [->|Hm']%elem_of_cons ???.
    + rewrite !elem_of_app. left. by apply (Hok tt).
    + rewrite !elem_of_app. right. left. by apply Herrs.
  - eapply ok_bind; [exact IH|]. intros es' errs Herrs. by apply twp_ret; intros errs' [= <-].
Qed.

Lemma all_nodes P (kube : list KubeNode) (m : KubeNode → M (NW W) unit) :
  (∀ n, n ∈ kube → twp (m n) (all_of P)) → twp (for_each kube m) (all_of P).
Proof.
  induction kube as [|n kube IH]; intros Hm; simpl; [apply all_const|].
  apply all_bind; [apply Hm, list_elem_of_here|intros []; apply IH; intros; by apply Hm, list_elem_of_further].
Qed.
Lemma ok_true {Q : list CmdEffect → unit → Prop} machines :
  twp (W := W) (errorNodes ← restart_machines true machines;
         match errorNodes with
         | [] => mret ()
         | _ => fail (ErrMsg ("failed to reboot on some nodes: " +:+ String.concat "," errorNodes))
         end) (on_ok (λ es a, true = false → Q es a)).
Proof.
  apply ok_skip; [done|apply (all_grows (λ _, True)), all_restart_machines; by intros|].
  intros errs. destruct errs; [by apply twp_ret|by apply twp_fail].
Qed.

(** ** [rebootMachines] *)
Definition fetching (x : CmdEffect) : Prop :=
  match x with Ran argv => argv = [CKECLIBin; "kubernetes"; "issue"] | NodesListed _ => True | _ => False end.
(** What may be done, given the nodes of Kubernetes. *)
Definition permitted (dry : bool) (config : option Config) (machines : list Machine) (nodes : list KubeNode)
    (x : CmdEffect) : Prop :=
  match x with
  | Connected url => dry = false ∧ ∃ m, m ∈ machines ∧ outside nodes m ∧ url = endpoint m
  | Reset t => dry = false ∧ t = ForceRestartResetType
  | EtcdTxn _ ops => dry = false ∧ ∃ m node entry, m ∈ machines ∧ node ∈ nodes ∧
      head (mc_IPv4 m) = Some (kn_Name node) ∧ entry_of config node entry ∧ registers entry ops
  | _ => fetching x
  end.

(** C16: with [--dry-run] nothing is reset and nothing is registered.  Otherwise the BMCs
    that [rebootMachines] connects to are those of given machines that are neither boot
    servers nor nodes of Kubernetes, and all it does to them is a forced restart; what it
    writes are entries of the reboot list for given machines that are nodes, pending,
    with the group of the node's label and the first reboot time that matches.  When it
    ends well, all machines that may be restarted at once have been connected to. *)
Theorem rebootMachines_targets fuel dry config machines (v v' : NW W) r :
  rebootMachines flagKubeconfig fuel dry config machines v = (v', r) →
  ∃ es, tr_log v' = tr_log v ++ es ∧
    (Forall fetching es ∧ (∀ a, r ≠ Ok a) ∨
     ∃ nodes, NodesListed nodes ∈ es ∧ Forall (permitted dry config machines nodes) es ∧
       (r = Ok tt → dry = false → ∀ m, m ∈ machines → outside nodes m → Connected (endpoint m) ∈ es)).
Proof.
  intros Hrun. revert v v' r Hrun. change (twp (W := W) (rebootMachines flagKubeconfig fuel dry config machines) (λ es r,
    Forall fetching es ∧ (∀ a, r ≠ Ok a) ∨
     ∃ nodes, NodesListed nodes ∈ es ∧ Forall (permitted dry config machines nodes) es ∧
       (r = Ok tt → dry = false → ∀ m, m ∈ machines → outside nodes m → Connected (endpoint m) ∈ es))).
  unfold rebootMachines. apply twp_bind.
  eapply twp_mono; [apply twp_and; [by apply (all_list_nodes fetching)|apply ok_list_nodes]|].
  intros es0 [nodes|e|why|] [Hf Hok]; simpl; try (by left). specialize (Hok _ eq_refl). simpl in Hok.
  destruct (split_machines_spec nodes machines) as [Hkube Hothers].
  destruct (split_machines (node_map nodes) machines) as [kube others]. simpl in Hkube, Hothers.
  assert (Forall (permitted dry config machines nodes) es0) as Hf0.
  { eapply Forall_impl; [exact Hf|]. by intros []. }
  cut (twp (W := W) (_ ← for_each kube (add_node fuel dry config);
         errorNodes ← restart_machines dry others;
         match errorNodes with
         | [] => mret ()
         | _ => fail (ErrMsg ("failed to reboot on some nodes: " +:+ String.concat "," errorNodes))
         end) (λ es r, Forall (permitted dry config machines nodes) es ∧
    on_ok (λ es _, dry = false → ∀ m, m ∈ others → outside nodes m → Connected (endpoint m) ∈ es) es r)).
  { intros Ht. eapply twp_mono; [exact Ht|]. intros es r [Hp Hr]. right. exists nodes.
    split; [set_solver|]. split; [by apply Forall_app|]. intros -> Hd m Hm Ho. apply elem_of_app. right.
    apply (Hr tt); [done..| |done]. apply Hothers. split; [done|]. by destruct Ho as [? _]. }
  apply twp_and.
  - apply all_bind; [apply all_nodes; intros node Hn|intros _].
    { apply all_add_node. intros entry cs ops -> He Hreg. split; [done|]. destruct (Hkube _ Hn) as (m & ? & ? & ?).
      by exists m, node, entry. }
    apply all_bind; [|intros errs; destruct errs; apply all_const]. apply all_restart_machines.
    intros m [Hm Hip]%Hothers -> Hr Hb. split; [|done]. split; [done|]. by exists m.
  - apply ok_skip; [set_solver| |intros _].
    { apply (all_grows (λ _, True)), all_nodes. intros. by apply all_add_node. }
    destruct dry; [apply ok_true|]. eapply ok_bind; [apply ok_restart_machines|]. intros es errs He.
    destruct errs; [|by apply twp_fail]. apply twp_ret. intros [] _ _ m Hm ([ip [Hip _]] & Hr & Hb).
    rewrite app_nil_r. apply He; try done. intros Hnil. by rewrite Hnil in Hip.
Qed.
End reboot.

(** ** TPM devices *)
Section tpm.
Context `{ExitErrors} `{RedfishValues} `{MachineStates} {W : Type} `{Etcd W} `{Files W} `{Commands W} `{Clock W}
  `{SabaClient W} `{EtcdUtil W} `{EtcdAdmin W} `{Console W} `{Redfish W}.

Definition touches (x : CmdEffect) : Prop :=
  match x with Connected _ | Reset _ | BiosUpdated | JobPosted => True | _ => False end.
(** A reset that leaves the machine running. *)
Definition restarts (x : CmdEffect) : Prop := match x with Reset t => t ≠ ForceOffResetType | _ => False end.
Definition retiring (id : string) (es : list CmdEffect) : Prop := ∃ m,
  Machines (lookup_params id) [m] ∈ es ∧ mc_State m = StateRetiring.
Definition cleared (es : list CmdEffect) : Prop := BiosUpdated ∈ es ∧ JobPosted ∈ es.
Lemma retiring_mono id : lasting (retiring id).
Proof. intros es es'. unfold retiring. setoid_rewrite elem_of_app. naive_solver. Qed.
Lemma cleared_mono : lasting cleared.
Proof. intros es es'. unfold cleared. rewrite !elem_of_app. naive_solver. Qed.

Section all.
Context (P : CmdEffect → Prop).
Ltac tp := all_walk ltac:(repeat constructor; auto).
Lemma all_lookup id : (∀ ms, P (Machines (lookup_params id) ms)) → twp (W := W) (lookupMachine id) (all_of P).
Proof. intros. unfold lookupMachine. tp. Qed.
Lemma all_power action addr : P (Connected ("https://" +:+ addr)) → (∀ t, reset_type action = Some t → P (Reset t)) →
  twp (W := W) (power action addr) (all_of P).
Proof.
  intros. unfold power. apply all_bind; [by apply all_getRedfish|intros c]. apply all_deferred; [|tp].
  apply all_bind; [apply all_getSystem|intros sys]. destruct (reset_type action) eqn:Er.
  - apply all_bind; [apply all_traced; intros []; repeat constructor; auto|intros _; apply all_rb_Println].
  - case_bool_decide; [apply all_rb_Println|apply all_const].
Qed.
Lemma all_setTpm c : P BiosUpdated → twp (W := W) (dellRedfishSetTpmAttribute c) (all_of P).
Proof. intros. unfold dellRedfishSetTpmAttribute. apply all_bind; [apply all_getSystem|intros sys; tp]. Qed.
Lemma all_postJob c : P JobPosted → twp (W := W) (dellRedfishCreateBiosSettingsJob c) (all_of P).
Proof. intros. unfold dellRedfishCreateBiosSettingsJob. tp. Qed.
Lemma all_startOrRestart c : (∀ t, P (Reset t)) → twp (W := W) (startOrRestart c) (all_of P).
Proof. intros. unfold startOrRestart. apply all_bind; [apply all_getSystem|intros sys; tp]. Qed.
End all.

Lemma ok_lookup id : twp (W := W) (lookupMachine id) (on_ok (λ es m, Machines (lookup_params id) [m] ∈ es)).
Proof.
  unfold lookupMachine. apply ok_skip; [set_solver|by apply twp_traced|intros _].
  apply twp_bind, twp_traced. intros [ms| | |]; simpl; try done.
  destruct ms as [|m [|]]; try by apply twp_fail. apply twp_ret. intros m' [= <-]. set_solver.
Qed.
Lemma ok_wrapping {A} msg (m : M (NW W) A) (R : list CmdEffect → Prop) :
  twp m (on_ok (λ es _, R es)) → twp (wrapping msg m) (on_ok (λ es _, R es)).
Proof.
  intros Hm. unfold wrapping. apply twp_bind, twp_attempt. eapply twp_mono; [exact Hm|].
  intros es [a| | |] Hr; simpl; try done; [|by apply twp_fail]. apply twp_ret. intros a' [= <-].
  rewrite app_nil_r. by apply (Hr a).
Qed.
Lemma ok_setTpm c : twp (W := W) (dellRedfishSetTpmAttribute c) (on_ok (λ es _, BiosUpdated ∈ es)).
Proof.
  assert (lasting (λ es, BiosUpdated ∈ es)) as HR by (intros es es'; set_solver).
  unfold dellRedfishSetTpmAttribute. apply ok_next; [done|apply (all_grows (λ _, True)), all_getSystem|intros sys].
  apply ok_next; [done|by apply twp_traced|intros [b|]]; [|by apply twp_panic].
  apply twp_traced. intros r a _. set_solver.
Qed.
Lemma ok_postJob c : twp (W := W) (dellRedfishCreateBiosSettingsJob c) (on_ok (λ es _, JobPosted ∈ es)).
Proof.
  assert (lasting (λ es, JobPosted ∈ es)) as HR by (intros es es'; set_solver).
  unfold dellRedfishCreateBiosSettingsJob. apply ok_first; [done|apply twp_traced; intros r a _; set_solver|intros [resp err]].
  apply (all_grows (λ _, True)). all_walk ltac:(repeat constructor; auto).
Qed.

(** A machine of a Dell type is reset only after its TPM has been scheduled for clearing. *)
Lemma gd_dell addr : twp (W := W) (dellRedfishClearTpm addr) (λ es _, guarded restarts cleared es).
Proof.
  unfold dellRedfishClearTpm. apply gd_bind; [apply cleared_mono| |intros c].
  { apply gd_none, all_wrapping, all_getRedfish. by intros []. }
  apply gd_deferred; [apply cleared_mono| |apply all_traced; intros []; constructor].
  apply twp_assoc, gd_barrier; [apply cleared_mono| | |intros jobId].
  - apply all_bind; [apply all_wrapping, all_setTpm; by intros []|intros _]. apply all_wrapping, all_postJob. by intros [].
  - eapply ok_bind; [apply ok_wrapping, ok_setTpm|]. intros es [] Hb.
    eapply twp_mono; [apply ok_wrapping, ok_postJob|]. intros es' r Hr a ->. split; [set_solver|].
    specialize (Hr _ eq_refl). set_solver.
  - apply (all_grows (λ _, True)), all_wrapping. by apply all_startOrRestart.
Qed.

End tpm.

(** ** Waiting for a machine to come back *)
Section check.
Context `{ExitErrors} `{RedfishValues} `{MachineStates} {W : Type} `{Etcd W} `{Files W} `{Commands W} `{Clock W}
  `{SabaClient W} `{EtcdUtil W} `{EtcdAdmin W} `{Console W} `{Redfish W}.

Definition serf_query (serial : string) : list string :=
  ["serf"; "members"; "-format"; "json"; "-tag"; "serial=" +:+ serial].
(** What an answer of serf says of the time of the last boot. *)
Definition boot_tag (serial tag : string) (es : list CmdEffect) : Prop := ∃ out members,
  Said (serf_query serial) out ∈ es ∧ Unmarshal_members out = Ok members ∧ uptime_tag (head members) = tag.
Definition booted_after (serial : string) (timestamp : Time) (es : list CmdEffect) : Prop := ∃ tag t,
  boot_tag serial tag es ∧ uptime_of tag = Ok t ∧ timestamp < t.
Definition healthy (target : string) (es : list CmdEffect) : Prop := ∃ m,
  Machines (lookup_params target) [m] ∈ es ∧ mc_State m = StateHealthy.
Lemma boot_tag_mono serial tag : lasting (boot_tag serial tag).
Proof. intros es es'. unfold boot_tag. setoid_rewrite elem_of_app. naive_solver. Qed.
Lemma booted_mono serial ts : lasting (booted_after serial ts).
Proof.
  intros es es' [(tag & t & ? & ?)|(tag & t & ? & ?)]; exists tag, t; (split; [apply boot_tag_mono; auto|done]).
Qed.
Lemma healthy_mono target : lasting (healthy target).
Proof. intros es es'. unfold healthy. setoid_rewrite elem_of_app. naive_solver. Qed.

Lemma grows_Sleep d : grows (Sleep (W := NW W) d).
Proof. apply (all_grows (λ _, True)). unfold Sleep. all_walk ltac:(repeat constructor; auto). Qed.
Lemma ok_serf serial : twp (W := W) (getSerfMemberBySerial serial) (on_ok (λ es m, boot_tag serial (uptime_tag m) es)).
Proof.
  unfold getSerfMemberBySerial, checked_Output. apply twp_bind, twp_bind, twp_traced.
  intros [[out err]| | |]; simpl; try done. destruct err; [by apply twp_fail|]. apply twp_ret. simpl.
  apply twp_bind, twp_lift. destruct (Unmarshal_members out) as [ms| | |] eqn:Eu; simpl; try done.
  apply twp_ret. intros m [= <-]. exists out, ms. split; [set_solver|done].
Qed.
Lemma ok_wait_uptime fuel serial ts wait : twp (W := W) (wait_uptime fuel serial ts wait)
  (on_ok (λ es up, up = true → booted_after serial ts es)).
Proof.
  induction fuel as [|fuel IH]; simpl; [by apply twp_blocked|]. eapply ok_bind; [apply ok_serf|].
  intros es m Htag. apply twp_bind. destruct (negb (bool_decide (uptime_tag m = ""))).
  - apply twp_bind, twp_lift. destruct (uptime_of (uptime_tag m)) as [t| | |] eqn:Eu; simpl; try done.
    apply twp_ret. simpl. destruct (After t ts) eqn:Ea.
    + apply twp_ret. intros up _ _. apply booted_mono. left. exists (uptime_tag m), t. unfold After in Ea.
      split; [done|]. split; [done|lia].
    + destruct wait; simpl; [|by apply twp_ret; intros ? [= <-]].
      apply (ok_later_if _ _ es); [apply booted_mono|]. apply ok_next_if; [apply booted_mono|apply grows_Sleep|done].
  - apply twp_ret. simpl. destruct wait; simpl; [|by apply twp_ret; intros ? [= <-]].
    apply (ok_later_if _ _ es); [apply booted_mono|]. apply ok_next_if; [apply booted_mono|apply grows_Sleep|done].
Qed.
Lemma ok_wait_healthy fuel target wait : twp (W := W) (wait_healthy fuel target wait)
  (on_ok (λ es h, h = true → healthy target es)).
Proof.
  induction fuel as [|fuel IH]; simpl; [by apply twp_blocked|]. eapply ok_bind; [apply ok_lookup|].
  intros es m Hm. case_bool_decide as Hs.
  - apply twp_ret. intros h _ _. apply healthy_mono. left. by exists m.
  - destruct wait; simpl; [|by apply twp_ret; intros ? [= <-]].
    apply (ok_later_if _ _ es); [apply healthy_mono|]. apply ok_next_if; [apply healthy_mono|apply grows_Sleep|done].
Qed.
(** With [wait], the loops end with success only. *)
Lemma ok_waiting fuel : (∀ serial ts, twp (W := W) (wait_uptime fuel serial ts true) (on_ok (λ _ b, b = true))) ∧
  ∀ target, twp (W := W) (wait_healthy fuel target true) (on_ok (λ _ b, b = true)).
Proof.
  assert (∀ serial P, (∀ out, P (Said (serf_query serial) out)) → P (Ran (serf_query serial)) →
    twp (W := W) (getSerfMemberBySerial serial) (all_of P)) as Hs.
  { intros serial P HP HP'. unfold getSerfMemberBySerial, checked_Output.
    all_walk ltac:(repeat (match goal with |- context [match ?x with _ => _ end] => destruct x end); repeat constructor; auto). }
  split; [intros serial ts|intros target]; induction fuel as [|fuel IH]; simpl; try by apply twp_blocked.
  - apply ok_skip; [done|apply (all_grows (λ _, True)); by apply Hs|intros m].
    apply ok_skip; [done|apply (all_grows (λ _, True)); all_walk ltac:(repeat constructor; auto)|intros up].
    destruct up; [by apply twp_ret; intros ? [= <-]|]. apply ok_skip; [done|apply grows_Sleep|done].
  - apply ok_skip; [done|apply (all_grows (λ _, True)); by apply all_lookup|intros m].
    case_bool_decide; [by apply twp_ret; intros ? [= <-]|]. apply ok_skip; [done|apply grows_Sleep|done].
Qed.

(** The machine has booted after [ts], and was healthy after that was seen. *)
Definition came_back (target : string) (ts : Time) (es : list CmdEffect) : Prop := ∃ m es1 es2,
  es = es1 ++ es2 ∧ Machines (lookup_params target) [m] ∈ es1 ∧ booted_after (mc_Serial m) ts es1 ∧ healthy target es2.
Lemma ok_rebootCheck fuel target ts wait : twp (W := W) (rebootCheck fuel target ts wait)
  (on_ok (λ es b, b = true → came_back target ts es)).
Proof.
  unfold rebootCheck. eapply ok_bind; [apply ok_lookup|]. intros es m Hm.
  eapply ok_bind; [apply ok_wait_uptime|]. intros es1 up Hup. destruct up; simpl; [|by apply twp_ret; intros ? [= <-]].
  eapply twp_mono; [apply ok_wait_healthy|]. intros es2 r Hr h -> Hh. exists m, (es ++ es1), es2.
  split; [by rewrite (assoc_L (++))|]. split; [set_solver|]. split; [apply booted_mono; auto|by eapply Hr].
Qed.
Lemma ok_rebootCheck_wait fuel target ts : twp (W := W) (rebootCheck fuel target ts true)
  (on_ok (λ es _, came_back target ts es)).
Proof.
  apply (twp_mono _ (λ es r, on_ok (λ es b, b = true → came_back target ts es) es r ∧ on_ok (λ _ b, b = true) es r)).
  2:{ intros es r [H1' H2'] b ->. by apply (H1' b), (H2' b). }
  apply twp_and; [apply ok_rebootCheck|]. unfold rebootCheck.
  apply ok_skip; [done|apply (all_grows (λ _, True)); by apply all_lookup|intros m].
  eapply ok_bind; [apply (proj1 (ok_waiting fuel))|]. intros es up ->. apply (proj2 (ok_waiting fuel)).
Qed.

(** [reboot-check] says yes only of a machine that serf reports to have booted after
    the given time, and that sabakan reported healthy after that. *)
Theorem rebootCheck_true fuel target ts wait (v v' : NW W) :
  rebootCheck fuel target ts wait v = (v', Ok true) →
  ∃ es, tr_log v' = tr_log v ++ es ∧ came_back target ts es.
Proof. intros (es & Hl & Hr)%ok_rebootCheck. exists es. split; [done|]. by apply (Hr true). Qed.

Lemma ok_power action addr : twp (W := W) (power action addr)
  (on_ok (λ es _, ∀ t, reset_type action = Some t → Reset t ∈ es)).
Proof.
  set (R := λ es : list CmdEffect, ∀ t, reset_type action = Some t → Reset t ∈ es).
  assert (lasting R) as HR by (intros es es' [?|?] t ?; apply elem_of_app; auto).
  change (twp (W := W) (power action addr) (on_ok (λ es _, R es))).
  unfold power. apply ok_next; [done|apply (all_grows (λ _, True)); by apply all_getRedfish|intros c].
  apply ok_deferred; [intros es es' [] ?; apply HR; auto| |by apply twp_traced].
  apply ok_next; [done|apply (all_grows (λ _, True)), all_getSystem|intros sys].
  destruct (reset_type action) as [t|] eqn:Er.
  - apply ok_first; [done| |intros _; apply (all_grows (λ _, True)), all_rb_Println].
    apply twp_traced. intros r a _ t' Ht'. simplify_eq. set_solver.
  - case_bool_decide; [|by apply twp_fail]. eapply twp_mono; [apply (all_rb_Println (λ _, True))|].
    intros es r _ a _ t Ht. congruence.
Qed.

End check.
