(* ===== verification/ConfigProofs.v ===== *)
(** * What [neco config] stores and shows

    The two long switches over the names of settings are one table: the key in etcd and
    the kind of value.  What is set is shown again in a canonical form. *)
From S2P Require Import Prelude GoStr GoTime Json Types Etcd Worlds Storage StorageProofs.
From S2P Require Import Updater GoNet Host Progs Operator GoURL Vault Setup NecoCmd.

Local Open Scope Z_scope.

(** ** The table *)
Inductive Kind := KEnv | KURL | KDuration (def : Duration) | KPlain | KBlock | KTimes | KZone.
Definition settings : list (string * (string * Kind)) :=
  [("env", (KeyEnv, KEnv)); ("slack", (KeyNotificationSlack, KURL)); ("proxy", (KeyProxy, KURL));
   ("check-update-interval", (KeyCheckUpdateInterval, KDuration DefaultCheckUpdateInterval));
   ("worker-timeout", (KeyWorkerTimeout, KDuration DefaultWorkerTimeout));
   ("github-token", (KeyGitHubToken, KPlain)); ("node-proxy", (KeyNodeProxy, KURL));
   ("external-ip-address-block", (KeyExternalIPAddressBlock, KBlock));
   ("lb-address-block-default", (KeyLBAddressBlockDefault, KBlock));
   ("lb-address-block-bastion", (KeyLBAddressBlockBastion, KBlock));
   ("lb-address-block-internet", (KeyLBAddressBlockInternet, KBlock));
   ("lb-address-block-internet-cn", (KeyLBAddressBlockInternetCN, KBlock));
   ("release-time", (KeyReleaseTime, KTimes)); ("release-timezone", (KeyReleaseTimeZone, KZone))].
Definition setting (name : string) : option (string * Kind) :=
  snd <$> List.find (λ s : string * (string * Kind), bool_decide (name = fst s)) settings.

Section config.
Context `{Cron} {W : Type} `{EtcdLaws W} `{Console W}.

(** The text that is stored for the words after the name, if they are accepted. *)
Definition stored (kind : Kind) (args : list string) : outcome string :=
  match kind with
  | KEnv => v ← arg args 0; if bool_decide (v ∈ [TestEnv; DevEnv; StagingEnv; ProdEnv]) then Ok v
                            else Err (ErrMsg "invalid environment")
  | KURL => v ← arg args 0; u ← url_Parse v; if negb (IsAbs u) then Err (ErrMsg "invalid URL") else Ok v
  | KDuration _ => v ← arg args 0; d ← ParseDuration v; Ok (FormatInt d)
  | KPlain => arg args 0
  | KBlock => v ← arg args 0; '(ip, block) ← ParseCIDR v;
              if bool_decide (To4 ip = []) then Err (ErrMsg ("not IPv4 addr: " +:+ v)) else Ok (IPNet_String block)
  | KTimes => _ ← check_schedules args; Ok (String.concat newline args)
  | KZone => v ← arg args 0; _ ← LoadLocation v; Ok v
  end.
(** What is shown for it. *)
Definition shown (kind : Kind) (args : list string) : outcome string :=
  match kind with
  | KDuration _ => v ← arg args 0; d ← ParseDuration v; Ok (Duration_String d)
  | _ => stored kind args
  end.
Definition setting_text (k : string) (kind : Kind) : M W string :=
  match kind with
  | KEnv =>
      r ← attempt (get k);
      match r with inl ErrNotFound => mret NoneEnv | inl e => fail e | inr v => mret v end
  | KDuration def => d ← get_duration k def; mret (Duration_String d)
  | _ => get k
  end.
Definition set_by_table (name : string) (args : list string) : M W unit :=
  match setting name with
  | None => fail (ErrMsg ("unknown key: " +:+ name))
  | Some (k, kind) => v ← lift (stored kind args); put k v
  end.
Definition get_by_table (name : string) : M W unit :=
  match setting name with
  | None => fail (ErrMsg ("unknown key: " +:+ name))
  | Some (k, kind) => v ← setting_text k kind; Println v
  end.

(** The checks of the three kinds that several settings have. *)
Lemma set_url_eq (put : string → M W unit) v w :
  set_url put v w = (v ← lift (u ← url_Parse v; if negb (IsAbs u) then Err (ErrMsg "invalid URL") else Ok v); put v) w.
Proof. unfold set_url, mbind, M_bind, outcome_bind, lift. destruct (url_Parse v) as [u| | |]; try done. by destruct (IsAbs u). Qed.
Lemma set_duration_eq (put' : Duration → M W unit) k v w : (∀ d, put' d = put k (FormatInt d)) →
  set_duration put' v w = (v ← lift (d ← ParseDuration v; Ok (FormatInt d)); put k v) w.
Proof.
  intros Hp. unfold set_duration, mbind, M_bind, outcome_bind, lift. destruct (ParseDuration v); try done. by rewrite Hp.
Qed.
Lemma set_block_eq (put : string → M W unit) v w :
  set_block put v w = (v ← lift ('(ip, block) ← ParseCIDR v;
              if bool_decide (To4 ip = []) then Err (ErrMsg ("not IPv4 addr: " +:+ v)) else Ok (IPNet_String block)); put v) w.
Proof.
  unfold set_block, mbind, M_bind, outcome_bind, lift. destruct (ParseCIDR v) as [[ip block]| | |]; try done. by case_bool_decide.
Qed.
(** The word after the name. *)
Lemma with_arg {A} (a : outcome string) (f : string → M W A) (g : string → outcome A) (h : A → M W unit) (k : string → M W unit) w :
  (∀ v, k v w = (x ← lift (g v); h x) w) → (v ← lift a; k v) w = (x ← lift (v ← a; g v); h x) w.
Proof. intros Hk. unfold mbind at 1, M_bind at 1, lift at 1. destruct a; [apply Hk|done..]. Qed.

Lemma config_set_table name args w : config_set (name :: args) w = set_by_table name args w.
Proof.
  unfold config_set, set_by_table, setting, settings. simpl List.find.
  unfold mbind at 1, M_bind at 1, lift at 1. change (arg (name :: args) 0) with (Ok name). cbv beta iota.
  change (arg (name :: args) 1) with (arg args 0). change (tail (name :: args)) with args.
  repeat (case_bool_decide; [subst; cbn -[stored arg put];
    first [ apply (with_arg _ (λ _, mret ""%string)); intros v; first [apply set_url_eq|by apply set_duration_eq|apply set_block_eq|idtac]
          | idtac ]|]).
  all: try done.
  - unfold mbind, M_bind, lift. simpl. unfold outcome_bind. by destruct (check_schedules args).
  - unfold mbind, M_bind, outcome_bind, lift. by destruct (LoadLocation v).
  - cbn [List.find fst]. by rewrite !bool_decide_eq_false_2 by done.
Qed.

Lemma config_get_table name w : config_get name w = get_by_table name w.
Proof.
  unfold config_get, get_by_table, setting, settings. simpl List.find.
  repeat (case_bool_decide; [subst; cbn -[Println get get_duration]; try done|]).
  all: try (cbn [List.find fst]; by rewrite !bool_decide_eq_false_2 by done).
  all: try done.
  all: unfold GetCheckUpdateInterval, GetWorkerTimeout, mbind, M_bind, mret, M_ret; by destruct (get_duration _ _ w) as [? []].
Qed.

(** ** Reading a setting back *)
Lemma get_last k v l (w1 w2 : W) r :
  view w1 = l ++ [[EvPut k v]] → get k w1 = (w2, r) →
  mod_revision (store (view w2)) k = revision (view w1) →
  match r with Ok text => text = v | Err e => e ≠ ErrNotFound | _ => True end.
Proof.
  unfold get. intros Hv E Hm. destruct r as [text|e|why|]; [|  |done..].
  - minv. apply get_kv in H3 as (Hp & _ & Hk). rewrite Hk in E.
    unfold mod_revision in Hm. destruct (store _ !! k) as [ver|] eqn:Hs; minv.
    rewrite Hs in Hm. rewrite Hv in Hp, Hm. by rewrite <- (last_write _ _ _ _ _ Hp Hs Hm).
  - intros ->. apply bind_err in E as [[_ []]%get_err|(w' & resp & E & E')].
    apply get_kv in E as (Hp & _ & Hk). rewrite Hk in E'. destruct (store _ !! k) eqn:Hs; minv.
    unfold mod_revision in Hm. rewrite Hs, Hv in Hm. unfold revision in Hm. lia.
Qed.

(** A parsed duration is one that the storage can read back. *)
Lemma leadingInt_nonneg s x v rest : 0 ≤ x → leadingInt s x = Some (v, rest) → 0 ≤ v.
Proof.
  revert x. induction s as [|c s IH]; simpl; intros x Hx E; [by simplify_eq|].
  unfold char_digit in E. destruct (Ascii.is_nat c) as [d|] eqn:Ed; simpl in E; [|by simplify_eq].
  repeat case_match; try done. eapply IH in E; [done|lia].
Qed.
Lemma f64_trunc_nonneg x : 0 ≤ f64_trunc x.
Proof. unfold f64_trunc. repeat case_match; try lia. apply Z.div_pos; lia. Qed.
Lemma unit_pos u n : unit_of u = Some n → 0 < n.
Proof.
  unfold unit_of. rewrite fmap_Some. intros (p & Hp & ->). apply List.find_some in Hp as [Hin _]. simpl in Hin.
  repeat destruct Hin as [<-|Hin]; done.
Qed.
Lemma duration_item_nonneg s v rest : duration_item s = Ok (v, rest) → 0 ≤ v.
Proof.
  unfold duration_item. intros E. repeat case_match; simplify_eq.
  all: match goal with HI : leadingInt _ 0 = Some _, HU : unit_of _ = Some _ |- _ =>
         apply leadingInt_nonneg in HI; [|done]; apply unit_pos in HU end.
  all: try (match goal with |- context [f64_trunc ?x] => pose proof (f64_trunc_nonneg x) end); nia.
Qed.
Lemma duration_items_nonneg fuel s d v : 0 ≤ d → duration_items fuel s d = Ok v → 0 ≤ v.
Proof.
  revert s d. induction fuel as [|fuel IH]; intros [|c s] d Hd; cbn [duration_items]; intros E; simplify_eq; try done.
  apply bind_pure_ok in E as ([v' rest] & Hi%duration_item_nonneg & E). case_match; [done|]. eapply IH in E; [done|lia].
Qed.
Lemma ParseDuration_range s d : ParseDuration s = Ok d → in_int64 d.
Proof.
  unfold ParseDuration. intros E. destruct (match s with EmptyString => _ | _ => _ end) as [neg s'].
  case_bool_decide; [by simplify_eq|]. case_bool_decide; [done|].
  apply bind_pure_ok in E as (d' & Hd & E). apply duration_items_nonneg in Hd; [|done].
  repeat case_match; simplify_eq; [apply wrap64_range|]. unfold in_int64, int64_min, int64_max. lia.
Qed.

(** What was stored is shown. *)
Lemma text_shown k kind args v l (w1 w2 : W) text :
  stored kind args = Ok v → view w1 = l ++ [[EvPut k v]] → setting_text k kind w1 = (w2, Ok text) →
  mod_revision (store (view w2)) k = revision (view w1) → shown kind args = Ok text.
Proof.
  intros Hs Hv E Hm.
  assert (Hp : kind = KEnv ∨ (∃ d, kind = KDuration d) ∨ (setting_text k kind = get k ∧ shown kind args = stored kind args))
    by (destruct kind; eauto).
  destruct Hp as [->|[[def ->]|[Hk Hsh]]].
  - apply bind_ok in E as (w' & r & Hg & E). destruct r as [[]|t]; minv; pose proof (get_last k v l _ _ _ Hv Hg Hm) as Hl.
    + by destruct Hl.
    + by rewrite Hl.
  - apply bind_ok in E as (w' & d & (w'' & r & Hg & E')%bind_ok & E). destruct r as [[]|t]; minv;
      pose proof (get_last k v l _ _ _ Hv Hg Hm) as Hl; [by destruct Hl|].
    simpl in Hs |- *. destruct (arg args 0) as [a| | |]; simpl in *; try done.
    destruct (ParseDuration a) as [d'| | |] eqn:Hd; simpl in *; try done. apply ParseDuration_range in Hd.
    simplify_eq. match goal with HP : ParseInt _ = Ok _ |- _ => rewrite ParseInt_FormatInt in HP by done end. by simplify_eq.
  - rewrite Hk in E. rewrite Hsh, Hs. f_equal. symmetry.
    by apply (get_last k v l w1 w2 (Ok text) Hv).
Qed.

(** C39: what [neco config set] accepts, [neco config get] shows again: when the command
    succeeded, the name is one of the table, and a later [config get] of it prints, unless
    another client has written the key in between, the text itself, the address block in
    its canonical form, or the same duration in Go's notation. *)
Theorem config_set_get name args w w1 w3 :
  config_set (name :: args) w = (w1, Ok tt) →
  config_get name w1 = (w3, Ok tt) →
  ∃ k kind text w2, setting name = Some (k, kind) ∧
    Println text w2 = (w3, Ok tt) ∧
    (mod_revision (store (view w2)) k = revision (view w1) → shown kind args = Ok text).
Proof.
  rewrite config_set_table, config_get_table. unfold set_by_table, get_by_table.
  destruct (setting name) as [[k kind]|]; [|done]. intros Es Eg. minv.
  apply put_ok in Es as (l & Hl & Hv). exists k, kind, x0, x. split_and!; [done..|]. by eapply text_shown.
Qed.
End config.
