(* ===== verification/NecoWitness.v ===== *)
(** * The theorems about the neco command at work

    A simulated machine room: an etcd, machines with BMCs that reset them, and a
    Kubernetes whose fences take effect with time.  What modelling showed about the
    commands is at the end. *)
From S2P Require Import Prelude GoStr GoTime Json Types Etcd Worlds Storage.
From S2P Require Import Updater GoNet Host Progs Operator OperatorWitness Ext StateSetter Rebooter Trace Upload.
From S2P Require Import TraceLoops Vault Setup NecoCmd NecoInit NecoPower NecoReboot NecoShutdown NecoTrace.
From S2P Require Import ShutdownProofs RebootProofs ConfigProofs.

Local Open Scope Z_scope.

Record Room := {
  rm_power : string;
  rm_boots : nat;
  rm_machines : list Machine;
  rm_nodes : list KubeNode;
  rm_node : option Node;
  rm_fences : gmap string NetworkFence;
  rm_attached : list string;
  rm_out : list string;
}.
Definition Hall : Type := Sim * Room.
Definition in_room (f : Room → Room) : M Hall unit := λ h, ((h.1, f h.2), Ok ()).
Definition see {A} (f : Room → A) : M Hall A := λ h, (h, Ok (f h.2)).
Definition set_power (p : string) (r : Room) : Room :=
  {| rm_power := p; rm_boots := rm_boots r; rm_machines := rm_machines r; rm_nodes := rm_nodes r; rm_node := rm_node r;
     rm_fences := rm_fences r; rm_attached := rm_attached r; rm_out := rm_out r |}.
Definition boot (r : Room) : Room :=
  {| rm_power := "On"; rm_boots := S (rm_boots r); rm_machines := rm_machines r; rm_nodes := rm_nodes r; rm_node := rm_node r;
     rm_fences := rm_fences r; rm_attached := rm_attached r; rm_out := rm_out r |}.
Definition set_node (n : option Node) (r : Room) : Room :=
  {| rm_power := rm_power r; rm_boots := rm_boots r; rm_machines := rm_machines r; rm_nodes := rm_nodes r; rm_node := n;
     rm_fences := rm_fences r; rm_attached := rm_attached r; rm_out := rm_out r |}.
Definition set_fences (f : gmap string NetworkFence) (r : Room) : Room :=
  {| rm_power := rm_power r; rm_boots := rm_boots r; rm_machines := rm_machines r; rm_nodes := rm_nodes r; rm_node := rm_node r;
     rm_fences := f; rm_attached := rm_attached r; rm_out := rm_out r |}.
Definition say (s : string) (r : Room) : Room :=
  {| rm_power := rm_power r; rm_boots := rm_boots r; rm_machines := rm_machines r; rm_nodes := rm_nodes r; rm_node := rm_node r;
     rm_fences := rm_fences r; rm_attached := rm_attached r; rm_out := rm_out r ++ [s] |}.

#[export] Instance k8s_values : K8sValues := {
  TaintNodeOutOfService := "node.kubernetes.io/out-of-service"; TaintEffectNoExecute := "NoExecute";
  Fenced := "Fenced"; Unfenced := "Unfenced"; FencingOperationResultSucceeded := "Succeeded";
  UnFenceOperationSuccessfulMessage := "unfencing operation successful";
}.
#[export] Instance redfish_values : RedfishValues := {
  OnResetType := "On"; ForceOffResetType := "ForceOff"; ForceRestartResetType := "ForceRestart";
  OnPowerState := "On"; OffPowerState := "Off";
}.
#[export] Instance machine_states : MachineStates := {
  StateUninitialized := "uninitialized"; StateHealthy := "healthy"; StateUnhealthy := "unhealthy";
  StateUnreachable := "unreachable"; StateUpdating := "updating"; StateRetiring := "retiring";
  StateRetired := "retired";
  MachineState_IsValid s := bool_decide (s ∈ ["uninitialized"; "healthy"; "unhealthy"; "unreachable";
                                              "updating"; "retiring"; "retired"]);
}.
#[export] Instance exit_errors : ExitErrors := { ExitCode e := if bool_decide (e = ErrMsg "exit status 1") then Some 1 else None }.

(** With time, a fence takes effect, and volumes are detached. *)
Definition settle (f : NetworkFence) : NetworkFence :=
  {| nf_Name := nf_Name f; nf_Namespace := nf_Namespace f; nf_FenceState := nf_FenceState f; nf_Driver := nf_Driver f;
     nf_Cidrs := nf_Cidrs f; nf_Secret := nf_Secret f; nf_Parameters := nf_Parameters f; nf_Result := "Succeeded";
     nf_Message := if bool_decide (nf_FenceState f = "Unfenced") then "unfencing operation successful"
                   else "fencing operation successful" |}.
Definition later (r : Room) : Room :=
  {| rm_power := if bool_decide (rm_power r = "PoweringOff") then "Off" else rm_power r;
     rm_boots := rm_boots r; rm_machines := rm_machines r; rm_nodes := rm_nodes r; rm_node := rm_node r;
     rm_fences := settle <$> rm_fences r; rm_attached := tl (rm_attached r); rm_out := rm_out r |}.
Definition members (boots : nat) : string :=
  print (JObj [("members", JArr [JObj [("name", JStr "a"); ("tags", JObj [("uptime", JStr ("2024-05-01 1" +:+ Itoa (Z.of_nat boots) +:+ ":00:00"))])]])]) "".
#[export] Instance hall_files : Files Hall := {
  os_Stat _ := mret ();
  os_ReadFile _ := mret "";
  os_OpenTrunc _ _ := mret ();
  file_Write _ _ := mret ();
  file_Sync _ := mret ();
  file_Close _ := mret ();
  os_MkdirAll _ _ := mret ();
  os_Remove _ := mret ();
  os_Rename _ _ := mret ();
  os_Chown _ _ _ := mret ();
  os_CreateTemp p := mret p;
}.
#[export] Instance hall_commands : Commands Hall := {
  cmd_Run argv := if bool_decide (take 3 argv = ["neco"; "power"; "stop"]) then in_room (set_power "PoweringOff") else mret ();
  cmd_Output argv :=
    if bool_decide (take 3 argv = ["neco"; "power"; "status"]) then see (λ r, (rm_power r +:+ NecoCmd.newline, None))
    else if bool_decide (head argv = Some "serf") then see (λ r, (members (rm_boots r), None))
    else mret ("", None);
  cmd_RunInput _ _ := mret ();
}.
#[export] Instance hall_clock : Clock Hall := {
  clock_now := mret (1700000100 * Second);
  clock_after _ h := ((h.1, later h.2), Ok true);
}.
#[export] Instance hall_util : EtcdUtil Hall := {
  EtcdConfig := unit;
  etcdutil_NewConfig _ := tt;
  etcdutil_Unmarshal _ c := Ok c;
  etcdutil_NewClient _ := mret ();
}.
#[export] Instance hall_admin : EtcdAdmin Hall := {
  etcd_NewClient _ _ := mret ();
  etcd_ClientClose := mret ();
  etcd_MemberList := mret [];
  etcd_MemberAdd _ := mret ([], 1);
  etcd_MemberRemove _ := mret ();
  etcd_Status := mret "3.5.0";
  etcdutil_Config prefix endpoints cert key := JNull;
}.
#[export] Instance hall_console : Console Hall := {
  stdout_Print s := in_room (say s);
  stdin_ReadAll := mret "";
  ui_Ask _ := mret "y";
}.
#[export] Instance hall_saba : SabaClient Hall := {
  saba_NewClient _ := mret ();
  saba_ImagesIndex _ := mret [];
  saba_ImagesUpload _ _ _ _ _ _ := mret ();
  saba_AssetsInfo _ := mret ();
  saba_AssetsUpload _ _ := mret ();
  saba_IsNotFound e := false;
  saba_IgnitionsListIDs _ := mret [];
  IgnitionTemplate := unit;
  saba_BuildIgnitionTemplate _ _ := mret ();
  saba_IgnitionsSet _ _ _ := mret ();
  saba_MachinesGet _ := see rm_machines;
  DHCPConfig := unit;
  saba_DecodeDHCPConfig _ := Ok ();
  saba_DHCPConfigSet _ := mret ();
}.
#[export] Instance hall_redfish : Redfish Hall := {
  RfClient := unit;
  RfSystem := string;
  RfBios := unit;
  RfResponse := unit;
  rf_Connect _ _ _ := mret ();
  rf_Logout _ := mret ();
  rf_Systems _ := see (λ r, [rm_power r]);
  rf_PowerState s := s;
  rf_TrustedModules _ := JNull;
  rf_Reset _ t := if bool_decide (t = "ForceOff") then in_room (set_power "Off") else in_room boot;
  rf_Bios _ := mret (Some ());
  rf_Attributes _ := [];
  rf_UpdateBiosAttributes _ _ := mret ();
  rf_Post _ _ _ := mret (Some (), None);
  rf_LocationPath _ := Ok "/jobs/JID_1";
}.
#[export] Instance hall_kube : Kube Hall := {
  kube_BuildConfigFromFlags _ := mret ();
  kube_NewForConfig := mret ();
  kube_ListNodes := see rm_nodes;
  cmd_RunTo _ _ := mret ();
  cke_NewStorage _ := mret ();
  cke_IsRebootQueueDisabled := mret false;
}.
Definition no_object : error := ErrMsg "not found".
Definition object_exists : error := ErrMsg "already exists".
#[export] Instance hall_api : KubeApi Hall := {
  k8s_Client _ := mret ();
  k8s_GetNode _ h := (h, match rm_node h.2 with Some n => Ok n | None => Err no_object end);
  k8s_UpdateNode n := in_room (set_node (Some n));
  k8s_ListStorageClasses := mret [{| stc_Provisioner := "rook.rbd.csi.ceph.com"; stc_Parameters := {["clusterID" := "ceph"]} |}];
  k8s_ListCephClusters id := mret [{| nn_Name := id +:+ "-hdd"; nn_Namespace := id |}];
  k8s_CreateFence f h :=
    match rm_fences h.2 !! nf_Name f with
    | Some _ => (h, Err object_exists)
    | None => in_room (set_fences (<[nf_Name f := f]> (rm_fences h.2))) h
    end;
  k8s_GetFence n h := (h, match rm_fences h.2 !! n with Some f => Ok f | None => Err no_object end);
  k8s_UpdateFence f h := in_room (set_fences (<[nf_Name f := f]> (rm_fences h.2))) h;
  k8s_DeleteFence f h := in_room (set_fences (delete (nf_Name f) (rm_fences h.2))) h;
  k8s_ListVolumeAttachments := see rm_attached;
  api_IsNotFound e := bool_decide (e = no_object);
  api_IsAlreadyExists e := bool_decide (e = object_exists);
}.

(** ** A shutdown and the clean-up after it *)
Definition worker := "10.69.0.4".
Definition machine (serial role ip bmc state : string) : Machine :=
  {| mc_Serial := serial; mc_Labels := {["machine-type" := "r6525-cs-1"]}; mc_Role := role; mc_IPv4 := [ip];
     mc_BMC := {| bmc_IPv4 := bmc; bmc_IPv6 := ""; bmc_Type := "iDRAC" |}; mc_State := state; mc_InfoBMC := JNull |}.
Definition credentials : Log := [[EvPut KeyBMCIPMIUser "support"]; [EvPut KeyBMCIPMIPassword "secret"]].
Definition hall (r : Room) : NW Hall :=
  {| tr_world := ({| sim_log := credentials; sim_env := []; sim_fail := [] |}, r); tr_log := [] |}.
Definition running : Room :=
  {| rm_power := "On"; rm_boots := 0; rm_machines := [machine "a" "cs" worker "10.72.0.4" "healthy"]; rm_nodes := [];
     rm_node := Some {| nd_Name := worker; nd_Taints := []; nd_Object := JNull |}; rm_fences := ∅;
     rm_attached := [worker; worker; worker]; rm_out := [] |}.
Definition shut : NW Hall * outcome unit := shutdownCmd 5 worker (hall running).
Definition tainted : Room := (tr_world shut.1).2.


Definition cleaned_up : NW Hall * outcome unit := cleanupCmd 5 worker (hall tainted).

(** ** Reboots *)
Definition rack_label := "topology.kubernetes.io/zone".
Definition some_config : Config :=
  {| cf_RebootTimes := [{| rt_Name := "cs"; rt_MatchLabels := {["cke.cybozu.com/role" := "cs"]}; rt_Deny := []; rt_Allow := [] |}];
     cf_TimeZone := "UTC"; cf_GroupLabelKey := rack_label; cf_MetricsPort := DefaultMetricsPort |}.
Definition kube_node : KubeNode :=
  {| kn_Name := worker; kn_Labels := list_to_map [(rack_label, "rack0"); ("cke.cybozu.com/role", "cs")] |}.
Definition fleet : list Machine :=
  [machine "b" "boot" "10.69.0.3" "10.72.0.3" "healthy"; machine "a" "cs" worker "10.72.0.4" "healthy";
   machine "c" "ss" "10.69.0.5" "10.72.0.5" "healthy"].
Definition mixed : Room :=
  {| rm_power := "On"; rm_boots := 0; rm_machines := fleet; rm_nodes := [kube_node]; rm_node := None; rm_fences := ∅;
     rm_attached := []; rm_out := [] |}.
Definition rebooted : NW Hall * outcome unit := rebootMachines "kubeconfig" 3 false (Some some_config) fleet (hall mixed).

(** The boot server is left alone, the node is registered, the third machine is restarted. *)
Lemma rebootMachines_targets_witness :
  rebooted.2 = Ok tt ∧ is_Some (store (sim_log (tr_world rebooted.1).1) !! rebootListEntryKey 0) ∧
  Connected "https://10.72.0.5" ∈ tr_log rebooted.1 ∧
  ∃ es, tr_log rebooted.1 = [] ++ es ∧
    (Forall fetching es ∧ (∀ a, rebooted.2 ≠ Ok a) ∨
     ∃ nodes, NodesListed nodes ∈ es ∧ Forall (permitted false (Some some_config) fleet nodes) es ∧
       (rebooted.2 = Ok tt → false = false → ∀ m, m ∈ fleet → outside nodes m → Connected (endpoint m) ∈ es)).
Proof.
  split; [vm_compute; reflexivity|]. split; [vm_compute; eexists; reflexivity|]. split.
  { assert (existsb (λ x, match x with Connected e => String.eqb e "https://10.72.0.5" | _ => false end) (tr_log rebooted.1) = true)
      as (x & Hx & Ht)%existsb_exists by (vm_compute; reflexivity).
    destruct x; try discriminate Ht. apply String.eqb_eq in Ht. subst. apply list_elem_of_In. exact Hx. }
  apply (rebootMachines_targets "kubeconfig" 3 false (Some some_config) fleet (hall mixed) rebooted.1 rebooted.2).
  unfold rebooted. apply surjective_pairing.
Defined.

Definition retired : Room :=
  {| rm_power := "Off"; rm_boots := 0; rm_machines := [machine "a" "cs" worker "10.72.0.4" "retiring"]; rm_nodes := [];
     rm_node := None; rm_fences := ∅; rm_attached := []; rm_out := [] |}.
Definition wiped : NW Hall * outcome unit := tpmClearCmd true "a" (hall retired).

Definition day_before : Time := (days_of_civil 2024 4 30) * 86400 * Second.
Definition checked : NW Hall * outcome bool := rebootCheck 3 "a" day_before false (hall running).
Lemma rebootCheck_true_witness :
  ∃ es, tr_log checked.1 = [] ++ es ∧ came_back "a" day_before es.
Proof.
  apply (rebootCheck_true 3 "a" day_before false (hall running) checked.1).
  apply injective_projections; [reflexivity|vm_compute; reflexivity].
Defined.

Definition waited : NW Hall * outcome unit := rebootAndWaitMain 3 "a" (hall running).

(** ** A setting *)
#[export] Instance no_cron : Cron := {
  Schedule := unit; Location := unit; ParseStandard _ := Ok tt; LoadLocation _ := Ok tt; Next _ _ t := t + Minute;
}.
Definition empty_hall : Hall := ({| sim_log := []; sim_env := []; sim_fail := [] |}, running).
Definition configured : Hall * outcome unit := config_set ["worker-timeout"; "90m"] empty_hall.
Definition printed : Hall * outcome unit := config_get "worker-timeout" configured.1.
Lemma config_set_get_witness :
  rm_out printed.1.2 = ["1h30m0s" +:+ NecoCmd.newline] ∧
  ∃ k kind text w2, setting "worker-timeout" = Some (k, kind) ∧ Println text w2 = (printed.1, Ok tt) ∧
    (mod_revision (store (view w2)) k = revision (view configured.1) → shown kind ["90m"] = Ok text).
Proof.
  split; [vm_compute; reflexivity|].
  apply (config_set_get "worker-timeout" ["90m"] empty_hall configured.1 printed.1);
    (apply injective_projections; [reflexivity|vm_compute; reflexivity]).
Defined.

(** ** What modelling showed *)

(** [--wait-for-stop] ends at the first ping, also when the machine still answers. *)
Lemma waitForStop_ends_at_once {W} `{Commands W} `{Clock W} fuel addr (w w' : W) :
  cmd_Run ["ping"; "-c1"; "-w1"; addr] w = (w', Ok tt) → waitForStop (S fuel) addr w = (w', Ok tt).
Proof. intros E. simpl. unfold mbind, M_bind, attempt. by rewrite E. Qed.

(** A fence of an earlier clean-up, which lifts the fence, is taken for the new fence. *)
Definition lifted : NetworkFence := settle (unfenced (new_fence {| nn_Name := "ceph-hdd"; nn_Namespace := "ceph" |} worker)).
Definition left_over : Room := set_fences {[nf_Name lifted := lifted]} running.
Lemma lifted_fence_accepted :
  let '(v, r) := shutdownCmd 5 worker (hall left_over) in
  r = Ok tt ∧ nf_FenceState <$> rm_fences (tr_world v).2 !! nf_Name lifted = Some Unfenced.
Proof. vm_compute. auto. Qed.

(** Names that need a value and pass the check of the arguments without one. *)
Lemma config_set_panics name (w : Hall) :
  name ∈ ["github-token"; "lb-address-block-default"; "lb-address-block-bastion"; "lb-address-block-internet";
          "lb-address-block-internet-cn"; "release-timezone"] →
  configSetArgs [name] = Ok tt ∧ ∃ why, config_set [name] w = (w, Panic why).
Proof.
  intros Hin. split; [|eexists]; repeat (apply elem_of_cons in Hin as [->|Hin]); try (by apply not_elem_of_nil in Hin); vm_compute; reflexivity.
Qed.

(** Outside [neco rebooter] the configuration is not loaded: a node of Kubernetes panics. *)
Lemma firmware_reboot_panics :
  (rebootMachines "kubeconfig" 3 false None fleet (hall mixed)).2 = Panic "nil pointer dereference".
Proof. vm_compute. reflexivity. Qed.
