(* ===== verification/InstallerProofs.v ===== *)
(** * What the installer leaves behind

    The addresses that it configures are those of the plan of the data center, and the
    identity that it writes is the one that the programs of neco read. *)
From S2P Require Import Prelude GoStr GoTime Json Types Etcd Worlds Storage Watch Worker.
From S2P Require Import Updater GoNet Host Progs Operator OperatorFiles OperatorWitness Rebooter BootIP BootIPProofs BootIPRun BootIPNetlink.
From S2P Require Import Menu MenuSpec MenuConf MenuProofs MenuRefs MenuNodes MenuWitness GoURL Setup NecoCmd NecoReboot Installer.

Local Open Scope Z_scope.

(** ** Addresses *)
Lemma byte_land_255 b : is_byte b → Z.land b 255 = b.
Proof. intros Hb. change 255 with (Z.ones 8). rewrite Z.land_ones by lia. apply Z.mod_small. exact Hb. Qed.
Lemma byte_land_192 b : is_byte b → Z.land b 192 = b / 64 * 64.
Proof.
  intros Hb. apply (is_byte_elim (λ b, Z.land b 192 = b / 64 * 64)); [|done]. apply Forall_forall. intros x Hx.
  assert (forallb (λ b, Z.land b 192 =? b / 64 * 64) (map Z.of_nat (seq 0 256)) = true) as Hall by (vm_compute; reflexivity).
  rewrite forallb_forall in Hall. apply Z.eqb_eq, Hall. by apply list_elem_of_In.
Qed.
Lemma div_blocks v d : 0 < d → v / 64 * 64 / (64 * d) = v / (64 * d).
Proof. intros Hd. rewrite <-(Z.div_div v), (Z.mul_comm (v / 64)), Z.div_mul_cancel_l by lia. done. Qed.
Lemma v4_bytes_26 v : 0 <= v < 2 ^ 32 → zip_with Z.land (v4_bytes v) [255; 255; 255; 192] = v4_bytes (v / 64 * 64).
Proof.
  intros Hv. pose proof (v4_bytes_bytes v Hv) as HB. unfold v4_bytes in *. rewrite !Forall_cons in HB.
  destruct HB as (H1 & H2 & H3 & H4 & _). simpl zip_with.
  rewrite !byte_land_255, byte_land_192 by done.
  pose proof (div_blocks v (2 ^ 18)) as E24. pose proof (div_blocks v (2 ^ 10)) as E16. pose proof (div_blocks v (2 ^ 2)) as E8.
  change (64 * 2 ^ 18) with (2 ^ 24) in E24. change (64 * 2 ^ 10) with (2 ^ 16) in E16. change (64 * 2 ^ 2) with (2 ^ 8) in E8.
  rewrite E24, E16, E8 by lia. do 3 f_equal. f_equal. clear. Z.to_euclidean_division_equations. lia.
Qed.
Lemma Mask_26 ip v : is_v4 ip v → is_v4 (Mask ip (CIDRMask nodeMaskBits 32)) (v / 64 * 64).
Proof.
  intros [Hv Hip]. assert (Mask ip (CIDRMask nodeMaskBits 32) = v4_bytes (v / 64 * 64)) as ->.
  { rewrite <-v4_bytes_26 by done. unfold Mask. change (CIDRMask nodeMaskBits 32) with [255; 255; 255; 192].
    unfold To4 in Hip. simpl (length [_; _; _; _] =? _)%nat. rewrite andb_false_l. simpl (_ && _).
    destruct (length ip =? 4)%nat eqn:E4.
    - apply Nat.eqb_eq in E4. replace (length ip =? 16)%nat with false by (rewrite E4; done). simpl.
      unfold and_bytes. by rewrite E4, Hip.
    - destruct (_ && bool_decide (take 12 ip = _)) eqn:E16; [|done]. rewrite Hip. done. }
  split; [Z.to_euclidean_division_equations; lia|done].
Qed.
Lemma torIP_value `{NetUtilLaws} ip v : is_v4 ip v → is_v4 (torIP ip) (v / 64 * 64 + 1).
Proof.
  intros Hip. unfold torIP. apply IPAdd_v4; [by apply Mask_26|].
  destruct Hip as [Hv _]. Z.to_euclidean_division_equations; lia.
Qed.

Lemma same_text ip v n v' : is_v4 ip v → net_value n v' → v = v' → IP_String ip = ip_text n.
Proof. intros Hip Hn <-. unfold ip_text. by rewrite (is_v4_String _ _ Hip), (is_v4_String _ _ Hn). Qed.

Section plan.
Context `{NetUtilLaws} `{MenuYaml} `{Sha1}.

(** C35: in a data center that is planned with the node networks that neco assumes, the
    installer gives the boot server of a rack its planned addresses and AS number and
    takes the planned addresses of its two ToR switches for its routes and BGP peers. *)
Theorem installer_follows_plan m c nw inv i rk cluster vb :
  NewCluster m = Ok c → mn_network m = Some nw → mn_inventory m = Some inv →
  is_v4 (nw_nodeBase nw) (10 * 2 ^ 24 + 69 * 2 ^ 16) → nw_nodeRangeSize nw = 6 → nw_asnBase nw = baseASN →
  is_v4 (ipn_IP (nw_bastion nw)) vb → is_v4 (ParseIP (ic_Bastion cluster)) vb →
  cl_racks c !! i = Some rk → 10 * 2 ^ 24 + 69 * 2 ^ 16 + 192 * (Z.of_nat i + 1) <= 2 ^ 32 → vb + Z.of_nat i < 2 ^ 32 →
  let '(node0, node1, node2, bastion) := nodeAddresses cluster (Z.of_nat i) in
  let boot := bn_node (ra_bootNode rk) in
  IP_String node0 = ip_text (no_node0Address boot) ∧
  IP_String node1 = ip_text (no_node1Address boot) ∧
  IP_String node2 = ip_text (no_node2Address boot) ∧
  IP_String bastion = ip_text (bn_bastionAddress (ra_bootNode rk)) ∧
  IP_String (torIP node1) = ip_text (no_tor1Address boot) ∧
  IP_String (torIP node2) = ip_text (no_tor2Address boot) ∧
  wrap64 (baseASN + Z.of_nat i) = ra_asn rk.
Proof.
  intros (nw' & inv' & P)%NewCluster_planned Hn Hi Hv Hs Ha Hb Hcb Hrk Hfit Hbfit. destruct P as [Hn1 Hi1 _ _ _ Hr _].
  rewrite Hn in Hn1. injection Hn1 as <-. rewrite Hi in Hi1. injection Hi1 as <-.
  rewrite Hr, list_lookup_imap in Hrk. destruct (is_Rack inv !! i) as [rm|]; [|done]. injection Hrk as <-.
  set (v := 10 * 2 ^ 24 + 69 * 2 ^ 16) in *. set (r := Z.of_nat i) in *.
  assert (∀ k o, 0 <= k <= 2 → 0 <= o < 64 → net_value (addToIPNet (node_net nw (r * 3 + k)) o) (v + 192 * r + 64 * k + o)) as Hslot.
  { intros k o Hk Ho. replace (v + 192 * r + 64 * k + o) with (slot_value nw v (r, k, o)) by (unfold slot_value; rewrite Hs; lia).
    apply slot_addToIPNet; rewrite ?Hs; lia || done. }
  assert (is_v4 (BootNode0IP r) (v + 192 * r + 3)) as V0.
  { unfold BootNode0IP. rewrite wrap64_id by (unfold in_int64, int64_min, int64_max; lia).
    replace (v + 192 * r + 3) with (v + (192 * r + 3)) by lia. apply IPAdd_v4; [|lia]. split; [lia|]. vm_compute. reflexivity. }
  pose proof (IPAdd_v4 _ _ 64 V0 ltac:(lia)) as V1. pose proof (IPAdd_v4 _ _ 128 V0 ltac:(lia)) as V2.
  unfold nodeAddresses. cbv zeta. split_and!.
  - apply (same_text _ _ _ _ V0 (Hslot 0 3 ltac:(lia) ltac:(lia))). lia.
  - apply (same_text _ _ _ _ V1 (Hslot 1 3 ltac:(lia) ltac:(lia))). lia.
  - apply (same_text _ _ _ _ V2 (Hslot 2 3 ltac:(lia) ltac:(lia))). lia.
  - eapply same_text; [apply (IPAdd_v4 _ vb)|apply (addToIP_value _ vb)|]; try done; destruct Hcb; lia.
  - apply (same_text _ _ _ _ (torIP_value _ _ V1) (Hslot 1 1 ltac:(lia) ltac:(lia))). Z.to_euclidean_division_equations. lia.
  - apply (same_text _ _ _ _ (torIP_value _ _ V2) (Hslot 2 1 ltac:(lia) ltac:(lia))). Z.to_euclidean_division_equations. lia.
  - simpl. by rewrite Ha.
Qed.
End plan.

(** ** The identity of the host *)

(** White space around a text. *)
Lemma TrimLeft_snoc s c : is_space c = true →
  TrimLeft (s +:+ String c "") = match TrimLeft s with EmptyString => "" | t => t +:+ String c "" end.
Proof.
  intros Hc. induction s as [|d s IH]; [by rewrite string_app_nil_l; simpl; rewrite Hc|].
  rewrite string_app_cons. simpl. destruct (is_space d); [done|]. by rewrite string_app_cons.
Qed.
Lemma rev_app_app s t k : String.rev_app (s +:+ t) k = String.rev_app t (String.rev_app s k).
Proof. revert k. induction s as [|c s IH]; intros k; [done|]. rewrite string_app_cons. simpl. apply IH. Qed.
Lemma rev_app_rev s k m : String.rev_app (String.rev_app s k) m = String.rev_app k (s +:+ m).
Proof. revert k. induction s as [|c s IH]; intros k; [done|]. simpl. rewrite IH. by rewrite string_app_cons. Qed.
Lemma TrimSpace_snoc s c : is_space c = true → TrimSpace (s +:+ String c "") = TrimSpace s.
Proof.
  intros Hc. unfold TrimSpace. rewrite TrimLeft_snoc by done. destruct (TrimLeft s) as [|d t] eqn:E; [done|].
  unfold String.rev at 2. rewrite rev_app_app. simpl. by rewrite Hc.
Qed.

Fixpoint spaceless (s : string) : bool :=
  match s with EmptyString => true | String c s => negb (is_space c) && spaceless s end.
Lemma spaceless_rev s k : spaceless (String.rev_app s k) = spaceless s && spaceless k.
Proof. revert k. induction s as [|c s IH]; intros k; [done|]. simpl. rewrite IH. simpl. by destruct (is_space c), (spaceless s). Qed.
Lemma TrimLeft_spaceless s : spaceless s = true → TrimLeft s = s.
Proof. destruct s as [|c s]; [done|]. simpl. by destruct (is_space c). Qed.
Lemma TrimSpace_spaceless s : spaceless s = true → TrimSpace s = s.
Proof.
  intros Hs. unfold TrimSpace. rewrite (TrimLeft_spaceless s), TrimLeft_spaceless; [|by unfold String.rev; rewrite spaceless_rev, Hs|done].
  unfold String.rev. rewrite rev_app_rev. apply string_app_nil_r.
Qed.
Lemma digit_spaceless c : char_digit c ≠ None → is_space c = false.
Proof. destruct c as [[] [] [] [] [] [] [] []]; vm_compute; intros Hc; [..|reflexivity]; first [reflexivity|by destruct Hc]. Qed.
Lemma all_digits_spaceless s : all_digits s → spaceless s = true.
Proof. induction s as [|c s IH]; [done|]. intros [Hc Hs]. simpl. rewrite digit_spaceless by done. by apply IH. Qed.
Lemma pretty_N_spaceless (x : N) : spaceless (pretty.pretty x) = true.
Proof.
  unfold pretty.pretty, pretty.pretty_N. case_decide; [done|]. by apply all_digits_spaceless, all_digits_pretty_go.
Qed.
Lemma Itoa_spaceless z : spaceless (Itoa z) = true.
Proof.
  unfold Itoa. destruct z as [|p|p]; [done|exact (pretty_N_spaceless (N.pos p))|].
  change (pretty.pretty (Z.neg p)) with (String "-" (pretty.pretty (N.pos p))). exact (pretty_N_spaceless (N.pos p)).
Qed.

(** The directories that [os.MkdirAll] makes are no files. *)
Class MkdirLaws (W : Type) `{FilesLaws W} := {
  MkdirAll_law name mode w w' r : os_MkdirAll name mode w = (w', r) → files w' = files w;
}.

Section identity.
Context {W : Type} `{MkdirLaws W}.

Lemma os_WriteFile_ok name data mode (w w' : W) u :
  os_WriteFile name data mode w = (w', Ok u) → files w' = <[name := data]> (files w).
Proof.
  intros E. unfold os_WriteFile in E. apply bind_ok in E as (w1 & [] & Eo & E). apply OpenTrunc_law in Eo.
  apply bind_ok in E as (w2 & rw & Ew & E). apply bind_ok in E as (w3 & rc & Ec & E).
  rewrite attempt_ok in Ew, Ec. destruct rw; [by destruct rc; minv|]. destruct rc; minv.
  eapply Write_law in Ew; [|rewrite Eo; apply lookup_insert_eq]. apply Close_law in Ec as [-> _].
  rewrite Ew, Eo, insert_insert_eq. done.
Qed.
Lemma wrapping_ok {A} msg (m : M W A) w w' a : wrapping msg m w = (w', Ok a) → m w = (w', Ok a).
Proof. intros E. unfold wrapping in E. minv. case_match; by minv. Qed.

(** Reading back a file that is there. *)
Lemma read_back {A} name text (f : string → outcome A) a (w w' : W) r :
  files w !! name = Some text → f text = Ok a → (data ← os_ReadFile name; lift (f data)) w = (w', r) →
  match r with Ok x => x = a | Err e => IsNotExist e = false | _ => False end.
Proof.
  intros Hf Ha E. unfold mbind, M_bind in E. destruct (os_ReadFile name w) as [w1 r1] eqn:Er.
  apply ReadFile_law in Er as [_ Hr]. destruct r1 as [d|e|y|]; [|injection E as <- <-|done|done].
  - rewrite Hf in Hr. injection Hr as ->. unfold lift in E. injection E as <- <-. by rewrite Ha.
  - destruct (IsNotExist e); [|done]. rewrite Hr in Hf; done.
Qed.

(** C40: what the installer writes is what the programs of neco read: with no other writer in
    between, the rack number is the LRN that the installer was given and the cluster is the
    one that was chosen, unless reading itself fails, and no other file has changed. *)
Theorem dumpNecoFiles_identity cluster lrn (w w' : W) :
  in_int64 lrn → spaceless (ic_Name cluster) = true →
  dumpNecoFiles cluster lrn w = (w', Ok tt) →
  (∀ w1 r, MyLRN w' = (w1, r) → match r with Ok n => n = lrn | Err e => IsNotExist e = false | _ => False end) ∧
  (∀ w1 r, MyCluster w' = (w1, r) →
     match r with Ok name => name = ic_Name cluster | Err e => IsNotExist e = false | _ => False end) ∧
  ∃ n, ParseCIDR (ic_BMC cluster) = Ok n ∧
    files w' !! SabakanIPAMFile = Some (print (ipam_json cluster (fst (Mask_Size (ipn_Mask (snd n))))) "") ∧
  (∀ name, name ∉ [RackFile; ClusterFile; SabakanIPAMFile] → files w' !! name = files w !! name).
Proof.
  intros Hl Hn E. unfold dumpNecoFiles in E.
  apply bind_ok in E as (w1 & [] & E1%wrapping_ok%MkdirAll_law & E).
  apply bind_ok in E as (w2 & [] & E2%wrapping_ok%os_WriteFile_ok & E).
  apply bind_ok in E as (w3 & [] & E3%wrapping_ok%os_WriteFile_ok & E).
  apply bind_ok in E as (w4 & n & [-> En]%lift_ok & E%wrapping_ok%os_WriteFile_ok).
  destruct (ParseCIDR (ic_BMC cluster)) as [[ip n']|e|y|]; [|done..]. injection En as ->.
  rewrite E3, E2, E1 in E. split_and!.
  - intros w5 r. apply (read_back _ (Itoa lrn +:+ NecoCmd.newline)).
    { rewrite E. by simplify_map_eq. }
    unfold NecoCmd.newline. rewrite TrimSpace_snoc, TrimSpace_spaceless by (done || apply Itoa_spaceless). by apply Atoi_Itoa.
  - intros w5 r. apply (read_back _ (ic_Name cluster +:+ NecoCmd.newline) (λ data, Ok (TrimSpace data))).
    { rewrite E. by simplify_map_eq. }
    unfold NecoCmd.newline. by rewrite TrimSpace_snoc, TrimSpace_spaceless.
  - exists (ip, n). split_and!; [done|rewrite E; by simplify_map_eq|].
    intros name Hname. rewrite E. rewrite !lookup_insert_ne by set_solver. done.
Qed.
End identity.

(** ** Faults *)

(** The error of [LinkSetUp] is lost: a device that cannot be set up is still listed. *)
Lemma set_up_failure_lost {W : Type} `{Netlink W} `{!InstallerEnv W} l (w w1 : W) e :
  LinkSetUp l w = (w1, Err e) → link_IsDevice l = true → link_Name l ≠ "lo" → link_Name l ≠ "idrac" →
  set_up_links [l] w = (w1, Ok [link_Name l]).
Proof.
  intros He Hd Hlo Hid. simpl. rewrite Hd, !bool_decide_eq_false_2 by done. simpl.
  unfold ignore_error. munfold. by rewrite He.
Qed.

(** A cluster file is never validated: a BMC network that [Validate] refuses makes the
    installer panic after it has begun to write. *)
Definition fresh_host : BootHost :=
  ({| sim_log := []; sim_env := []; sim_fail := [] |}, {| ho_files := ∅; ho_refusals := 0; ho_members := [] |}).
Definition bad_cluster : Cluster :=
  {| ic_Name := "dc"; ic_Bastion := "10.72.48.0"; ic_BMC := "10.72.16.0"; ic_NTPServers := ["172.16.4.1"] |}.
Lemma unvalidated_panics :
  (∃ e, Validate bad_cluster = Err e) ∧
  (dumpNecoFiles bad_cluster 0 fresh_host).2 = Panic "nil pointer dereference".
Proof. split; [eexists|]; vm_compute; reflexivity. Qed.

(** ** Witnesses *)
Definition dc0 : Cluster :=
  {| ic_Name := "dc0"; ic_Bastion := "10.72.48.0"; ic_BMC := "10.72.16.0/20"; ic_NTPServers := ["172.16.4.1"; "172.16.4.2"] |}.
Example dc0_valid : Validate dc0 = Ok ().
Proof. vm_compute. reflexivity. Qed.
Example dc0_read :
  Unmarshal_clusters (print (JArr [JObj [("name", JStr "dc0"); ("bastion_network", JStr "10.72.48.0");
    ("bmc_network", JStr "10.72.16.0/20"); ("ntp_servers", JArr [JStr "172.16.4.1"; JStr "172.16.4.2"])]]) "") = Ok [dc0].
Proof. vm_compute. reflexivity. Qed.
Lemma dc0_bastion : is_v4 (ParseIP (ic_Bastion dc0)) (10 * 2 ^ 24 + 72 * 2 ^ 16 + 48 * 2 ^ 8).
Proof. split; [lia|]. vm_compute. reflexivity. Qed.
Lemma example_bastion : is_v4 (ipn_IP (nw_bastion example_network)) (10 * 2 ^ 24 + 72 * 2 ^ 16 + 48 * 2 ^ 8).
Proof. split; [lia|]. vm_compute. reflexivity. Qed.

Import GoNet.V4.
#[local] Existing Instance plain_sha1.
#[local] Existing Instance line_yaml.
Lemma installer_follows_plan_witness :
  ∃ c rk, NewCluster example_menu = Ok c ∧ cl_racks c !! 1%nat = Some rk ∧
  let '(node0, node1, node2, bastion) := nodeAddresses dc0 1 in
  let boot := bn_node (ra_bootNode rk) in
  IP_String node0 = ip_text (no_node0Address boot) ∧
  IP_String node1 = ip_text (no_node1Address boot) ∧
  IP_String node2 = ip_text (no_node2Address boot) ∧
  IP_String bastion = ip_text (bn_bastionAddress (ra_bootNode rk)) ∧
  IP_String (torIP node1) = ip_text (no_tor1Address boot) ∧
  IP_String (torIP node2) = ip_text (no_tor2Address boot) ∧
  wrap64 (baseASN + 1) = ra_asn rk.
Proof.
  destruct (NewCluster example_menu) as [c|e|y|] eqn:E; [|vm_compute in E; discriminate..].
  destruct (cl_racks c !! 1%nat) as [rk|] eqn:Hrk.
  2: { exfalso. assert (match NewCluster example_menu with Ok c => length (cl_racks c) | _ => O end = 2%nat) as Hl
         by (vm_compute; reflexivity). rewrite E in Hl. apply lookup_ge_None in Hrk. lia. }
  exists c, rk. split; [reflexivity|]. split; [exact Hrk|].
  apply (installer_follows_plan example_menu c example_network inventory_doc 1 rk dc0 (10 * 2 ^ 24 + 72 * 2 ^ 16 + 48 * 2 ^ 8) E
           example_network_eq example_inventory_eq example_nodeBase).
  - reflexivity.
  - reflexivity.
  - exact example_bastion.
  - exact dc0_bastion.
  - exact Hrk.
  - lia.
  - lia.
Defined.

#[local] Instance boot_host_mkdir : MkdirLaws BootHost.
Proof. constructor. intros name mode w w' r [= <- <-]. reflexivity. Qed.
Lemma dumpNecoFiles_identity_witness :
  ∃ w', dumpNecoFiles dc0 12 fresh_host = (w', Ok tt) ∧
  (∀ w1 r, MyLRN w' = (w1, r) → match r with Ok n => n = 12 | Err e => IsNotExist e = false | _ => False end) ∧
  (MyLRN w').2 = Ok 12.
Proof.
  destruct (dumpNecoFiles dc0 12 fresh_host) as [w' r] eqn:E.
  assert (r = Ok tt) as -> by (change r with (w', r).2; rewrite <-E; vm_compute; reflexivity).
  exists w'. split; [reflexivity|]. split.
  - apply (dumpNecoFiles_identity dc0 12 fresh_host w'); [unfold in_int64, int64_min, int64_max; lia|reflexivity|exact E].
  - change w' with (w', Ok tt : outcome unit).1. rewrite <-E. vm_compute. reflexivity.
Defined.
