(* ===== verification/GeneratorProofs.v ===== *)
(** * What the release tools write

    generate-artifacts takes the greatest version that may be taken of each artifact, and
    the machines of generate-sabakan-machines can be read back. *)
From S2P Require Import Prelude GoStr GoTime Json Types Etcd Worlds Storage Updater GoNet Host Progs Operator OperatorWitness.
From S2P Require Import GoURL Ext Upload CKEUpload Vault Setup NecoCmd NecoReboot Generator.

Local Open Scope Z_scope.

(** ** The latest artifacts *)

(** go-version keeps the text of a version, and [sort.Sort] sorts. *)
Class VersionPartsLaws `{VersionParts} := {
  Compare_refl v : Version_Compare v v = 0;
  Original_law s v : NewVersion s = Ok v → Version_Original v = s;
  sort_Reverse_perm vs : sort_Reverse vs ≡ₚ vs;
  sort_Reverse_sorted vs : StronglySorted (λ v v', Version_Compare v' v <= 0) (sort_Reverse vs);
}.

Section latest.
Context `{VersionPartsLaws} {W : Type} `{ArtifactSources W} `{Console W}.

(** A tag of which the version may be taken. *)
Record eligible (release : bool) (major : option Z) (ignored : list string) (tag : string) (v : GVersion) : Prop := {
  el_dots : (2 <= count_char "." tag)%nat;
  el_wanted : tag ∉ ignored;
  el_version : NewVersion tag = Ok v;
  el_final : release = true → Version_Prerelease v = "";
  el_major m : major = Some m → first_segment v = Ok m;
}.
(** [tag] is eligible and none is greater. *)
Definition latest_of (ok : string → GVersion → Prop) (tags : list string) (tag : string) : Prop :=
  tag ∈ tags ∧ ∃ v, ok tag v ∧ ∀ tag' v', tag' ∈ tags → ok tag' v' → Version_Compare v' v <= 0.

Lemma first_sorted vs v : first_version (sort_Reverse vs) = Ok v →
  v ∈ vs ∧ ∀ v', v' ∈ vs → v' = v ∨ Version_Compare v' v <= 0.
Proof.
  intros E. pose proof (sort_Reverse_perm vs) as Hp. pose proof (sort_Reverse_sorted vs) as Hs.
  destruct (sort_Reverse vs) as [|v0 vs0]; [done|]. injection E as ->.
  apply StronglySorted_inv in Hs as [_ Hs]. rewrite Forall_forall in Hs. split; [rewrite <-Hp; left|].
  intros v'. rewrite <-Hp. intros [->|Hin]%elem_of_cons; auto.
Qed.

Lemma latest_original ok tags vs v :
  (∀ tag v, ok tag v → NewVersion tag = Ok v) →
  first_version (sort_Reverse vs) = Ok v → (∀ v, v ∈ vs ↔ ∃ tag, tag ∈ tags ∧ ok tag v) →
  latest_of ok tags (Version_Original v).
Proof.
  intros Hok [Hin Hmax]%first_sorted Hvs. apply Hvs in Hin as (tag & Ht & Hel).
  assert (Version_Original v = tag) as -> by eauto using Original_law. split; [done|].
  exists v. split; [done|]. intros tag' v' Ht' Hel'. destruct (Hmax v') as [->|]; [apply Hvs; eauto|by rewrite Compare_refl|done].
Qed.
Lemma tag_version_spec release ignored tag v :
  tag_version release ignored tag = Some v ↔ eligible release None ignored tag v.
Proof.
  unfold tag_version. split.
  - destruct (Nat.ltb_spec (count_char "." tag) 2); [done|]. case_bool_decide; [done|].
    destruct (NewVersion tag) as [v0|e|p|] eqn:E; [|done..].
    destruct (release && _) eqn:Er; [done|]. intros [= ->]. split; [done|done|done| |done].
    intros ->. simpl in Er. by case_bool_decide.
  - intros [Hd Hi E Hf _]. destruct (Nat.ltb_spec (count_char "." tag) 2); [lia|].
    rewrite bool_decide_eq_false_2, E by done. destruct release; [|done]. simpl. by rewrite bool_decide_eq_true_2 by auto.
Qed.
Lemma of_major_spec major vs out : of_major major vs = Ok out →
  ∀ v, v ∈ out ↔ v ∈ vs ∧ first_segment v = Ok major.
Proof.
  revert out. induction vs as [|v0 vs IH]; intros out E v; simpl in E; [minv; set_solver|].
  apply bind_pure_ok in E as (n & En & E). apply bind_pure_ok in E as (rest & Er & E). injection E as <-.
  specialize (IH _ Er v). destruct (Z.eqb_spec n major) as [->|Hne]; rewrite ?elem_of_cons, IH; [naive_solver|].
  split; [naive_solver|]. intros [[->|?] Hv]; [congruence|done].
Qed.

(** Whose versions are compared when a release is generated. *)
Definition wanted_major (release : bool) (name : string) (major : option Z) : Prop :=
  if release then ∃ cur m, FindContainerImage CurrentArtifacts name = Ok cur ∧ MajorVersion cur = Ok m ∧ major = Some m
  else major = None.

Lemma getLatestImage_spec repo release ignored (w w' : W) img :
  getLatestImage repo release ignored w = (w', Ok img) →
  ∃ w1 tags major, remote_List repo w = (w1, Ok tags) ∧ wanted_major release (imageName repo) major ∧
    latest_of (eligible release major ignored) tags (img_Tag img) ∧
    img_Name img = imageName repo ∧ img_Repository img = Repository_Name repo ∧
    img_Private img = default false (privateImages !! Repository_Name repo).
Proof.
  intros E. unfold getLatestImage in E. apply bind_ok in E as (w1 & tags & Et & E).
  apply bind_ok in E as (w2 & vs & Ev & E). apply bind_ok in E as (w3 & v & [-> Ef]%lift_ok & E). minv.
  assert (∃ major, wanted_major release (imageName repo) major ∧
    ∀ v, v ∈ vs ↔ ∃ tag, tag ∈ tags ∧ eligible release major ignored tag v) as (major & Hm & Hvs).
  { destruct release.
    - apply bind_ok in Ev as (? & cur & [-> Ec]%lift_ok & Ev). apply bind_ok in Ev as (? & m & [-> Em]%lift_ok & Ev).
      apply lift_ok in Ev as [_ Ev]. exists (Some m). split; [simpl; eauto 10|]. intros v0.
      rewrite (of_major_spec _ _ _ Ev), list_elem_of_omap. setoid_rewrite tag_version_spec. split.
      + intros [(tag & Ht & []) Hs]. exists tag. split; [done|]. split; try done. by intros ? [= <-].
      + intros (tag & Ht & [? ? ? ? Hj]). split; [|by apply Hj]. exists tag. split; [done|]. by split.
    - minv. exists None. split; [done|]. intros v0. rewrite list_elem_of_omap. by setoid_rewrite tag_version_spec. }
  exists w1, tags, major. split_and!; try done. eapply latest_original; [by intros ? ? []|done|done].
Qed.

(** Debian packages: the first tag that is not ignored. *)
Lemma first_tag_spec ignored tags : first_tag ignored tags ≠ "" →
  ∃ pre post, tags = pre ++ (Some (first_tag ignored tags) :: post) ∧ (first_tag ignored tags ∉ ignored) ∧
    ∀ tag, Some tag ∈ pre → tag ∈ ignored.
Proof.
  induction tags as [|[tag|] tags IH]; simpl; [done| |].
  - case_bool_decide as Hi.
    + intros Hne. destruct (IH Hne) as (pre & post & Ht & Hw & Hp). exists (Some tag :: pre), post.
      split_and!; [by rewrite Ht at 1|done|]. intros tag' [[= ->]|?]%elem_of_cons; auto.
    + intros _. exists [], tags. split_and!; [done|done|]. by intros ? ?%not_elem_of_nil.
  - intros Hne. destruct (IH Hne) as (pre & post & Ht & Hw & Hp). exists (None :: pre), post.
    split_and!; [by rewrite Ht at 1|done|]. intros tag' [?|?]%elem_of_cons; [done|auto].
Qed.

(** The operating system: the greatest version of the feed. *)
Record in_feed (ignored : list string) (k : string) (v : GVersion) : Prop := {
  fd_release : k ≠ "current";
  fd_wanted : k ∉ ignored;
  fd_version : NewVersion k = Ok v;
}.
Lemma feed_versions_spec ignored keys vs : feed_versions ignored keys = Ok vs →
  ∀ v, v ∈ vs ↔ ∃ k, k ∈ keys ∧ in_feed ignored k v.
Proof.
  revert vs. induction keys as [|k keys IH]; intros vs E v; simpl in E.
  { minv. split; [by intros ?%not_elem_of_nil|]. by intros (? & ?%not_elem_of_nil & _). }
  case_bool_decide as Hc.
  { rewrite (IH _ E). split; intros (k' & Hk & Hf); exists k'; [split; [by right|done]|].
    apply elem_of_cons in Hk as [->|Hk]; [by destruct Hf|done]. }
  apply bind_pure_ok in E as (v0 & Ev & E). apply bind_pure_ok in E as (rest & Er & E). injection E as <-.
  specialize (IH _ Er v). case_bool_decide as Hi.
  - rewrite IH. split; intros (k' & Hk & Hf); exists k'; [split; [by right|done]|].
    apply elem_of_cons in Hk as [->|Hk]; [by destruct Hf|done].
  - rewrite elem_of_cons, IH. split.
    + intros [->|(k' & Hk & Hf)]; [exists k; split; [left|by split]|exists k'; split; [by right|done]].
    + intros (k' & [->|Hk]%elem_of_cons & Hf); [left; destruct Hf; congruence|right; eauto].
Qed.

(** [range] gives every key once, in some order. *)
Hypothesis range_law : ∀ s (w w' : W) keys, range_keys s w = (w', Ok keys) → keys ≡ₚ elements s.

(** What is taken for a repository, for a package and for the operating system, out of
    what registries, GitHub and the feed listed. *)
Definition image_taken (cfg : GenConfig) (repoStr : string) (img : ContainerImage) : Prop :=
  ∃ repo (w1 w2 : W) tags major, NewRepository repoStr = Ok repo ∧ remote_List repo w1 = (w2, Ok tags) ∧
    wanted_major (gc_Release cfg) (imageName repo) major ∧
    latest_of (eligible (gc_Release cfg) major (getImageVersions (gc_Ignored cfg) repoStr)) tags (img_Tag img) ∧
    img_Name img = imageName repo ∧ img_Repository img = Repository_Name repo ∧
    img_Private img = default false (privateImages !! Repository_Name repo).
Definition deb_taken (cfg : GenConfig) (name : string) (deb : DebianPackage) : Prop :=
  deb_Name deb = name ∧ deb_Repository deb = name ∧ deb_Owner deb = "cybozu-go" ∧
  ∃ (w1 w2 : W) tags pre post, gh_ListRepoReleases "cybozu-go" name w1 = (w2, Ok (Tags tags)) ∧
    tags = pre ++ (Some (deb_Release deb) :: post) ∧ (deb_Release deb ∉ getDebVersions (gc_Ignored cfg) name) ∧
    ∀ tag, Some tag ∈ pre → tag ∈ getDebVersions (gc_Ignored cfg) name.
Definition os_taken (cfg : GenConfig) (os : OSImage) : Prop :=
  os_Channel os = "stable" ∧
  ∃ (w1 w2 : W) text feed, feed_Body w1 = (w2, Ok text) ∧ decode_feed text = Ok feed ∧
    latest_of (in_feed (getOSImageVersions (gc_Ignored cfg))) (elements feed) (os_Version os).

Lemma latest_images_spec cfg repos (w w' : W) images :
  latest_images cfg repos w = (w', Ok images) → Forall2 (image_taken cfg) repos images.
Proof.
  revert w images. induction repos as [|r repos IH]; intros w images E; cbn [latest_images] in E; [minv; constructor|].
  apply bind_ok in E as (w1 & repo & [-> Er]%lift_ok & E). apply bind_ok in E as (w2 & img & Ei & E).
  apply bind_ok in E as (w3 & rest & Hr & E). minv. apply getLatestImage_spec in Ei as (w4 & tags & major & ? & ? & ? & ? & ? & ?).
  constructor; [|by eapply IH]. unfold image_taken. eauto 20.
Qed.
Lemma latest_debs_spec cfg names (w w' : W) debs :
  latest_debs cfg names w = (w', Ok debs) → ∀ deb, deb ∈ debs → ∃ name, name ∈ names ∧ deb_taken cfg name deb.
Proof.
  revert w debs. induction names as [|n names IH]; intros w debs E deb Hd; cbn [latest_debs] in E.
  { minv. by apply not_elem_of_nil in Hd. }
  apply bind_ok in E as (w1 & d & Ed & E). apply bind_ok in E as (w2 & rest & Er & E). minv.
  assert (deb ∈ rest → ∃ name, name ∈ n :: names ∧ deb_taken cfg name deb) as Hrest.
  { intros Hin. destruct (IH _ _ Er deb Hin) as (name & ? & ?). exists name. split; [by right|done]. }
  destruct d as [d|]; [|auto]. apply elem_of_cons in Hd as [->|Hd]; [|auto]. exists n. split; [left|].
  unfold getLatestDeb in Ed. apply bind_ok in Ed as (w3 & reply & Eg & Ed). destruct reply as [tags|[st|] e]; [|by case_match; minv|done].
  case_bool_decide as Hv; minv. destruct (first_tag_spec _ _ Hv) as (pre & post & ? & ? & ?). split_and!; try done.
  eexists _, _, tags, pre, post. done.
Qed.
Lemma getLatestOSImage_spec cfg (w w' : W) os :
  getLatestOSImage (getOSImageVersions (gc_Ignored cfg)) w = (w', Ok os) → os_taken cfg os.
Proof.
  intros E. unfold getLatestOSImage in E. apply bind_ok in E as (w1 & st & _ & E). destruct (negb _); minv.
  split; [done|]. eexists _, _, _, _. split_and!; [done|done|]. cbn [os_Version].
  match goal with Hf : first_version _ = Ok _, Hv : feed_versions _ ?keys = Ok _, Hk : range_keys _ _ = _ |- _ =>
    eapply (latest_original (in_feed _)) in Hf; [|by intros ? ? []|exact (feed_versions_spec _ _ _ Hv)];
    apply range_law in Hk; destruct Hf as (Hin & v & Hok & Hmax); split; [by rewrite <-Hk|];
    exists v; split; [done|]; intros tag' v' Ht'; apply Hmax; by rewrite Hk end.
Qed.

(** C36: what generate-artifacts writes names, for each repository in order, an image of the
    greatest tag that may be taken: with three numbers or more, not ignored, and for a
    release no pre-release and of the major version in use; for a package the first release
    that is not ignored; and the greatest version of the operating system.  It writes once,
    at the end. *)
Theorem Generate_latest cfg (w w' : W) :
  Generate cfg w = (w', Ok tt) → ∃ w1 images debs os,
    Forall2 (image_taken cfg) imageRepos images ∧
    (∀ deb, deb ∈ debs → ∃ name, name ∈ debRepos ∧ deb_taken cfg name deb) ∧
    os_taken cfg os ∧
    stdout_Print (artifacts_text (if gc_Release cfg then "release" else "!release") images debs os) w1 = (w', Ok tt).
Proof.
  intros E. unfold Generate in E. apply bind_ok in E as (w1 & images & Ei & E). apply bind_ok in E as (w2 & debs & Ed & E).
  apply bind_ok in E as (w3 & os & Eo & E). exists w3, images, debs, os. split_and!.
  - by eapply latest_images_spec.
  - by eapply latest_debs_spec.
  - by eapply getLatestOSImage_spec.
  - exact E.
Qed.
End latest.

(** Nothing to take: the generator panics. *)
Lemma no_version_panics `{VersionPartsLaws} {W} `{ArtifactSources W} `{Console W} repo ignored (w w' : W) tags :
  remote_List repo w = (w', Ok tags) → (∀ tag v, tag ∈ tags → ¬ eligible false None ignored tag v) →
  getLatestImage repo false ignored w = (w', Panic "index out of range").
Proof.
  intros Et Hno. unfold getLatestImage. munfold. rewrite Et.
  assert (omap (tag_version false ignored) tags = []) as ->.
  { apply elem_of_nil_inv. intros v (tag & Ht & Hv%tag_version_spec)%list_elem_of_omap. by apply (Hno tag v). }
  assert (sort_Reverse [] = []) as -> by apply Permutation_nil_r, sort_Reverse_perm. done.
Qed.

(** ** Indented JSON is read back *)
Lemma skip_ws_blanks n k : skip_ws (Nat.iter n (String " "%char) k) = skip_ws k.
Proof. induction n as [|n IH]; [done|]. simpl. exact IH. Qed.
Lemma skip_ws_indentation d k : skip_ws (indentation d k) = skip_ws k.
Proof. unfold indentation. simpl. apply skip_ws_blanks. Qed.
Lemma parse_value_blank n s t : skip_ws s = skip_ws t → parse_value n s = parse_value n t.
Proof. intros E. destruct n as [|n]; [done|]. cbn [parse_value]. by rewrite E. Qed.
Lemma indentation_ends d k : ends_number (indentation d k).
Proof. done. Qed.

Definition indent_tail (d : nat) (l : list json) (k : string) : string :=
  (fix go l := match l with
               | [] => indentation d (String "]" k)
               | x :: l => String "," (indentation (S d) (print_indent (S d) x (go l)))
               end) l.
Definition indent_member (d : nat) (f : string) (x : json) (k : string) : string :=
  indentation (S d) (print_string f (String ":" (String " " (print_indent (S d) x k)))).
Definition indent_members (d : nat) (l : list (string * json)) (k : string) : string :=
  (fix go l := match l with
               | [] => indentation d (String "}" k)
               | (f, x) :: l => String "," (indent_member d f x (go l))
               end) l.
Lemma indent_tail_ends d l k : ends_number (indent_tail d l k).
Proof. destruct l; [apply indentation_ends|]. apply ends_number_sep. set_solver. Qed.
Lemma indent_members_ends d l k : ends_number (indent_members d l k).
Proof. destruct l as [|[]]; [apply indentation_ends|]. apply ends_number_sep. set_solver. Qed.

Definition parses_indent (j : json) : Prop :=
  wf_json j → ∀ d n k, (jsize j ≤ n)%nat → ends_number k → parse_value n (print_indent d j k) = Some (j, k).

Lemma parse_elems_indent d n x l m k :
  Forall parses_indent (x :: l) → wf_json (JArr (x :: l)) → (jsize (JArr (x :: l)) ≤ S n)%nat → (length (x :: l) ≤ m)%nat →
  parse_elems (parse_value n) m (indentation (S d) (print_indent (S d) x (indent_tail d l k))) = Some (x :: l, k).
Proof.
  revert x m. induction l as [|y l IH]; intros x m HP Hwf Hn Hm;
    (destruct m as [|m]; [simpl in Hm; lia|]); apply Forall_cons in HP as [Hx HP];
    destruct Hwf as [Hwx Hwl]; simpl in Hn; cbn [parse_elems];
    rewrite (parse_value_blank _ _ _ (skip_ws_indentation _ _)), (Hx Hwx) by (lia || apply indent_tail_ends); cbn [mbind option_bind].
  - cbn [indent_tail]. by rewrite skip_ws_indentation.
  - cbn [indent_tail skip_ws]. change (is_json_space ",") with false. cbv iota.
    rewrite decide_True by done. fold (indent_tail d l k).
    rewrite IH; [done|done|done| |simpl in *; lia]. simpl. pose proof (jsize_pos x). lia.
Qed.
Lemma parse_members_indent d n f x l m k :
  Forall (λ fx, parses_indent fx.2) ((f, x) :: l) → wf_json (JObj ((f, x) :: l)) →
  (jsize (JObj ((f, x) :: l)) ≤ S n)%nat → (length ((f, x) :: l) ≤ m)%nat →
  parse_members (parse_value n) m (indent_member d f x (indent_members d l k)) = Some ((f, x) :: l, k).
Proof.
  assert (∀ f t, skip_ws (print_string f t) = print_string f t) as Hskip by done.
  assert (∀ t, skip_ws (String ":" t) = String ":" t) as Hcolon by done.
  assert (∀ n t, parse_value n (String " " t) = parse_value n t) as Hblank by (intros; by apply parse_value_blank).
  revert f x m. induction l as [|[g y] l IH]; intros f x m HP Hwf Hn Hm;
    (destruct m as [|m]; [simpl in Hm; lia|]); apply Forall_cons in HP as [Hx HP];
    destruct Hwf as (Hf & Hwx & Hwl); simpl in Hn, Hx; unfold indent_member at 1; cbn [parse_members];
    rewrite skip_ws_indentation, Hskip, (parse_print_string _ _ Hf); cbn [mbind option_bind];
    rewrite Hcolon, take_char_cons; cbn [mbind option_bind];
    rewrite Hblank, (Hx Hwx) by (lia || apply indent_members_ends); cbn [mbind option_bind].
  - cbn [indent_members]. by rewrite skip_ws_indentation.
  - cbn [indent_members skip_ws]. change (is_json_space ",") with false. cbv iota.
    rewrite decide_True by done. fold (indent_members d l k).
    rewrite IH; [done|done|done| |simpl in *; lia]. simpl. pose proof (jsize_pos x). lia.
Qed.

Lemma print_indent_head d j k : wf_json j →
  ∃ c t, print_indent d j k = String c t ∧ is_json_space c = false ∧ c ≠ "]"%char ∧ c ≠ "}"%char.
Proof.
  intros Hwf. destruct j as [|b|lit|s|[|x l]|[|[f x] l]]; try apply (print_head _ k Hwf);
    (eexists _, _; split; [reflexivity|]; split_and!; [reflexivity|done|done]).
Qed.
Lemma skip_ws_print_indent d e j k : wf_json j → skip_ws (indentation e (print_indent d j k)) = print_indent d j k.
Proof. intros H. rewrite skip_ws_indentation. destruct (print_indent_head d j k H) as (c & t & -> & Hsp & _). simpl. by rewrite Hsp. Qed.

Lemma parses_indent_all j : parses_indent j.
Proof.
  induction j as [|b|lit|s|l Hl|l Hl] using json_nested_ind; intros Hwf d n k Hn Hk.
  1-4: exact (parses_all _ Hwf n k Hn Hk).
  - destruct l as [|x l]; [exact (parses_all (JArr []) Hwf n k Hn Hk)|]. destruct n as [|n]; [simpl in Hn; lia|].
    change (print_indent d (JArr (x :: l)) k) with (String "[" (indentation (S d) (print_indent (S d) x (indent_tail d l k)))).
    cbn [parse_value skip_ws]. change (is_json_space "[") with false. cbv iota beta zeta.
    rewrite decide_False by done. rewrite decide_True by done.
    assert (wf_json x) as Hx by apply Hwf. rewrite skip_ws_print_indent by done.
    destruct (print_indent_head (S d) x (indent_tail d l k) Hx) as (c & t & E & _ & Hc & _). rewrite E.
    change (take_char "]" (String c t)) with (if decide ("]"%char = c) then Some t else None).
    rewrite decide_False by done. rewrite <-E, parse_elems_indent; [done|done|done|done|].
    pose proof (sum_jsize_length (x :: l)). simpl in *. lia.
  - destruct l as [|[f x] l]; [exact (parses_all (JObj []) Hwf n k Hn Hk)|]. destruct n as [|n]; [simpl in Hn; lia|].
    change (print_indent d (JObj ((f, x) :: l)) k) with (String "{" (indent_member d f x (indent_members d l k))).
    cbn [parse_value skip_ws]. change (is_json_space "{") with false. cbv iota beta zeta.
    rewrite decide_False by done. rewrite decide_False by done. rewrite decide_True by done.
    unfold indent_member at 1. rewrite skip_ws_indentation.
    change (take_char "}" (skip_ws (print_string f ?t))) with (@None string).
    rewrite parse_members_indent; [done|done|done|done|].
    pose proof (sum_jsize_length_obj ((f, x) :: l)). simpl in *. lia.
Qed.

Lemma iter_blank_length n k : (String.length k ≤ String.length (Nat.iter n (String " "%char) k))%nat.
Proof. induction n; simpl; lia. Qed.
Lemma indentation_length d k : (S (String.length k) ≤ String.length (indentation d k))%nat.
Proof. unfold indentation. simpl. pose proof (iter_blank_length (d + (d + 0)) k). lia. Qed.
Lemma print_indent_length j : wf_json j → ∀ d k, (jsize j + String.length k ≤ String.length (print_indent d j k))%nat.
Proof.
  induction j as [|b|lit|s|l Hl|l Hl] using json_nested_ind; intros Hwf d k.
  1-4: by apply print_length.
  - assert (∀ l, Forall (λ j, wf_json j → ∀ d k, (jsize j + String.length k ≤ String.length (print_indent d j k))%nat) l →
      wf_json (JArr l) → (jsize (JArr l) + String.length k ≤ String.length (indent_tail d l k))%nat) as Htail.
    { clear. intros l Hl. induction Hl as [|x l Hx Hl IH]; intros Hwf.
      - cbn [indent_tail]. pose proof (indentation_length d (String "]" k)). simpl in *. lia.
      - destruct Hwf as [Hwx Hwl]. specialize (IH Hwl). specialize (Hx Hwx (S d) (indent_tail d l k)).
        cbn [indent_tail]. fold (indent_tail d l k).
        pose proof (indentation_length (S d) (print_indent (S d) x (indent_tail d l k))). simpl in *. lia. }
    destruct l as [|x l]; [simpl; lia|]. exact (Htail (x :: l) Hl Hwf).
  - assert (∀ l, Forall (λ fj, wf_json fj.2 → ∀ d k, (jsize fj.2 + String.length k ≤ String.length (print_indent d fj.2 k))%nat) l →
      wf_json (JObj l) → (jsize (JObj l) + String.length k ≤ String.length (indent_members d l k))%nat) as Htail.
    { clear. intros l Hl. induction Hl as [|[f x] l Hx Hl IH]; intros Hwf.
      - cbn [indent_members]. pose proof (indentation_length d (String "}" k)). simpl in *. lia.
      - destruct Hwf as (Hf & Hwx & Hwl). specialize (IH Hwl). specialize (Hx Hwx (S d) (indent_members d l k)).
        cbn [indent_members]. fold (indent_members d l k). unfold indent_member.
        set (u := String ":" (String " " (print_indent (S d) x (indent_members d l k)))).
        pose proof (indentation_length (S d) (print_string f u)). pose proof (print_string_length f u Hf).
        subst u. simpl in *. lia. }
    destruct l as [|[f x] l]; [simpl; lia|]. exact (Htail ((f, x) :: l) Hl Hwf).
Qed.
Lemma parse_print_indent j : wf_json j → parse (print_indent 0 j newline) = Some j.
Proof.
  intros Hwf. unfold parse. pose proof (print_indent_length j Hwf 0 newline).
  rewrite parses_indent_all; [done|done|simpl in *; lia|done].
Qed.

(** ** The machines of a table *)
Lemma slice_from_ascii n s : ascii_only s → ascii_only (default "" (slice_from n s)).
Proof. revert s. induction n as [|n IH]; intros [|c s]; [done..|]. intros [_ Hs]. by apply IH. Qed.
Lemma Format_RFC3339_valid t : valid_utf8 (Format_RFC3339 t) = true.
Proof.
  assert (∀ y m d s, ascii_only (rfc3339_text y m d s 0)) as Ha.
  { intros. unfold rfc3339_text. repeat (apply ascii_dec_fixed; try (split; [done|])). done. }
  unfold Format_RFC3339. destruct (civil_of_days _) as [[y m] d]. destruct (y <=? 9999); [by apply ascii_only_valid|].
  apply valid_utf8_app; [apply valid_utf8_Itoa|]. by apply ascii_only_valid, slice_from_ascii.
Qed.

(** A date up to the year 9999 is read back. *)
Lemma Format_RFC3339_read t s :
  t mod Second = 0 → format_rfc3339 t = Ok s → parse_rfc3339 (Format_RFC3339 t) = Some t.
Proof.
  intros Ht Hf. pose proof (parse_format_rfc3339 _ _ Hf) as Hp. enough (Format_RFC3339 t = s) as -> by done. clear Hp. unfold format_rfc3339, Format_RFC3339 in *.
  destruct (civil_of_days _) as [[y m] d]. destruct (Z.ltb_spec 9999 y), (Z.leb_spec y 9999); try lia; [by rewrite orb_true_r in Hf|].
  rewrite Ht in Hf. destruct (_ || _); [done|]. by injection Hf.
Qed.
Lemma support_date_seconds s t : parse_support_date s = Some t → t mod Second = 0.
Proof.
  unfold parse_support_date. intros E. repeat (apply bind_Some in E as ([? ?] & _ & E) || apply bind_Some in E as (? & _ & E)).
  case_match; [|done]. injection E as <-. apply Z.mod_mul. done.
Qed.

(** The value of a field. *)
Definition field (m : json) (f : string) : option json :=
  match m with JObj l => snd <$> head (filter (λ fx, fx.1 = f) l) | _ => None end.
(** [m] is the machine of the row: its serial, role, rack and labels, and 1825 days of
    support. *)
Definition machine_of (flags : MachineFlags) (row : list string) (m : json) : Prop :=
  ∃ datacenter rack product date serial role mt n t,
    row !! 0%nat = Some datacenter ∧ row !! 1%nat = Some rack ∧ row !! 3%nat = Some serial ∧
    row !! 4%nat = Some product ∧ row !! 5%nat = Some role ∧ row !! 6%nat = Some date ∧
    machine_type flags role = Ok mt ∧ Atoi rack = Ok n ∧ parse_support_date date = Some t ∧
    field m "serial" = Some (JStr serial) ∧ field m "role" = Some (JStr role) ∧ field m "rack" = Some (encode_int n) ∧
    (∃ text, field m "retire-date" = Some (JStr text) ∧
       ∀ s, format_rfc3339 (t + 1825 * 86400 * Second) = Ok s → parse_rfc3339 text = Some (t + 1825 * 86400 * Second)) ∧
    field m "bmc" = Some (JObj [("type", JStr (fl_bmcType flags))]) ∧
    field m "labels" = Some (JObj [("datacenter", JStr datacenter); ("machine-type", JStr mt); ("product", JStr product)]).

Definition flags_valid (flags : MachineFlags) : Prop :=
  Forall (λ s, valid_utf8 s = true) [fl_Boot flags; fl_CS flags; fl_SS flags; fl_SS2 flags; fl_bmcType flags].
Lemma machine_type_valid flags role mt : flags_valid flags → machine_type flags role = Ok mt → valid_utf8 mt = true.
Proof.
  unfold flags_valid. rewrite !Forall_cons. intros Hf. unfold machine_type.
  repeat (case_bool_decide; [intros [= <-]; tauto|]). done.
Qed.
Lemma arg_ok row i a : arg row i = Ok a → row !! i = Some a.
Proof. unfold arg. destruct (row !! i); [|done]. by intros [= ->]. Qed.
Lemma machine_json_spec flags row m : machine_json flags row = Ok m →
  machine_of flags row m ∧ (flags_valid flags → Forall (λ s, valid_utf8 s = true) row → wf_json m).
Proof.
  intros E. unfold machine_json in E.
  repeat match type of E with mbind _ (arg _ _) = _ =>
    let H := fresh "Hf" in apply bind_pure_ok in E as (? & H%arg_ok & E) end.
  apply bind_pure_ok in E as (mt & Hmt & E). destruct (existsb _ _); [done|].
  apply bind_pure_ok in E as (n & Hn & E). destruct (parse_support_date _) as [t|] eqn:Et; [|done]. injection E as <-.
  split.
  - unfold machine_of. eexists _, _, _, _, _, _, _, _, _. split_and!; try (done || reflexivity).
    eexists. split; [reflexivity|]. intros s. apply Format_RFC3339_read. change five_years with (1825 * 86400 * Second).
    pose proof (support_date_seconds _ _ Et). rewrite Z.mod_add by done. done.
  - intros Hfl Hrow. pose proof (machine_type_valid _ _ _ Hfl Hmt).
    assert (∀ i a, row !! i = Some a → valid_utf8 a = true) as Hv by (intros i a Hi; exact (Forall_lookup_1 _ _ _ _ Hrow Hi)).
    assert (valid_utf8 (fl_bmcType flags) = true) as Hb by (unfold flags_valid in Hfl; rewrite !Forall_cons in Hfl; tauto).
    cbn [wf_json]. split_and!; eauto using Format_RFC3339_valid. by exists n.
Qed.
Lemma machines_of_spec flags records ms : machines_of flags records = Ok ms →
  ∃ rows, records = map Ok rows ∧ Forall2 (machine_of flags) rows ms ∧
    (flags_valid flags → Forall (Forall (λ s, valid_utf8 s = true)) rows → wf_json (JArr ms)).
Proof.
  revert ms. induction records as [|r records IH]; intros ms E; cbn [machines_of] in E.
  { injection E as <-. exists []. by split_and!. }
  apply bind_pure_ok in E as (row & -> & E). apply bind_pure_ok in E as (m & [Hm Hw]%machine_json_spec & E).
  apply bind_pure_ok in E as (rest & Er & E). injection E as <-. destruct (IH _ Er) as (rows & -> & Hr & Hwr).
  exists (row :: rows). split_and!; [done|by constructor|]. intros Hf [? ?]%Forall_cons. cbn [wf_json]. split; [auto|by apply Hwr].
Qed.

(** When generate-sabakan-machines ends well, it has written once, and a reader of the
    JSON gets one machine per row of the table below its header, in order, with the values
    of that row. *)
Theorem machines_readable {W} `{Files W} `{Console W} flags file (w w' : W) :
  generate_sabakan_machines flags [file] w = (w', Ok tt) →
  ∃ w1 text rows ms out, os_ReadFile file w = (w1, Ok text) ∧ stdout_Print out w1 = (w', Ok tt) ∧
    (csv_read text = [] ∧ rows = [] ∨ ∃ header, csv_read text = map Ok (header :: rows)) ∧
    Forall2 (machine_of flags) rows ms ∧
    (flags_valid flags → Forall (Forall (λ s, valid_utf8 s = true)) rows → parse out = Some (JArr ms)).
Proof.
  intros E. unfold generate_sabakan_machines in E. apply bind_ok in E as (? & ? & [-> _]%lift_ok & E).
  apply bind_ok in E as (? & f & [-> Hf]%lift_ok & E). injection Hf as <-.
  apply bind_ok in E as (w1 & text & Er & E). apply bind_ok in E as (w2 & ms & [-> Em]%lift_ok & E).
  unfold machines_json in Em. destruct (csv_read text) as [|h records] eqn:Ec.
  - injection Em as <-. exists w1, text, [], [], (print_indent 0 (JArr []) newline). split_and!; [done|exact E|by left|constructor|]. by intros _ _.
  - apply bind_pure_ok in Em as (header & -> & (rows & -> & Hr & Hw)%machines_of_spec).
    exists w1, text, rows, ms, (print_indent 0 (JArr ms) newline). split_and!; [done|exact E|right; by exists header|done|].
    intros Hf Hv. apply parse_print_indent. by apply Hw.
Qed.

(** ** The theorem at a concrete input *)
Module Witness.
Lemma numbers_compare_refl a : numbers_compare a a = 0.
Proof. induction a as [|x a IH]; [done|]. simpl. by rewrite Z.eqb_refl. Qed.
Lemma numbers_compare_total a b : numbers_compare a b <= 0 ∨ numbers_compare b a <= 0.
Proof.
  revert b. induction a as [|x a IH]; intros [|y b]; simpl; [lia..|].
  rewrite (Z.eqb_sym y x). destruct (Z.eqb_spec x y); [apply IH|lia].
Qed.
Lemma numbers_compare_trans a b c : numbers_compare a b <= 0 → numbers_compare b c <= 0 → numbers_compare a c <= 0.
Proof.
  revert b c. induction a as [|x a IH]; intros [|y b] [|z c]; simpl; try lia.
  destruct (Z.eqb_spec x y), (Z.eqb_spec y z), (Z.eqb_spec x z); try lia. eauto.
Qed.

Definition not_newer (v v' : GVersion) : Prop := Version_Compare v' v <= 0.
#[local] Instance not_newer_dec : RelDecision not_newer.
Proof. intros v v'. unfold not_newer. apply _. Defined.
#[local] Instance not_newer_total : Total not_newer.
Proof. intros v v'. apply numbers_compare_total. Qed.
#[local] Instance not_newer_trans : Transitive not_newer.
Proof. intros v1 v2 v3 H1 H2. exact (numbers_compare_trans _ _ _ H2 H1). Qed.
#[local] Instance plain_parts : VersionParts := {
  Version_Prerelease _ := "";
  Version_Segments v := v.2;
  sort_Reverse := merge_sort not_newer;
}.
#[local] Instance plain_parts_laws : VersionPartsLaws.
Proof.
  split.
  - intros v. apply numbers_compare_refl.
  - intros s v E. simpl in E. apply bind_pure_ok in E as (ns & _ & E). by injection E as <-.
  - intros vs. apply merge_sort_Permutation.
  - intros vs. change (StronglySorted not_newer (merge_sort not_newer vs)). apply StronglySorted_merge_sort; apply _.
Qed.

(** Printed texts; every repository has the same tags. *)
#[local] Instance sources : ArtifactSources (list string) := {
  Repository := string;
  NewRepository s := Ok s;
  RepositoryStr s := match SplitN2 "/" s with (_, Some rest) => rest | (s, None) => s end;
  Repository_Name s := s;
  remote_List _ := mret ["0.9.0"; "1.2.3"; "2.10.0"; "latest"; "2.9.0"; "3.1.0"; "4.0.1"; "6.0.0"; "6.1"];
  gh_ListRepoReleases _ _ := mret (Tags [None; Some "v1.5.0"; Some "v1.4.9"]);
  feed_Get _ := mret 200;
  feed_Body := mret (print (JObj [("4081.2.0", JObj []); ("current", JObj []); ("4152.2.1", JNull)]) "");
  range_keys s := mret (elements s);
}.
#[local] Instance screen : Console (list string) := {
  stdout_Print s w := (w ++ [s], Ok tt);
  stdin_ReadAll := mret "";
  ui_Ask _ := mret "";
}.
Definition release_cfg : GenConfig :=
  {| gc_Release := true;
     gc_Ignored := {| ig_Images := []; ig_Debs := [{| ig_Key := "etcdpasswd"; ig_Versions := ["v1.5.0"] |}]; ig_OSImage := [] |} |}.

Lemma elements_ranged s (w w' : list string) keys : range_keys s w = (w', Ok keys) → keys ≡ₚ elements s.
Proof. intros E. simpl in E. minv. reflexivity. Qed.
Lemma Generate_latest_witness : ∃ w' w1 images debs os,
  Generate release_cfg [] = (w', Ok tt) ∧
  Forall2 (image_taken (W := list string) release_cfg) imageRepos images ∧
  (∀ deb, deb ∈ debs → ∃ name, name ∈ debRepos ∧ deb_taken (W := list string) release_cfg name deb) ∧
  os_taken (W := list string) release_cfg os ∧
  stdout_Print (artifacts_text "release" images debs os) w1 = (w', Ok tt).
Proof.
  destruct (Generate release_cfg []) as [w' r] eqn:E.
  assert (r = Ok tt) as -> by (change r with (w', r).2; rewrite <-E; vm_compute; reflexivity).
  destruct (Generate_latest (W := list string) elements_ranged release_cfg [] w' E)
    as (w1 & images & debs & os & Hi & Hd & Ho & Hp).
  exists w', w1, images, debs, os. split; [reflexivity|]. split; [exact Hi|]. split; [exact Hd|]. split; [exact Ho|exact Hp].
Defined.
(** The names in [artifacts.go] are those that a release looks up. *)
Example artifacts_found : Forall (λ r, ∃ img, FindContainerImage CurrentArtifacts (imageName (W := list string) r) = Ok img ∧
  img_Repository img = r ∧ img_Private img = default false (privateImages !! r)) imageRepos.
Proof. repeat (constructor; [eexists; split_and!; vm_compute; reflexivity|]). constructor. Qed.

(** A table of one machine. *)
#[local] Instance tty : Console BootHost := { stdout_Print _ := mret (); stdin_ReadAll := mret ""; ui_Ask _ := mret "" }.
Definition table : string :=
  "datacenter,lrn,rack,serial,product,role,support" +:+ newline +:+ "tokyo0,3,41,ABC123," +:+ dquote +:+ "R6525" +:+ dquote +:+
  ",cs,2020/2/3" +:+ newline.
Definition table_host : BootHost :=
  ({| sim_log := []; sim_env := []; sim_fail := [] |},
   {| ho_files := {["machines.csv" := table]}; ho_refusals := 0; ho_members := [] |}).
Definition example_flags : MachineFlags :=
  {| fl_Boot := "boot-1"; fl_CS := "cs-1"; fl_SS := "ss-1"; fl_SS2 := "ss-2"; fl_bmcType := "iDRAC" |}.
Lemma machines_readable_witness : ∃ w' w1 text rows ms out,
  generate_sabakan_machines example_flags ["machines.csv"] table_host = (w', Ok tt) ∧
  os_ReadFile "machines.csv" table_host = (w1, Ok text) ∧ stdout_Print out w1 = (w', Ok tt) ∧
  (csv_read text = [] ∧ rows = [] ∨ ∃ header, csv_read text = map Ok (header :: rows)) ∧
  Forall2 (machine_of example_flags) rows ms ∧
  (flags_valid example_flags → Forall (Forall (λ s, valid_utf8 s = true)) rows → parse out = Some (JArr ms)).
Proof.
  destruct (generate_sabakan_machines example_flags ["machines.csv"] table_host) as [w' r] eqn:E.
  assert (r = Ok tt) as -> by (change r with (w', r).2; rewrite <-E; vm_compute; reflexivity).
  destruct (machines_readable example_flags "machines.csv" table_host w' E) as (w1 & text & rows & ms & out & H1 & H2 & H3 & H4 & H5).
  exists w', w1, text, rows, ms, out. split; [reflexivity|]. split; [exact H1|]. split; [exact H2|]. split; [exact H3|]. split; [exact H4|exact H5].
Defined.

(** 1825 days are not five years. *)
Example five_years_short :
  parse_support_date "2020/2/3" = Some (days_of_civil 2020 2 3 * 86400 * Second) ∧
  Format_RFC3339 (Add (days_of_civil 2020 2 3 * 86400 * Second) five_years) = "2025-02-01T00:00:00Z".
Proof. split; vm_compute; reflexivity. Qed.
(** A table with fewer columns: the row is indexed out of range. *)
Example short_table_panics :
  machines_json example_flags ("a,b" +:+ newline +:+ "c,d" +:+ newline) = Panic "index out of range".
Proof. vm_compute. reflexivity. Qed.
End Witness.
