(* ===== verification/MainsProofs.v ===== *)
(** * What the programs do at their borders

    The machines that sabakan-state-setter sees are those that sabakan's answer holds;
    placemat-menu reads whole documents up to 16 MiB; neco-worker replaces
    /etc/resolv.conf as a whole, and does not get further without a proxy setting. *)
From S2P Require Import Prelude GoStr GoTime Json Types Etcd Worlds Storage Watch Worker Rebooter Updater StateSetter.
From S2P Require Import GoNet Host Progs Operator BootIP Menu MenuSpec MenuConf GoURL Ext Upload CKEUpload Vault Setup.
From S2P Require Import NecoCmd NecoInit Leader NecoReboot Installer Generator Mains InstallerProofs.

Local Open Scope Z_scope.

(** ** Documents of a menu *)

(** What the framer's documentation promises: a document, or the rest of one, is put into
    the buffer if it fits; otherwise the buffer is filled, and the rest comes next. *)
Class FramerLaws (W : Type) `{Framer W} := {
  unread : W → string → Prop;
  frame_law n w d : unread w d → 0 ≤ n → 
    if Z.of_nat (String.length d) <=? n then ∃ w', frame_Read n w = (w', Ok (d, FrameDone))
    else ∃ w' text rest, frame_Read n w = (w', Ok (text, FrameShort)) ∧
           d = text +:+ rest ∧ Z.of_nat (String.length text) = n ∧ unread w' rest;
}.

Section documents.
Context {W : Type} `{FramerLaws W}.

(** One round: the document is done, or the buffer is full and more is to come. *)
Lemma read_doc_loop_round k cap buf d w :
  Z.of_nat (String.length buf) < cap → unread w d →
  (Z.of_nat (String.length (buf +:+ d)) ≤ cap ∧ ∃ w', read_doc_loop (S k) cap buf w = (w', Ok (buf +:+ d))) ∨
  (cap < Z.of_nat (String.length (buf +:+ d)) ∧ ∃ w1 text rest, buf +:+ d = (buf +:+ text) +:+ rest ∧
     Z.of_nat (String.length (buf +:+ text)) = cap ∧ unread w1 rest ∧
     read_doc_loop (S k) cap buf w =
       if cap <? maxBytes then read_doc_loop k (2 * cap) (buf +:+ text) w1
       else (w1, Err (ErrMsg "yaml document is too large"))).
Proof.
  intros Hbuf Hd. pose proof (frame_law (cap - Z.of_nat (String.length buf)) w d Hd ltac:(lia)) as Hr.
  cbn [read_doc_loop]. unfold mbind, M_bind. rewrite string_app_length, Nat2Z.inj_add.
  destruct (Z.leb_spec (Z.of_nat (String.length d)) (cap - Z.of_nat (String.length buf))) as [Hle|Hgt].
  - left. split; [lia|]. destruct Hr as [w' ->]. by exists w'.
  - right. split; [lia|]. destruct Hr as (w1 & text & rest & -> & -> & Hlen & Hu).
    exists w1, text, rest. rewrite <- string_app_assoc, !string_app_length, Nat2Z.inj_add. split_and!; [done|lia|done|].
    rewrite bool_decide_eq_false_2 by (intros ->; simpl in Hlen; lia). by destruct (cap <? maxBytes).
Qed.
Lemma read_doc_loop_whole k cap buf d w :
  cap * 2 ^ Z.of_nat k = maxBytes → Z.of_nat (String.length buf) < cap → unread w d →
  if Z.of_nat (String.length (buf +:+ d)) <=? maxBytes
  then ∃ w', read_doc_loop (S k) cap buf w = (w', Ok (buf +:+ d))
  else ∃ w' text rest, read_doc_loop (S k) cap buf w = (w', Err (ErrMsg "yaml document is too large")) ∧
         buf +:+ d = text +:+ rest ∧ Z.of_nat (String.length text) = maxBytes ∧ unread w' rest.
Proof.
  revert cap buf d w. induction k as [|k IH]; intros cap buf d w Hcap Hbuf Hd;
    [set (j := O)|set (j := S k)];
    destruct (read_doc_loop_round j cap buf d w Hbuf Hd) as [[Hle Hr]|(Hgt & w1 & text & rest & Ed & Hlen & Hu & Hr)].
  - rewrite (proj2 (Z.leb_le _ _)) by lia. done.
  - rewrite (proj2 (Z.leb_gt _ _)) by lia. rewrite Hr, (proj2 (Z.ltb_ge _ _)) by lia.
    exists w1, (buf +:+ text), rest. split_and!; [done|done|lia|done].
  - rewrite (proj2 (Z.leb_le _ _)); [done|]. pose proof (Z.pow_pos_nonneg 2 (Z.of_nat (S k)) ltac:(lia) ltac:(lia)). nia.
  - rewrite Nat2Z.inj_succ, Z.pow_succ_r in Hcap by lia. pose proof (Z.pow_pos_nonneg 2 (Z.of_nat k) ltac:(lia) ltac:(lia)).
    rewrite (proj2 (Z.ltb_lt _ _)) in Hr by nia. rewrite Ed, Hr. apply IH; [nia|lia|done].
Qed.

End documents.

(** ** [/etc/resolv.conf] *)

(** Renaming puts the old file in the place of the new name at once; asking systemd and
    sync write no files. *)
Class RenameLaws (W : Type) `{FilesLaws W} `{Commands W} := {
  Rename_law a b w w' r : os_Rename a b w = (w', r) →
    match r with
    | Ok _ => ∃ data, files w !! a = Some data ∧ files w' = <[b := data]> (delete a (files w))
    | Err _ => files w' = files w
    | _ => False
    end;
  is_active_law name w w' r : cmd_Output ["systemctl"; "is-active"; name] w = (w', r) → files w' = files w;
  sync_law w w' r : cmd_Run ["sync"] w = (w', r) → files w' = files w;
}.

Section dns.
Context {W : Type} `{RenameLaws W}.
Implicit Types w : W.

(** Only [name] is changed. *)
Definition touches (names : list string) w w' : Prop := ∀ n, n ∉ names → files w' !! n = files w !! n.
Lemma touches_insert name data w w' : files w' = <[name := data]> (files w) → touches [name] w w'.
Proof. intros E n Hn. rewrite E, lookup_insert_ne; [done|]. set_solver. Qed.
Lemma touches_trans names w w1 w2 : touches names w w1 → touches names w1 w2 → touches names w w2.
Proof. intros Ha Hb n Hn. by rewrite Hb, Ha. Qed.
Lemma touches_eq names w w' : files w' = files w → touches names w w'.
Proof. by intros E n _; rewrite E. Qed.

Lemma os_WriteFile_touches name data mode w w' r : os_WriteFile name data mode w = (w', r) → touches [name] w w'.
Proof.
  unfold os_WriteFile, mbind, M_bind, attempt. destruct (os_OpenTrunc name mode w) as [w1 r1] eqn:Eo.
  apply OpenTrunc_law in Eo. destruct r1 as [[]|e| |]; [|intros [= <- <-]; by apply touches_eq|done|done].
  apply touches_insert in Eo as Ht. destruct (file_Write name data w1) as [w2 r2] eqn:Ew.
  eapply Write_law in Ew; [|rewrite Eo; apply lookup_insert_eq]. intros E.
  assert (touches [name] w1 w2) as Ht2
    by (destruct r2 as [[]|e| |]; [by apply touches_insert in Ew|destruct Ew as [? Ew]; by apply touches_insert in Ew|done|done]).
  apply (touches_trans _ w w1); [done|]. apply (touches_trans _ w1 w2); [done|]. apply touches_eq.
  destruct r2 as [[]|e| |]; try done; destruct (file_Close name w2) as [w3 r3] eqn:Ec; apply Close_law in Ec as [<- ?];
    destruct r3; try done; by injection E as <- <-.
Qed.
Lemma IsActiveService_files name w w' r : IsActiveService name w = (w', r) → files w' = files w.
Proof.
  unfold IsActiveService, mbind, M_bind. destruct (cmd_Output _ w) as [w1 r1] eqn:E. apply is_active_law in E.
  destruct r1 as [[out [e|]]|e| |]; try (by intros [= <- <-]). by case_bool_decide; intros [= <- <-].
Qed.
Lemma wrapping_world {A} msg (m : M W A) w w' r : wrapping msg m w = (w', r) →
  ∃ r', m w = (w', r') ∧ r = match r' with Err e => Err (ErrWrap msg e) | o => o end.
Proof. unfold wrapping, mbind, M_bind, attempt. destruct (m w) as [w1 [| | |]]; intros [= <- <-]; eauto. Qed.

Definition resolvtmp := resolvconf +:+ ".tmp".
(** Writing the temporary file, and putting it in the place of the old one. *)
Lemma write_tmp msg w w' r : wrapping msg (os_WriteFile resolvtmp resolv_contents mode_644) w = (w', r) →
  touches [resolvtmp] w w' ∧ ∀ u, r = Ok u → files w' !! resolvtmp = Some resolv_contents.
Proof.
  intros (r' & E & ->)%wrapping_world. split; [by eapply os_WriteFile_touches|]. intros u Hr. destruct r' as [u'|e| |]; try done.
  apply os_WriteFile_ok in E. by rewrite E, lookup_insert_eq.
Qed.
Lemma rename_tmp msg w w' r : files w !! resolvtmp = Some resolv_contents →
  wrapping msg (os_Rename resolvtmp resolvconf) w = (w', r) →
  match r with Ok _ => files w' = <[resolvconf := resolv_contents]> (delete resolvtmp (files w)) | _ => files w' = files w end.
Proof.
  intros Hf (r' & E & ->)%wrapping_world. apply Rename_law in E. destruct r' as [u|e| |]; try done.
  destruct E as (data & Hd & ->). by simplify_eq.
Qed.
Lemma replace_resolv w w' r :
  (_ ← wrapping "failed to create /etc/resolv.conf.tmp" (os_WriteFile resolvtmp resolv_contents mode_644);
   _ ← wrapping "failed to replace /etc/resolv.conf" (os_Rename resolvtmp resolvconf);
   cmd_Run ["sync"]) w = (w', r) →
  touches [resolvconf; resolvtmp] w w' ∧
  (files w' !! resolvconf = Some resolv_contents ∨
   files w' !! resolvconf = files w !! resolvconf ∧ ∀ u, r ≠ Ok u).
Proof.
  unfold mbind, M_bind. destruct (wrapping _ (os_WriteFile _ _ _) w) as [w1 r1] eqn:E1.
  apply write_tmp in E1 as [Ht Hf]. assert (touches [resolvconf; resolvtmp] w w1) as Ht1 by (intros n Hn; apply Ht; set_solver).
  assert (files w1 !! resolvconf = files w !! resolvconf) as Hr1 by (apply Ht; by rewrite list_elem_of_singleton).
  destruct r1 as [[]|e| |]; try (intros [= <- <-]; by auto). specialize (Hf () eq_refl).
  destruct (wrapping _ (os_Rename _ _) w1) as [w2 r2] eqn:E2. apply rename_tmp in E2; [|done].
  destruct r2 as [[]|e| |].
  { intros E3%sync_law. unfold touches. rewrite E3, E2, lookup_insert_eq. split; [|by left]. intros n Hn.
    rewrite lookup_insert_ne, lookup_delete_ne by set_solver. by apply Ht1. }
  all: intros [= <- <-]; unfold touches; rewrite E2; by auto.
Qed.

(** However configureSystemDNS ends, /etc/resolv.conf is as it was or has the new contents
    as a whole, and no file but it and its temporary file has changed; if it returns without
    error, the new contents are in place. *)
Theorem configureSystemDNS_atomic w w' r :
  configureSystemDNS w = (w', r) →
  touches [resolvconf; resolvtmp] w w' ∧
  (files w' !! resolvconf = Some resolv_contents ∨
   files w' !! resolvconf = files w !! resolvconf ∧ ∀ u, r ≠ Ok u).
Proof.
  unfold configureSystemDNS. unfold mbind at 1, M_bind at 1, attempt.
  destruct (IsActiveService "systemd-resolved" w) as [w1 r1] eqn:E. apply IsActiveService_files in E.
  assert (∀ w2, touches [resolvconf; resolvtmp] w1 w2 → touches [resolvconf; resolvtmp] w w2) as Ht
    by (intros w2; unfold touches; by rewrite E).
  rewrite <- E. destruct r1 as [[]|e| |].
  1, 4, 5: intros [= <- <-]; split; [by apply Ht|by right].
  all: intros Hr%replace_resolv; destruct Hr; auto.
Qed.
End dns.

(** ** A worker without a proxy setting *)

(** neco-worker takes a missing proxy setting for none, as ProxyHTTPClient does, but
    NewOperator reads it once more and gives up: without the setting no worker starts. *)
Lemma NewOperator_needs_proxy {W : Type} `{Etcd W} `{Files W} mylrn (w w' : W) op :
  (∀ v : W, ∃ v', GetProxyConfig v = (v', Err ErrNotFound)) → NewOperator mylrn w ≠ (w', Ok op).
Proof. intros Hp E. unfold NewOperator in E. minv. repeat match goal with H : GetProxyConfig ?v = _ |- _ => destruct (Hp v); congruence end. Qed.

(** ** What sabakan answers *)
Definition label_wire (l : label) : json := JObj [("name", JStr (lb_Name l)); ("value", JStr (lb_Value l))].
Definition machine_wire (m : searchMachine) : json :=
  JObj [("spec", JObj [("serial", JStr (sm_Serial m)); ("labels", JArr (map label_wire (sm_Labels m)));
                       ("ipv4", JArr (map JStr (sm_IPv4 m)))]);
        ("status", JObj [("state", JStr (sm_State m))])].
Definition answer_wire (ms : list searchMachine) : json :=
  JObj [("data", JObj [("searchMachines", JArr (map machine_wire ms))])].
(** The texts are valid UTF-8. *)
Definition text_ok (m : searchMachine) : Prop :=
  valid_utf8 (sm_Serial m) = true ∧ valid_utf8 (sm_State m) = true ∧
  Forall (λ l, valid_utf8 (lb_Name l) = true ∧ valid_utf8 (lb_Value l) = true) (sm_Labels m) ∧
  Forall (λ s, valid_utf8 s = true) (sm_IPv4 m).

Lemma wf_map {A} (f : A → json) (P : A → Prop) l : (∀ x, P x → wf_json (f x)) → Forall P l → wf_json (JArr (map f l)).
Proof. intros Hf Hl. induction Hl as [|x l Hx Hl IH]; [done|]. split; [by apply Hf|done]. Qed.
Lemma outcomes_map {A B} (f : A → B) (g : B → outcome A) l : (∀ x, g (f x) = Ok x) → outcomes g (map f l) = Ok l.
Proof. intros Hg. induction l as [|x l IH]; [done|]. simpl. rewrite Hg. simpl. by rewrite IH. Qed.

Lemma machine_wire_wf m : text_ok m → wf_json (machine_wire m).
Proof.
  intros (Hs & Ht & Hl & Hi). simpl. split_and!; try done.
  - apply (wf_map label_wire _ _) with (2 := Hl). intros l [? ?]. by split_and!.
  - by apply (wf_map JStr _ _) with (2 := Hi).
Qed.
Lemma answer_wire_wf ms : Forall text_ok ms → wf_json (answer_wire ms).
Proof. intros Hm. simpl. split_and!; try done. by apply (wf_map machine_wire text_ok); [apply machine_wire_wf|]. Qed.
Lemma decode_label_wire l : decode_label (label_wire l) = Ok l.
Proof. by destruct l. Qed.
Lemma decode_machine_wire m : decode_machine (machine_wire m) = Ok m.
Proof.
  destruct m as [serial labels ipv4 state]. unfold decode_machine, machine_wire, decode_struct, decode_spec, decode_state. simpl.
  change (decode_list _ (JArr (map label_wire labels))) with (outcomes decode_label (map label_wire labels)).
  rewrite (outcomes_map label_wire) by apply decode_label_wire. simpl.
  change (decode_list _ (JArr (map JStr ipv4))) with (outcomes (decode_string "") (map JStr ipv4)).
  by rewrite (outcomes_map JStr).
Qed.
Lemma parse_value_print j : wf_json j → parse_value (S (String.length (print j ""))) (print j "") = Some (j, "").
Proof. intros Hj. pose proof (print_length j "" Hj). apply parses_all; [done|simpl in *; lia|done]. Qed.

Section answers.
Context `{MachineStates} {W : Type} `{SabakanGQL W}.
Variable gqlEndpoint : string.
Local Instance wrapper : SabakanServer W := sabacWrapper gqlEndpoint.

Lemma requestGQL_answer greq j (w w' : W) : wf_json j →
  gql_Post gqlEndpoint (print (request_json greq) "") w = (w', Ok (print j "")) →
  requestGQL gqlEndpoint greq w =
    match decode_response j with
    | Ok gresp => (w', match gr_Errors gresp with e :: _ => Err e | [] => Ok (gr_Data gresp) end)
    | Err e => (w', Err e)
    | Panic p => (w', Panic p)
    | Running => (w', Running)
    end.
Proof.
  intros Hj E. unfold requestGQL, mbind, M_bind. rewrite E, parse_value_print by done. unfold lift.
  destruct (decode_response j) as [r| | |]; try done. by destruct (gr_Errors r).
Qed.

(** C37: the machines that sabakan-state-setter works on are those of sabakan's answer: it asks
    for all machines, and when the answer describes [ms] it gets each of them with its
    serial, its machine-type label, its first address and its state, in that order. *)
Theorem GetAllMachines_wire ms (w w' : W) :
  Forall text_ok ms → Forall (λ m, sm_IPv4 m ≠ []) ms →
  gql_Post gqlEndpoint (print (request_json {| gq_Query := search_query; gq_Having := None |}) "") w
    = (w', Ok (print (answer_wire ms) "")) →
  GetAllMachines w =
    (w', Ok (map (λ m, {| m_Serial := sm_Serial m; m_Type := findLabelValue (sm_Labels m) "machine-type";
                          m_IPv4Addr := default "" (head (sm_IPv4 m)); m_State := toMachineState (sm_State m) |}) ms)).
Proof.
  intros Ht Hi E. unfold GetAllMachines, getMachines. simpl. unfold mbind, M_bind.
  rewrite (requestGQL_answer _ (answer_wire ms) w w') by (by apply answer_wire_wf || done). simpl.
  change (decode_list _ (JArr (map machine_wire ms))) with (outcomes decode_machine (map machine_wire ms)).
  rewrite (outcomes_map machine_wire) by apply decode_machine_wire. unfold lift. f_equal.
  clear Ht E. induction Hi as [|m ms Hm Hi IH]; [done|]. simpl. rewrite IH. by destruct (sm_IPv4 m).
Qed.
End answers.

(** ** Witnesses *)
Module Witness.

(** A text that is read as one document. *)
#[local] Instance text_framer : Framer string := {
  frame_Open _ := mret ();
  frame_Read n d :=
    if Z.of_nat (String.length d) <=? n then ("", Ok (d, FrameDone))
    else (str_drop (Z.to_nat n) d, Ok (str_take (Z.to_nat n) d, FrameShort));
}.
Lemma take_drop n s : (n ≤ String.length s)%nat → s = str_take n s +:+ str_drop n s ∧ String.length (str_take n s) = n.
Proof.
  unfold str_take, str_drop. revert n. induction s as [|c s IH]; intros [|n] Hn; simpl in *; try done; try lia.
  destruct (IH n ltac:(lia)) as [E1 E2]. rewrite string_app_cons, <-E1, E2. done.
Qed.
#[local] Program Instance text_framer_laws : FramerLaws string := { unread w d := w = d }.
Next Obligation.
  intros n w d -> Hn. simpl. destruct (Z.leb_spec (Z.of_nat (String.length d)) n); [by eexists|].
  destruct (take_drop (Z.to_nat n) d) as [E1 E2]; [lia|]. do 3 eexists. split_and!; [done|done|lia|done].
Qed.
Definition long_doc : string := Nat.iter 1500 (String "#"%char) "kind: Inventory".

(** A disk. *)
Abbreviation Disk := (gmap string string).
#[local] Instance disk_files : Files Disk := {
  os_Stat n d := (d, match d !! n with Some _ => Ok () | None => Err (ErrNotExist "no such file") end);
  os_ReadFile n d := (d, match d !! n with Some t => Ok t | None => Err (ErrNotExist "no such file") end);
  os_OpenTrunc n _ d := (<[n := ""]> d, Ok ());
  file_Write n t d := (<[n := default "" (d !! n) +:+ t]> d, Ok ());
  file_Sync _ := mret ();
  file_Close _ := mret ();
  os_MkdirAll _ _ := mret ();
  os_Remove n d := (delete n d, Ok ());
  os_Rename a b d := match d !! a with Some t => (<[b := t]> (delete a d), Ok ()) | None => (d, Err (ErrNotExist "no such file")) end;
  os_Chown _ _ _ := mret ();
  os_CreateTemp p := mret (p +:+ "1");
}.
#[local] Program Instance disk_laws : FilesLaws Disk := { files d := d }.
Next Obligation. intros n d d' r [= <- <-]. split; [done|]. by destruct (d !! n). Qed.
Next Obligation. by intros n m d d' r [= <- <-]. Qed.
Next Obligation. intros n t d d' r [= <- <-] old Hold. simpl. by rewrite Hold. Qed.
Next Obligation. by intros n d d' r [= <- <-]. Qed.
Next Obligation. by intros n d d' r [= <- <-]. Qed.
#[local] Instance disk_commands : Commands Disk := {
  cmd_Run _ := mret ();
  cmd_Output argv := mret ("inactive", Some (ErrMsg "exit status 3"));
  cmd_RunInput _ _ := mret ();
}.
#[local] Instance disk_rename : RenameLaws Disk.
Proof.
  split; [|by intros name d d' r [= <- <-]|by intros d d' r [= <- <-]].
  intros a b d d' r. simpl. destruct (d !! a) as [t|] eqn:E; intros [= <- <-]; eauto.
Qed.
Definition old_disk : Disk := {["/etc/resolv.conf" := "nameserver 10.0.0.1"; "/etc/neco/rack" := "0"]}.
Lemma configureSystemDNS_atomic_witness :
  configureSystemDNS old_disk = (<["/etc/resolv.conf" := resolv_contents]> old_disk, Ok tt) ∧
  touches [resolvconf; resolvtmp] old_disk (configureSystemDNS old_disk).1.
Proof.
  split; [vm_compute; reflexivity|].
  apply (configureSystemDNS_atomic old_disk _ (configureSystemDNS old_disk).2). vm_compute. reflexivity.
Defined.

(** A sabakan with one machine. *)
#[local] Instance sabakan_states : MachineStates := {
  StateUninitialized := "uninitialized"; StateHealthy := "healthy"; StateUnhealthy := "unhealthy";
  StateUnreachable := "unreachable"; StateUpdating := "updating"; StateRetiring := "retiring";
  StateRetired := "retired";
  MachineState_IsValid s := true;
}.
Definition hw1 : searchMachine :=
  {| sm_Serial := "abc123"; sm_Labels := [{| lb_Name := "machine-type"; lb_Value := "r640-boot-1" |}];
     sm_IPv4 := ["10.69.0.3"]; sm_State := "HEALTHY" |}.
#[local] Instance one_machine : SabakanGQL unit := {
  gql_Post _ _ := mret (print (answer_wire [hw1]) "");
  MachineParams_json states := JObj [("states", JArr (map JStr states))];
  GQLEnum s := s;
  gqlerror_decode j := Ok (ErrMsg (print j ""));
  tls_CryptsDelete _ := mret ();
  sabac_NewClient _ := Ok ();
  url_JoinPath a p := a +:+ p;
}.
Lemma GetAllMachines_wire_witness :
  GetAllMachines (H0 := sabacWrapper "http://localhost:10080/graphql") tt =
    (tt, Ok [{| m_Serial := "abc123"; m_Type := "r640-boot-1"; m_IPv4Addr := "10.69.0.3"; m_State := "healthy" |}]).
Proof.
  refine (eq_trans (GetAllMachines_wire "http://localhost:10080/graphql" [hw1] tt tt _ _ _) _).
  - constructor; [|constructor]. split_and!; [vm_compute; reflexivity|vm_compute; reflexivity| |];
      (constructor; [|constructor]); [split|]; vm_compute; reflexivity.
  - constructor; [discriminate|constructor].
  - reflexivity.
  - reflexivity.
Defined.

(** The images of a release are saved under names of their own. *)
Example artifact_tars_distinct : NoDup (map ds_TarName (map artifact_spec (as_Images CurrentArtifacts))).
Proof. apply (bool_decide_unpack _). vm_compute. exact I. Qed.
Example remove_ex : RemoveAll "data:," "data:,a%20data:,b" = "a%20b".
Proof. reflexivity. Qed.
End Witness.
